(* ===== verification/_CoqProject ===== *)
-Q . S2P
Prelude.v
Dll.v
Pool.v
HashTable.v
Buffer.v
Actions.v
CString.v
WordCopy.v
Net.v
Atof.v
Config.v
Stats.v
StatsTx.v
StatsReport.v
World.v
MemFs.v
Tx.v
Sentinel.v
Views.v
Locks.v
Protocol.v
Koa.v
XFile.v
XDir.v
XPipe.v
XSock.v
XThread.v
System.v
Modes.v
Frames.v
Undo.v
Deferred.v
Threads.v
Pipes.v
PipesCut.v
KoaFrames.v
Outside.v
Isolation.v
Atomic.v
Names.v
Registry.v
Condvar.v
Boot.v
Teardown.v
