(* ===== verification/Prelude.v ===== *)
(** * xCalls: a verification development

    xCalls ([src/src]) is a C library that gives programs on a transactional memory
    (Intel STM) versions of the system calls that can be used inside a transaction:
    a call is isolated by a revocable lock, a sentinel, on the kernel object it
    touches, and is either made at once with a compensating action that an abort
    runs, or deferred to an action that the commit runs. This library models the
    program in Rocq, file by file, and proves what makes it correct.

    ** The program and the files that model it

    - [misc/pool.c], [misc/hash_table.c], [core/buffer.c]: [Pool], [HashTable],
      [Buffer]. Fixed pools of objects on free and allocated lists, the bucket
      hash table, and the linear and circular buffers. [Dll] has the lemmas on
      doubly linked lists that the first two share.
    - [core/tx.c], [core/fm.c], [tm/itm.h], [core/txdesc.h]: [Actions] has the two
      action lists of a transaction and the passes that run them; [Tx] the
      descriptors, the registration of actions, the failure manager and the
      wrappers of the TM library, as built without statistics ([stats=no]); [StatsTx]
      has the hooks of the build with them.
    - [core/sentinel.c]: [Sentinel].
    - [core/koa.c]: [Koa], the kernel object abstractions, the descriptor map and
      the alias cache.
    - [xcalls/*.c]: [XFile] (read, write, lseek, fsync, fdatasync), [XDir] (open,
      create, unlink, rename, close, dup), [XPipe] (pipe, read_pipe, write_pipe,
      printf), [XSock] (socket, sendmsg, recvmsg) and [XThread] (pthread_create and
      the mutexes), each call with its undo and commit actions.
    - [core/interface.c], [inc/txc/txc.h], and the generic actions of [core/tx.c]:
      [System], which ties the knot: [run_action] runs a registered action, and
      [xact_begin], [xact_commit] and [xact_rollback] are what a transaction's
      begin, commit and abort do. [Boot] has the start of the library, which creates
      the managers and the descriptors of the threads.
    - [xcalls/condvar]: [Condvar], the events and the macros that wait for them.
    - [core/config.c]: [Config]. [core/stats.c]: [Stats], the counts; [StatsTx], the
      actions that a transaction registers for them; [StatsReport], the report, which is
      a list of printed pieces, and [_TXC_global_shutdown]. Each has a state of its own.
    - [libc/string.c] and [atoi] of [libc/stdlib.c]: [CString], over a memory of bytes.
      Over the same memory, [libc/wordcopy.c] and [libc/memcopy.h]: [WordCopy];
      [libc/net.c]: [Net]; [atof] of [libc/stdlib.c]: [Atof], on the IEEE 754 numbers of
      the Standard Library.
    - The destroy functions of all of them: [Teardown], over the set of allocated blocks.

    A C function is a function of the outcome monad below ([M]): from a state it
    returns, aborts the transaction, exits, waits for a held mutex, or is
    undefined. The components below [Tx] have states of their own (a pool, a
    table, a buffer manager); from [World] on the state is [world], one record with
    the managers and their objects by address, and the lower components run
    inside it with [m_zoom]. A definition has its function's name; [run_f] is the
    undo or commit action [f], and a suffix ([_tx], [_nontx], ...) names a branch
    of a function too long for one definition.

    [World] also states the platform: [Platform] is a class with the state of the
    kernel and its system calls, the sizes of the C types, and the values that
    automatic variables have before they are assigned. Theorems are about every
    platform, and where they need to know what a call does they say so with a class
    of laws ([RegularFile] in [Undo], [PthreadMutexes] in [Threads], [NameSpace] in
    [Names], [FutexLaws] in [Condvar]). [MemFs] is a platform that runs, on which the
    witnesses are computed; its [/tmp] is a file system of its own.

    ** The theorems

    - Transactions ([Undo], [Deferred], [Threads], [Pipes], [Names], over the frames of
      [Frames] and [KoaFrames]): an abort leaves the file that the transaction read,
      sought and wrote as it was, and the names that it created, opened, renamed and
      unlinked; the deferred calls reach the kernel at commit, once each and in
      order, and never after an abort; what an aborted transaction read from a pipe
      is read again, and what a committed one read is gone, as long as no read wants more
      than is queued, which cuts the pipe off ([PipesCut]); mutexes are given back by
      an abort and released by a commit; a thread made in a transaction runs iff it
      commits. The names are restored where the files in the way could be moved to [/tmp].
    - The registry of KOAs ([Registry]): an abstract map of the live KOAs, the
      operations of [core/koa.c] as its steps, one KOA for each open file, and the
      calls that take references as sequences of those steps.
    - The start ([Boot]): what [_TXC_global_init] and [_TXC_thread_init] leave is where
      the theorems on isolation and on the registry start from. Neither is idempotent, as
      [core/mainpage.h] says they are.
    - Isolation ([Locks], [Protocol], over the views of [Views]): the operations of
      the sentinel manager, interleaved in any order by any transactions, keep
      every sentinel with one owner; the transactions that wait never wait in a
      circle, and one of them can always go on, also with transactions that wait for
      memory, where the TM library gives up a transaction's isolation before its undo
      actions run. The comment in [sentinelmgr_transaction_before_retry] (core/sentinel.c)
      suspects that Intel's Prototype 3.0 does not, which [core/mainpage.h] asks for, and
      reports the deadlock that [isolation_held_deadlocks] runs into. [Isolation] carries this over to the
      calls on descriptors: each is a sequence of those operations, works on an object
      only while its transaction holds the object's sentinel, and aborts, with the kernel
      as it was, while another one does. [Atomic] puts it together for a file: a block of
      calls, through any number of attempts with other threads in between, leaves the
      file as its last attempt made it, or as that attempt found it.
    - Condition variables ([Condvar]): a signal that a sleeping thread could have missed
      has released some thread, where the TM library stores in place and the clients keep
      signals outside transactions apart from each other and from those inside, and how it
      is lost otherwise; the macros, with their jumps between labels, cut a block at its waits.
    - Action lists ([Actions]): the order of undo and commit actions, the growth of
      the lists and its failure, the action that is never run.
    - Data structures ([Pool], [HashTable], [Buffer]): refinement of a free stack
      and of a finite map, iteration, what a client is promised, bounds.
    - [Outside], [Modes]: outside a transaction programs of calls are programs of system
      calls; unknown descriptors.
    - [Config]: the range of the settings, printing and reading back, termination,
      precedence, the fatal empty line.
    - [Stats], [StatsTx], [StatsReport]: what a thread collects, through any number of
      transactions and aborted attempts; what the report prints of it; the report's
      minima; the unterminated list.
    - [CString]: the unrolled and word-at-a-time loops against loops over one
      character; the order of [strcmp]; the range of [atoi]. [WordCopy]: the unrolled
      copies of words, entered in the middle of the loop, move a block as [memmove]
      does. [Net]: what [inet_aton] reads, for any number of digits, and that it reads
      back what [inet_ntop] printed. [Atof]: the numbers that are read without rounding,
      and those that are taken for zero.
    - [Teardown]: every block of a hash table is freed once; what [txc_txmgr_destroy]
      frees and what it leaves.

    ** Bounds and fuel

    [unsigned int] and [size_t] are 32 bits and wrap ([u32]); where [int] matters
    its overflow is undefined. Loops whose end depends on the data take fuel, and a
    run out of it is [NoFuel]; for every such loop that a theorem runs the fuel is
    shown to be enough: the passes over the actions need one round per order, the
    list walks one step per node of a well-formed list, the configuration file one
    round per character, the string loops one step per character. A transaction
    is bounded to fewer than 2^28 actions, so that the size of its lists, which
    doubles, stays an [int].

    ** Not modelled

    The [#error] directive in [sentinelmgr_transaction_before_retry], which stops every
    compiler: the model is the function without it. The TM library, the kernel and POSIX
    threads, which are parameters; the futex
    system calls, whose inline assembly ([xcalls/condvar/lowlevellock.h]) is the GNU C
    library's. The debug build, with its assertions, warnings and printers
    ([misc/debug.c]), which only write; [libc/syscalls.h], whose functions are calls of the
    C library's of the same name; [libc/pagecopy.h], which nothing uses. A
    transaction's own memory is not modelled: the TM library rolls it back, and
    the library's own code is compiled outside its reach ([TM_WAIVER]). *)

From Stdlib Require Export ZArith Lia.
From stdpp Require Export functions.
From stdpp Require Export base tactics numbers list gmap strings sorting.

#[global] Open Scope Z_scope.

(** ** Machine integers *)

(** [unsigned int] is 32 bits wide on the platform the library targets
    (IA-32, Intel STM); arithmetic on it wraps around. *)
Definition u32 (z : Z) : Z := z mod 2 ^ 32.

(** Reading an [unsigned int] bit pattern back as [int] (two's complement). *)
Definition s32 (z : Z) : Z :=
  if bool_decide (u32 z < 2 ^ 31) then u32 z else u32 z - 2 ^ 32.

Lemma u32_range z : 0 <= u32 z < 2 ^ 32.
Proof. unfold u32. apply Z.mod_pos_bound. lia. Qed.

Lemma u32_small z : 0 <= z < 2 ^ 32 -> u32 z = z.
Proof. intros. unfold u32. by rewrite Z.mod_small. Qed.

Lemma u32_idem z : u32 (u32 z) = u32 z.
Proof. apply u32_small, u32_range. Qed.

Lemma s32_small z : 0 <= z < 2 ^ 31 -> s32 z = z.
Proof.
  intros. unfold s32. rewrite u32_small by lia. by rewrite bool_decide_eq_true_2 by lia.
Qed.

(** ** Result codes of [misc/result.h] *)

Definition TXC_R_SUCCESS : Z := 0.
Definition TXC_R_NOMEMORY : Z := 1.
Definition TXC_R_EXISTS : Z := 18.
Definition TXC_R_FAILURE : Z := 25.
Definition TXC_R_INVALIDFILE : Z := 28.
Definition TXC_R_NOTINITLOCK : Z := 48.
Definition TXC_R_BUSYSENTINEL : Z := 49.
Definition TXC_R_NOTEXISTS : Z := 50.
Definition TXC_R_NULLITER : Z := 51.

(** ** Enumerations of [core/tx.h] *)

(** Why a transaction was aborted ([txc_tx_abortreason_t]). *)
Inductive txc_tx_abortreason_t :=
  | TXC_ABORTREASON_TMCONFLICT
  | TXC_ABORTREASON_USERABORT
  | TXC_ABORTREASON_USERRETRY
  | TXC_ABORTREASON_BUSYSENTINEL
  | TXC_ABORTREASON_INCONSISTENCY
  | TXC_ABORTREASON_BUSYTXLOCK.

#[export] Instance abortreason_eq_dec : EqDecision txc_tx_abortreason_t.
Proof. solve_decision. Defined.

(** Execution mode of a thread ([txc_tx_xactstate_t]). *)
Inductive txc_tx_xactstate_t :=
  | TXC_XACTSTATE_NONTRANSACTIONAL
  | TXC_XACTSTATE_TRANSACTIONAL_RETRYABLE
  | TXC_XACTSTATE_TRANSACTIONAL_IRREVOCABLE.

#[export] Instance xactstate_eq_dec : EqDecision txc_tx_xactstate_t.
Proof. solve_decision. Defined.

(** ** The outcome monad

    A C function is a state transformer whose run ends in one of:
    - [Ret a s]: it returns [a] in state [s];
    - [Abort r s]: it called [_ITM_abortTransaction], which does not return;
    - [Exit s]: it called [TXC_INTERNALERROR], which ends in [exit(1)];
    - [Block]: it waits for a mutex that is held, so the thread cannot go on;
    - [Undef]: the C code has undefined behaviour (a null dereference, an
      access out of an array's bounds, an integer division by zero);
    - [NoFuel]: the fuel given to a loop of the model ran out. *)
Inductive outcome (S A : Type) : Type :=
  | Ret (a : A) (s : S)
  | Abort (r : txc_tx_abortreason_t) (s : S)
  | Exit (s : S)
  | Block
  | Undef
  | NoFuel.
Arguments Ret {S A} a s.
Arguments Abort {S A} r s.
Arguments Exit {S A} s.
Arguments Block {S A}.
Arguments Undef {S A}.
Arguments NoFuel {S A}.

Definition M (S A : Type) : Type := S -> outcome S A.

Definition m_ret {S A} (a : A) : M S A := fun s => Ret a s.

Definition m_bind {S A B} (m : M S A) (f : A -> M S B) : M S B := fun s =>
  match m s with
  | Ret a s' => f a s'
  | Abort r s' => Abort r s'
  | Exit s' => Exit s'
  | Block => Block
  | Undef => Undef
  | NoFuel => NoFuel
  end.

Declare Scope m_scope.
Delimit Scope m_scope with M.
Notation "'do' x <- m ;; k" := (m_bind m (fun x => k))
  (at level 10, x binder, m at level 99, k at level 200) : m_scope.
Notation "'do' ' p <- m ;; k" := (m_bind m (fun x => match x with p => k end))
  (at level 10, p pattern, m at level 99, k at level 200) : m_scope.
Notation "m ;;; k" := (m_bind m (fun _ => k))
  (at level 199, k at level 200, right associativity) : m_scope.
#[global] Open Scope m_scope.

Definition m_get {S} : M S S := fun s => Ret s s.
Definition m_gets {S A} (f : S -> A) : M S A := fun s => Ret (f s) s.
Definition m_put {S} (s' : S) : M S unit := fun _ => Ret tt s'.
Definition m_modify {S} (f : S -> S) : M S unit := fun s => Ret tt (f s).
Definition m_abort {S A} (r : txc_tx_abortreason_t) : M S A := fun s => Abort r s.
Definition m_exit {S A} : M S A := fun s => Exit s.
Definition m_block {S A} : M S A := fun _ => Block.
Definition m_undef {S A} : M S A := fun _ => Undef.
Definition m_nofuel {S A} : M S A := fun _ => NoFuel.

(** [if (b) m;] *)
Definition m_when {S} (b : bool) (m : M S unit) : M S unit := if b then m else m_ret tt.

(** Dereference: a missing object is undefined behaviour. *)
Definition m_deref {S A} (o : option A) : M S A :=
  match o with Some a => m_ret a | None => m_undef end.

(** Run an operation of a component inside a larger state. *)
Definition m_zoom {S T A} (get : S -> T) (set : T -> S -> S) (m : M T A) : M S A := fun s =>
  match m (get s) with
  | Ret a t => Ret a (set t s)
  | Abort r t => Abort r (set t s)
  | Exit t => Exit (set t s)
  | Block => Block
  | Undef => Undef
  | NoFuel => NoFuel
  end.

(** A loop over a list of work items, in order. *)
Fixpoint m_iter {S A} (f : A -> M S unit) (l : list A) : M S unit :=
  match l with
  | [] => m_ret tt
  | x :: l' => f x ;;; m_iter f l'
  end.

(** A loop: [body] goes on with a new state of the loop, or ends it. *)
Fixpoint m_loop {S A B} (fuel : nat) (body : A -> M S (A + B)) (a : A) : M S B :=
  match fuel with
  | O => m_nofuel
  | Datatypes.S fuel' => do r <- body a ;; match r with inl a' => m_loop fuel' body a' | inr b => m_ret b end
  end.

Lemma m_bind_ext {S A B} (m1 m2 : M S A) (f1 f2 : A -> M S B) s :
  m1 s = m2 s -> (forall a s', f1 a s' = f2 a s') -> m_bind m1 f1 s = m_bind m2 f2 s.
Proof. intros Hm Hf. unfold m_bind. rewrite Hm. destruct (m2 s); auto. Qed.

Lemma m_loop_S {S A B} f (body : A -> M S (A + B)) a :
  m_loop (Datatypes.S f) body a = m_bind (body a) (fun r => match r with inl a' => m_loop f body a' | inr b => m_ret b end).
Proof. done. Qed.

Section monad_lemmas.
Context {S A B : Type}.

Lemma m_bind_ret_inv (m : M S A) (f : A -> M S B) s b s' :
  m_bind m f s = Ret b s' <-> exists a s1, m s = Ret a s1 /\ f a s1 = Ret b s'.
Proof.
  unfold m_bind. split.
  - destruct (m s); try done. eauto.
  - intros (a & s1 & -> & ?). done.
Qed.

Lemma m_bind_run (m : M S A) (f : A -> M S B) s a s1 :
  m s = Ret a s1 -> m_bind m f s = f a s1.
Proof. unfold m_bind. by intros ->. Qed.

Lemma m_iter_app (f : A -> M S unit) l1 l2 s :
  m_iter f (l1 ++ l2) s = (m_iter f l1 ;;; m_iter f l2) s.
Proof.
  revert s. induction l1 as [|x l1 IH]; intros s; simpl; [done|].
  unfold m_bind in *. destruct (f x s); [apply IH|done..].
Qed.
End monad_lemmas.

(** ** What an operation may change

    [m_pres R m]: whenever [m] returns or aborts the transaction, the states
    before and after are related by [R].  For a preorder this is compositional,
    and [m_pres_auto] goes through the code of an operation down to the
    operations the hint database knows. *)
Definition m_pres {S A} (R : S -> S -> Prop) (m : M S A) : Prop :=
  forall s, match m s with Ret _ s' | Abort _ s' => R s s' | _ => True end.

Lemma m_pres_run {S A} (R : S -> S -> Prop) (m : M S A) s a s' :
  m_pres R m -> m s = Ret a s' -> R s s'.
Proof. intros H E. specialize (H s). by rewrite E in H. Qed.

Lemma m_pres_aborts {S A} (R : S -> S -> Prop) (m : M S A) s r s' :
  m_pres R m -> m s = Abort r s' -> R s s'.
Proof. intros H E. specialize (H s). by rewrite E in H. Qed.

Lemma m_pres_weaken {S A} (R R' : S -> S -> Prop) (m : M S A) :
  (forall s s', R s s' -> R' s s') -> m_pres R m -> m_pres R' m.
Proof. intros H Hm s. specialize (Hm s). destruct (m s); auto. Qed.

(** [m_hoare P m Q E]: from a state in [P], a run of [m] that returns ends in
    [Q], and one that aborts in [E]. *)
Definition m_hoare {S A} (P : S -> Prop) (m : M S A) (Q : A -> S -> Prop) (E : S -> Prop) : Prop :=
  forall s, P s -> match m s with Ret a s' => Q a s' | Abort _ s' => E s' | _ => True end.

Lemma m_hoare_bind {S A B} (P : S -> Prop) (m : M S A) (f : A -> M S B) Q1 Q E :
  m_hoare P m Q1 E -> (forall a, m_hoare (Q1 a) (f a) Q E) -> m_hoare P (m_bind m f) Q E.
Proof.
  intros Hm Hf s Hs. specialize (Hm s Hs). unfold m_bind. destruct (m s) as [a s'| | | | |]; try done.
  by apply Hf.
Qed.

Lemma m_bind_assoc {S A B C} (m : M S A) (f : A -> M S B) (g : B -> M S C) s :
  m_bind (m_bind m f) g s = m_bind m (fun x => m_bind (f x) g) s.
Proof. unfold m_bind. by destruct (m s). Qed.

Lemma m_hoare_assoc {S A B C} (P : S -> Prop) (m : M S A) (f : A -> M S B) (g : B -> M S C) Q E :
  m_hoare P (m_bind m (fun x => m_bind (f x) g)) Q E -> m_hoare P (m_bind (m_bind m f) g) Q E.
Proof. intros H s Hs. rewrite m_bind_assoc. by apply H. Qed.

Lemma m_hoare_ret {S A} (P : S -> Prop) (a : A) (Q : A -> S -> Prop) E :
  (forall s, P s -> Q a s) -> m_hoare P (m_ret a) Q E.
Proof. intros H s Hs. by apply H. Qed.

Lemma m_hoare_conseq {S A} (P P' : S -> Prop) (m : M S A) (Q Q' : A -> S -> Prop) (E E' : S -> Prop) :
  m_hoare P' m Q' E' -> (forall s, P s -> P' s) -> (forall a s, Q' a s -> Q a s) ->
  (forall s, E' s -> E s) -> m_hoare P m Q E.
Proof. intros Hm HP HQ HE s Hs. specialize (Hm s (HP s Hs)). destruct (m s); auto. Qed.

(** What does not depend on the state. *)
Lemma m_hoare_pure {S A} (P : S -> Prop) (X : Prop) (m : M S A) Q E :
  (X -> m_hoare P m Q E) -> m_hoare (fun s => P s /\ X) m Q E.
Proof. intros H s [Hs HX]. by apply H. Qed.

Lemma m_hoare_exists {S A B} (P : B -> S -> Prop) (m : M S A) Q E :
  (forall x, m_hoare (P x) m Q E) -> m_hoare (fun s => exists x, P x s) m Q E.
Proof. intros H s [x Hs]. by apply (H x). Qed.

(** An operation that changes only what [P] does not look at. *)
Lemma m_hoare_pres {S A} (R : S -> S -> Prop) (P : S -> Prop) (m : M S A) :
  m_pres R m -> (forall s s', P s -> R s s' -> P s') -> m_hoare P m (fun _ => P) P.
Proof. intros Hm H s Hs. specialize (Hm s). destruct (m s); eauto. Qed.

(** ** Runs that return

    [m_total P m Q]: from a state in [P], [m] returns, in [Q]. *)
Definition m_total {S A} (P : S -> Prop) (m : M S A) (Q : A -> S -> Prop) : Prop :=
  forall s, P s -> exists a s', m s = Ret a s' /\ Q a s'.

Lemma m_total_bind {S A B} (P : S -> Prop) (m : M S A) (f : A -> M S B) Q1 Q :
  m_total P m Q1 -> (forall a, m_total (Q1 a) (f a) Q) -> m_total P (m_bind m f) Q.
Proof.
  intros Hm Hf s Hs. destruct (Hm s Hs) as (a & s1 & E & H1). rewrite (m_bind_run _ _ _ _ _ E). by apply Hf.
Qed.

Lemma m_total_ret {S A} (P : S -> Prop) (a : A) (Q : A -> S -> Prop) : (forall s, P s -> Q a s) -> m_total P (m_ret a) Q.
Proof. intros H s Hs. exists a, s. split; [done|by apply H]. Qed.

Lemma m_total_conseq {S A} (P P' : S -> Prop) (m : M S A) (Q Q' : A -> S -> Prop) :
  m_total P' m Q' -> (forall s, P s -> P' s) -> (forall a s, Q' a s -> Q a s) -> m_total P m Q.
Proof. intros Hm HP HQ s Hs. destruct (Hm s (HP s Hs)) as (a & s' & E & H). exists a, s'. split; [done|by apply HQ]. Qed.

(** What is known otherwise of the state where a run ends. *)
Lemma m_total_hoare {S A} (P : S -> Prop) (m : M S A) Q Q' E :
  m_total P m Q -> m_hoare P m Q' E -> m_total P m (fun a s => Q a s /\ Q' a s).
Proof.
  intros Ht Hh s Hs. destruct (Ht s Hs) as (a & s' & Er & H). exists a, s'. specialize (Hh s Hs). by rewrite Er in Hh.
Qed.

Lemma m_total_iter {S A} (P : list A -> S -> Prop) (f : A -> M S unit) l :
  (forall x l', m_total (P (x :: l')) (f x) (fun _ => P l')) -> m_total (P l) (m_iter f l) (fun _ => P []).
Proof.
  intros Hf. induction l as [|x l IH]; [by apply m_total_ret|]. eapply m_total_bind; [apply Hf|]. by intros [].
Qed.

Lemma bind_deref {S A B} (x : A) (f : A -> M S B) s : m_bind (m_deref (Some x)) f s = f x s.
Proof. done. Qed.
Lemma bind_modify {S B} g (f : unit -> M S B) s : m_bind (m_modify g) f s = f tt (g s).
Proof. done. Qed.

Section pres.
Context {S : Type} (R : S -> S -> Prop) {HR : PreOrder R}.

Lemma m_pres_ret {A} (a : A) : m_pres R (m_ret a).
Proof. intros s. simpl. done. Qed.

Lemma m_pres_gets {A} (f : S -> A) : m_pres R (m_gets f).
Proof. intros s. simpl. done. Qed.

Lemma m_pres_get : m_pres R m_get.
Proof. intros s. simpl. done. Qed.

Lemma m_pres_abort {A} r : m_pres R (m_abort (A := A) r).
Proof. intros s. simpl. done. Qed.

Lemma m_pres_exit {A} : m_pres R (m_exit (A := A)).
Proof. done. Qed.

Lemma m_pres_block {A} : m_pres R (m_block (A := A)).
Proof. done. Qed.

Lemma m_pres_undef {A} : m_pres R (m_undef (A := A)).
Proof. done. Qed.

Lemma m_pres_nofuel {A} : m_pres R (m_nofuel (A := A)).
Proof. done. Qed.

Lemma m_pres_deref {A} (o : option A) : m_pres R (m_deref o).
Proof. destruct o; [apply m_pres_ret|apply m_pres_undef]. Qed.

Lemma m_pres_bind {A B} (m : M S A) (f : A -> M S B) :
  m_pres R m -> (forall a, m_pres R (f a)) -> m_pres R (m_bind m f).
Proof.
  intros Hm Hf s. specialize (Hm s). unfold m_bind. destruct (m s) as [a s1| | | | |]; try done.
  specialize (Hf a s1). destruct (f a s1); try done; by etrans.
Qed.

Lemma m_pres_when b (m : M S unit) : m_pres R m -> m_pres R (m_when b m).
Proof. destruct b; [done|]. intros _. apply m_pres_ret. Qed.

Lemma m_pres_iter {A} (f : A -> M S unit) l : (forall x, m_pres R (f x)) -> m_pres R (m_iter f l).
Proof. intros Hf. induction l; simpl; [apply m_pres_ret|by apply m_pres_bind]. Qed.

Lemma m_pres_modify (f : S -> S) : (forall s, R s (f s)) -> m_pres R (m_modify f).
Proof. intros Hf s. apply Hf. Qed.
End pres.

Lemma m_pres_loop {S A B} (R : S -> S -> Prop) {HR : PreOrder R} fuel (body : A -> M S (A + B)) a :
  (forall a, m_pres R (body a)) -> m_pres R (m_loop fuel body a).
Proof.
  intros Hb. revert a. induction fuel as [|fuel IH]; intros a; simpl; [done|].
  apply m_pres_bind; [done|apply Hb|]. intros [a'|b]; [apply IH|by apply m_pres_ret].
Qed.

(** ** Operations that do not abort the transaction *)

Definition m_noabort {S A} (m : M S A) : Prop := forall s, match m s with Abort _ _ => False | _ => True end.

Lemma m_noabort_bind {S A B} (m : M S A) (f : A -> M S B) :
  m_noabort m -> (forall a, m_noabort (f a)) -> m_noabort (m_bind m f).
Proof. intros Hm Hf s. specialize (Hm s). unfold m_bind. destruct (m s); try done. apply Hf. Qed.

Lemma m_noabort_deref {S A} (o : option A) : m_noabort (S := S) (m_deref o).
Proof. by destruct o. Qed.

Lemma m_noabort_when {S} b (m : M S unit) : m_noabort m -> m_noabort (m_when b m).
Proof. by destruct b. Qed.

Lemma m_noabort_iter {S A} (f : A -> M S unit) l : (forall x, m_noabort (f x)) -> m_noabort (m_iter f l).
Proof. intros Hf. induction l; simpl; [done|by apply m_noabort_bind]. Qed.

Lemma m_noabort_zoom {S T A} (get : S -> T) (set : T -> S -> S) (m : M T A) :
  m_noabort m -> m_noabort (m_zoom get set m).
Proof. intros Hm s. specialize (Hm (get s)). unfold m_zoom. by destruct (m (get s)). Qed.

(** An operation that does not abort and changes only what [P] does not look at. *)
Lemma m_hoare_quiet {S A} (R : S -> S -> Prop) (P : S -> Prop) (m : M S A) E :
  m_pres R m -> m_noabort m -> (forall s s', P s -> R s s' -> P s') -> m_hoare P m (fun _ => P) E.
Proof. intros Hm Hn H s Hs. specialize (Hm s). specialize (Hn s). destruct (m s); try done. by eapply H. Qed.

(** ** Reading an array by a C [int] index *)

Definition arr_get {A} (l : list A) (i : Z) : option A :=
  if bool_decide (0 <= i) then l !! Z.to_nat i else None.

Lemma arr_get_nat {A} (l : list A) (n : nat) : arr_get l (Z.of_nat n) = l !! n.
Proof. unfold arr_get. rewrite bool_decide_eq_true_2 by lia. by rewrite Nat2Z.id. Qed.

(** ** Filters *)

Lemma filter_none {A} (P : A -> Prop) `{forall x, Decision (P x)} (l : list A) :
  (forall x, x ∈ l -> ~ P x) -> filter P l = [].
Proof.
  induction l as [|x l IH]; intros Hn; [done|]. rewrite filter_cons_False by (apply Hn; set_solver).
  apply IH. set_solver.
Qed.

Lemma filter_all {A} (P : A -> Prop) `{forall x, Decision (P x)} (l : list A) :
  (forall x, x ∈ l -> P x) -> filter P l = l.
Proof.
  induction l as [|x l IH]; intros Hn; [done|]. rewrite filter_cons_True by (apply Hn; set_solver).
  f_equal. apply IH. set_solver.
Qed.

(** ** Automation *)

Ltac m_unfold :=
  unfold m_bind, m_ret, m_get, m_gets, m_put, m_modify, m_abort, m_exit, m_block,
    m_undef, m_nofuel, m_when, m_deref, m_zoom in *.

(** Run the first operation of a sequence, whose result is found by [tac]. *)
Tactic Notation "m_next" "by" tactic3(tac) :=
  match goal with
  | |- m_bind ?m ?f ?s = _ => erewrite (m_bind_run m f s) by tac
  end; cbv beta.

(** Run the first operation of a sequence by computation. *)
Ltac m_next := m_next by reflexivity.

(** Take a sequence that returned apart: the result and the state of each of its
    operations. *)
Ltac m_inv H :=
  cbv beta iota in H;
  lazymatch type of H with
  | m_bind _ _ _ = Ret _ _ =>
      let x := fresh "x" in let s := fresh "st" in let H1 := fresh "Hm" in
      apply m_bind_ret_inv in H as (x & s & H1 & H); cbv beta in H
  end.

(** Prove a closed equation by running its left-hand side. *)
Ltac run_eq :=
  lazymatch goal with |- ?a = ?b => vm_cast_no_check (eq_refl b) end.

(** A concrete run: the state after an operation that returns, or aborts. *)
Definition after {S A} (m : M S A) (s : S) : S :=
  match m s with Ret _ s' | Abort _ s' => s' | _ => s end.

Lemma after_ret {S A} (m : M S A) s a :
  match m s with Ret x _ => x = a | _ => False end -> m s = Ret a (after m s).
Proof. unfold after. destruct (m s); try done. by intros ->. Qed.

Lemma after_abort {S A} (m : M S A) s r :
  match m s with Abort x _ => x = r | _ => False end -> m s = Abort r (after m s).
Proof. unfold after. destruct (m s); try done. by intros ->. Qed.

(** The operation that leads to [s'] is run, and its result compared. *)
Ltac runs_to s' := unfold s'; first [apply after_ret|apply after_abort]; vm_compute; reflexivity.

(** Go through the code of an operation for [m_pres]. *)
Ltac m_pres_step :=
  lazymatch goal with
  | |- m_pres _ (m_bind _ _) => apply m_pres_bind; [typeclasses eauto| |intros ?]
  | |- m_pres _ (m_ret _) => apply m_pres_ret; typeclasses eauto
  | |- m_pres _ m_get => apply m_pres_get; typeclasses eauto
  | |- m_pres _ (m_gets _) => apply m_pres_gets; typeclasses eauto
  | |- m_pres _ (m_deref _) => apply m_pres_deref; typeclasses eauto
  | |- m_pres _ (m_when _ _) => apply m_pres_when; [typeclasses eauto|]
  | |- m_pres _ (m_iter _ _) => apply m_pres_iter; [typeclasses eauto|intros ?]
  | |- m_pres _ m_exit => apply m_pres_exit
  | |- m_pres _ m_undef => apply m_pres_undef
  | |- m_pres _ m_block => apply m_pres_block
  | |- m_pres _ m_nofuel => apply m_pres_nofuel
  | |- m_pres _ (m_abort _) => apply m_pres_abort; typeclasses eauto
  | |- m_pres _ (match ?x with _ => _ end) => destruct x
  | |- m_pres _ (let _ := _ in _) => cbv zeta
  end.

(** Go through the code of an operation for [m_noabort]. *)
Ltac m_noabort_step :=
  lazymatch goal with
  | |- m_noabort (m_bind _ _) => apply m_noabort_bind; [|intros ?]
  | |- m_noabort (m_deref _) => apply m_noabort_deref
  | |- m_noabort (m_when _ _) => apply m_noabort_when
  | |- m_noabort (m_iter _ _) => apply m_noabort_iter; intros ?
  | |- m_noabort (m_zoom _ _ _) => apply m_noabort_zoom
  | |- m_noabort (m_ret _) => done
  | |- m_noabort m_get => done
  | |- m_noabort (m_gets _) => done
  | |- m_noabort (m_put _) => done
  | |- m_noabort (m_modify _) => done
  | |- m_noabort m_exit => done
  | |- m_noabort m_undef => done
  | |- m_noabort m_block => done
  | |- m_noabort m_nofuel => done
  | |- m_noabort (match ?x with _ => _ end) => destruct x
  | |- m_noabort (let _ := _ in _) => cbv zeta
  end.

Create HintDb xcalls discriminated.
#[export] Hint Resolve u32_range : xcalls.

Ltac m_pres_auto := repeat first [solve [eauto 2 with xcalls] | m_pres_step].
Ltac m_noabort_auto := repeat first [solve [eauto 2 with xcalls] | m_noabort_step].
