(* ===== verification/Dll.v ===== *)
(** * Doubly linked lists over a store of links

    [pool.c], [hash_table.c], [tx.c] and [stats.c] keep their objects on doubly
    linked lists whose [next] and [prev] fields live in the objects.  This file
    says when a store of links holds such a list, for a store given by a
    function [lk] from a node to its two links, and how the list changes when a
    node is pushed on its head or taken out of its middle.

    The property of the head's [prev] field is a parameter: it is NULL on a pool
    list, and left stale on a hash bucket list. *)

From S2P Require Import Prelude.

(** The links of a node: [(next, prev)]. *)
Definition links : Type := option nat * option nat.

(** [dseg lk P h xs]: from [h], following [next], one meets the nodes [xs] and
    then NULL; every node's [prev] is the node before it, and the first one's
    satisfies [P]. *)
Fixpoint dseg (lk : nat -> option links) (P : option nat -> Prop)
    (h : option nat) (xs : list nat) : Prop :=
  match xs with
  | [] => h = None
  | x :: xs' =>
      h = Some x /\
      exists n p, lk x = Some (n, p) /\ P p /\ dseg lk (eq (Some x)) n xs'
  end.

Section dseg_lemmas.
Implicit Types (lk : nat -> option links) (P : option nat -> Prop).

Lemma dseg_ext lk lk' P h xs :
  (forall x, x ∈ xs -> lk' x = lk x) -> dseg lk P h xs -> dseg lk' P h xs.
Proof.
  revert P h. induction xs as [|x xs IH]; intros P h Heq; simpl; [done|].
  intros (-> & n & p & Hx & HP & Hs). split; [done|].
  exists n, p. rewrite Heq by set_solver. split_and!; [done|done|].
  apply IH; [set_solver|done].
Qed.

Lemma dseg_head lk P h xs : dseg lk P h xs -> h = head xs.
Proof. destruct xs; naive_solver. Qed.

Lemma dseg_none lk P xs : dseg lk P None xs -> xs = [].
Proof. destruct xs; naive_solver. Qed.

Lemma dseg_weaken lk P P' h xs :
  (forall p, P p -> P' p) -> dseg lk P h xs -> dseg lk P' h xs.
Proof. destruct xs; naive_solver. Qed.

(** The store gives links to every node of the list. *)
Lemma dseg_lookup lk P h xs x : dseg lk P h xs -> x ∈ xs -> is_Some (lk x).
Proof.
  revert P h. induction xs as [|y xs IH]; intros P h; [set_solver|].
  intros (-> & n & p & Hy & _ & Hs) [->|Hx]%elem_of_cons; [by eexists|].
  by eapply IH.
Qed.

(** What the links of a node in the middle of the list are. *)
Lemma dseg_middle lk P h xs x ys :
  dseg lk P h (xs ++ x :: ys) ->
  exists p, lk x = Some (head ys, p) /\
    match last xs with Some y => p = Some y | None => P p end.
Proof.
  revert P h. induction xs as [|y xs IH]; intros P h; simpl.
  - intros (-> & n & p & Hx & HP & Hs). apply dseg_head in Hs as ->. eauto.
  - intros (-> & n & p & Hy & HP & Hs). destruct (IH _ _ Hs) as (q & Hq & Hl).
    exists q. split; [done|]. destruct xs as [|z xs]; [by symmetry|].
    rewrite last_cons_cons. destruct (last (z :: xs)) eqn:E; [done|]. by apply last_None in E.
Qed.

Lemma dseg_app_next lk P h xs x ys y :
  dseg lk P h (xs ++ x :: y :: ys) -> exists n, lk y = Some (n, Some x).
Proof.
  intros Hs. rewrite cons_middle, (assoc (++)) in Hs.
  apply dseg_middle in Hs as (p & Hp & Hl). rewrite last_snoc in Hl. subst p. eauto.
Qed.

(** Push [x] on the head: [x.next = h], and the old head's [prev] becomes [x]. *)
Lemma dseg_push lk lk' P P' h xs x p :
  NoDup (x :: xs) -> dseg lk P h xs -> P' p ->
  lk' x = Some (h, p) ->
  (forall y, h = Some y -> lk' y = (fun l => (l.1, Some x)) <$> lk y) ->
  (forall y, y ∈ xs -> h <> Some y -> lk' y = lk y) ->
  dseg lk' P' (Some x) (x :: xs).
Proof.
  intros Hnd Hs HP Hx Hh Hrest. simpl. split; [done|]. exists h, p.
  split_and!; [done|done|]. destruct xs as [|y xs]; [done|].
  destruct Hs as (-> & n & q & Hy & _ & Hs). split; [done|].
  exists n, (Some x). rewrite Hh, Hy by done. split_and!; [done|done|].
  apply dseg_ext with lk; [|done]. intros z Hz. apply Hrest; [set_solver|].
  apply NoDup_cons in Hnd as [_ [Hnd _]%NoDup_cons]. naive_solver.
Qed.

(** Take [x] out: its neighbours are linked to each other. When [x] is the
    head, the next node's [prev] may be anything that satisfies [P']. *)
Lemma dseg_remove_head lk lk' P P' h x ys n :
  NoDup (x :: ys) -> dseg lk P h (x :: ys) -> lk x = Some n ->
  (forall y, head ys = Some y -> exists q, P' q /\ lk' y = (fun l => (l.1, q)) <$> lk y) ->
  (forall y, y ∈ ys -> head ys <> Some y -> lk' y = lk y) ->
  dseg lk' P' n.1 ys.
Proof.
  intros Hnd (-> & m & p & Hx & _ & Hs) Hn Hh Hrest. simplify_eq/=.
  destruct ys as [|y ys]; [done|].
  destruct Hs as (-> & n & q & Hy & _ & Hs). split; [done|].
  destruct (Hh y) as (q' & HP & Hy'); [done|]. rewrite Hy in Hy'. simpl in Hy'.
  exists n, q'. split_and!; [done|done|].
  apply dseg_ext with lk; [|done]. intros z Hz. apply Hrest; [set_solver|].
  apply NoDup_cons in Hnd as [_ [Hnd _]%NoDup_cons]. naive_solver.
Qed.

Lemma dseg_remove_middle lk lk' P h xs w x ys n :
  NoDup (xs ++ w :: x :: ys) -> dseg lk P h (xs ++ w :: x :: ys) ->
  lk x = Some n ->
  lk' w = (fun l => (n.1, l.2)) <$> lk w ->
  (forall y, head ys = Some y -> lk' y = (fun l => (l.1, n.2)) <$> lk y) ->
  (forall y, y ∈ xs ++ ys -> head ys <> Some y -> lk' y = lk y) ->
  dseg lk' P h (xs ++ w :: ys).
Proof.
  intros Hnd Hs Hn Hw Hh Hrest. revert P h Hs. induction xs as [|z xs IH]; intros P h; simpl.
  - intros (-> & m & p & Hlw & HP & Hs). split; [done|].
    rewrite Hlw in Hw. simpl in Hw.
    destruct Hs as (-> & n' & q & Hx & <- & Hs). simplify_eq/=.
    exists n', p. split_and!; [done|done|].
    apply (dseg_remove_head lk lk' (eq (Some w)) (eq (Some w)) (Some x) x ys (n', Some w)).
    + by apply NoDup_cons in Hnd as [_ Hnd].
    + simpl. naive_solver.
    + done.
    + naive_solver.
    + naive_solver.
  - intros (-> & m & p & Hz & HP & Hs). split; [done|]. exists m, p.
    apply NoDup_cons in Hnd as [Hzn Hnd].
    rewrite Hrest; [|set_solver|].
    + split_and!; [done|done|]. apply IH; [done| |done]. intros y Hy. apply Hrest. set_solver.
    + intros Hhd. apply Hzn. destruct ys; simplify_eq/=. set_solver.
Qed.
End dseg_lemmas.
