(* ===== verification/Pool.v ===== *)
(** * The pool allocator ([misc/pool.c])

    A pool preallocates [obj_num] objects and keeps their headers
    ([txc_pool_object_t]) in the array [obj_list]; each header is on the free or
    on the allocated doubly linked list.  A [txc_pool_object_t *] is an index of
    [obj_list]; an object's address is [full_buf] plus its offset in the buffer.

    The model is the release build: [TXC_ASSERT] does nothing.  [malloc],
    [calloc] and [pthread_mutex_init] are given by their results. *)

From S2P Require Import Prelude Dll.

Definition TXC_POOL_OBJECT_FREE : Z := 1.
Definition TXC_POOL_OBJECT_ALLOCATED : Z := 2.

(** [struct txc_pool_object_s] *)
Record txc_pool_object_t := PoolObject {
  po_buf : Z;
  po_status : Z;
  po_next : option nat;
  po_prev : option nat;
}.

(** [struct txc_pool_s] *)
Record txc_pool_t := Pool {
  mutex : bool;
  full_buf : Z;
  obj_list : list txc_pool_object_t;
  obj_free_head : option nat;
  obj_allocated_head : option nat;
  obj_free_num : Z;
  obj_allocated_num : Z;
  obj_size : Z;
  obj_num : Z;
}.

Definition set_mutex b p := Pool b (full_buf p) (obj_list p) (obj_free_head p)
  (obj_allocated_head p) (obj_free_num p) (obj_allocated_num p) (obj_size p) (obj_num p).
Definition set_obj_list l p := Pool (mutex p) (full_buf p) l (obj_free_head p)
  (obj_allocated_head p) (obj_free_num p) (obj_allocated_num p) (obj_size p) (obj_num p).
Definition set_free_head h p := Pool (mutex p) (full_buf p) (obj_list p) h
  (obj_allocated_head p) (obj_free_num p) (obj_allocated_num p) (obj_size p) (obj_num p).
Definition set_allocated_head h p := Pool (mutex p) (full_buf p) (obj_list p) (obj_free_head p)
  h (obj_free_num p) (obj_allocated_num p) (obj_size p) (obj_num p).
Definition set_nums f a p := Pool (mutex p) (full_buf p) (obj_list p) (obj_free_head p)
  (obj_allocated_head p) f a (obj_size p) (obj_num p).

Definition po_set_next n o := PoolObject (po_buf o) (po_status o) n (po_prev o).
Definition po_set_prev n o := PoolObject (po_buf o) (po_status o) (po_next o) n.
Definition po_set_status s o := PoolObject (po_buf o) s (po_next o) (po_prev o).

(** Accesses through a [txc_pool_object_t *]; outside the array they are
    undefined. *)
Definition obj_get (i : nat) : M txc_pool_t txc_pool_object_t :=
  do p <- m_get ;; m_deref (obj_list p !! i).

Definition obj_upd (i : nat) (f : txc_pool_object_t -> txc_pool_object_t) : M txc_pool_t unit :=
  do _ <- obj_get i ;;
  m_modify (fun p => set_obj_list (alter f i (obj_list p)) p).

(** [if (o) o->field = ...;] *)
Definition obj_upd_opt (o : option nat) f : M txc_pool_t unit :=
  match o with Some i => obj_upd i f | None => m_ret tt end.

(** [TXC_MUTEX_LOCK] and [TXC_MUTEX_UNLOCK] of [pool->mutex]. *)
Definition txc_pool_lock : M txc_pool_t unit :=
  do p <- m_get ;; if mutex p then m_block else m_put (set_mutex true p).
Definition txc_pool_unlock : M txc_pool_t unit := m_modify (set_mutex false).

(** The header written by iteration [i] of the loop of [txc_pool_create];
    [i] is an [int], [obj_num] and [obj_size] are [unsigned int]. *)
Definition pool_object_init (base size num : Z) (i : Z) : txc_pool_object_t :=
  PoolObject (base + u32 (i * size)) TXC_POOL_OBJECT_FREE
    (Some (Z.to_nat (u32 (i + 1) mod num))) (Some (Z.to_nat (u32 (i - 1) mod num))).

(** [txc_pool_create]: [m_pool], [m_list] and [m_buf] are what [MALLOC] and the
    two [CALLOC]s return ([None] is NULL), [mutex_init] what
    [TXC_MUTEX_INIT] returns, [obj_constructor] the constructor, run on each
    object's address over the memory [mem]. *)
Definition txc_pool_create {Mem} (m_pool m_list m_buf : option Z) (mutex_init : Z)
    (size num : Z) (obj_constructor : option (Z -> Mem -> Mem)) (mem : Mem)
    : option (Z * option txc_pool_t * Mem) :=
  match m_pool, m_list, m_buf with
  | None, _, _ | _, None, _ | _, _, None => Some (TXC_R_NOMEMORY, None, mem)
  | Some _, Some _, Some base =>
      let objs := pool_object_init base size num <$> seqZ 0 num in
      let mem' := match obj_constructor with
                  | None => mem
                  | Some c => foldl (fun m i => c (base + u32 (i * size)) m) mem (seqZ 0 num)
                  end in
      (* object_list[0].prev = object_list[obj_num-1].next = NULL *)
      if bool_decide (num = 0) then None else
      let objs := alter (po_set_next None) (Z.to_nat (num - 1)) objs in
      let objs := alter (po_set_prev None) 0%nat objs in
      if bool_decide (mutex_init <> 0) then Some (TXC_R_NOTINITLOCK, None, mem') else
      Some (TXC_R_SUCCESS,
            Some (Pool false base objs (Some 0%nat) None num 0 size num), mem')
  end.

(** [txc_pool_object_alloc(pool, objp, lock)]: the code and [*objp]. *)
Definition txc_pool_object_alloc (lock : bool) : M txc_pool_t (Z * option Z) :=
  m_when lock txc_pool_lock ;;;
  do p <- m_get ;;
  do r <- (if bool_decide (obj_free_num p = 0) then m_ret (TXC_R_NOMEMORY, None) else
    do pool_object <- m_deref (obj_free_head p) ;;
    do o <- obj_get pool_object ;;
    m_modify (set_free_head (po_next o)) ;;;
    obj_upd_opt (po_next o) (po_set_prev None) ;;;
    obj_upd pool_object (po_set_prev None) ;;;
    obj_upd pool_object (po_set_next (obj_allocated_head p)) ;;;
    obj_upd_opt (obj_allocated_head p) (po_set_prev (Some pool_object)) ;;;
    m_modify (set_allocated_head (Some pool_object)) ;;;
    m_modify (set_nums (u32 (obj_free_num p - 1)) (u32 (obj_allocated_num p + 1))) ;;;
    obj_upd pool_object (po_set_status TXC_POOL_OBJECT_ALLOCATED) ;;;
    m_ret (TXC_R_SUCCESS, Some (po_buf o))) ;;
  m_when lock txc_pool_unlock ;;;
  m_ret r.

(** [((unsigned int) ((char* ) *objp - (char* ) pool->full_buf)) / pool->obj_size] *)
Definition obj_index (p : txc_pool_t) (objp : Z) : nat :=
  Z.to_nat (u32 (objp - full_buf p) / obj_size p).

Definition txc_pool_object_free (objp : Z) (lock : bool) : M txc_pool_t unit :=
  m_when lock txc_pool_lock ;;;
  do p <- m_get ;;
  if bool_decide (obj_size p = 0) then m_undef else
  let pool_object := obj_index p objp in
  do o <- obj_get pool_object ;;
  match po_prev o with
  | Some q => obj_upd q (po_set_next (po_next o))
  | None => m_modify (set_allocated_head (po_next o))
  end ;;;
  obj_upd_opt (po_next o) (po_set_prev (po_prev o)) ;;;
  obj_upd pool_object (po_set_next (obj_free_head p)) ;;;
  obj_upd pool_object (po_set_prev None) ;;;
  obj_upd_opt (obj_free_head p) (po_set_prev (Some pool_object)) ;;;
  m_modify (set_nums (u32 (obj_free_num p + 1)) (u32 (obj_allocated_num p - 1))) ;;;
  obj_upd pool_object (po_set_status TXC_POOL_OBJECT_FREE) ;;;
  m_modify (set_free_head (Some pool_object)) ;;;
  m_when lock txc_pool_unlock.

(** [txc_pool_object_first]: the value 0 is [ALLOCATED & FREE]. *)
Definition txc_pool_object_first (obj_status : Z) : M txc_pool_t (option nat) :=
  do p <- m_get ;;
  if bool_decide (obj_status = TXC_POOL_OBJECT_FREE) then m_ret (obj_free_head p)
  else if bool_decide (obj_status = TXC_POOL_OBJECT_ALLOCATED) then m_ret (obj_allocated_head p)
  else if bool_decide (obj_status = Z.land TXC_POOL_OBJECT_ALLOCATED TXC_POOL_OBJECT_FREE)
  then m_ret (Some 0%nat)
  else m_exit.

Definition txc_pool_object_next (obj : nat) : M txc_pool_t (option nat) :=
  do o <- obj_get obj ;; m_ret (po_next o).

Definition txc_pool_object_of (obj : nat) : M txc_pool_t Z :=
  do o <- obj_get obj ;; m_ret (po_buf o).

(** The loop every client runs over a pool:
    [for (o = first(pool, s); o != NULL; o = next(o)) visit(of(o));]
    returning the addresses visited; [fuel] bounds the number of objects. *)
Fixpoint pool_walk (fuel : nat) (o : option nat) : M txc_pool_t (list Z) :=
  match o with
  | None => m_ret []
  | Some i =>
      match fuel with
      | O => m_nofuel
      | S fuel' =>
          do a <- txc_pool_object_of i ;;
          do n <- txc_pool_object_next i ;;
          do l <- pool_walk fuel' n ;;
          m_ret (a :: l)
      end
  end.

Definition pool_for_each (fuel : nat) (obj_status : Z) : M txc_pool_t (list Z) :=
  do o <- txc_pool_object_first obj_status ;; pool_walk fuel o.

(** ** What a pool holds *)

Definition lk (p : txc_pool_t) (i : nat) : option links :=
  (fun o => (po_next o, po_prev o)) <$> obj_list p !! i.

(** The address of object [i]. *)
Definition obj_addr (p : txc_pool_t) (i : nat) : Z := full_buf p + u32 (Z.of_nat i * obj_size p).

(** The pool's abstract state: the free objects as a stack, the allocated ones
    from the most recent to the oldest.  [pool_rep p fr al]: [p] represents it. *)
Record pool_rep (p : txc_pool_t) (fr al : list nat) : Prop := {
  rep_mutex : mutex p = false;
  rep_free : dseg (lk p) (eq None) (obj_free_head p) fr;
  rep_alloc : dseg (lk p) (eq None) (obj_allocated_head p) al;
  rep_perm : fr ++ al ≡ₚ seq 0 (length (obj_list p));
  rep_free_num : obj_free_num p = Z.of_nat (length fr);
  rep_alloc_num : obj_allocated_num p = Z.of_nat (length al);
  rep_buf i o : obj_list p !! i = Some o -> po_buf o = obj_addr p i;
  rep_status i o : obj_list p !! i = Some o ->
    po_status o = if decide (i ∈ al) then TXC_POOL_OBJECT_ALLOCATED else TXC_POOL_OBJECT_FREE;
  rep_num : obj_num p = Z.of_nat (length (obj_list p));
  rep_size : 0 < obj_size p /\ obj_num p * obj_size p <= 2 ^ 32 /\ obj_num p < 2 ^ 32
}.

(** [if (o) o->field = ...;] on an array of headers. *)
Definition alter_opt (f : txc_pool_object_t -> txc_pool_object_t) (o : option nat)
    (l : list txc_pool_object_t) : list txc_pool_object_t :=
  match o with Some i => alter f i l | None => l end.

(** The pool after [txc_pool_object_alloc] has taken object [i], whose [next]
    is [n], off the free list. *)
Definition pool_after_alloc (p : txc_pool_t) (i : nat) (n : option nat) : txc_pool_t :=
  Pool false (full_buf p)
    (alter (po_set_status TXC_POOL_OBJECT_ALLOCATED) i
      (alter_opt (po_set_prev (Some i)) (obj_allocated_head p)
        (alter (po_set_next (obj_allocated_head p)) i
          (alter (po_set_prev None) i
            (alter_opt (po_set_prev None) n (obj_list p))))))
    n (Some i) (u32 (obj_free_num p - 1)) (u32 (obj_allocated_num p + 1))
    (obj_size p) (obj_num p).

(** The pool after [txc_pool_object_free] of object [i], whose links are
    [(nx, pv)]. *)
Definition pool_after_free (p : txc_pool_t) (i : nat) (nx pv : option nat) : txc_pool_t :=
  Pool false (full_buf p)
    (alter (po_set_status TXC_POOL_OBJECT_FREE) i
      (alter_opt (po_set_prev (Some i)) (obj_free_head p)
        (alter (po_set_prev None) i
          (alter (po_set_next (obj_free_head p)) i
            (alter_opt (po_set_prev pv) nx
              (alter_opt (po_set_next nx) pv (obj_list p)))))))
    (Some i) (match pv with Some _ => obj_allocated_head p | None => nx end)
    (u32 (obj_free_num p + 1)) (u32 (obj_allocated_num p - 1)) (obj_size p) (obj_num p).

Section pool_lemmas.
Implicit Types p : txc_pool_t.

Lemma rep_nodup p fr al : pool_rep p fr al -> NoDup (fr ++ al).
Proof. intros H. rewrite (rep_perm _ _ _ H). apply NoDup_seq. Qed.

Lemma rep_lt p fr al i : pool_rep p fr al -> i ∈ fr ++ al <-> (i < length (obj_list p))%nat.
Proof. intros H. rewrite (rep_perm _ _ _ H), elem_of_seq. lia. Qed.

Lemma rep_length p fr al :
  pool_rep p fr al -> (length fr + length al = length (obj_list p))%nat.
Proof.
  intros H. pose proof (Permutation_length (rep_perm _ _ _ H)) as E.
  by rewrite length_app, length_seq in E.
Qed.

Lemma obj_get_run p i o : obj_list p !! i = Some o -> obj_get i p = Ret o p.
Proof. intros H. unfold obj_get, m_bind, m_get, m_deref. by rewrite H. Qed.

Lemma obj_upd_run p i f :
  (i < length (obj_list p))%nat ->
  obj_upd i f p = Ret tt (set_obj_list (alter f i (obj_list p)) p).
Proof.
  intros [o H]%lookup_lt_is_Some_2. unfold obj_upd, m_bind.
  by rewrite (obj_get_run _ _ _ H).
Qed.

Lemma alter_lookup_dec (f : txc_pool_object_t -> txc_pool_object_t) (i j : nat)
    (l : list txc_pool_object_t) :
  alter f i l !! j = if decide (i = j) then f <$> l !! j else l !! j.
Proof. rewrite list_lookup_alter. by case_decide; subst. Qed.

Lemma alter_opt_lookup_dec f o (j : nat) l :
  alter_opt f o l !! j = if decide (o = Some j) then f <$> l !! j else l !! j.
Proof.
  destruct o as [i|]; simpl; [|done]. rewrite alter_lookup_dec.
  repeat case_decide; naive_solver.
Qed.

Lemma length_alter_opt f o l : length (alter_opt f o l) = length l.
Proof. destruct o; simpl; [apply length_alter|done]. Qed.

Lemma obj_upd_opt_run p o f :
  (forall i, o = Some i -> (i < length (obj_list p))%nat) ->
  obj_upd_opt o f p = Ret tt (set_obj_list (alter_opt f o (obj_list p)) p).
Proof. destruct o; simpl; intros H; [apply obj_upd_run; auto|by destruct p]. Qed.

(** An object's index is recovered from its address. *)
Lemma obj_index_addr p fr al i :
  pool_rep p fr al -> (i < length (obj_list p))%nat -> obj_index p (obj_addr p i) = i.
Proof.
  intros H Hi. destruct (rep_size _ _ _ H) as (Hs & Hm & _). pose proof (rep_num _ _ _ H) as Hn.
  unfold obj_index, obj_addr.
  assert (0 <= Z.of_nat i * obj_size p < 2 ^ 32) by nia.
  replace (full_buf p + u32 (Z.of_nat i * obj_size p) - full_buf p)
    with (u32 (Z.of_nat i * obj_size p)) by lia.
  rewrite u32_idem, u32_small, Z.div_mul by lia. apply Nat2Z.id.
Qed.
End pool_lemmas.

Section pool_alloc.
Implicit Types p : txc_pool_t.

Lemma pool_lock_run p lock :
  mutex p = false -> m_when lock txc_pool_lock p = Ret tt (set_mutex lock p).
Proof. destruct p; simpl. intros ->. by destruct lock. Qed.

Lemma pool_unlock_run p lock :
  mutex p = lock -> m_when lock txc_pool_unlock p = Ret tt (set_mutex false p).
Proof. destruct p; simpl. intros <-. by destruct mutex0. Qed.

Lemma pool_alloc_run p i fr al lock :
  pool_rep p (i :: fr) al ->
  txc_pool_object_alloc lock p =
    Ret (TXC_R_SUCCESS, Some (obj_addr p i)) (pool_after_alloc p i (head fr)).
Proof.
  intros H. pose proof (rep_mutex _ _ _ H) as Hm.
  assert (Hlt : forall j, j ∈ (i :: fr) ++ al -> (j < length (obj_list p))%nat)
    by (intros; by eapply rep_lt).
  pose proof (dseg_middle (lk p) (eq None) _ [] i fr (rep_free _ _ _ H)) as (q & Hq & _).
  unfold lk in Hq. apply fmap_Some in Hq as ([b st nx pv] & Ho & Hl). simplify_eq/=.
  pose proof (rep_buf _ _ _ H _ _ Ho) as Hb.
  pose proof (dseg_head _ _ _ _ (rep_free _ _ _ H)) as Hf.
  pose proof (dseg_head _ _ _ _ (rep_alloc _ _ _ H)) as Ha.
  pose proof (rep_free_num _ _ _ H) as Hn. clear H.
  destruct p as [m base l fh ah fn an sz num]. simpl in *. subst m fh ah b.
  assert (Hi : (i < length l)%nat) by (apply Hlt; set_solver).
  assert (Hfr : forall j, head fr = Some j -> (j < length l)%nat)
    by (intros; apply Hlt; destruct fr; simplify_eq/=; set_solver).
  assert (Hal : forall j, head al = Some j -> (j < length l)%nat)
    by (intros; apply Hlt; destruct al; simplify_eq/=; set_solver).
  unfold txc_pool_object_alloc. m_next by (by apply pool_lock_run). m_next.
  unfold set_mutex; simpl. rewrite bool_decide_eq_false_2 by lia.
  eapply eq_trans; [apply m_bind_run|].
  { m_next. m_next by (by apply obj_get_run). m_next. simpl.
    m_next by (by apply obj_upd_opt_run). simpl.
    m_next by (apply obj_upd_run; simpl; by rewrite length_alter_opt).
    m_next by (apply obj_upd_run; simpl; by rewrite length_alter, length_alter_opt).
    m_next by (apply obj_upd_opt_run; simpl; by rewrite !length_alter, length_alter_opt).
    m_next. m_next.
    m_next by (apply obj_upd_run; simpl; by rewrite length_alter_opt, !length_alter, length_alter_opt).
    reflexivity. }
  cbv beta. m_next by (by apply pool_unlock_run). done.
Qed.

(** The links after an allocation. *)
Lemma pool_after_alloc_lk p i fr al j :
  pool_rep p (i :: fr) al ->
  lk (pool_after_alloc p i (head fr)) j =
    if decide (j = i) then Some (head al, None)
    else if decide (Some j = head fr) then (fun l => (l.1, None)) <$> lk p j
    else if decide (Some j = head al) then (fun l => (l.1, Some i)) <$> lk p j
    else lk p j.
Proof.
  intros H. pose proof (rep_nodup _ _ _ H) as Hnd.
  pose proof (proj1 (rep_lt p (i :: fr) al i H) ltac:(set_solver)) as [o Ho]%lookup_lt_is_Some_2.
  pose proof (dseg_head _ _ _ _ (rep_alloc _ _ _ H)) as Ha.
  simpl in Hnd. apply NoDup_cons in Hnd as [Hi Hnd].
  apply NoDup_app in Hnd as (_ & Hd & _).
  assert (Hif : head fr <> Some i) by (destruct fr; set_solver).
  assert (Hia : head al <> Some i) by (destruct al; set_solver).
  assert (Hfa : forall k, head fr = Some k -> head al <> Some k)
    by (destruct fr, al; set_solver).
  unfold lk, pool_after_alloc; simpl. rewrite Ha.
  rewrite !alter_lookup_dec, !alter_opt_lookup_dec, !alter_lookup_dec, alter_opt_lookup_dec.
  repeat case_decide; simplify_eq; rewrite ?Ho; try done;
    try (by exfalso; eapply Hfa); by destruct (obj_list p !! j).
Qed.

(** An allocation changes the links and the status of [i] only. *)
Lemma pool_after_alloc_data p i n j o :
  obj_list (pool_after_alloc p i n) !! j = Some o ->
  exists o', obj_list p !! j = Some o' /\ po_buf o = po_buf o' /\
    po_status o = if decide (i = j) then TXC_POOL_OBJECT_ALLOCATED else po_status o'.
Proof.
  simpl. rewrite !alter_lookup_dec, !alter_opt_lookup_dec, !alter_lookup_dec, alter_opt_lookup_dec.
  destruct (obj_list p !! j) as [o'|]; [|by repeat case_decide].
  intros E. exists o'. by repeat case_decide; simplify_eq/=.
Qed.

Lemma pool_after_alloc_free p i fr al :
  pool_rep p (i :: fr) al -> dseg (lk (pool_after_alloc p i (head fr))) (eq None) (head fr) fr.
Proof.
  intros H. pose proof (fun j => pool_after_alloc_lk p i fr al j H) as Hlk.
  pose proof (rep_nodup _ _ _ H) as Hnd.
  pose proof Hnd as [Hi [_ [Hd _]]%NoDup_app]%NoDup_cons.
  destruct (dseg_middle (lk p) (eq None) _ [] i fr (rep_free _ _ _ H)) as (q & Hq & Hq').
  apply (dseg_remove_head (lk p) _ (eq None) (eq None) (obj_free_head p) i fr (head fr, q)).
  - by apply (NoDup_app (i :: fr) al) in Hnd as (? & _).
  - apply (rep_free _ _ _ H).
  - done.
  - intros y Hy. exists None. split; [done|]. rewrite Hlk.
    rewrite decide_False, decide_True; [done|done|].
    intros ->. apply Hi. destruct fr; set_solver.
  - intros y Hy Hh. rewrite Hlk, !decide_False; [done|..|congruence|set_solver].
    intros Hal. apply (Hd y Hy). destruct al; set_solver.
Qed.

Lemma pool_after_alloc_alloc p i fr al :
  pool_rep p (i :: fr) al -> dseg (lk (pool_after_alloc p i (head fr))) (eq None) (Some i) (i :: al).
Proof.
  intros H. pose proof (fun j => pool_after_alloc_lk p i fr al j H) as Hlk.
  pose proof (rep_nodup _ _ _ H) as [Hi [_ [Hd Hal]]%NoDup_app]%NoDup_cons.
  pose proof (dseg_head _ _ _ _ (rep_alloc _ _ _ H)) as Hhd.
  apply (dseg_push (lk p) _ (eq None) (eq None) (obj_allocated_head p) al i None).
  - apply NoDup_cons. split; [set_solver|done].
  - apply (rep_alloc _ _ _ H).
  - done.
  - rewrite Hlk, decide_True by done. by rewrite Hhd.
  - intros y Hy. rewrite Hhd in Hy. assert (y ∈ al) by (destruct al; set_solver).
    rewrite Hlk, decide_False, decide_False, decide_True; [done|done| |set_solver].
    intros Hf. apply (Hd y); [destruct fr; set_solver|done].
  - intros y Hy Hh. rewrite Hhd in Hh.
    rewrite Hlk, !decide_False; [done|congruence| |set_solver].
    intros Hf. apply (Hd y); [destruct fr; set_solver|done].
Qed.

Lemma pool_after_alloc_rep p i fr al :
  pool_rep p (i :: fr) al -> pool_rep (pool_after_alloc p i (head fr)) fr (i :: al).
Proof.
  intros H. pose proof (rep_length _ _ _ H) as Hlen. simpl in Hlen.
  destruct (rep_size _ _ _ H) as (Hs & Hm & Hb). pose proof (rep_num _ _ _ H) as Hn.
  assert (Hsize : length (obj_list (pool_after_alloc p i (head fr))) = length (obj_list p)).
  { simpl. by rewrite ?length_alter, length_alter_opt, ?length_alter, length_alter_opt. }
  split.
  - done.
  - by eapply pool_after_alloc_free.
  - by apply pool_after_alloc_alloc.
  - rewrite Hsize, <- (rep_perm _ _ _ H). simpl. by rewrite Permutation_middle.
  - simpl. rewrite (rep_free_num _ _ _ H). simpl. rewrite u32_small; lia.
  - simpl. rewrite (rep_alloc_num _ _ _ H). simpl. rewrite u32_small; lia.
  - intros j o (o' & Ho & -> & _)%pool_after_alloc_data. by apply (rep_buf _ _ _ H).
  - intros j o (o' & Ho & _ & ->)%pool_after_alloc_data. rewrite (rep_status _ _ _ H _ _ Ho).
    destruct (decide (i = j)) as [<-|]; [by rewrite decide_True by set_solver|].
    apply decide_ext. set_solver.
  - by rewrite Hsize.
  - done.
Qed.
End pool_alloc.

Section pool_free.
Implicit Types p : txc_pool_t.

(** The object freed, its neighbours on the allocated list and its links. *)
Lemma rep_alloc_links p fr al1 i al2 :
  pool_rep p fr (al1 ++ i :: al2) ->
  exists o, obj_list p !! i = Some o /\ po_next o = head al2 /\ po_prev o = last al1.
Proof.
  intros H. destruct (dseg_middle _ _ _ _ _ _ (rep_alloc _ _ _ H)) as (q & Hq & Hl).
  unfold lk in Hq. apply fmap_Some in Hq as (o & Ho & E). simplify_eq.
  exists o. split_and!; [done|done|]. by destruct (last al1).
Qed.

Lemma pool_free_run p fr al1 i al2 lock :
  pool_rep p fr (al1 ++ i :: al2) ->
  txc_pool_object_free (obj_addr p i) lock p =
    Ret tt (pool_after_free p i (head al2) (last al1)).
Proof.
  intros H. pose proof (rep_mutex _ _ _ H) as Hm.
  assert (Hlt : forall j, j ∈ fr ++ al1 ++ i :: al2 -> (j < length (obj_list p))%nat)
    by (intros; by eapply rep_lt).
  destruct (rep_alloc_links _ _ _ _ _ H) as ([b st nx pv] & Ho & Hnx & Hpv).
  pose proof (dseg_head _ _ _ _ (rep_free _ _ _ H)) as Hf.
  destruct (rep_size _ _ _ H) as (Hs & _).
  assert (Hix : forall b', obj_index (set_mutex b' p) (obj_addr p i) = i).
  { intros b'. apply (obj_index_addr p fr (al1 ++ i :: al2)); [done|]. apply Hlt; set_solver. }
  clear H. destruct p as [m base l fh ah fn an sz num]. simpl in *. subst m fh nx pv.
  assert (Hi : (i < length l)%nat) by (apply Hlt; set_solver).
  assert (Hfr : forall j, head fr = Some j -> (j < length l)%nat)
    by (intros; apply Hlt; destruct fr; simplify_eq/=; set_solver).
  assert (Hal2 : forall j, head al2 = Some j -> (j < length l)%nat)
    by (intros; apply Hlt; destruct al2; simplify_eq/=; set_solver).
  assert (Hal1 : forall j, last al1 = Some j -> (j < length l)%nat)
    by (intros j Hj; apply Hlt; apply last_Some in Hj as [l' ->]; set_solver).
  unfold txc_pool_object_free. m_next by (by apply pool_lock_run). m_next.
  rewrite bool_decide_eq_false_2 by (simpl; lia). cbv zeta. rewrite Hix.
  m_next by (by apply obj_get_run). unfold set_mutex; simpl.
  eapply eq_trans; [apply m_bind_run|].
  { instantiate (1 := Pool lock base (alter_opt (po_set_next (head al2)) (last al1) l)
       (head fr) (match last al1 with Some _ => ah | None => head al2 end) fn an sz num).
    instantiate (1 := tt). destruct (last al1) as [q|] eqn:E; simpl; [|done].
    apply obj_upd_run. by apply Hal1. }
  cbv beta.
  m_next by (apply obj_upd_opt_run; simpl; by rewrite length_alter_opt). simpl.
  m_next by (apply obj_upd_run; simpl; by rewrite !length_alter_opt).
  m_next by (apply obj_upd_run; simpl; by rewrite length_alter, !length_alter_opt).
  m_next by (apply obj_upd_opt_run; simpl; by rewrite !length_alter, !length_alter_opt).
  m_next.
  m_next by (apply obj_upd_run; simpl; by rewrite length_alter_opt, !length_alter, !length_alter_opt).
  m_next. by apply pool_unlock_run.
Qed.

Lemma pool_after_free_lk p fr al1 i al2 j :
  pool_rep p fr (al1 ++ i :: al2) ->
  lk (pool_after_free p i (head al2) (last al1)) j =
    if decide (j = i) then Some (head fr, None)
    else if decide (Some j = last al1) then (fun l => (head al2, l.2)) <$> lk p j
    else if decide (Some j = head al2) then (fun l => (l.1, last al1)) <$> lk p j
    else if decide (Some j = head fr) then (fun l => (l.1, Some i)) <$> lk p j
    else lk p j.
Proof.
  intros H. pose proof (rep_nodup _ _ _ H) as (_ & Hd & (_ & Hd' & [Hi _]%NoDup_cons)%NoDup_app)%NoDup_app.
  pose proof (proj1 (rep_lt p fr (al1 ++ i :: al2) i H) ltac:(set_solver)) as [o Ho]%lookup_lt_is_Some_2.
  pose proof (dseg_head _ _ _ _ (rep_free _ _ _ H)) as Hf.
  assert (Hif : head fr <> Some i) by (destruct fr; set_solver).
  assert (Hi2 : head al2 <> Some i) by (destruct al2; set_solver).
  assert (Hi1 : last al1 <> Some i)
    by (intros [l' ->]%last_Some; set_solver).
  assert (H12 : forall k, last al1 = Some k -> head al2 <> Some k).
  { intros k [l' ->]%last_Some. destruct al2; set_solver. }
  assert (H1f : forall k, last al1 = Some k -> head fr <> Some k).
  { intros k [l' ->]%last_Some. destruct fr; set_solver. }
  assert (H2f : forall k, head al2 = Some k -> head fr <> Some k)
    by (destruct al2, fr; set_solver).
  unfold lk, pool_after_free; simpl. rewrite Hf.
  rewrite !alter_lookup_dec, !alter_opt_lookup_dec, !alter_lookup_dec, !alter_opt_lookup_dec.
  repeat case_decide; simplify_eq; rewrite ?Ho; try done;
    try (by exfalso; eapply H12); try (by exfalso; eapply H1f); try (by exfalso; eapply H2f);
    by destruct (obj_list p !! j).
Qed.

Lemma pool_after_free_data p i nx pv j o :
  obj_list (pool_after_free p i nx pv) !! j = Some o ->
  exists o', obj_list p !! j = Some o' /\ po_buf o = po_buf o' /\
    po_status o = if decide (i = j) then TXC_POOL_OBJECT_FREE else po_status o'.
Proof.
  simpl. rewrite !alter_lookup_dec, !alter_opt_lookup_dec, !alter_lookup_dec, !alter_opt_lookup_dec.
  destruct (obj_list p !! j) as [o'|]; [|by repeat case_decide].
  intros E. exists o'. by repeat case_decide; simplify_eq/=.
Qed.

Lemma pool_after_free_free p fr al1 i al2 :
  pool_rep p fr (al1 ++ i :: al2) ->
  dseg (lk (pool_after_free p i (head al2) (last al1))) (eq None) (Some i) (i :: fr).
Proof.
  intros H. pose proof (fun j => pool_after_free_lk p fr al1 i al2 j H) as Hlk.
  pose proof (rep_nodup _ _ _ H) as (Hfr & Hd & _)%NoDup_app.
  pose proof (dseg_head _ _ _ _ (rep_free _ _ _ H)) as Hhd.
  assert (Hn1 : forall y, y ∈ fr -> Some y <> last al1).
  { intros y Hy E. symmetry in E. apply last_Some in E as [l' ->]. apply (Hd y Hy). set_solver. }
  assert (Hn2 : forall y, y ∈ fr -> Some y <> head al2).
  { intros y Hy E. apply (Hd y Hy). destruct al2; set_solver. }
  assert (Hni : forall y, y ∈ fr -> y <> i) by (intros y Hy ->; apply (Hd i Hy); set_solver).
  apply (dseg_push (lk p) _ (eq None) (eq None) (obj_free_head p) fr i None).
  - apply NoDup_cons. split; [intros Hy; by apply (Hni i)|done].
  - apply (rep_free _ _ _ H).
  - done.
  - rewrite Hlk, decide_True by done. by rewrite Hhd.
  - intros y Hy. rewrite Hhd in Hy. assert (y ∈ fr) by (destruct fr; set_solver).
    by rewrite Hlk, !decide_False, decide_True by eauto.
  - intros y Hy Hh. rewrite Hhd in Hh. rewrite Hlk, !decide_False; eauto.
Qed.

Lemma pool_after_free_alloc p fr al1 i al2 :
  pool_rep p fr (al1 ++ i :: al2) ->
  dseg (lk (pool_after_free p i (head al2) (last al1))) (eq None)
    (match last al1 with Some _ => obj_allocated_head p | None => head al2 end) (al1 ++ al2).
Proof.
  intros H. pose proof (fun j => pool_after_free_lk p fr al1 i al2 j H) as Hlk.
  pose proof (rep_nodup _ _ _ H) as (_ & Hd & Hal)%NoDup_app.
  pose proof (dseg_middle _ _ _ _ _ _ (rep_alloc _ _ _ H)) as (q & Hq & Hl).
  assert (Hq' : q = last al1) by (by destruct (last al1)). clear Hl. subst q.
  pose proof Hal as (Ha1 & Hd12 & [Hi2 Ha2]%NoDup_cons)%NoDup_app.
  assert (Hf2 : forall y, y ∈ al1 ++ al2 -> Some y <> head fr).
  { intros y Hy E. apply (Hd y); [destruct fr; set_solver|set_solver]. }
  assert (H21 : forall y, y ∈ al2 -> Some y <> last al1).
  { intros y Hy E. symmetry in E. apply last_Some in E as [l' ->]. apply (Hd12 y); set_solver. }
  destruct al1 as [|w al1] using rev_ind.
  - apply (dseg_remove_head (lk p) _ (eq None) (eq None) (obj_allocated_head p) i al2 (head al2, None)).
    + done.
    + apply (rep_alloc _ _ _ H).
    + done.
    + intros y Hy. exists None. split; [done|]. assert (y ∈ al2) by (destruct al2; set_solver).
      rewrite Hlk, 2!decide_False, decide_True; eauto. intros ->. done.
    + intros y Hy Hh. rewrite Hlk, !decide_False; eauto; intros ->; done.
  - clear IHal1. rewrite last_snoc in *. rewrite <- (assoc (++)) in *. simpl in *.
    assert (Hw : w ∉ al2) by (intros Hw; by eapply H21).
    assert (Hwi : w <> i) by (intros ->; apply (Hd12 i); set_solver).
    apply (dseg_remove_middle (lk p) _ (eq None) (obj_allocated_head p) al1 w i al2 (head al2, Some w)).
    + done.
    + apply (rep_alloc _ _ _ H).
    + done.
    + by rewrite Hlk, decide_False, decide_True.
    + intros y Hy. assert (y ∈ al2) by (destruct al2; set_solver).
      rewrite Hlk, 2!decide_False, decide_True; eauto. intros ->. done.
    + intros y Hy Hh. rewrite Hlk, !decide_False; eauto.
      * apply Hf2. set_solver.
      * intros [= ->]. apply NoDup_app in Ha1 as (_ & Ha1 & _).
        apply elem_of_app in Hy as [Hy|Hy]; [apply (Ha1 w Hy); set_solver|done].
      * intros ->. apply elem_of_app in Hy as [Hy|Hy]; [apply (Hd12 i); set_solver|done].
Qed.

Lemma pool_after_free_rep p fr al1 i al2 :
  pool_rep p fr (al1 ++ i :: al2) ->
  pool_rep (pool_after_free p i (head al2) (last al1)) (i :: fr) (al1 ++ al2).
Proof.
  intros H. pose proof (rep_length _ _ _ H) as Hlen.
  rewrite length_app in Hlen. simpl in Hlen.
  destruct (rep_size _ _ _ H) as (Hs & Hm & Hb). pose proof (rep_num _ _ _ H) as Hn.
  pose proof (rep_nodup _ _ _ H) as (_ & Hd & (_ & Hd12 & [Hi2 _]%NoDup_cons)%NoDup_app)%NoDup_app.
  assert (Hsize : length (obj_list (pool_after_free p i (head al2) (last al1))) = length (obj_list p)).
  { simpl. by rewrite !length_alter, length_alter_opt, !length_alter, !length_alter_opt. }
  split.
  - done.
  - by eapply pool_after_free_free.
  - by eapply pool_after_free_alloc.
  - rewrite Hsize, <- (rep_perm _ _ _ H). simpl. by rewrite <- !Permutation_middle.
  - simpl. rewrite (rep_free_num _ _ _ H). simpl. rewrite u32_small; lia.
  - simpl. rewrite (rep_alloc_num _ _ _ H), !length_app. simpl. rewrite u32_small; lia.
  - intros j o (o' & Ho & -> & _)%pool_after_free_data. by apply (rep_buf _ _ _ H).
  - intros j o (o' & Ho & _ & ->)%pool_after_free_data. rewrite (rep_status _ _ _ H _ _ Ho).
    destruct (decide (i = j)) as [<-|].
    + rewrite decide_False; [done|]. intros [Hy|Hy]%elem_of_app; [|done].
      apply (Hd12 i Hy). set_solver.
    + apply decide_ext. set_solver.
  - by rewrite Hsize.
  - done.
Qed.
End pool_free.

(** ** Creation *)

Section pool_create.
(** A chain of objects each linked to its index neighbours is a list. *)
Lemma dseg_seq (lk : nat -> option links) (n : nat) (a : nat) p :
  (forall k, (a <= k < a + n)%nat -> exists q,
     lk k = Some (if bool_decide (S k = a + n)%nat then None else Some (S k), q) /\
     q = if bool_decide (k = a) then p else Some (Nat.pred k)) ->
  dseg lk (eq p) (if bool_decide (n = 0)%nat then None else Some a) (seq a n).
Proof.
  revert a p. induction n as [|n IH]; intros a p Hk; [done|].
  simpl. split; [done|]. destruct (Hk a) as (q & Hq & E); [lia|].
  rewrite bool_decide_eq_true_2 in E by done.
  exists (if bool_decide (n = 0)%nat then None else Some (S a)), q. split_and!.
  - rewrite Hq. repeat case_bool_decide; (done || lia).
  - done.
  - apply IH. intros k Hle. destruct (Hk k) as (q' & Hq' & E'); [lia|].
    exists q'. rewrite Hq', E'. repeat case_bool_decide; subst; try done; lia.
Qed.

(** The array [txc_pool_create] builds. *)
Definition create_objs (base size num : Z) : list txc_pool_object_t :=
  alter (po_set_prev None) 0%nat
    (alter (po_set_next None) (Z.to_nat (num - 1)) (pool_object_init base size num <$> seqZ 0 num)).

Lemma create_objs_length base size num :
  length (create_objs base size num) = Z.to_nat num.
Proof. unfold create_objs. by rewrite !length_alter, length_fmap, length_seqZ. Qed.

Lemma create_objs_lookup base size num (k : nat) :
  0 < num < 2 ^ 32 -> (k < Z.to_nat num)%nat ->
  create_objs base size num !! k = Some (PoolObject (base + u32 (Z.of_nat k * size))
    TXC_POOL_OBJECT_FREE
    (if bool_decide (S k = Z.to_nat num) then None else Some (S k))
    (if bool_decide (k = 0)%nat then None else Some (Nat.pred k))).
Proof.
  intros Hn Hk. unfold create_objs. rewrite !alter_lookup_dec, list_lookup_fmap.
  rewrite (proj2 (lookup_seqZ 0 num k (Z.of_nat k))) by lia. simpl.
  unfold pool_object_init.
  assert (Hnx : S k <> Z.to_nat num -> Z.to_nat (u32 (Z.of_nat k + 1) mod num) = S k).
  { intros. rewrite u32_small, Z.mod_small; lia. }
  assert (Hpv : k <> 0%nat -> Z.to_nat (u32 (Z.of_nat k - 1) mod num) = Nat.pred k).
  { intros. rewrite u32_small, Z.mod_small; lia. }
  repeat case_decide; repeat case_bool_decide; subst; simpl; try lia;
    unfold po_set_next, po_set_prev; simpl; repeat f_equal; auto; lia.
Qed.

Lemma pool_create_rep base size num :
  0 < num -> 0 < size -> num * size <= 2 ^ 32 -> num < 2 ^ 32 ->
  pool_rep (Pool false base (create_objs base size num) (Some 0%nat) None num 0 size num)
    (seq 0 (Z.to_nat num)) [].
Proof.
  intros Hn Hs Hm Hb. split; simpl; rewrite ?create_objs_length; try done; try lia.
  - pose proof (dseg_seq (lk (Pool false base (create_objs base size num) (Some 0%nat) None num 0 size num))
      (Z.to_nat num) 0 None) as Hd.
    rewrite bool_decide_eq_false_2 in Hd by lia. apply Hd. intros k Hk.
    unfold lk; simpl. rewrite create_objs_lookup by lia. simpl.
    eexists. split; [done|]. by repeat case_bool_decide; subst.
  - by rewrite app_nil_r.
  - rewrite length_seq. lia.
  - intros i o Hi. pose proof (lookup_lt_Some _ _ _ Hi) as Hlt. rewrite create_objs_length in Hlt.
    rewrite create_objs_lookup in Hi by lia. by simplify_eq.
  - intros i o Hi. pose proof (lookup_lt_Some _ _ _ Hi) as Hlt. rewrite create_objs_length in Hlt.
    rewrite create_objs_lookup in Hi by lia. by simplify_eq.
Qed.
End pool_create.

(** ** Walking a list of the pool *)

Section pool_walk.
Implicit Types p : txc_pool_t.

Lemma pool_walk_run p P h xs fuel :
  (forall i o, obj_list p !! i = Some o -> po_buf o = obj_addr p i) ->
  dseg (lk p) P h xs -> (length xs <= fuel)%nat ->
  pool_walk fuel h p = Ret (obj_addr p <$> xs) p.
Proof.
  intros Hb. revert P h fuel. induction xs as [|x xs IH]; intros P h fuel Hs Hf.
  - simpl in Hs. subst h. by destruct fuel.
  - destruct Hs as (-> & n & q & Hx & _ & Hs). destruct fuel as [|fuel]; simpl in Hf; [lia|].
    unfold lk in Hx. apply fmap_Some in Hx as (o & Ho & E). simplify_eq.
    simpl. unfold txc_pool_object_of, txc_pool_object_next.
    m_next by (m_next by (by apply obj_get_run); reflexivity).
    m_next by (m_next by (by apply obj_get_run); reflexivity).
    m_next by (eapply IH; [done|lia]). unfold m_ret. by rewrite (Hb _ _ Ho).
Qed.

(** The tail of a list from one of its nodes is a list. *)
Lemma dseg_suffix lk P h xs x ys :
  dseg lk P h (xs ++ x :: ys) -> dseg lk (fun _ => True) (Some x) (x :: ys).
Proof.
  revert P h. induction xs as [|z xs IH]; intros P h; simpl.
  - intros (-> & n & q & Hx & _ & Hs). eauto 10.
  - intros (_ & n & q & _ & _ & Hs). by eapply IH.
Qed.
End pool_walk.

(** ** A client of the pool

    A client holds the addresses it was given and has not given back, the most
    recent first; it asks for an object or frees one it holds. *)
Inductive pool_step : txc_pool_t * list Z -> txc_pool_t * list Z -> Prop :=
  | pool_step_alloc p live a p' :
      txc_pool_object_alloc true p = Ret (TXC_R_SUCCESS, Some a) p' ->
      pool_step (p, live) (p', a :: live)
  | pool_step_nomem p live p' :
      txc_pool_object_alloc true p = Ret (TXC_R_NOMEMORY, None) p' ->
      pool_step (p, live) (p', live)
  | pool_step_free p live1 a live2 p' :
      txc_pool_object_free a true p = Ret tt p' ->
      pool_step (p, live1 ++ a :: live2) (p', live1 ++ live2).

(** The client's view of a represented pool. *)
Definition pool_client_inv (num size base : Z) (s : txc_pool_t * list Z) : Prop :=
  exists fr al, pool_rep s.1 fr al /\ s.2 = obj_addr s.1 <$> al /\
    obj_num s.1 = num /\ obj_size s.1 = size /\ full_buf s.1 = base.

Section pool_client.
Implicit Types p : txc_pool_t.

Lemma pool_alloc_nomem p al lock :
  pool_rep p [] al -> txc_pool_object_alloc lock p = Ret (TXC_R_NOMEMORY, None) p.
Proof.
  intros H. pose proof (rep_mutex _ _ _ H) as Hm. pose proof (rep_free_num _ _ _ H) as Hn.
  unfold txc_pool_object_alloc. m_next by (by apply pool_lock_run). m_next.
  rewrite bool_decide_eq_true_2 by done. m_next. m_next by (by apply pool_unlock_run).
  destruct p; simpl in *. by subst.
Qed.

Lemma obj_addr_ext p p' :
  full_buf p' = full_buf p -> obj_size p' = obj_size p -> obj_addr p' = obj_addr p.
Proof. unfold obj_addr. by intros -> ->. Qed.

Lemma obj_addr_inj p fr al i j :
  pool_rep p fr al -> i ∈ fr ++ al -> j ∈ fr ++ al -> obj_addr p i = obj_addr p j -> i = j.
Proof.
  intros H Hi Hj E. apply (rep_lt _ _ _ _ H) in Hi, Hj.
  rewrite <- (obj_index_addr p fr al i), <- (obj_index_addr p fr al j) by done.
  by rewrite E.
Qed.

Lemma pool_live_nodup p fr al : pool_rep p fr al -> NoDup (obj_addr p <$> al).
Proof.
  intros H. apply NoDup_fmap_2_strong.
  - intros i j Hi Hj. eapply obj_addr_inj; [done|set_solver..].
  - by apply rep_nodup, NoDup_app in H as (_ & _ & ?).
Qed.

Lemma pool_step_inv num size base s s' :
  pool_client_inv num size base s -> pool_step s s' -> pool_client_inv num size base s'.
Proof.
  intros (fr & al & H & Hl & Hrest) Hstep.
  destruct Hstep as [p live a p' E|p live p' E|p live1 a live2 p' E]; simpl in *.
  - destruct fr as [|i fr]; [by rewrite (pool_alloc_nomem _ _ _ H) in E|].
    rewrite (pool_alloc_run _ _ _ _ _ H) in E. simplify_eq.
    exists fr, (i :: al). by split; [apply pool_after_alloc_rep|].
  - destruct fr as [|i fr]; [|by rewrite (pool_alloc_run _ _ _ _ _ H) in E].
    rewrite (pool_alloc_nomem _ _ _ H) in E. simplify_eq. by exists [], al.
  - symmetry in Hl. apply fmap_app_inv in Hl as (al1 & al' & -> & Hl & ->).
    symmetry in Hl. apply fmap_cons_inv in Hl as (i & al2 & -> & -> & ->).
    rewrite (pool_free_run _ _ _ _ _ _ H) in E. simplify_eq.
    exists (i :: fr), (al1 ++ al2). split; [by apply pool_after_free_rep|].
    by rewrite fmap_app.
Qed.
End pool_client.

(** ** Properties of the pool *)

(** [txc_pool_create] with the allocations granted returns a pool whose free
    stack holds every object in index order and whose allocated list is empty,
    after running the constructor once on each object's address. *)
Theorem txc_pool_create_spec {Mem} (a b base size num : Z) (c : Z -> Mem -> Mem) mem :
  0 < num < 2 ^ 32 -> 0 < size -> num * size <= 2 ^ 32 ->
  exists p, txc_pool_create (Some a) (Some b) (Some base) 0 size num (Some c) mem =
      Some (TXC_R_SUCCESS, Some p,
            foldl (fun m i => c (obj_addr p i) m) mem (seq 0 (Z.to_nat num))) /\
    pool_rep p (seq 0 (Z.to_nat num)) [].
Proof.
  intros Hn Hs Hm.
  exists (Pool false base (create_objs base size num) (Some 0%nat) None num 0 size num).
  split; [|apply pool_create_rep; lia].
  unfold txc_pool_create. rewrite bool_decide_eq_false_2 by lia.
  rewrite bool_decide_eq_false_2 by lia. do 2 f_equal.
  unfold seqZ. generalize mem. induction (seq 0 (Z.to_nat num)) as [|k l IH]; [done|].
  intros m'. simpl. rewrite IH. unfold obj_addr; simpl. by rewrite Z.add_0_r.
Qed.

Lemma txc_pool_create_spec_witness :
  exists p, txc_pool_create (Some 1) (Some 2) (Some 4096) 0 64 512 (Some (fun a m => a :: m)) [] =
      Some (TXC_R_SUCCESS, Some p,
            foldl (fun m i => obj_addr p i :: m) [] (seq 0 (Z.to_nat 512))) /\
    pool_rep p (seq 0 (Z.to_nat 512)) [].
Proof. apply (txc_pool_create_spec 1 2 4096 64 512 (fun a m => a :: m) []); lia. Defined.

(** Allocation refines popping the free stack: with a free object it returns
    success and the address of the top one, which moves to the head of the
    allocated list; with none it returns [TXC_R_NOMEMORY] and changes nothing. *)
Theorem txc_pool_object_alloc_spec p fr al lock :
  pool_rep p fr al ->
  match fr with
  | [] => txc_pool_object_alloc lock p = Ret (TXC_R_NOMEMORY, None) p
  | i :: fr' => exists p',
      txc_pool_object_alloc lock p = Ret (TXC_R_SUCCESS, Some (obj_addr p i)) p' /\
      pool_rep p' fr' (i :: al) /\ obj_addr p' = obj_addr p
  end.
Proof.
  intros H. destruct fr as [|i fr]; [by eapply pool_alloc_nomem|].
  exists (pool_after_alloc p i (head fr)). split_and!.
  - by eapply pool_alloc_run.
  - by apply pool_after_alloc_rep.
  - by apply obj_addr_ext.
Qed.

(** Freeing an allocated object's address refines moving it from the
    allocated list to the top of the free stack, wherever it is on the list. *)
Theorem txc_pool_object_free_spec p fr al1 i al2 lock :
  pool_rep p fr (al1 ++ i :: al2) ->
  exists p', txc_pool_object_free (obj_addr p i) lock p = Ret tt p' /\
    pool_rep p' (i :: fr) (al1 ++ al2) /\ obj_addr p' = obj_addr p.
Proof.
  intros H. exists (pool_after_free p i (head al2) (last al1)). split_and!.
  - by eapply pool_free_run.
  - by apply pool_after_free_rep.
  - by apply obj_addr_ext.
Qed.

(** C26: a client that only frees what it holds never breaks a pool: from a fresh
    pool, after any number of steps, the objects it holds are pairwise distinct
    and at most [num]; an allocation returns, with an address it does not hold,
    or with [TXC_R_NOMEMORY] exactly when it holds all [num]; and freeing any
    object it holds returns. *)
Theorem pool_client_safety p0 p live num :
  pool_rep p0 (seq 0 num) [] -> rtc pool_step (p0, []) (p, live) ->
  NoDup live /\ (length live <= num)%nat /\
  (exists r p', txc_pool_object_alloc true p = Ret r p' /\
     (r.1 = TXC_R_NOMEMORY <-> length live = num) /\
     (forall a, r.2 = Some a -> a ∉ live)) /\
  (forall a, a ∈ live -> exists p', txc_pool_object_free a true p = Ret tt p').
Proof.
  intros H0 Hsteps. pose proof (rep_num _ _ _ H0) as Hnum.
  pose proof (rep_length _ _ _ H0) as Hlen0. rewrite length_seq in Hlen0. simpl in Hlen0.
  assert (Hinv : pool_client_inv (obj_num p0) (obj_size p0) (full_buf p0) (p, live)).
  { cut (pool_client_inv (obj_num p0) (obj_size p0) (full_buf p0) (p0, [])).
    - intros Hi. induction Hsteps as [|x y z Hxy _ IH]; [done|].
      apply IH. by eapply pool_step_inv.
    - by exists (seq 0 num), []. }
  destruct Hinv as (fr & al & H & Hl & Hn & _). simpl in *. subst live.
  pose proof (rep_length _ _ _ H) as Hlen. pose proof (rep_num _ _ _ H) as Hn'.
  rewrite length_fmap. split_and!.
  - by eapply pool_live_nodup.
  - lia.
  - destruct fr as [|i fr].
    + eexists _, _. split; [by eapply pool_alloc_nomem|]. simpl in *.
      split; [|done]. split; [lia|done].
    + eexists _, _. split; [by eapply pool_alloc_run|]. simpl in *. split.
      * split; [done|lia].
      * intros a [= <-] (j & E & Hj)%list_elem_of_fmap.
        apply (obj_addr_inj _ _ _ _ _ H) in E as <-; [|set_solver..].
        apply rep_nodup, NoDup_app in H as (_ & Hd & _). apply (Hd i); set_solver.
  - intros a (j & -> & Hj)%list_elem_of_fmap.
    apply list_elem_of_split in Hj as (al1 & al2 & ->).
    eexists. by eapply pool_free_run.
Qed.

(** A pool of three 8-byte objects, fresh and with object 0 allocated. *)
Definition pool3 : txc_pool_t :=
  Pool false 4096 (create_objs 4096 8 3) (Some 0%nat) None 3 0 8 3.

Lemma pool3_rep : pool_rep pool3 [0; 1; 2]%nat [].
Proof. by apply (pool_create_rep 4096 8 3). Defined.

Lemma pool3_alloc_rep : pool_rep (pool_after_alloc pool3 0 (Some 1%nat)) [1; 2]%nat [0]%nat.
Proof. by apply (pool_after_alloc_rep pool3 0 [1; 2]%nat [] pool3_rep). Defined.

Lemma txc_pool_object_alloc_spec_witness :
  exists p', txc_pool_object_alloc true pool3 = Ret (TXC_R_SUCCESS, Some (obj_addr pool3 0)) p' /\
    pool_rep p' [1; 2]%nat [0]%nat /\ obj_addr p' = obj_addr pool3.
Proof. exact (txc_pool_object_alloc_spec pool3 [0; 1; 2]%nat [] true pool3_rep). Defined.

Lemma txc_pool_object_free_spec_witness :
  exists p', txc_pool_object_free 4096 true (pool_after_alloc pool3 0 (Some 1%nat)) = Ret tt p' /\
    pool_rep p' [0; 1; 2]%nat [] /\
    obj_addr p' = obj_addr (pool_after_alloc pool3 0 (Some 1%nat)).
Proof. exact (txc_pool_object_free_spec _ [1; 2]%nat [] 0 [] true pool3_alloc_rep). Defined.

Lemma pool_client_safety_witness :
  NoDup [4096] /\ (length [4096] <= 3)%nat /\
  (exists r p', txc_pool_object_alloc true (pool_after_alloc pool3 0 (Some 1%nat)) = Ret r p' /\
     (r.1 = TXC_R_NOMEMORY <-> length [4096] = 3%nat) /\
     (forall a, r.2 = Some a -> a ∉ [4096])) /\
  (forall a, a ∈ [4096] -> exists p',
     txc_pool_object_free a true (pool_after_alloc pool3 0 (Some 1%nat)) = Ret tt p').
Proof.
  apply (pool_client_safety pool3 _ [4096] 3); [exact pool3_rep|].
  eapply rtc_l; [|apply rtc_refl]. by apply pool_step_alloc.
Defined.

(** Iterating a freshly created pool with status [ALLOCATED & FREE] (how
    the managers construct their descriptors) visits the address of every object
    once, in index order, and iterating it by a status visits exactly the
    objects of that status, in the order of its list. *)
Theorem pool_for_each_spec p fr al :
  pool_rep p fr al ->
  pool_for_each (length (obj_list p)) TXC_POOL_OBJECT_FREE p = Ret (obj_addr p <$> fr) p /\
  pool_for_each (length (obj_list p)) TXC_POOL_OBJECT_ALLOCATED p = Ret (obj_addr p <$> al) p /\
  (forall n, al = [] -> fr = seq 0 (S n) ->
   pool_for_each (length (obj_list p)) 0 p = Ret (obj_addr p <$> seq 0 (length (obj_list p))) p).
Proof.
  intros H. pose proof (rep_length _ _ _ H) as Hl. split_and!.
  - eapply pool_walk_run; [apply (rep_buf _ _ _ H)|apply (rep_free _ _ _ H)|lia].
  - eapply pool_walk_run; [apply (rep_buf _ _ _ H)|apply (rep_alloc _ _ _ H)|lia].
  - intros n -> ->. simpl in Hl. rewrite length_seq in Hl.
    rewrite <- Hl at 2. rewrite Nat.add_0_r.
    eapply pool_walk_run; [apply (rep_buf _ _ _ H)| |simpl; rewrite length_seq; lia].
    pose proof (rep_free _ _ _ H) as Hf. pose proof (dseg_head _ _ _ _ Hf) as Hh.
    simpl in Hh. rewrite Hh in Hf. exact Hf.
Qed.

Lemma pool_for_each_spec_witness :
  pool_for_each 3 TXC_POOL_OBJECT_FREE pool3 = Ret [4096; 4104; 4112] pool3 /\
  pool_for_each 3 TXC_POOL_OBJECT_ALLOCATED pool3 = Ret [] pool3 /\
  (forall n, [] = [] :> list nat -> [0; 1; 2]%nat = seq 0 (S n) ->
   pool_for_each 3 0 pool3 = Ret [4096; 4104; 4112] pool3).
Proof. exact (pool_for_each_spec pool3 [0; 1; 2]%nat [] pool3_rep). Defined.

(** Once objects have been allocated, iterating with status
    [ALLOCATED & FREE] no longer reaches every object: it starts at object 0 and
    follows the one list object 0 is on, so it visits object 0 and the objects
    behind it there, and none of the other list. *)
Theorem pool_for_each_all_partial p fr al1 al2 :
  pool_rep p fr (al1 ++ 0%nat :: al2) ->
  pool_for_each (length (obj_list p)) 0 p = Ret (obj_addr p <$> 0%nat :: al2) p.
Proof.
  intros H. pose proof (rep_length _ _ _ H) as Hl. rewrite length_app in Hl.
  eapply pool_walk_run; [apply (rep_buf _ _ _ H)| |simpl in *; lia].
  eapply dseg_suffix. apply (rep_alloc _ _ _ H).
Qed.

Lemma pool_for_each_all_partial_witness :
  pool_for_each 3 0 (pool_after_alloc pool3 0 (Some 1%nat)) =
    Ret [4096] (pool_after_alloc pool3 0 (Some 1%nat)).
Proof. exact (pool_for_each_all_partial _ [1; 2]%nat [] [] pool3_alloc_rep). Defined.
