(* ===== verification/HashTable.v ===== *)
(** * The bucket hash table ([misc/hash_table.c])

    A table is an array of bucket lists; each list has a mutex, a chain of
    buckets in use and a chain of free buckets kept for reuse.  Both chains are
    doubly linked, except that a head's [prev] is left stale when the head
    before it is removed.  Keys are [unsigned int], values are pointers (an
    address as [Z], NULL as 0).

    Buckets live in a heap of their own, indexed by [nat]; the [MALLOC] of a
    bucket gives the address [brk], never used before.  [tbl_size] is the size
    given at creation. *)

From S2P Require Import Prelude Dll.

(** ** Data *)

(** [struct txc_hash_table_bucket_s] *)
Record txc_hash_table_bucket_t := Bucket {
  b_next : option nat;
  b_prev : option nat;
  b_key : Z;
  b_value : Z;
}.

(** [struct txc_hash_table_bucket_list_s] *)
Record txc_hash_table_bucket_list_t := BucketList {
  bl_mutex : bool;
  bl_head : option nat;
  bl_free : option nat;
}.

(** The memory the buckets are allocated in. *)
Record bucket_heap := BucketHeap {
  bh_mem : gmap nat txc_hash_table_bucket_t;
  bh_brk : nat;
}.

(** [struct txc_hash_table_s], with the memory of its buckets. *)
Record txc_hash_table_t := HashTable {
  tbl_size : Z;
  tbl : list txc_hash_table_bucket_list_t;
  mtsafe : bool;
  bheap : bucket_heap;
}.

(** [struct txc_hash_table_iter_s] (the table itself is the state). *)
Record txc_hash_table_iter_t := HashIter {
  it_index : Z;
  it_bucket : option nat;
}.

Definition b_set_next n b := Bucket n (b_prev b) (b_key b) (b_value b).
Definition b_set_prev n b := Bucket (b_next b) n (b_key b) (b_value b).
Definition b_set_kv k v b := Bucket (b_next b) (b_prev b) k v.
Definition bl_set_mutex m l := BucketList m (bl_head l) (bl_free l).
Definition bl_set_head h l := BucketList (bl_mutex l) h (bl_free l).
Definition bl_set_free f l := BucketList (bl_mutex l) (bl_head l) f.
Definition set_tbl t h := HashTable (tbl_size h) t (mtsafe h) (bheap h).
Definition set_bheap m h := HashTable (tbl_size h) (tbl h) (mtsafe h) m.

(** ** Memory accesses *)

Definition b_get (x : nat) : M bucket_heap txc_hash_table_bucket_t :=
  do m <- m_get ;; m_deref (bh_mem m !! x).

Definition b_upd (x : nat) (f : txc_hash_table_bucket_t -> txc_hash_table_bucket_t)
    : M bucket_heap unit :=
  do b <- b_get x ;; m_modify (fun m => BucketHeap (<[x := f b]> (bh_mem m)) (bh_brk m)).

(** [MALLOC(sizeof(txc_hash_table_bucket_t))]: NULL when [ok] is false. *)
Definition b_malloc (ok : bool) : M bucket_heap (option nat) :=
  if ok then
    do m <- m_get ;;
    m_put (BucketHeap (<[bh_brk m := Bucket None None 0 0]> (bh_mem m)) (S (bh_brk m))) ;;;
    m_ret (Some (bh_brk m))
  else m_ret None.

Definition in_heap {A} (m : M bucket_heap A) : M txc_hash_table_t A :=
  m_zoom bheap set_bheap m.

Definition tbl_get (i : nat) : M txc_hash_table_t txc_hash_table_bucket_list_t :=
  do h <- m_get ;; m_deref (tbl h !! i).

Definition tbl_upd (i : nat) f : M txc_hash_table_t unit :=
  do l <- tbl_get i ;; m_modify (fun h => set_tbl (<[i := f l]> (tbl h)) h).

(** [&h->tbl[key % h->tbl_size]] *)
Definition tbl_index (key : Z) : M txc_hash_table_t nat :=
  do h <- m_get ;;
  if bool_decide (tbl_size h = 0) then m_undef
  else m_ret (Z.to_nat (u32 key mod tbl_size h)).

(** [if (h->mtsafe == TXC_BOOL_TRUE) TXC_MUTEX_LOCK(&bucket_list->mutex);] *)
Definition tbl_lock (i : nat) : M txc_hash_table_t unit :=
  do h <- m_get ;;
  if mtsafe h then
    do l <- tbl_get i ;;
    if bl_mutex l then m_block else tbl_upd i (bl_set_mutex true)
  else m_ret tt.

Definition tbl_unlock (i : nat) : M txc_hash_table_t unit :=
  do h <- m_get ;;
  if mtsafe h then tbl_upd i (bl_set_mutex false) else m_ret tt.

(** ** Operations *)

(** [txc_hash_table_create]: [m_hp] and [m_tbl] are what [MALLOC] and [CALLOC]
    return. *)
Definition txc_hash_table_create (m_hp m_tbl : option Z) (table_size : Z) (mts : bool)
    : Z * option txc_hash_table_t :=
  match m_hp, m_tbl with
  | None, _ | _, None => (TXC_R_NOMEMORY, None)
  | Some _, Some _ =>
      (TXC_R_SUCCESS,
       Some (HashTable table_size (replicate (Z.to_nat table_size) (BucketList false None None))
               mts (BucketHeap ∅ 0)))
  end.

(** [bucket_list_add(head, bucket)], returning the new [*head]. *)
Definition bucket_list_add (head : option nat) (bucket : nat) : M bucket_heap (option nat) :=
  match head with
  | Some h => b_upd h (b_set_prev (Some bucket))
  | None => m_ret tt
  end ;;;
  b_upd bucket (b_set_next head) ;;;
  b_upd bucket (b_set_prev None) ;;;
  m_ret (Some bucket).

(** [bucket_list_remove(head, bucket)], returning the new [*head]. *)
Definition bucket_list_remove (head : option nat) (bucket : nat) : M bucket_heap (option nat) :=
  do b <- b_get bucket ;;
  if bool_decide (head = Some bucket) then
    b_upd bucket (b_set_prev None) ;;;
    m_ret (b_next b)
  else
    do p <- m_deref (b_prev b) ;;
    b_upd p (b_set_next (b_next b)) ;;;
    match b_next b with
    | Some n => b_upd n (b_set_prev (b_prev b))
    | None => m_ret tt
    end ;;;
    m_ret head.

(** The search loop of [add], [lookup] and [remove]. *)
Fixpoint find_bucket (fuel : nat) (key : Z) (o : option nat) : M bucket_heap (option nat) :=
  match o with
  | None => m_ret None
  | Some x =>
      match fuel with
      | O => m_nofuel
      | S fuel' =>
          do b <- b_get x ;;
          if bool_decide (b_key b = key) then m_ret (Some x) else find_bucket fuel' key (b_next b)
      end
  end.

(** A chain that is not circular has no more buckets than the heap. *)
Definition search (key : Z) (i : nat) : M txc_hash_table_t (option nat) :=
  do h <- m_get ;;
  do l <- tbl_get i ;;
  in_heap (find_bucket (size (bh_mem (bheap h))) (u32 key) (bl_head l)).

(** Take a bucket from the free chain, or allocate one. *)
Definition take_bucket (malloc_ok : bool) (i : nat) : M txc_hash_table_t nat :=
  do l <- tbl_get i ;;
  match bl_free l with
  | Some x =>
      do f <- in_heap (bucket_list_remove (bl_free l) x) ;;
      tbl_upd i (bl_set_free f) ;;;
      m_ret x
  | None =>
      do x <- in_heap (b_malloc malloc_ok) ;; m_deref x
  end.

Definition push_bucket (i : nat) (x : nat) : M txc_hash_table_t unit :=
  do l <- tbl_get i ;;
  do hd <- in_heap (bucket_list_add (bl_head l) x) ;;
  tbl_upd i (bl_set_head hd).

Definition txc_hash_table_add (malloc_ok : bool) (key value : Z) : M txc_hash_table_t Z :=
  do i <- tbl_index key ;;
  tbl_lock i ;;;
  do found <- search key i ;;
  do result <- match found with
    | Some _ => m_ret TXC_R_EXISTS
    | None =>
        do x <- take_bucket malloc_ok i ;;
        in_heap (b_upd x (b_set_kv (u32 key) value)) ;;;
        push_bucket i x ;;;
        m_ret TXC_R_SUCCESS
    end ;;
  tbl_unlock i ;;;
  m_ret result.

(** [lookup] and [remove] return the value stored through [value] when the key
    is found. *)
Definition txc_hash_table_lookup (key : Z) : M txc_hash_table_t (Z * option Z) :=
  do i <- tbl_index key ;;
  tbl_lock i ;;;
  do found <- search key i ;;
  do r <- match found with
    | Some x => do b <- in_heap (b_get x) ;; m_ret (TXC_R_SUCCESS, Some (b_value b))
    | None => m_ret (TXC_R_NOTEXISTS, None)
    end ;;
  tbl_unlock i ;;;
  m_ret r.

Definition txc_hash_table_remove (key : Z) : M txc_hash_table_t (Z * option Z) :=
  do i <- tbl_index key ;;
  tbl_lock i ;;;
  do found <- search key i ;;
  do r <- match found with
    | Some x =>
        do b <- in_heap (b_get x) ;;
        do l <- tbl_get i ;;
        do hd <- in_heap (bucket_list_remove (bl_head l) x) ;;
        tbl_upd i (bl_set_head hd) ;;;
        do fr <- in_heap (bucket_list_add (bl_free l) x) ;;
        tbl_upd i (bl_set_free fr) ;;;
        m_ret (TXC_R_SUCCESS, Some (b_value b))
    | None => m_ret (TXC_R_NOTEXISTS, None)
    end ;;
  tbl_unlock i ;;;
  m_ret r.

(** The loops of the iterator: the first non-empty chain from index [i] on;
    the table is read, never changed. *)
Fixpoint next_chain (t : list txc_hash_table_bucket_list_t) (i : Z) : option (Z * nat) :=
  match t with
  | [] => None
  | l :: t' =>
      match bl_head l with
      | Some x => Some (i, x)
      | None => next_chain t' (i + 1)
      end
  end.

Definition txc_hash_table_iter_init (h : txc_hash_table_t) : txc_hash_table_iter_t :=
  match next_chain (take (Z.to_nat (tbl_size h)) (tbl h)) 0 with
  | Some (i, x) => HashIter i (Some x)
  | None => HashIter 0 None
  end.

(** [txc_hash_table_iter_next]: the code, [*key], [*value] and the iterator. *)
Definition txc_hash_table_iter_next (h : txc_hash_table_t) (iter : txc_hash_table_iter_t)
    : option (Z * Z * Z * txc_hash_table_iter_t) :=
  match it_bucket iter with
  | None => Some (TXC_R_NULLITER, 0, 0, iter)
  | Some x =>
      b ← bh_mem (bheap h) !! x;
      Some (TXC_R_SUCCESS, b_key b, b_value b,
        match b_next b with
        | Some n => HashIter (it_index iter) (Some n)
        | None =>
            match next_chain (drop (Z.to_nat (it_index iter + 1)) (tbl h)) (it_index iter + 1) with
            | Some (i, y) => HashIter i (Some y)
            | None => HashIter (it_index iter) None
            end
        end)
  end.

(** The loop of the iterator's clients: [next] until it is not a success. *)
Fixpoint iter_loop (fuel : nat) (h : txc_hash_table_t) (iter : txc_hash_table_iter_t)
    : option (list (Z * Z)) :=
  match fuel with
  | O => None
  | S fuel' =>
      r ← txc_hash_table_iter_next h iter;
      match r with
      | (c, k, v, iter') =>
          if bool_decide (c = TXC_R_SUCCESS) then ((k, v) ::.) <$> iter_loop fuel' h iter'
          else Some []
      end
  end.

Definition hash_table_entries (h : txc_hash_table_t) : option (list (Z * Z)) :=
  iter_loop (S (size (bh_mem (bheap h)))) h (txc_hash_table_iter_init h).

(** ** What a chain holds *)

(** The links and the contents of a bucket. *)
Definition hlk (hp : bucket_heap) (x : nat) : option links :=
  (fun b => (b_next b, b_prev b)) <$> bh_mem hp !! x.

Definition kv (hp : bucket_heap) (x : nat) : option (Z * Z) :=
  (fun b => (b_key b, b_value b)) <$> bh_mem hp !! x.

(** A chain: the head's [prev] may be anything. *)
Definition chain (hp : bucket_heap) (o : option nat) (xs : list nat) : Prop :=
  dseg (hlk hp) (fun _ => True) o xs.

(** [hp'] differs from [hp] only in the links of the buckets of [xs]. *)
Definition hframe (xs : list nat) (hp hp' : bucket_heap) : Prop :=
  bh_brk hp' = bh_brk hp /\
  (forall z, z ∉ xs -> bh_mem hp' !! z = bh_mem hp !! z) /\
  (forall z, kv hp' z = kv hp z).

Section heap_lemmas.
Implicit Types (hp : bucket_heap) (x : nat).

Lemma b_get_run hp x b : bh_mem hp !! x = Some b -> b_get x hp = Ret b hp.
Proof. intros H. unfold b_get. m_next. by rewrite H. Qed.

Lemma b_upd_run hp x b f :
  bh_mem hp !! x = Some b ->
  b_upd x f hp = Ret tt (BucketHeap (<[x := f b]> (bh_mem hp)) (bh_brk hp)).
Proof. intros H. unfold b_upd. by m_next by (by apply b_get_run). Qed.

Lemma hframe_refl xs hp : hframe xs hp hp.
Proof. done. Qed.

Lemma hframe_trans xs ys hp1 hp2 hp3 :
  hframe xs hp1 hp2 -> hframe ys hp2 hp3 -> hframe (xs ++ ys) hp1 hp3.
Proof.
  intros (B1 & M1 & K1) (B2 & M2 & K2). split_and!; [congruence| |congruence].
  intros z Hz. rewrite M2, M1; set_solver.
Qed.

Lemma hframe_mono xs ys hp hp' : xs ⊆ ys -> hframe xs hp hp' -> hframe ys hp hp'.
Proof. intros Hs (B & Mm & K). split_and!; [done| |done]. intros z Hz. apply Mm. set_solver. Qed.

Lemma hframe_is_some xs hp hp' z :
  hframe xs hp hp' -> is_Some (bh_mem hp' !! z) <-> is_Some (bh_mem hp !! z).
Proof.
  intros (_ & _ & K). specialize (K z). unfold kv in K.
  rewrite <- (fmap_is_Some (fun b => (b_key b, b_value b))), K. apply fmap_is_Some.
Qed.

(** Writing a link of [x]. *)
Lemma hframe_upd hp x b f :
  bh_mem hp !! x = Some b -> b_key (f b) = b_key b -> b_value (f b) = b_value b ->
  hframe [x] hp (BucketHeap (<[x := f b]> (bh_mem hp)) (bh_brk hp)).
Proof.
  intros Hx Hk Hv. split_and!; [done|..].
  - intros z Hz. apply lookup_insert_ne. set_solver.
  - intros z. unfold kv; simpl. destruct (decide (x = z)) as [<-|Hz].
    + by rewrite lookup_insert_eq, Hx; simpl; rewrite Hk, Hv.
    + by rewrite lookup_insert_ne.
Qed.

Lemma chain_frame hp hp' xs o ys :
  hframe xs hp hp' -> (forall y, y ∈ ys -> y ∉ xs) -> chain hp o ys -> chain hp' o ys.
Proof.
  intros (_ & Hm & _) Hd. apply dseg_ext. intros y Hy. unfold hlk. by rewrite Hm by auto.
Qed.

Lemma chain_is_some hp o xs x : chain hp o xs -> x ∈ xs -> is_Some (bh_mem hp !! x).
Proof. intros H Hx. pose proof (dseg_lookup _ _ _ _ _ H Hx) as Hs. by apply fmap_is_Some in Hs. Qed.

Lemma chain_fuel hp o xs : chain hp o xs -> NoDup xs -> (length xs <= size (bh_mem hp))%nat.
Proof.
  intros H Hnd. rewrite <- size_dom. rewrite <- (size_list_to_set (C := gset nat) xs) by done.
  apply subseteq_size. intros x Hx%elem_of_list_to_set. apply elem_of_dom.
  by eapply chain_is_some.
Qed.

(** [bucket_list_add] pushes a bucket that is not on the chain. *)
Lemma bucket_list_add_run hp o xs x :
  chain hp o xs -> NoDup (x :: xs) -> is_Some (bh_mem hp !! x) ->
  exists hp', bucket_list_add o x hp = Ret (Some x) hp' /\
    chain hp' (Some x) (x :: xs) /\ hframe (x :: xs) hp hp'.
Proof.
  intros Hc Hnd [b Hb]. pose proof (dseg_head _ _ _ _ Hc) as ->.
  pose proof Hnd as [Hx _]%NoDup_cons. unfold bucket_list_add. destruct xs as [|y xs].
  - eexists. split_and!.
    + m_next. m_next by (by apply b_upd_run).
      m_next by (apply b_upd_run; simpl; by rewrite lookup_insert_eq). done.
    + split; [done|]. eexists _, _. split; [|done]. unfold hlk; simpl. by rewrite lookup_insert_eq.
    + eapply (hframe_mono ([x] ++ [x])); [set_solver|].
      eapply hframe_trans; [by apply (hframe_upd hp x b (b_set_next None))|].
      apply (hframe_upd _ x _ (b_set_prev None)); [|done..]. simpl. by rewrite lookup_insert_eq.
  - destruct (chain_is_some _ _ _ y Hc) as [c Hy]; [set_solver|].
    assert (x <> y) by set_solver. eexists. split_and!.
    + m_next by (by apply b_upd_run).
      m_next by (apply b_upd_run; simpl; by rewrite lookup_insert_ne by done).
      m_next by (apply b_upd_run; simpl; by rewrite lookup_insert_eq). done.
    + eapply (dseg_push (hlk hp) _ (fun _ => True) (fun _ => True)); [done..| | |]; unfold hlk; simpl.
      * by rewrite lookup_insert_eq.
      * intros z [= <-]. rewrite !lookup_insert_ne by done. by rewrite lookup_insert_eq, Hy.
      * intros z Hz Hne. rewrite !lookup_insert_ne; [done|set_solver..].
    + eapply (hframe_mono (([y] ++ [x]) ++ [x])); [set_solver|].
      eapply hframe_trans; [eapply hframe_trans|].
      * by apply (hframe_upd hp y c (b_set_prev (Some x))).
      * apply (hframe_upd _ x b (b_set_next (Some y))); [|done..]. simpl. by rewrite lookup_insert_ne.
      * apply (hframe_upd _ x _ (b_set_prev None)); [|done..]. simpl. by rewrite lookup_insert_eq.
Qed.

(** [bucket_list_remove] takes a bucket off the chain, wherever it is. *)
Lemma bucket_list_remove_head_run hp o x ys :
  chain hp o (x :: ys) -> NoDup (x :: ys) ->
  exists o' hp', bucket_list_remove o x hp = Ret o' hp' /\
    chain hp' o' ys /\ hframe (x :: ys) hp hp'.
Proof.
  intros Hc Hnd. destruct (chain_is_some _ _ _ x Hc) as [b Hb]; [set_solver|].
  pose proof (dseg_head _ _ _ _ Hc) as ->. unfold bucket_list_remove. eexists _, _. split_and!.
  - m_next by (by apply b_get_run). rewrite bool_decide_eq_true_2 by done.
    m_next by (by apply b_upd_run). done.
  - eapply (dseg_remove_head (hlk hp) _ (fun _ => True) (fun _ => True) _ x ys (b_next b, b_prev b)).
    + done.
    + done.
    + unfold hlk. by rewrite Hb.
    + intros y Hy. assert (x <> y).
      { apply NoDup_cons in Hnd as [Hx _]. intros ->. destruct ys; simplify_eq/=; set_solver. }
      exists (b_prev (default b (bh_mem hp !! y))). split; [done|].
      unfold hlk; simpl. rewrite lookup_insert_ne by done. by destruct (bh_mem hp !! y).
    + intros y Hy Hh. unfold hlk; simpl. rewrite lookup_insert_ne; [done|].
      apply NoDup_cons in Hnd as [Hx _]. set_solver.
  - eapply (hframe_mono [x]); [set_solver|]. by apply (hframe_upd hp x b (b_set_prev None)).
Qed.

Lemma bucket_list_remove_middle_run hp o xs w x ys :
  chain hp o (xs ++ w :: x :: ys) -> NoDup (xs ++ w :: x :: ys) ->
  exists hp', bucket_list_remove o x hp = Ret o hp' /\
    chain hp' o (xs ++ w :: ys) /\ hframe (xs ++ w :: x :: ys) hp hp'.
Proof.
  intros Hc Hnd. destruct (chain_is_some _ _ _ x Hc) as [b Hb]; [set_solver|].
  destruct (chain_is_some _ _ _ w Hc) as [c Hw]; [set_solver|].
  assert (b_next b = head ys /\ b_prev b = Some w) as [En Ep].
  { pose proof (dseg_app_next _ _ _ _ _ _ _ Hc) as [n Hn]. pose proof Hc as Hc'.
    unfold chain in Hc'. rewrite cons_middle, (assoc (++)) in Hc'.
    apply dseg_middle in Hc' as (q & Hq & _). unfold hlk in *. rewrite Hb in *. by simplify_eq/=. }
  pose proof Hnd as (_ & Hd & [Hwx [Hxy _]%NoDup_cons]%NoDup_cons)%NoDup_app.
  assert (o <> Some x).
  { rewrite (dseg_head _ _ _ _ Hc). destruct xs as [|z xs]; simpl; intros [= ->]; [set_solver|].
    apply (Hd x); set_solver. }
  assert (Hlk : forall m, m = BucketHeap (<[w := b_set_next (b_next b) c]> (bh_mem hp)) (bh_brk hp) ->
    forall hp', hlk hp' w = hlk m w ->
    (forall y, head ys = Some y -> hlk hp' y = (fun l => (l.1, Some w)) <$> hlk m y) ->
    (forall y, y <> w -> head ys <> Some y -> hlk hp' y = hlk m y) ->
    chain hp' o (xs ++ w :: ys)).
  { intros m -> hp' Hw' Hy' Hr.
    eapply (dseg_remove_middle (hlk hp) _ _ o xs w x ys (b_next b, b_prev b)); [done..| | | |].
    - unfold hlk. by rewrite Hb.
    - rewrite Hw'. unfold hlk; simpl. by rewrite lookup_insert_eq, Hw.
    - intros y Hy. rewrite (Hy' y Hy). unfold hlk; simpl.
      rewrite lookup_insert_ne, Ep; [done|]. destruct ys; set_solver.
    - intros y Hy Hh. rewrite Hr; [|set_solver|done]. unfold hlk; simpl.
      rewrite lookup_insert_ne; set_solver. }
  unfold bucket_list_remove. destruct ys as [|y ys]; eexists; split_and!.
  - m_next by (by apply b_get_run). rewrite bool_decide_eq_false_2 by done.
    rewrite Ep, En. m_next. m_next by (by apply b_upd_run). done.
  - eapply Hlk; [by rewrite En|done..].
  - eapply (hframe_mono [w]); [set_solver|]. by apply (hframe_upd hp w c (b_set_next None)).
  - m_next by (by apply b_get_run). rewrite bool_decide_eq_false_2 by done.
    rewrite Ep, En. m_next. m_next by (by apply b_upd_run). simpl.
    m_next by (apply b_upd_run; simpl; rewrite lookup_insert_ne by set_solver; instantiate (1 := default c (bh_mem hp !! y));
      destruct (chain_is_some _ _ _ y Hc) as [d Hy]; [set_solver|by rewrite Hy]). done.
  - destruct (chain_is_some _ _ _ y Hc) as [d Hy]; [set_solver|].
    assert (w <> y) by set_solver.
    eapply Hlk; [by rewrite En|..]; unfold hlk; simpl.
    + by rewrite lookup_insert_ne.
    + intros ? [= <-]. by rewrite lookup_insert_eq, lookup_insert_ne, Hy.
    + intros z Hz Hyz. rewrite lookup_insert_ne by congruence. done.
  - destruct (chain_is_some _ _ _ y Hc) as [d Hy]; [set_solver|].
    eapply (hframe_mono ([w] ++ [y])); [set_solver|]. eapply hframe_trans.
    + by apply (hframe_upd hp w c (b_set_next (Some y))).
    + apply (hframe_upd _ y _ (b_set_prev (Some w))); [|done..]. simpl.
      rewrite lookup_insert_ne by set_solver. by rewrite Hy.
Qed.

Lemma bucket_list_remove_run hp o xs x ys :
  chain hp o (xs ++ x :: ys) -> NoDup (xs ++ x :: ys) ->
  exists o' hp', bucket_list_remove o x hp = Ret o' hp' /\
    chain hp' o' (xs ++ ys) /\ hframe (xs ++ x :: ys) hp hp'.
Proof.
  intros Hc Hnd. destruct xs as [|w xs _] using rev_ind; [by apply bucket_list_remove_head_run|].
  rewrite <- !app_assoc in *. simpl in *.
  destruct (bucket_list_remove_middle_run _ _ _ _ _ _ Hc Hnd) as (hp' & E & Hc' & Hf).
  by exists o, hp'.
Qed.

(** The search finds the first bucket of the chain with the key. *)
Lemma find_bucket_run hp P o xs fuel k :
  dseg (hlk hp) P o xs -> (length xs <= fuel)%nat ->
  exists r, find_bucket fuel k o hp = Ret r hp /\
    match r with
    | Some x => x ∈ xs /\ exists v, kv hp x = Some (k, v)
    | None => forall x v, x ∈ xs -> kv hp x <> Some (k, v)
    end.
Proof.
  revert P o fuel. induction xs as [|x xs IH]; intros P o fuel Hs Hf.
  - simpl in Hs. subst o. exists None. split; [by destruct fuel|set_solver].
  - destruct Hs as (-> & n & q & Hx & _ & Hs). destruct fuel as [|fuel]; simpl in Hf; [lia|].
    unfold hlk in Hx. apply fmap_Some in Hx as (b & Hb & E). simplify_eq.
    simpl. setoid_rewrite (m_bind_run (b_get x) _ hp b hp); [|by apply b_get_run].
    case_bool_decide as Hk.
    + exists (Some x). split; [done|]. split; [set_solver|]. exists (b_value b).
      unfold kv. by rewrite Hb; simpl; rewrite Hk.
    + destruct (IH _ _ fuel Hs ltac:(lia)) as (r & -> & Hr). exists r. split; [done|].
      destruct r as [y|].
      * destruct Hr as (? & ?). split; [set_solver|done].
      * intros y v [->|Hy]%elem_of_cons; [|by apply Hr]. unfold kv. rewrite Hb. simpl. congruence.
Qed.
End heap_lemmas.

(** ** What a table holds *)

(** [ht_inv h held hs fs]: bucket list [i] has the buckets [hs i] in use and
    [fs i] free, and its mutex is held iff [held i]; a bucket is on one chain
    only, a bucket in use is on the chain its key hashes to, and the keys of a
    chain are distinct. *)
Record ht_inv (h : txc_hash_table_t) (held : nat -> bool) (hs fs : nat -> list nat) : Prop := {
  hi_size : 0 < tbl_size h < 2 ^ 32;
  hi_len : Z.of_nat (length (tbl h)) = tbl_size h;
  hi_mutex i l : tbl h !! i = Some l -> bl_mutex l = held i;
  hi_head i l : tbl h !! i = Some l -> chain (bheap h) (bl_head l) (hs i);
  hi_free i l : tbl h !! i = Some l -> chain (bheap h) (bl_free l) (fs i);
  hi_nodup i : NoDup (hs i ++ fs i);
  hi_disj i j x : x ∈ hs i ++ fs i -> x ∈ hs j ++ fs j -> i = j;
  hi_key i x : x ∈ hs i -> exists k v, kv (bheap h) x = Some (k, v) /\ 0 <= k < 2 ^ 32 /\
    Z.to_nat (k mod tbl_size h) = i;
  hi_uniq i x y k v w : x ∈ hs i -> y ∈ hs i ->
    kv (bheap h) x = Some (k, v) -> kv (bheap h) y = Some (k, w) -> x = y;
  hi_dom i x : x ∈ hs i ++ fs i -> is_Some (bh_mem (bheap h) !! x);
  hi_brk x : is_Some (bh_mem (bheap h) !! x) -> (x < bh_brk (bheap h))%nat
}.

Definition unlocked : nat -> bool := fun _ => false.

(** The chains [hs] over contents [kvs] hold the finite map [m]. *)
Definition chains_map (kvs : nat -> option (Z * Z)) (hs : nat -> list nat) (m : gmap Z Z) : Prop :=
  forall k v, m !! k = Some v <-> exists i x, x ∈ hs i /\ kvs x = Some (k, v).

(** The table [h] represents the finite map [m] from keys to values. *)
Definition ht_rep (h : txc_hash_table_t) (m : gmap Z Z) : Prop :=
  exists hs fs, ht_inv h unlocked hs fs /\ chains_map (kv (bheap h)) hs m.

(** The table with bucket list [i] and the heap replaced. *)
Definition ht_at (h : txc_hash_table_t) (i : nat) (l : txc_hash_table_bucket_list_t)
    (hp : bucket_heap) : txc_hash_table_t :=
  HashTable (tbl_size h) (<[i := l]> (tbl h)) (mtsafe h) hp.

Section chains_map_lemmas.
Implicit Types (kvs : nat -> option (Z * Z)) (hs : nat -> list nat) (m : gmap Z Z).

Lemma chains_map_insert kvs kvs' hs m i x k v :
  chains_map kvs hs m -> (forall j z, z ∈ hs j -> kvs' z = kvs z) ->
  kvs' x = Some (k, v) -> m !! k = None ->
  chains_map kvs' (<[i := x :: hs i]> hs) (<[k := v]> m).
Proof.
  intros Hm Hkv Hx Hnew k' v'.
  assert (Hin : forall j y, y ∈ (<[i := x :: hs i]> hs) j <-> (j = i /\ y = x) \/ y ∈ hs j).
  { intros j y. destruct (decide (i = j)) as [<-|Hj].
    - rewrite fn_lookup_insert. set_solver.
    - rewrite fn_lookup_insert_ne by done. naive_solver. }
  setoid_rewrite Hin. rewrite lookup_insert. case_decide as Hk; [subst k'|rewrite (Hm k' v')]; split.
  - intros [= <-]. exists i, x. auto.
  - intros (j & y & [[-> ->]|Hy] & Hv); [congruence|]. rewrite (Hkv j) in Hv by done.
    assert (m !! k = Some v') by (apply Hm; eauto). congruence.
  - intros (j & y & Hy & Hv). exists j, y. rewrite (Hkv j) by done. auto.
  - intros (j & y & [[-> ->]|Hy] & Hv); [congruence|]. rewrite (Hkv j) in Hv by done. eauto.
Qed.

Lemma chains_map_delete kvs kvs' hs m i a x b k v :
  chains_map kvs hs m -> (forall z, kvs' z = kvs z) -> hs i = a ++ x :: b -> kvs x = Some (k, v) ->
  x ∉ a ++ b -> (forall j y w, y ∈ hs j -> kvs y = Some (k, w) -> y = x /\ j = i) ->
  chains_map kvs' (<[i := a ++ b]> hs) (delete k m).
Proof.
  intros Hm Hkv Hi Hx Hnx Hu k' v'. setoid_rewrite Hkv.
  assert (Hin : forall j y, y ∈ (<[i := a ++ b]> hs) j <-> y ∈ hs j /\ (j = i -> y <> x)).
  { intros j y. destruct (decide (i = j)) as [<-|Hj].
    - rewrite fn_lookup_insert, Hi. set_solver.
    - rewrite fn_lookup_insert_ne by done. naive_solver. }
  setoid_rewrite Hin. rewrite lookup_delete. case_decide as Hk; [subst k'|rewrite (Hm k' v')]; split.
  - done.
  - intros (j & y & [Hy Hyx] & Hv). destruct (Hu _ _ _ Hy Hv) as [-> ->]. by destruct Hyx.
  - intros (j & y & Hy & Hv). exists j, y. split_and!; [done| |done]. intros _ ->. congruence.
  - intros (j & y & [Hy _] & Hv). eauto.
Qed.
End chains_map_lemmas.

Section table_lemmas.
Implicit Types (h : txc_hash_table_t) (l : txc_hash_table_bucket_list_t) (hp : bucket_heap).

Lemma ht_at_self h i l : tbl h !! i = Some l -> ht_at h i l (bheap h) = h.
Proof. intros H. unfold ht_at. rewrite list_insert_id by done. by destruct h. Qed.

Lemma tbl_get_run h i l hp :
  (i < length (tbl h))%nat -> tbl_get i (ht_at h i l hp) = Ret l (ht_at h i l hp).
Proof. intros H. unfold tbl_get. m_next. unfold ht_at; simpl. by rewrite list_lookup_insert_eq. Qed.

Lemma tbl_upd_run h i l hp f :
  (i < length (tbl h))%nat -> tbl_upd i f (ht_at h i l hp) = Ret tt (ht_at h i (f l) hp).
Proof.
  intros H. unfold tbl_upd. m_next by (by apply tbl_get_run).
  unfold m_modify, set_tbl, ht_at; simpl. by rewrite list_insert_insert_eq.
Qed.

Lemma in_heap_run {A} (m : M bucket_heap A) a hp' h i l hp :
  m hp = Ret a hp' -> in_heap m (ht_at h i l hp) = Ret a (ht_at h i l hp').
Proof. intros H. unfold in_heap, m_zoom; simpl. by rewrite H. Qed.

Lemma tbl_lock_run h i l hp :
  (i < length (tbl h))%nat -> bl_mutex l = false ->
  tbl_lock i (ht_at h i l hp) = Ret tt (ht_at h i (bl_set_mutex (mtsafe h) l) hp).
Proof.
  intros H Hm. unfold tbl_lock. m_next. unfold ht_at at 1; simpl. destruct (mtsafe h) eqn:E.
  - m_next by (by apply tbl_get_run). rewrite Hm. by apply tbl_upd_run.
  - destruct l; simpl in *; by subst.
Qed.

Lemma tbl_unlock_run h i l hp :
  (i < length (tbl h))%nat -> bl_mutex l = mtsafe h ->
  tbl_unlock i (ht_at h i l hp) = Ret tt (ht_at h i (bl_set_mutex false l) hp).
Proof.
  intros H Hm. unfold tbl_unlock. m_next. unfold ht_at at 1; simpl. destruct (mtsafe h) eqn:E.
  - by apply tbl_upd_run.
  - destruct l; simpl in *; by subst.
Qed.

Lemma ht_index h held hs fs key :
  ht_inv h held hs fs ->
  exists i l, i = Z.to_nat (u32 key mod tbl_size h) /\ tbl_index key h = Ret i h /\
    tbl h !! i = Some l /\ (i < length (tbl h))%nat.
Proof.
  intros H. destruct (hi_size _ _ _ _ H) as [Hs _]. pose proof (hi_len _ _ _ _ H) as Hl.
  pose proof (Z.mod_pos_bound (u32 key) (tbl_size h) Hs) as Hb.
  assert (Hi : (Z.to_nat (u32 key mod tbl_size h) < length (tbl h))%nat) by lia.
  destruct (lookup_lt_is_Some_2 _ _ Hi) as [l Hli]. exists (Z.to_nat (u32 key mod tbl_size h)), l.
  split_and!; [done| |done..]. unfold tbl_index. m_next. by rewrite bool_decide_eq_false_2 by lia.
Qed.

(** Replacing the contents of one bucket list keeps the invariant. *)
Lemma ht_inv_update h held hs fs i l l' hp' hx fx :
  ht_inv h held hs fs -> tbl h !! i = Some l -> bl_mutex l' = held i ->
  (forall j z, j <> i -> z ∈ hs j ++ fs j -> bh_mem hp' !! z = bh_mem (bheap h) !! z) ->
  chain hp' (bl_head l') hx -> chain hp' (bl_free l') fx -> NoDup (hx ++ fx) ->
  (forall j z, j <> i -> z ∈ hx ++ fx -> z ∉ hs j ++ fs j) ->
  (forall x, x ∈ hx -> exists k v, kv hp' x = Some (k, v) /\ 0 <= k < 2 ^ 32 /\
    Z.to_nat (k mod tbl_size h) = i) ->
  (forall x y k v w, x ∈ hx -> y ∈ hx -> kv hp' x = Some (k, v) -> kv hp' y = Some (k, w) -> x = y) ->
  (forall x, is_Some (bh_mem hp' !! x) -> (x < bh_brk hp')%nat) ->
  ht_inv (ht_at h i l' hp') held (<[i := hx]> hs) (<[i := fx]> fs).
Proof.
  intros H Hl Hm Hfr Hh Hf Hnd Hdj Hk Hu Hbrk.
  pose proof (lookup_lt_Some _ _ _ Hl) as Hi.
  assert (Hkv : forall j z, j <> i -> z ∈ hs j ++ fs j -> kv hp' z = kv (bheap h) z).
  { intros j z Hj Hz. unfold kv. by rewrite (Hfr j z Hj Hz). }
  assert (Hch : forall j o xs, j <> i -> (forall x, x ∈ xs -> x ∈ hs j ++ fs j) ->
    chain (bheap h) o xs -> chain hp' o xs).
  { intros j o xs Hj Hin. apply dseg_ext. intros x Hx. unfold hlk.
    by rewrite (Hfr j x Hj (Hin x Hx)). }
  assert (Hlook : forall j lj, tbl (ht_at h i l' hp') !! j = Some lj ->
    (j = i /\ lj = l') \/ (j <> i /\ tbl h !! j = Some lj)).
  { intros j lj. unfold ht_at; simpl. rewrite list_lookup_insert. case_decide; naive_solver. }
  split.
  - apply (hi_size _ _ _ _ H).
  - simpl. rewrite length_insert. apply (hi_len _ _ _ _ H).
  - intros j lj [[-> ->]|[Hj E]]%Hlook; [done|by apply (hi_mutex _ _ _ _ H)].
  - intros j lj [[-> ->]|[Hj E]]%Hlook; [by rewrite fn_lookup_insert|].
    rewrite fn_lookup_insert_ne by done.
    apply (Hch j); [done|set_solver|by apply (hi_head _ _ _ _ H)].
  - intros j lj [[-> ->]|[Hj E]]%Hlook; [by rewrite fn_lookup_insert|].
    rewrite fn_lookup_insert_ne by done.
    apply (Hch j); [done|set_solver|by apply (hi_free _ _ _ _ H)].
  - intros j. destruct (decide (i = j)) as [<-|Hj]; [by rewrite !fn_lookup_insert|].
    rewrite !fn_lookup_insert_ne by done. apply (hi_nodup _ _ _ _ H).
  - intros j k x. destruct (decide (i = j)) as [<-|Hj], (decide (i = k)) as [<-|Hk'];
      rewrite ?fn_lookup_insert, ?(fn_lookup_insert_ne _ i j), ?(fn_lookup_insert_ne _ i k) by done.
    + done.
    + intros Hx Hy. destruct (Hdj k x (not_eq_sym Hk') Hx Hy).
    + intros Hx Hy. destruct (Hdj j x (not_eq_sym Hj) Hy Hx).
    + apply (hi_disj _ _ _ _ H).
  - intros j x. destruct (decide (i = j)) as [<-|Hj].
    + rewrite fn_lookup_insert. apply Hk.
    + rewrite fn_lookup_insert_ne by done. intros Hx. simpl.
      rewrite (Hkv j) by set_solver. by apply (hi_key _ _ _ _ H).
  - intros j x y k v w. destruct (decide (i = j)) as [<-|Hj].
    + rewrite fn_lookup_insert. apply Hu.
    + rewrite fn_lookup_insert_ne by done. intros Hx Hy. simpl.
      rewrite !(Hkv j) by set_solver. by apply (hi_uniq _ _ _ _ H j).
  - intros j x. simpl. destruct (decide (i = j)) as [<-|Hj].
    + rewrite !fn_lookup_insert. intros [Hx|Hx]%elem_of_app; [by apply (chain_is_some _ _ _ _ Hh)|by apply (chain_is_some _ _ _ _ Hf)].
    + rewrite !fn_lookup_insert_ne by done. intros Hx. rewrite (Hfr j) by done.
      by apply (hi_dom _ _ _ _ H j).
  - apply Hbrk.
Qed.
End table_lemmas.

Definition brk_ok (hp : bucket_heap) : Prop :=
  forall x, is_Some (bh_mem hp !! x) -> (x < bh_brk hp)%nat.

Lemma brk_ok_frame xs hp hp' : hframe xs hp hp' -> brk_ok hp -> brk_ok hp'.
Proof.
  intros Hf Hb x Hx. rewrite (proj1 Hf). apply Hb. by apply (hframe_is_some _ _ _ _ Hf).
Qed.

Section focus_lemmas.
Implicit Types (h : txc_hash_table_t) (l : txc_hash_table_bucket_list_t) (hp : bucket_heap).

Lemma search_run h held hs fs i l m key :
  ht_inv h held hs fs -> tbl h !! i = Some l ->
  exists r, search key i (ht_at h i (bl_set_mutex m l) (bheap h)) =
      Ret r (ht_at h i (bl_set_mutex m l) (bheap h)) /\
    match r with
    | Some x => x ∈ hs i /\ exists v, kv (bheap h) x = Some (u32 key, v)
    | None => forall x v, x ∈ hs i -> kv (bheap h) x <> Some (u32 key, v)
    end.
Proof.
  intros H Hl. pose proof (lookup_lt_Some _ _ _ Hl) as Hi.
  pose proof (hi_head _ _ _ _ H _ _ Hl) as Hc. pose proof (hi_nodup _ _ _ _ H i) as Hnd.
  apply NoDup_app in Hnd as (Hnd & _).
  destruct (find_bucket_run _ _ _ _ (size (bh_mem (bheap h))) (u32 key) Hc) as (r & Hr & Hp).
  { by eapply chain_fuel. }
  exists r. split; [|done]. unfold search. m_next. m_next by (by apply tbl_get_run).
  by apply in_heap_run.
Qed.

Lemma take_bucket_run h i l hp a f :
  (i < length (tbl h))%nat -> chain hp (bl_free l) f -> NoDup (a ++ f) -> brk_ok hp ->
  (forall x, x ∈ a ++ f -> is_Some (bh_mem hp !! x)) ->
  exists x l' hp' f', take_bucket true i (ht_at h i l hp) = Ret x (ht_at h i l' hp') /\
    (bl_mutex l', bl_head l') = (bl_mutex l, bl_head l) /\
    chain hp' (bl_free l') f' /\ is_Some (bh_mem hp' !! x) /\
    (x ∈ f \/ bh_mem hp !! x = None) /\ f' ⊆ f /\ NoDup (a ++ x :: f') /\
    (forall z, z ∉ x :: f -> bh_mem hp' !! z = bh_mem hp !! z) /\
    (forall z, is_Some (bh_mem hp !! z) -> kv hp' z = kv hp z) /\ brk_ok hp'.
Proof.
  intros Hi Hf Hnd Hb Hdom. destruct f as [|x f].
  - simpl in Hf. assert (Hnone : bh_mem hp !! bh_brk hp = None).
    { destruct (bh_mem hp !! bh_brk hp) eqn:E; [|done]. specialize (Hb (bh_brk hp)).
      rewrite E in Hb. specialize (Hb ltac:(by eexists)). lia. }
    eexists (bh_brk hp), l, (BucketHeap (<[bh_brk hp := Bucket None None 0 0]> (bh_mem hp)) (S (bh_brk hp))), [].
    split_and!.
    + unfold take_bucket. m_next by (by apply tbl_get_run). rewrite Hf.
      m_next by (by apply in_heap_run). done.
    + done.
    + done.
    + simpl. by rewrite lookup_insert_eq.
    + by right.
    + done.
    + rewrite app_nil_r in Hnd. apply NoDup_app. split_and!; [done| |apply NoDup_singleton].
      intros z Hz ->%list_elem_of_singleton. destruct (Hdom (bh_brk hp)); [set_solver|congruence].
    + intros z Hz. simpl. rewrite lookup_insert_ne; [done|set_solver].
    + intros z [b Hz]. unfold kv; simpl. rewrite lookup_insert_ne; [done|congruence].
    + intros z. simpl. rewrite lookup_insert. case_decide; [lia|]. intros Hz. specialize (Hb z Hz). lia.
  - assert (Hndf : NoDup (x :: f)) by (by apply NoDup_app in Hnd as (_ & _ & ?)).
    destruct (bucket_list_remove_run hp _ [] x f Hf Hndf) as (o' & hp' & E & Hc & Hfr).
    simpl in *. pose proof (dseg_head _ _ _ _ Hf) as Hh.
    eexists x, (bl_set_free o' l), hp', f. split_and!.
    + unfold take_bucket. m_next by (by apply tbl_get_run). rewrite Hh in E |- *. cbn [head].
      m_next by (by apply in_heap_run). m_next by (by apply tbl_upd_run). done.
    + done.
    + done.
    + apply (hframe_is_some _ _ _ _ Hfr). eapply chain_is_some; [exact Hf|set_solver].
    + left. set_solver.
    + set_solver.
    + done.
    + intros z Hz. apply (proj1 (proj2 Hfr)). set_solver.
    + intros z _. by apply Hfr.
    + by eapply brk_ok_frame.
Qed.

Lemma push_bucket_run h i l hp a x :
  (i < length (tbl h))%nat -> chain hp (bl_head l) a -> NoDup (x :: a) -> is_Some (bh_mem hp !! x) ->
  exists hp', push_bucket i x (ht_at h i l hp) = Ret tt (ht_at h i (bl_set_head (Some x) l) hp') /\
    chain hp' (Some x) (x :: a) /\ hframe (x :: a) hp hp'.
Proof.
  intros Hi Hc Hnd Hx. destruct (bucket_list_add_run _ _ _ _ Hc Hnd Hx) as (hp' & E & Hc' & Hf).
  exists hp'. split_and!; [|done|done]. unfold push_bucket.
  m_next by (by apply tbl_get_run). m_next by (by apply in_heap_run). by apply tbl_upd_run.
Qed.

(** Initialising the key and the value of a bucket. *)
Lemma set_kv_run hp x k v :
  is_Some (bh_mem hp !! x) -> brk_ok hp ->
  exists hp', b_upd x (b_set_kv k v) hp = Ret tt hp' /\ kv hp' x = Some (k, v) /\
    (forall z, z <> x -> bh_mem hp' !! z = bh_mem hp !! z) /\ brk_ok hp' /\ is_Some (bh_mem hp' !! x) /\
    (forall o xs, chain hp o xs -> chain hp' o xs).
Proof.
  intros [b Hb] Hk. eexists. split; [by apply b_upd_run|]. simpl. split_and!.
  - unfold kv; simpl. by rewrite lookup_insert_eq.
  - intros z Hz. by rewrite lookup_insert_ne.
  - intros z. simpl. rewrite lookup_insert. case_decide; [subst; intros _|]; apply Hk. by eexists.
  - by rewrite lookup_insert_eq.
  - intros o xs. apply dseg_ext. intros z _. unfold hlk; simpl. rewrite lookup_insert.
    case_decide; [subst; by rewrite Hb|done].
Qed.
End focus_lemmas.

Section table_ops.
Implicit Types (h : txc_hash_table_t) (l : txc_hash_table_bucket_list_t) (hp : bucket_heap) (m : gmap Z Z).

(** The key found, or absent, in its bucket list is so in the map. *)
Lemma rep_found h hs fs m i l key r :
  ht_inv h unlocked hs fs -> tbl h !! i = Some l -> i = Z.to_nat (u32 key mod tbl_size h) ->
  chains_map (kv (bheap h)) hs m ->
  match r with
  | Some x => x ∈ hs i /\ exists v, kv (bheap h) x = Some (u32 key, v)
  | None => forall x v, x ∈ hs i -> kv (bheap h) x <> Some (u32 key, v)
  end ->
  match r with
  | Some x => exists v, kv (bheap h) x = Some (u32 key, v) /\ m !! u32 key = Some v
  | None => m !! u32 key = None
  end.
Proof.
  intros H Hl Hi Hm. destruct r as [x|].
  - intros (Hx & v & Hv). exists v. split; [done|]. apply Hm. eauto.
  - intros Hno. apply eq_None_not_Some. intros [v Hv]. apply Hm in Hv as (j & x & Hx & Hkv).
    destruct (hi_key _ _ _ _ H _ _ Hx) as (k & w & Hk & _ & Hj). simplify_eq.
    by eapply Hno.
Qed.

Lemma lookup_run h m key :
  ht_rep h m ->
  txc_hash_table_lookup key h =
    Ret (match m !! u32 key with Some v => (TXC_R_SUCCESS, Some v) | None => (TXC_R_NOTEXISTS, None) end) h.
Proof.
  intros (hs & fs & H & Hm).
  destruct (ht_index _ _ _ _ key H) as (i & l & Hi & Hix & Hl & Hlt).
  destruct (search_run _ _ _ _ _ _ (mtsafe h) key H Hl) as (r & Hr & Hp).
  pose proof (rep_found _ _ _ _ _ _ _ _ H Hl Hi Hm Hp) as Hf.
  pose proof (hi_mutex _ _ _ _ H _ _ Hl) as Hmx.
  unfold txc_hash_table_lookup. m_next by apply Hix.
  rewrite <- (ht_at_self _ _ _ Hl) at 1. m_next by (by apply tbl_lock_run). m_next by apply Hr. cbv iota.
  assert (Hfin : ht_at h i (bl_set_mutex false (bl_set_mutex (mtsafe h) l)) (bheap h) = h).
  { rewrite <- (ht_at_self _ _ _ Hl) at 4. destruct l; simpl in *. by subst. }
  destruct r as [x|].
  - destruct Hf as (v & Hv & ->). unfold kv in Hv. apply fmap_Some in Hv as (b & Hb & E). simplify_eq.
    m_next by (m_next by (by apply in_heap_run, b_get_run); reflexivity).
    m_next by (by apply tbl_unlock_run). by rewrite Hfin.
  - rewrite Hf. m_next. m_next by (by apply tbl_unlock_run). by rewrite Hfin.
Qed.

Lemma add_exists_run h m key value ok :
  ht_rep h m -> is_Some (m !! u32 key) -> txc_hash_table_add ok key value h = Ret TXC_R_EXISTS h.
Proof.
  intros (hs & fs & H & Hm) Hex.
  destruct (ht_index _ _ _ _ key H) as (i & l & Hi & Hix & Hl & Hlt).
  destruct (search_run _ _ _ _ _ _ (mtsafe h) key H Hl) as (r & Hr & Hp).
  pose proof (rep_found _ _ _ _ _ _ _ _ H Hl Hi Hm Hp) as Hf.
  pose proof (hi_mutex _ _ _ _ H _ _ Hl) as Hmx.
  unfold txc_hash_table_add. m_next by apply Hix.
  rewrite <- (ht_at_self _ _ _ Hl) at 1. m_next by (by apply tbl_lock_run). m_next by apply Hr. cbv iota.
  destruct r as [x|]; [|rewrite Hf in Hex; by destruct Hex].
  m_next. m_next by (by apply tbl_unlock_run).
  assert (ht_at h i (bl_set_mutex false (bl_set_mutex (mtsafe h) l)) (bheap h) = h) as ->; [|done].
  rewrite <- (ht_at_self _ _ _ Hl) at 4. destruct l; simpl in *. by subst.
Qed.


(** What [add] does to bucket list [i] when the key is absent: the bucket [x],
    free before or new, is pushed on the chain. *)
Lemma add_new_steps h hs fs i l key value :
  ht_inv h unlocked hs fs -> tbl h !! i = Some l -> tbl_index key h = Ret i h ->
  (forall x v, x ∈ hs i -> kv (bheap h) x <> Some (u32 key, v)) ->
  exists x l' hp' f', txc_hash_table_add true key value h = Ret TXC_R_SUCCESS (ht_at h i l' hp') /\
    bl_mutex l' = false /\ chain hp' (bl_head l') (x :: hs i) /\ chain hp' (bl_free l') f' /\
    NoDup ((x :: hs i) ++ f') /\ (x ∈ fs i \/ bh_mem (bheap h) !! x = None) /\ f' ⊆ fs i /\
    (forall z, z ∉ x :: hs i ++ fs i -> bh_mem hp' !! z = bh_mem (bheap h) !! z) /\
    (forall z, z ∈ hs i -> kv hp' z = kv (bheap h) z) /\ kv hp' x = Some (u32 key, value) /\ brk_ok hp'.
Proof.
  intros H Hl Hix Hp. pose proof (lookup_lt_Some _ _ _ Hl) as Hlt.
  destruct (search_run _ _ _ _ _ _ (mtsafe h) key H Hl) as (r & Hr & Hpr).
  assert (r = None) as -> by (destruct r as [x|]; [destruct Hpr as (? & ? & ?); naive_solver|done]).
  pose proof (hi_mutex _ _ _ _ H _ _ Hl) as Hmx.
  pose proof (hi_head _ _ _ _ H _ _ Hl) as Hch. pose proof (hi_nodup _ _ _ _ H i) as Hnd.
  destruct (take_bucket_run h i (bl_set_mutex (mtsafe h) l) (bheap h) (hs i) (fs i))
    as (x & l1 & hp1 & f1 & E1 & El1 & Hc1 & Hx1 & Hxf & Hf1 & Hnd1 & Hfr1 & Hkv1 & Hb1);
    [done|exact (hi_free _ _ _ _ H _ _ Hl)|done|exact (hi_brk _ _ _ _ H)|exact (hi_dom _ _ _ _ H i)|].
  destruct (set_kv_run hp1 x (u32 key) value Hx1 Hb1) as (hp2 & E2 & Hkv2 & Hfr2 & Hb2 & Hx2 & Hc2).
  pose proof Hnd1 as (Hnda & Hdis & [Hxf1 Hndf]%NoDup_cons)%NoDup_app.
  assert (Hxh : x ∉ hs i) by (intros Hx; apply (Hdis x Hx); set_solver).
  pose proof (proj1 (NoDup_app _ _) Hnd) as (_ & Hhf & _).
  destruct (push_bucket_run h i l1 hp2 (hs i) x) as (hp3 & E3 & Hc3 & Hfr3); [done| | |done|].
  { apply Hc2. injection El1 as _ ->. eapply dseg_ext; [|exact Hch].
    intros y Hy. unfold hlk. rewrite Hfr1; [done|]. specialize (Hhf y Hy). set_solver. }
  { by apply NoDup_cons. }
  pose proof (proj2 (proj2 Hfr3)) as Hkv3. injection El1 as El1 _.
  exists x, (bl_set_mutex false (bl_set_head (Some x) l1)), hp3, f1. split_and!; try done.
  - unfold txc_hash_table_add. m_next by apply Hix.
    rewrite <- (ht_at_self _ _ _ Hl) at 1. m_next by (by apply tbl_lock_run). m_next by apply Hr. cbv iota.
    m_next by (m_next by apply E1; m_next by (apply in_heap_run; apply E2); m_next by apply E3; reflexivity).
    by m_next by (by apply tbl_unlock_run).
  - simpl. eapply chain_frame; [exact Hfr3| |by apply Hc2].
    intros y Hy [->|Hy']%elem_of_cons; [done|]. apply (Hdis y Hy'). set_solver.
  - apply NoDup_cons. split; [set_solver|]. apply NoDup_app. split_and!; [done| |done].
    intros z Hz Hz'. apply (Hdis z Hz). set_solver.
  - intros z Hz. rewrite (proj1 (proj2 Hfr3)), Hfr2, Hfr1; [done|set_solver..].
  - intros z Hz. rewrite Hkv3. unfold kv at 1. rewrite Hfr2 by (intros ->; done).
    apply Hkv1, (hi_dom _ _ _ _ H i). set_solver.
  - by rewrite Hkv3.
  - by eapply brk_ok_frame.
Qed.

Lemma add_new_run h m key value :
  ht_rep h m -> m !! u32 key = None ->
  exists h', txc_hash_table_add true key value h = Ret TXC_R_SUCCESS h' /\
    ht_rep h' (<[u32 key := value]> m) /\ tbl_size h' = tbl_size h /\ mtsafe h' = mtsafe h.
Proof.
  intros (hs & fs & H & Hm) Hnew.
  destruct (ht_index _ _ _ _ key H) as (i & l & Hi & Hix & Hl & Hlt).
  assert (Hp : forall x v, x ∈ hs i -> kv (bheap h) x <> Some (u32 key, v)).
  { intros x v Hx Hkv. assert (m !! u32 key = Some v) by (apply Hm; eauto). congruence. }
  destruct (add_new_steps _ _ _ _ _ _ value H Hl Hix Hp)
    as (x & l' & hp' & f' & E & Hmx & Hc & Hcf & Hnd & Hx & Hf & Hfr & Hkv & Hkvx & Hb).
  assert (Hout : forall j z, j <> i -> z ∈ hs j ++ fs j -> z <> x /\ z ∉ hs i ++ fs i).
  { intros j z Hj Hz. assert (z ∉ hs i ++ fs i).
    { intros Hz'. by apply Hj, (hi_disj _ _ _ _ H _ _ z). }
    split; [|done]. intros ->. destruct Hx as [Hx|Hx]; [set_solver|].
    destruct (hi_dom _ _ _ _ H j x Hz). congruence. }
  assert (Hsame : forall j z, j <> i -> z ∈ hs j ++ fs j -> bh_mem hp' !! z = bh_mem (bheap h) !! z).
  { intros j z Hj Hz. apply Hfr. destruct (Hout j z Hj Hz). set_solver. }
  eexists. split_and!; [exact E| |done|done]. exists (<[i := x :: hs i]> hs), (<[i := f']> fs). split.
  - eapply ht_inv_update; [done|done|done|exact Hsame|done|done|done| | | |exact Hb].
    + intros j z Hj Hz Hz'. destruct (Hout j z Hj Hz'). set_solver.
    + intros y [->|Hy]%elem_of_cons; [|rewrite Hkv by done; by apply (hi_key _ _ _ _ H)].
      exists (u32 key), value. split_and!; [done|apply u32_range..|done].
    + intros y z k v w [->|Hy]%elem_of_cons [->|Hz]%elem_of_cons; [done|..].
      * rewrite Hkvx, Hkv by done. intros [= <- <-] Hz'. by apply Hp in Hz'.
      * rewrite Hkvx, Hkv by done. intros Hy' [= <- <-]. by apply Hp in Hy'.
      * rewrite !Hkv by done. by apply (hi_uniq _ _ _ _ H i).
  - eapply chains_map_insert; [done| |done|done]. intros j z Hz. simpl.
    destruct (decide (j = i)) as [->|Hj]; [by apply Hkv|].
    unfold kv. rewrite (Hsame j); [done|done|set_solver].
Qed.

(** What [remove] does to bucket list [i] when it holds the key in [x]. *)
Lemma remove_steps h hs fs i l key a x b v :
  ht_inv h unlocked hs fs -> tbl h !! i = Some l -> tbl_index key h = Ret i h ->
  hs i = a ++ x :: b -> kv (bheap h) x = Some (u32 key, v) ->
  exists l' hp', txc_hash_table_remove key h = Ret (TXC_R_SUCCESS, Some v) (ht_at h i l' hp') /\
    bl_mutex l' = false /\ chain hp' (bl_head l') (a ++ b) /\ chain hp' (bl_free l') (x :: fs i) /\
    hframe (hs i ++ fs i) (bheap h) hp'.
Proof.
  intros H Hl Hix Hhs Hkv. pose proof (lookup_lt_Some _ _ _ Hl) as Hlt.
  destruct (search_run _ _ _ _ _ _ (mtsafe h) key H Hl) as (r & Hr & Hpr).
  assert (r = Some x) as ->.
  { destruct r as [y|]; [|destruct (Hpr x v); [rewrite Hhs; set_solver|done]].
    destruct Hpr as (Hy & w & Hw). f_equal. apply (hi_uniq _ _ _ _ H i y x (u32 key) w v); try done.
    rewrite Hhs. set_solver. }
  pose proof (hi_mutex _ _ _ _ H _ _ Hl) as Hmx.
  pose proof (hi_head _ _ _ _ H _ _ Hl) as Hch. pose proof (hi_free _ _ _ _ H _ _ Hl) as Hcf.
  pose proof (proj1 (NoDup_app _ _) (hi_nodup _ _ _ _ H i)) as (Hna & Hdis & Hnf).
  rewrite Hhs in Hch, Hna, Hdis.
  destruct (bucket_list_remove_run _ _ _ _ _ Hch Hna) as (o1 & hp1 & E1 & Hc1 & Hf1).
  pose proof (proj1 (NoDup_app _ _) Hna) as (_ & Hna1 & [Hna2 _]%NoDup_cons).
  assert (Hxab : x ∉ a ++ b) by (intros [Hx|Hx]%elem_of_app; [apply (Hna1 x Hx); set_solver|done]).
  destruct (bucket_list_add_run hp1 (bl_free l) (fs i) x) as (hp2 & E2 & Hc2 & Hf2).
  { eapply chain_frame; [exact Hf1| |done]. intros y Hy Hy'. by apply (Hdis y). }
  { apply NoDup_cons. split; [apply Hdis; set_solver|done]. }
  { apply (hframe_is_some _ _ _ _ Hf1), (hi_dom _ _ _ _ H i). rewrite Hhs. set_solver. }
  pose proof (hframe_trans _ _ _ _ _ Hf1 Hf2) as Hf12.
  unfold kv in Hkv. apply fmap_Some in Hkv as (bk & Hb & Ek). simplify_eq.
  exists (bl_set_mutex false (bl_set_free (Some x) (bl_set_head o1 (bl_set_mutex (mtsafe h) l)))), hp2.
  split_and!; [|done| |done|].
  - unfold txc_hash_table_remove. m_next by apply Hix.
    rewrite <- (ht_at_self _ _ _ Hl) at 1. m_next by (by apply tbl_lock_run). m_next by apply Hr. cbv iota.
    m_next by (m_next by (by apply in_heap_run, b_get_run); m_next by (by apply tbl_get_run);
      m_next by (apply in_heap_run; apply E1); m_next by (by apply tbl_upd_run);
      m_next by (apply in_heap_run; apply E2); m_next by (by apply tbl_upd_run); reflexivity).
    by m_next by (by apply tbl_unlock_run).
  - simpl. eapply chain_frame; [exact Hf2| |exact Hc1].
    intros y Hy [->|Hy']%elem_of_cons; [done|]. apply (Hdis y); [set_solver|done].
  - eapply hframe_mono; [|exact Hf12]. rewrite Hhs. set_solver.
Qed.

Lemma remove_run h m key v :
  ht_rep h m -> m !! u32 key = Some v ->
  exists h', txc_hash_table_remove key h = Ret (TXC_R_SUCCESS, Some v) h' /\
    ht_rep h' (delete (u32 key) m) /\ tbl_size h' = tbl_size h /\ mtsafe h' = mtsafe h.
Proof.
  intros (hs & fs & H & Hm) Hv. pose proof Hv as (i & x & Hx & Hkv)%Hm.
  destruct (ht_index _ _ _ _ key H) as (i' & l & Hi & Hix & Hl & Hlt).
  destruct (hi_key _ _ _ _ H _ _ Hx) as (k & w & Hk & _ & Hki). rewrite Hkv in Hk.
  injection Hk as <- <-. assert (i' = i) as -> by congruence.
  apply list_elem_of_split in Hx as (a & b & Hhs).
  destruct (remove_steps _ _ _ _ _ _ _ _ _ _ H Hl Hix Hhs Hkv) as (l' & hp' & E & Hmx & Hc & Hcf & Hfr).
  pose proof (hi_nodup _ _ _ _ H i) as Hnd.
  assert (Hperm : (a ++ b) ++ x :: fs i ≡ₚ hs i ++ fs i).
  { rewrite Hhs, <- Permutation_middle. by rewrite <- (Permutation_middle a b x). }
  eexists. split_and!; [exact E| |done|done].
  exists (<[i := a ++ b]> hs), (<[i := x :: fs i]> fs). split.
  - eapply ht_inv_update; [done|done|done| |done|done|by rewrite Hperm| | | |].
    + intros j z Hj Hz. apply (proj1 (proj2 Hfr)). intros Hz'. by apply Hj, (hi_disj _ _ _ _ H _ _ z).
    + intros j z Hj Hz Hz'. rewrite Hperm in Hz. by apply Hj, (hi_disj _ _ _ _ H _ _ z).
    + intros y Hy. rewrite (proj2 (proj2 Hfr)). apply (hi_key _ _ _ _ H). rewrite Hhs. set_solver.
    + intros y z k v' w Hy Hz. rewrite !(proj2 (proj2 Hfr)). apply (hi_uniq _ _ _ _ H i); rewrite Hhs; set_solver.
    + eapply brk_ok_frame; [exact Hfr|]. exact (hi_brk _ _ _ _ H).
  - eapply chains_map_delete; [done|apply (proj2 (proj2 Hfr))|done|done| |].
    + rewrite Hhs in Hnd. apply NoDup_app in Hnd as (Hnd & _). rewrite <- Permutation_middle in Hnd.
      by apply NoDup_cons in Hnd as [? _].
    + intros j y w Hy Hw. destruct (hi_key _ _ _ _ H _ _ Hy) as (k & w' & Hk' & _ & Hkj).
      rewrite Hw in Hk'. injection Hk' as <- <-. rewrite <- Hi in Hkj. subst j. split; [|done].
      apply (hi_uniq _ _ _ _ H i y x (u32 key) w v); try done. rewrite Hhs. set_solver.
Qed.

Lemma remove_absent_run h m key :
  ht_rep h m -> m !! u32 key = None -> txc_hash_table_remove key h = Ret (TXC_R_NOTEXISTS, None) h.
Proof.
  intros (hs & fs & H & Hm) Hno.
  destruct (ht_index _ _ _ _ key H) as (i & l & Hi & Hix & Hl & Hlt).
  destruct (search_run _ _ _ _ _ _ (mtsafe h) key H Hl) as (r & Hr & Hp).
  pose proof (rep_found _ _ _ _ _ _ _ _ H Hl Hi Hm Hp) as Hf.
  pose proof (hi_mutex _ _ _ _ H _ _ Hl) as Hmx.
  destruct r as [x|]; [destruct Hf as (? & _ & ?); congruence|].
  unfold txc_hash_table_remove. m_next by apply Hix.
  rewrite <- (ht_at_self _ _ _ Hl) at 1. m_next by (by apply tbl_lock_run). m_next by apply Hr. cbv iota.
  m_next. m_next by (by apply tbl_unlock_run).
  assert (ht_at h i (bl_set_mutex false (bl_set_mutex (mtsafe h) l)) (bheap h) = h) as ->; [|done].
  rewrite <- (ht_at_self _ _ _ Hl) at 4. destruct l; simpl in *. by subst.
Qed.
End table_ops.

(** ** Creation and iteration *)

Section iteration.
Implicit Types (h : txc_hash_table_t) (m : gmap Z Z).

Lemma create_rep a b n mts :
  0 < n < 2 ^ 32 ->
  exists h, txc_hash_table_create (Some a) (Some b) n mts = (TXC_R_SUCCESS, Some h) /\
    ht_rep h ∅ /\ tbl_size h = n /\ mtsafe h = mts.
Proof.
  intros Hn. eexists. split; [done|]. split; [|done].
  assert (Hl : forall i l, replicate (Z.to_nat n) (BucketList false None None) !! i = Some l ->
    l = BucketList false None None) by (by intros i l [-> _]%lookup_replicate).
  exists (fun _ => []), (fun _ => []). split; [split; simpl|].
  1: done.
  1: rewrite length_replicate; lia.
  1-3: by intros i l ->%Hl.
  1: intros _; apply NoDup_nil_2.
  1-4: set_solver.
  - intros x [? Hx]. by rewrite lookup_empty in Hx.
  - intros k v. rewrite lookup_empty. set_solver.
Qed.

(** The buckets of the chains from index [i] on, in the order of the iterator. *)
Definition rest (h : txc_hash_table_t) (hs : nat -> list nat) (i : nat) : list nat :=
  seq i (length (tbl h) - i) ≫= hs.

Lemma rest_step h hs i : (i < length (tbl h))%nat -> rest h hs i = hs i ++ rest h hs (S i).
Proof.
  intros Hi. unfold rest. replace (length (tbl h) - i)%nat with (S (length (tbl h) - S i)) by lia. done.
Qed.

Lemma rest_nodup h held hs fs i : ht_inv h held hs fs -> NoDup (rest h hs i).
Proof.
  intros H. apply NoDup_bind.
  - intros j k x _ _ Hx Hy. apply (hi_disj _ _ _ _ H j k x); set_solver.
  - intros j _. by destruct (proj1 (NoDup_app _ _) (hi_nodup _ _ _ _ H j)).
  - apply NoDup_seq.
Qed.

Lemma rest_elem h held hs fs x : ht_inv h held hs fs -> x ∈ rest h hs 0 <-> exists i, x ∈ hs i.
Proof.
  intros H. unfold rest. rewrite list_elem_of_bind. split; [naive_solver|].
  intros [i Hx]. exists i. split; [done|]. apply elem_of_seq.
  destruct (hi_key _ _ _ _ H _ _ Hx) as (k & v & _ & _ & <-).
  pose proof (hi_len _ _ _ _ H). pose proof (hi_size _ _ _ _ H).
  pose proof (Z.mod_pos_bound k (tbl_size h)). lia.
Qed.

Lemma next_chain_spec h held hs fs i :
  ht_inv h held hs fs ->
  match next_chain (drop i (tbl h)) (Z.of_nat i) with
  | Some (j, x) => exists k xs, j = Z.of_nat k /\ (k < length (tbl h))%nat /\
      chain (bheap h) (Some x) (x :: xs) /\ rest h hs i = (x :: xs) ++ rest h hs (S k)
  | None => rest h hs i = []
  end.
Proof.
  intros H. remember (length (tbl h) - i)%nat as n eqn:Hn. revert i Hn.
  induction n as [|n IH]; intros i Hn.
  - rewrite drop_ge by lia. unfold rest. by rewrite <- Hn.
  - assert (Hi : (i < length (tbl h))%nat) by lia.
    destruct (lookup_lt_is_Some_2 _ _ Hi) as [l Hl]. rewrite (drop_S _ _ _ Hl). simpl.
    pose proof (hi_head _ _ _ _ H _ _ Hl) as Hc. pose proof (dseg_head _ _ _ _ Hc) as Hh.
    rewrite (rest_step _ _ _ Hi). destruct (bl_head l) as [x|].
    + destruct (hs i) as [|y xs]; simplify_eq/=. by exists i, xs.
    + apply dseg_none in Hc. rewrite Hc. replace (Z.of_nat i + 1) with (Z.of_nat (S i)) by lia.
      apply IH. lia.
Qed.

(** The iterator [it] is about to visit the buckets [ys]. *)
Definition iter_at (h : txc_hash_table_t) (hs : nat -> list nat) (it : txc_hash_table_iter_t)
    (ys : list nat) : Prop :=
  (it_bucket it = None /\ ys = []) \/
  exists i x xs P, it_index it = Z.of_nat i /\ dseg (hlk (bheap h)) P (it_bucket it) (x :: xs) /\
    ys = (x :: xs) ++ rest h hs (S i).

(** After the end of a chain, or at the start, the iterator moves to the next
    chain that is not empty. *)
Lemma iter_at_chain h held hs fs i d :
  ht_inv h held hs fs ->
  iter_at h hs (match next_chain (drop i (tbl h)) (Z.of_nat i) with
    | Some (j, y) => HashIter j (Some y)
    | None => HashIter d None end) (rest h hs i).
Proof.
  intros H. pose proof (next_chain_spec _ _ _ _ i H) as Hn.
  destruct (next_chain _ _) as [[j y]|]; [|by left].
  destruct Hn as (k & xs & -> & _ & Hc & Hr). right. by exists k, y, xs, (fun _ => True).
Qed.

Lemma iter_loop_run h held hs fs fuel it ys :
  ht_inv h held hs fs -> iter_at h hs it ys -> (length ys < fuel)%nat ->
  exists l, iter_loop fuel h it = Some l /\ Some <$> l = kv (bheap h) <$> ys.
Proof.
  intros H. revert it ys. induction fuel as [|fuel IH]; intros it ys Hat Hf; [lia|].
  destruct Hat as [[Hb ->]|(i & x & xs & P & Hi & Hs & ->)].
  { exists []. split; [|done]. simpl. unfold txc_hash_table_iter_next. by rewrite Hb. }
  destruct Hs as (Hb & n & q & Hx & _ & Hs).
  unfold hlk in Hx. apply fmap_Some in Hx as (b & Hbk & E). injection E as -> ->.
  assert (Hstep : exists it', txc_hash_table_iter_next h it =
      Some (TXC_R_SUCCESS, b_key b, b_value b, it') /\ iter_at h hs it' (xs ++ rest h hs (S i))).
  { unfold txc_hash_table_iter_next. rewrite Hb, Hbk. simpl. eexists. split; [done|].
    destruct xs as [|y xs].
    - simpl in Hs. rewrite Hs. rewrite Hi. replace (Z.of_nat i + 1) with (Z.of_nat (S i)) by lia.
      rewrite Nat2Z.id. by eapply iter_at_chain.
    - pose proof Hs as (Hn & _). rewrite Hn in Hs |- *. right. exists i, y, xs, (eq (Some x)).
      split_and!; [by rewrite <- Hi|done|done]. }
  destruct Hstep as (it' & Hnext & Hat). simpl in Hf.
  destruct (IH it' _ Hat ltac:(lia)) as (l & Hl & Hkv).
  exists ((b_key b, b_value b) :: l). split.
  - simpl. rewrite Hnext. simpl. by rewrite Hl.
  - rewrite fmap_cons, Hkv, <- app_comm_cons, fmap_cons. f_equal. unfold kv. by rewrite Hbk.
Qed.

Lemma entries_run h m :
  ht_rep h m -> exists l, hash_table_entries h = Some l /\ l ≡ₚ map_to_list m.
Proof.
  intros (hs & fs & H & Hm). pose proof (rest_nodup _ _ _ _ 0 H) as Hnd.
  assert (Hat : iter_at h hs (txc_hash_table_iter_init h) (rest h hs 0)).
  { unfold txc_hash_table_iter_init. rewrite take_ge by (pose proof (hi_len _ _ _ _ H); lia).
    rewrite <- (drop_0 (tbl h)). by eapply (iter_at_chain h _ hs fs 0 0). }
  destruct (iter_loop_run h _ hs fs (S (size (bh_mem (bheap h)))) _ _ H Hat) as (l & Hl & Hkv).
  { rewrite <- size_dom, <- (size_list_to_set (C := gset nat) (rest h hs 0)) by done.
    apply Nat.lt_succ_r, subseteq_size. intros x Hx%elem_of_list_to_set.
    apply (rest_elem _ _ _ _ _ H) in Hx as [i Hx]. apply elem_of_dom, (hi_dom _ _ _ _ H i). set_solver. }
  exists l. split; [done|]. apply NoDup_Permutation.
  - apply (NoDup_fmap_1 Some). rewrite Hkv. apply NoDup_fmap_2_strong; [|done].
    intros x y Hx Hy E. apply (rest_elem _ _ _ _ _ H) in Hx as [i Hx], Hy as [j Hy].
    destruct (hi_key _ _ _ _ H _ _ Hx) as (k & v & Hk & _ & Hi).
    destruct (hi_key _ _ _ _ H _ _ Hy) as (k' & v' & Hk' & _ & Hj).
    assert (k' = k /\ v' = v) as [-> ->] by (split; congruence).
    assert (i = j) as -> by congruence. by apply (hi_uniq _ _ _ _ H j x y k v v).
  - apply NoDup_map_to_list.
  - intros [k v]. rewrite elem_of_map_to_list, (Hm k v).
    rewrite <- (list_elem_of_fmap_inj Some), Hkv, list_elem_of_fmap. setoid_rewrite (rest_elem _ _ _ _ _ H).
    naive_solver.
Qed.
End iteration.

(** ** Properties of the hash table *)

(** [txc_hash_table_create] with its allocations granted gives a table that
    represents the empty map, and with one of them refused returns
    [TXC_R_NOMEMORY] and no table. *)
Theorem txc_hash_table_create_spec a b n mts :
  0 < n < 2 ^ 32 ->
  (exists h, txc_hash_table_create (Some a) (Some b) n mts = (TXC_R_SUCCESS, Some h) /\ ht_rep h ∅) /\
  txc_hash_table_create None (Some b) n mts = (TXC_R_NOMEMORY, None) /\
  txc_hash_table_create (Some a) None n mts = (TXC_R_NOMEMORY, None).
Proof.
  intros Hn. split; [|done]. destruct (create_rep a b n mts Hn) as (h & E & H & _). by exists h.
Qed.

(** A table of four chains, as the library creates them. *)
Definition table4 (mts : bool) : txc_hash_table_t :=
  HashTable 4 (replicate 4 (BucketList false None None)) mts (BucketHeap ∅ 0).

Lemma table4_rep mts : ht_rep (table4 mts) ∅.
Proof. by destruct (create_rep 0 0 4 mts) as (h & [= <-] & H & _). Defined.

Lemma txc_hash_table_create_spec_witness :
  (exists h, txc_hash_table_create (Some 1) (Some 2) 512 true = (TXC_R_SUCCESS, Some h) /\ ht_rep h ∅) /\
  txc_hash_table_create None (Some 2) 512 true = (TXC_R_NOMEMORY, None) /\
  txc_hash_table_create (Some 1) None 512 true = (TXC_R_NOMEMORY, None).
Proof. apply (txc_hash_table_create_spec 1 2 512 true). lia. Defined.

(** C25: over a table that represents a map, [add] refines insertion (refused
    with [TXC_R_EXISTS] and no change when the key is there), [lookup] refines
    map lookup and changes nothing, and [remove] refines deletion, returning the
    value removed; all of them return, with every mutex released. *)
Theorem hash_table_refines_map h m key value :
  ht_rep h m ->
  (match m !! u32 key with
   | Some _ => txc_hash_table_add true key value h = Ret TXC_R_EXISTS h
   | None => exists h', txc_hash_table_add true key value h = Ret TXC_R_SUCCESS h' /\
       ht_rep h' (<[u32 key := value]> m)
   end) /\
  txc_hash_table_lookup key h =
    Ret (match m !! u32 key with Some v => (TXC_R_SUCCESS, Some v) | None => (TXC_R_NOTEXISTS, None) end) h /\
  (match m !! u32 key with
   | Some v => exists h', txc_hash_table_remove key h = Ret (TXC_R_SUCCESS, Some v) h' /\
       ht_rep h' (delete (u32 key) m)
   | None => txc_hash_table_remove key h = Ret (TXC_R_NOTEXISTS, None) h
   end).
Proof.
  intros H. split_and!; [|by apply lookup_run|]; destruct (m !! u32 key) as [v|] eqn:E.
  - eapply add_exists_run; [done|by rewrite E].
  - destruct (add_new_run _ _ _ value H E) as (h' & ? & ? & _). eauto.
  - destruct (remove_run _ _ _ _ H E) as (h' & ? & ? & _). eauto.
  - by eapply remove_absent_run.
Qed.

Lemma hash_table_refines_map_witness :
  (exists h', txc_hash_table_add true 5 77 (table4 true) = Ret TXC_R_SUCCESS h' /\
       ht_rep h' (<[5 := 77]> ∅)) /\
  txc_hash_table_lookup 5 (table4 true) = Ret (TXC_R_NOTEXISTS, None) (table4 true) /\
  txc_hash_table_remove 5 (table4 true) = Ret (TXC_R_NOTEXISTS, None) (table4 true).
Proof. exact (hash_table_refines_map (table4 true) ∅ 5 77 (table4_rep true)). Defined.

(** The iterator visits every entry of the map exactly once and then
    reports the end with [TXC_R_NULLITER]. *)
Theorem hash_table_iterates_map h m :
  ht_rep h m -> exists l, hash_table_entries h = Some l /\ l ≡ₚ map_to_list m.
Proof. apply entries_run. Qed.

Lemma hash_table_iterates_map_witness :
  exists l, hash_table_entries (table4 false) = Some l /\ l ≡ₚ map_to_list (∅ : gmap Z Z).
Proof. exact (hash_table_iterates_map (table4 false) ∅ (table4_rep false)). Defined.

(** A run over two keys of one chain: insert both, take the older one out from
    behind, then reuse its bucket. *)
Example hash_table_run :
  (txc_hash_table_add true 1 10 ;;; txc_hash_table_add true 5 50 ;;;
   do r <- txc_hash_table_remove 1 ;; txc_hash_table_add true 9 90 ;;;
   do h <- m_get ;; m_ret (r, hash_table_entries h, bh_brk (bheap h))) (table4 true) =
  Ret ((TXC_R_SUCCESS, Some 10), Some [(9, 90); (5, 50)], 2%nat)
    match (txc_hash_table_add true 1 10 ;;; txc_hash_table_add true 5 50 ;;;
      txc_hash_table_remove 1 ;;; txc_hash_table_add true 9 90) (table4 true) with
    | Ret _ h => h | _ => table4 true end.
Proof. vm_compute. reflexivity. Qed.
