(* ===== verification/Buffer.v ===== *)
(** * The buffer manager ([core/buffer.c])

    Linear buffers are private logs of a transaction: regions are carved off
    their end and given back in reverse order.  Circular buffers are shared by
    the transactions that read a pipe or a socket: a primary and a secondary
    queue over one region, with a speculative copy of their bounds while a
    transaction reads.

    Buffers are objects of two pools; the model keeps each pool's headers
    ([txc_pool_t]) and the buffers themselves in a map from their address. *)

From S2P Require Import Prelude Dll Pool.

Definition byte := Byte.byte.

Definition TXC_BUFFER_CIRCULAR_SIZE : Z := 1024 * (64 * 2) * 64.
Definition TXC_BUFFER_CIRCULAR_NUM : Z := 32.
Definition TXC_BUFFER_LINEAR_SIZE : Z := 1024 * 256.
Definition TXC_BUFFER_LINEAR_NUM : Z := 32.

Inductive txc_buffer_state_t :=
  | TXC_BUFFER_STATE_NON_SPECULATIVE
  | TXC_BUFFER_STATE_SPECULATIVE.

#[export] Instance buffer_state_eq_dec : EqDecision txc_buffer_state_t.
Proof. solve_decision. Defined.

(** [struct txc_buffer_circular_s]: [cb_data] is the memory at [cb_buf]. *)
Record txc_buffer_circular_t := CircularBuffer {
  cb_buf : Z;
  cb_data : gmap Z byte;
  cb_size_max : Z;
  primary_head : Z;
  primary_tail : Z;
  secondary_head : Z;
  secondary_tail : Z;
  speculative_primary_head : Z;
  speculative_primary_tail : Z;
  speculative_secondary_head : Z;
  speculative_secondary_tail : Z;
  cb_state : txc_buffer_state_t;
}.

(** [struct txc_buffer_linear_s] *)
Record txc_buffer_linear_t := LinearBuffer {
  lb_buf : Z;
  lb_size_max : Z;
  lb_cur_len : Z;
  lb_state : txc_buffer_state_t;
}.

(** [struct txc_buffermgr_s], with the objects of its pools. *)
Record txc_buffermgr_t := BufferMgr {
  pool_buffer_circular : txc_pool_t;
  pool_buffer_linear : txc_pool_t;
  circulars : gmap Z txc_buffer_circular_t;
  linears : gmap Z txc_buffer_linear_t;
}.

Definition set_pool_circular p m :=
  BufferMgr p (pool_buffer_linear m) (circulars m) (linears m).
Definition set_pool_linear p m :=
  BufferMgr (pool_buffer_circular m) p (circulars m) (linears m).
Definition set_circulars c m :=
  BufferMgr (pool_buffer_circular m) (pool_buffer_linear m) c (linears m).
Definition set_linears l m :=
  BufferMgr (pool_buffer_circular m) (pool_buffer_linear m) (circulars m) l.

(** ** Construction of the pools *)

(** The constructors set the size and the region; the other fields of the
    [calloc]ed object are zero. *)
Definition circular_buffer_constructor (header_size obj : Z)
    (mem : gmap Z txc_buffer_circular_t) : gmap Z txc_buffer_circular_t :=
  <[obj := CircularBuffer (obj + header_size) ∅ TXC_BUFFER_CIRCULAR_SIZE
      0 0 0 0 0 0 0 0 TXC_BUFFER_STATE_NON_SPECULATIVE]> mem.

Definition linear_buffer_constructor (header_size obj : Z)
    (mem : gmap Z txc_buffer_linear_t) : gmap Z txc_buffer_linear_t :=
  <[obj := LinearBuffer (obj + header_size) TXC_BUFFER_LINEAR_SIZE 0
      TXC_BUFFER_STATE_NON_SPECULATIVE]> mem.

(** What the three allocations and the mutex initialisation of one
    [txc_pool_create] return. *)
Record pool_allocs := PoolAllocs {
  pa_pool : option Z;
  pa_list : option Z;
  pa_buf : option Z;
  pa_mutex : Z;
}.

(** [txc_buffermgr_create]: [m_mgr] is what [MALLOC] returns, [hc] and [hl] the
    sizes of the two buffer headers. *)
Definition txc_buffermgr_create (m_mgr : option Z) (hc hl : Z) (ac al : pool_allocs)
    : option (Z * option txc_buffermgr_t) :=
  match m_mgr with
  | None => Some (TXC_R_NOMEMORY, None)
  | Some _ =>
      c ← txc_pool_create (pa_pool ac) (pa_list ac) (pa_buf ac) (pa_mutex ac)
            (u32 (TXC_BUFFER_CIRCULAR_SIZE + hc)) TXC_BUFFER_CIRCULAR_NUM
            (Some (circular_buffer_constructor hc)) ∅;
      match c with
      | (_, Some pc, mc) =>
          l ← txc_pool_create (pa_pool al) (pa_list al) (pa_buf al) (pa_mutex al)
                (u32 (TXC_BUFFER_LINEAR_SIZE + hl)) TXC_BUFFER_LINEAR_NUM
                (Some (linear_buffer_constructor hl)) ∅;
          match l with
          | (_, Some pl, ml) => Some (TXC_R_SUCCESS, Some (BufferMgr pc pl mc ml))
          | (r, None, _) => Some (r, None)
          end
      | (r, None, _) => Some (r, None)
      end
  end.

(** ** Circular buffers *)

Definition txc_buffer_circular_init (b : txc_buffer_circular_t) : txc_buffer_circular_t :=
  CircularBuffer (cb_buf b) (cb_data b) (cb_size_max b) 0 0 0 0
    (speculative_primary_head b) (speculative_primary_tail b)
    (speculative_secondary_head b) (speculative_secondary_tail b)
    TXC_BUFFER_STATE_NON_SPECULATIVE.

Definition circular_get (a : Z) : M txc_buffermgr_t txc_buffer_circular_t :=
  do m <- m_get ;; m_deref (circulars m !! a).

Definition circular_put (a : Z) (b : txc_buffer_circular_t) : M txc_buffermgr_t unit :=
  m_modify (fun m => set_circulars (<[a := b]> (circulars m)) m).

Definition in_pool_circular {A} (m : M txc_pool_t A) : M txc_buffermgr_t A :=
  m_zoom pool_buffer_circular set_pool_circular m.

(** An empty pool is an internal error, which ends the program. *)
Definition txc_buffer_circular_create : M txc_buffermgr_t Z :=
  do r <- in_pool_circular (txc_pool_object_alloc true) ;;
  match r with
  | (c, o) =>
      if bool_decide (c <> TXC_R_SUCCESS) then m_exit else
      do a <- m_deref o ;;
      do b <- circular_get a ;;
      circular_put a (txc_buffer_circular_init b) ;;;
      m_ret a
  end.

Definition txc_buffer_circular_destroy (a : Z) : M txc_buffermgr_t unit :=
  in_pool_circular (txc_pool_object_free a true).

(** ** Linear buffers *)

Definition txc_buffer_linear_init (b : txc_buffer_linear_t) : txc_buffer_linear_t :=
  LinearBuffer (lb_buf b) (lb_size_max b) 0 TXC_BUFFER_STATE_NON_SPECULATIVE.

Definition linear_get (a : Z) : M txc_buffermgr_t txc_buffer_linear_t :=
  do m <- m_get ;; m_deref (linears m !! a).

Definition linear_put (a : Z) (b : txc_buffer_linear_t) : M txc_buffermgr_t unit :=
  m_modify (fun m => set_linears (<[a := b]> (linears m)) m).

Definition in_pool_linear {A} (m : M txc_pool_t A) : M txc_buffermgr_t A :=
  m_zoom pool_buffer_linear set_pool_linear m.

Definition txc_buffer_linear_create : M txc_buffermgr_t Z :=
  do r <- in_pool_linear (txc_pool_object_alloc true) ;;
  match r with
  | (c, o) =>
      if bool_decide (c <> TXC_R_SUCCESS) then m_exit else
      do a <- m_deref o ;;
      do b <- linear_get a ;;
      linear_put a (txc_buffer_linear_init b) ;;;
      m_ret a
  end.

Definition txc_buffer_linear_destroy (a : Z) : M txc_buffermgr_t unit :=
  in_pool_linear (txc_pool_object_free a true).

(** [txc_buffer_linear_malloc(buffer, size)]: the address of the region ([None]
    is NULL).  The sum is an [unsigned int]. *)
Definition txc_buffer_linear_malloc (size : Z) (b : txc_buffer_linear_t)
    : option Z * txc_buffer_linear_t :=
  if bool_decide (u32 (lb_cur_len b + size) > lb_size_max b) then (None, b)
  else (Some (lb_buf b + lb_cur_len b),
        LinearBuffer (lb_buf b) (lb_size_max b) (u32 (lb_cur_len b + size)) (lb_state b)).

Definition txc_buffer_linear_free (size : Z) (b : txc_buffer_linear_t) : txc_buffer_linear_t :=
  LinearBuffer (lb_buf b) (lb_size_max b) (u32 (lb_cur_len b - size)) (lb_state b).

(** ** A log of regions *)

(** The regions handed out and not given back, the latest first, as (address,
    size); their sizes fill the buffer up to [cur_len] from its start. *)
Fixpoint log_ok (base : Z) (regions : list (Z * Z)) (len : Z) : Prop :=
  match regions with
  | [] => len = 0
  | (a, n) :: rs => 0 <= n /\ a = base + (len - n) /\ log_ok base rs (len - n)
  end.

Definition linear_ok (b : txc_buffer_linear_t) (regions : list (Z * Z)) : Prop :=
  0 <= lb_cur_len b <= lb_size_max b /\ lb_size_max b < 2 ^ 32 /\
  log_ok (lb_buf b) regions (lb_cur_len b).

Lemma log_ok_nonneg base rs len : log_ok base rs len -> 0 <= len.
Proof.
  revert len. induction rs as [|[a n] rs IH]; simpl; intros len; [lia|].
  intros (Hn & _ & H). apply IH in H. lia.
Qed.

Lemma log_ok_bounds base rs len a n :
  log_ok base rs len -> (a, n) ∈ rs -> base <= a /\ a + n <= base + len.
Proof.
  revert len. induction rs as [|[a' n'] rs IH]; intros len; [set_solver|].
  intros (Hn & -> & H) [[= -> ->]|Hin]%elem_of_cons.
  - apply log_ok_nonneg in H. lia.
  - specialize (IH _ H Hin). lia.
Qed.

(** C38: a linear buffer is a stack of disjoint regions. While the sizes asked
    for do not wrap the [unsigned int] sum, [malloc] refuses exactly the requests
    that do not fit, leaving the buffer alone, and otherwise returns a region
    inside the buffer that lies after every region still in use; freeing the
    latest region gives the buffer before its allocation back. *)
Theorem linear_malloc_spec b rs size :
  linear_ok b rs -> 0 <= size -> lb_cur_len b + size < 2 ^ 32 ->
  match txc_buffer_linear_malloc size b with
  | (None, b') => b' = b /\ lb_size_max b < lb_cur_len b + size
  | (Some a, b') =>
      linear_ok b' ((a, size) :: rs) /\
      lb_buf b <= a /\ a + size <= lb_buf b + lb_size_max b /\
      (forall a' n, (a', n) ∈ rs -> a' + n <= a) /\
      txc_buffer_linear_free size b' = b
  end.
Proof.
  intros (Hc & Hs & Hl) Hz Hw. unfold txc_buffer_linear_malloc.
  rewrite u32_small by lia. case_bool_decide as Hf; [split; [done|lia]|].
  split_and!; [|lia..| |].
  - unfold linear_ok; simpl. split_and!; [lia..|].
    by replace (lb_cur_len b + size - size) with (lb_cur_len b) by lia.
  - intros a' n Hin. pose proof (log_ok_bounds _ _ _ _ _ Hl Hin). lia.
  - unfold txc_buffer_linear_free; simpl. rewrite u32_small by lia.
    destruct b; simpl in *. f_equal. lia.
Qed.

(** A buffer of the library's size in which 16 bytes are in use. *)
Definition linear16 : txc_buffer_linear_t :=
  LinearBuffer 4096 TXC_BUFFER_LINEAR_SIZE 16 TXC_BUFFER_STATE_NON_SPECULATIVE.

Lemma linear_malloc_spec_witness :
  linear_ok (LinearBuffer 4096 TXC_BUFFER_LINEAR_SIZE 40 TXC_BUFFER_STATE_NON_SPECULATIVE)
      [(4112, 24); (4096, 16)] /\
  4096 <= 4112 /\ 4112 + 24 <= 4096 + TXC_BUFFER_LINEAR_SIZE /\
  (forall a' n, (a', n) ∈ [(4096, 16)] -> a' + n <= 4112) /\
  txc_buffer_linear_free 24
    (LinearBuffer 4096 TXC_BUFFER_LINEAR_SIZE 40 TXC_BUFFER_STATE_NON_SPECULATIVE) = linear16.
Proof.
  apply (linear_malloc_spec linear16 [(4096, 16)] 24); [|lia|vm_compute; reflexivity].
  unfold linear_ok, linear16, TXC_BUFFER_LINEAR_SIZE; simpl. lia.
Defined.

(** The guard of [malloc] is computed in 32 bits, so a request for which
    the sum wraps is granted: the region handed out is larger than the buffer,
    and [cur_len] goes back below the regions in use. *)
Theorem linear_malloc_wraps b rs k :
  linear_ok b rs -> 0 <= k < lb_cur_len b ->
  exists b', txc_buffer_linear_malloc (2 ^ 32 - lb_cur_len b + k) b =
      (Some (lb_buf b + lb_cur_len b), b') /\
    lb_cur_len b' = k /\ lb_size_max b < 2 ^ 32 - lb_cur_len b + k + lb_cur_len b.
Proof.
  intros (Hc & Hs & _) Hk. eexists. unfold txc_buffer_linear_malloc.
  replace (lb_cur_len b + (2 ^ 32 - lb_cur_len b + k)) with (k + 1 * 2 ^ 32) by lia.
  assert (E : u32 (k + 1 * 2 ^ 32) = k).
  { unfold u32. rewrite Z.mod_add by lia. apply Z.mod_small. lia. }
  rewrite E, bool_decide_eq_false_2 by lia. split; [done|]. simpl. split; [done|lia].
Qed.

Lemma linear_malloc_wraps_witness :
  exists b', txc_buffer_linear_malloc (2 ^ 32 - 16 + 8) linear16 = (Some (4096 + 16), b') /\
    lb_cur_len b' = 8 /\ TXC_BUFFER_LINEAR_SIZE < 2 ^ 32 - 16 + 8 + 16.
Proof.
  apply (linear_malloc_wraps linear16 [(4096, 16)] 8); [|simpl; lia].
  unfold linear_ok, linear16, TXC_BUFFER_LINEAR_SIZE; simpl. lia.
Defined.
