(* ===== verification/Actions.v ===== *)
(** * Action lists ([core/tx.c])

    A transaction keeps its deferred (commit) and its compensating (undo) actions
    on two growable arrays, and runs them in passes: pass [order] runs the
    actions of that order, commit actions in the order of registration and undo
    actions in the reverse one.

    The lists are polymorphic in the type [F] of an action (its function with
    the arguments it was registered with) and the passes in the state [St] the
    actions run in. *)

From S2P Require Import Prelude.

(** [struct txc_tx_action_list_entry_s] *)
Record txc_tx_action_list_entry_t (F : Type) := ActionEntry {
  function : F;
  error_result : option Z;
  order : Z;
}.
Arguments ActionEntry {F} _ _ _.
Arguments function {F} _.
Arguments error_result {F} _.
Arguments order {F} _.

(** [struct txc_tx_action_list_s]: [None] for a NULL array; the cells of the
    array that were never written are left out. *)
Record txc_tx_action_list_t (F : Type) := ActionList {
  entries : option (list (txc_tx_action_list_entry_t F));
  num_entries : Z;
  la_size : Z;
}.
Arguments ActionList {F} _ _ _.
Arguments entries {F} _.
Arguments num_entries {F} _.
Arguments la_size {F} _.

(** [core/config.h] *)
Definition TXC_ACTION_LIST_SIZE : Z := 32.

(** The actions of a list. *)
Definition la_actions {F} (la : txc_tx_action_list_t F) : list (txc_tx_action_list_entry_t F) :=
  take (Z.to_nat (num_entries la)) (default [] (entries la)).

(** [allocate_action_list_entries(la, extend)]: [alloc_ok] is whether [REALLOC]
    (or [MALLOC]) grants the new size; when it does not, the old array is lost. *)
Definition allocate_action_list_entries {F} (alloc_ok : bool) (extend : bool)
    (la : txc_tx_action_list_t F) : Z * txc_tx_action_list_t F :=
  let size := if extend then u32 (la_size la * 2) else la_size la in
  if alloc_ok then
    (TXC_R_SUCCESS,
     ActionList (if extend then Some (default [] (entries la)) else Some []) (num_entries la) size)
  else (TXC_R_NOMEMORY, ActionList None (num_entries la) size).

(** [la->entries[la->num_entries] = ...; la->num_entries++;] *)
Definition la_store {F} (e : txc_tx_action_list_entry_t F) (la : txc_tx_action_list_t F)
    : option (txc_tx_action_list_t F) :=
  es ← entries la;
  let n := Z.to_nat (num_entries la) in
  Some (ActionList (Some (take n es ++ e :: drop (S n) es)) (u32 (num_entries la + 1)) (la_size la)).

(** [register_action]; [None] is a write through a NULL array. *)
Definition register_action {F} (alloc_ok : bool) (e : txc_tx_action_list_entry_t F)
    (la : txc_tx_action_list_t F) : option (Z * txc_tx_action_list_t F) :=
  if bool_decide (num_entries la = la_size la) then
    match allocate_action_list_entries alloc_ok true la with
    | (ret, la') =>
        if bool_decide (ret <> TXC_R_SUCCESS) then Some (ret, la')
        else la'' ← la_store e la'; Some (TXC_R_SUCCESS, la'')
    end
  else la'' ← la_store e la; Some (TXC_R_SUCCESS, la'').

(** ** Running the actions

    [run a] runs an action and returns what it leaves in [temp_error_result];
    [store p v] is [*p = v] for an [int *p]. No action function touches the list
    that is being run, so the list is read once. *)
Section run.
Context {St F : Type}.
Variable run : F -> M St Z.
Variable store : Z -> Z -> St -> St.

(** The body of the loops for one entry: run it, report its error to whoever
    registered it, keep the first error. *)
Definition exec_entry (e : txc_tx_action_list_entry_t F) (first_error_result : Z) : M St Z :=
  do temp_error_result <- run (function e) ;;
  match error_result e with
  | Some p => m_modify (store p temp_error_result)
  | None => m_ret tt
  end ;;;
  m_ret (if bool_decide (first_error_result = 0) then temp_error_result else first_error_result).

(** The inner loop over the array, in the direction of [es]. *)
Fixpoint exec_pass (ord : Z) (es : list (txc_tx_action_list_entry_t F)) (executed first : Z)
    : M St (Z * Z) :=
  match es with
  | [] => m_ret (executed, first)
  | e :: es' =>
      if bool_decide (order e = ord) then
        do first' <- exec_entry e first ;;
        exec_pass ord es' (executed + 1) first'
      else exec_pass ord es' executed first
  end.

(** The outer loop: passes from [ord] on until every action has run. *)
Fixpoint exec_passes (fuel : nat) (ord : Z) (es : list (txc_tx_action_list_entry_t F))
    (executed first : Z) : M St Z :=
  if bool_decide (executed = Z.of_nat (length es)) then m_ret first
  else match fuel with
    | O => m_nofuel
    | S fuel' =>
        do ' (executed', first') <- exec_pass ord es executed first ;;
        exec_passes fuel' (ord + 1) es executed' first'
    end.

(** As many passes as the largest order asks for. *)
Definition passes_fuel (es : list (txc_tx_action_list_entry_t F)) : nat :=
  S (Z.to_nat (foldr Z.max 0 (order <$> es))).

Definition exec_commit_actions (la : txc_tx_action_list_t F) : M St Z :=
  exec_passes (passes_fuel (la_actions la)) 0 (la_actions la) 0 0.

Definition exec_undo_actions (la : txc_tx_action_list_t F) : M St Z :=
  exec_passes (passes_fuel (la_actions la)) 0 (reverse (la_actions la)) 0 0.

(** ** Reference: run a list of actions in its order *)

Fixpoint exec_seq (es : list (txc_tx_action_list_entry_t F)) (first : Z) : M St Z :=
  match es with
  | [] => m_ret first
  | e :: es' => do first' <- exec_entry e first ;; exec_seq es' first'
  end.
End run.

(** ** The order of the passes *)

Section order.
Context {F : Type}.
Implicit Types (es l : list (txc_tx_action_list_entry_t F)) (o ord : Z).

(** The actions of orders [ord], ..., [ord + n - 1], one order after the other. *)
Fixpoint groups (n : nat) (ord : Z) es : list (txc_tx_action_list_entry_t F) :=
  match n with
  | O => []
  | S n' => filter (fun e => order e = ord) es ++ groups n' (ord + 1) es
  end.

(** [l] is [es] sorted by order, with equal orders left as they are. *)
Definition stable_by_order es l : Prop :=
  StronglySorted Z.le (order <$> l) /\
  forall o, filter (fun e => order e = o) l = filter (fun e => order e = o) es.

Definition max_order es : Z := foldr Z.max 0 (order <$> es).

Lemma max_order_le es e : e ∈ es -> order e <= max_order es.
Proof.
  unfold max_order. induction es as [|x es IH]; [set_solver|].
  rewrite fmap_cons. intros [->|H]%elem_of_cons; [simpl; lia|]. specialize (IH H). simpl. lia.
Qed.

Lemma max_order_app es l : max_order (es ++ l) = Z.max (max_order es) (max_order l).
Proof.
  assert (0 <= max_order l).
  { unfold max_order. induction l; [done|]. rewrite fmap_cons. simpl. lia. }
  unfold max_order in *. induction es as [|x es IH]; [simpl; lia|].
  rewrite <- app_comm_cons, !fmap_cons. simpl. rewrite IH. lia.
Qed.

Lemma max_order_rev es : max_order (reverse es) = max_order es.
Proof.
  induction es as [|x es IH]; [done|]. rewrite reverse_cons, max_order_app, IH.
  change (x :: es) with ([x] ++ es). rewrite max_order_app. lia.
Qed.

Lemma filter_order_twice o o' es :
  filter (fun e => order e = o) (filter (fun e => order e = o') es) =
  if decide (o = o') then filter (fun e => order e = o) es else [].
Proof.
  rewrite list_filter_filter. case_decide; subst.
  - apply list_filter_iff. naive_solver.
  - induction es as [|x es IH]; [done|]. rewrite filter_cons_False; [done|]. lia.
Qed.

Lemma filter_groups n ord o es :
  filter (fun e => order e = o) (groups n ord es) =
  if decide (ord <= o < ord + Z.of_nat n) then filter (fun e => order e = o) es else [].
Proof.
  revert ord. induction n as [|n IH]; intros ord.
  - simpl. rewrite decide_False by lia. done.
  - simpl. rewrite filter_app, filter_order_twice, IH.
    repeat case_decide; try lia; simpl; by rewrite ?app_nil_r.
Qed.

Lemma groups_ge n ord es e : e ∈ groups n ord es -> ord <= order e.
Proof.
  revert ord. induction n as [|n IH]; intros ord; simpl; [set_solver|].
  intros [[<- _]%list_elem_of_filter|H]%elem_of_app; [lia|]. apply IH in H. lia.
Qed.

Lemma groups_sorted n ord es : StronglySorted Z.le (order <$> groups n ord es).
Proof.
  revert ord. induction n as [|n IH]; intros ord; simpl; [constructor|].
  assert (Hge : Forall (fun e => ord < order e) (groups n (ord + 1) es)).
  { apply Forall_forall. intros e He%groups_ge. lia. }
  assert (Heq : Forall (fun e => order e = ord) (filter (fun e => order e = ord) es)).
  { apply Forall_forall. by intros e [? _]%list_elem_of_filter. }
  revert Heq. generalize (filter (fun e => order e = ord) es). intros l Hl.
  induction Hl as [|x l Hx Hl IHl]; [apply IH|]. simpl. constructor; [done|].
  apply Forall_fmap, Forall_app. split; eapply Forall_impl; eauto; simpl; lia.
Qed.

(** The passes run the actions in a stable order. *)
Lemma groups_stable es :
  Forall (fun e => 0 <= order e) es ->
  stable_by_order es (groups (S (Z.to_nat (max_order es))) 0 es).
Proof.
  intros H. split; [apply groups_sorted|]. intros o. rewrite filter_groups. case_decide as Ho; [done|].
  symmetry. apply filter_none. intros e He <-. apply Ho.
  pose proof (max_order_le _ _ He). rewrite Forall_forall in H. specialize (H _ He). lia.
Qed.

Lemma stable_permutation es l :
  (forall o, filter (fun e => order e = o) l = filter (fun e => order e = o) es) -> l ≡ₚ es.
Proof.
  revert l. induction es as [|x es IH]; intros l H.
  - destruct l as [|y l]; [done|]. specialize (H (order y)). by rewrite filter_cons_True in H.
  - assert (Hx : x ∈ l).
    { pose proof (H (order x)) as Hx. rewrite (filter_cons_True _ x) in Hx by done.
      assert (x ∈ filter (fun e => order e = order x) l) as [_ ?]%list_elem_of_filter; [|done].
      rewrite Hx. set_solver. }
    assert (Hsplit : exists l1 l2, l = l1 ++ x :: l2 /\ (forall y, y ∈ l1 -> order y <> order x)).
    { clear IH. pose proof (H (order x)) as E. rewrite (filter_cons_True _ x) in E by done.
      clear H Hx. revert E. generalize (filter (fun e => order e = order x) es). intros m E.
      induction l as [|y l IHl]; [done|]. rewrite filter_cons in E. case_decide as Hy.
      - injection E as -> _. exists [], l. split; [done|set_solver].
      - destruct (IHl E) as (l1 & l2 & -> & Hl). exists (y :: l1), l2. split; [done|].
        intros z [->|Hz]%elem_of_cons; [done|by apply Hl]. }
    destruct Hsplit as (l1 & l2 & -> & Hl1). rewrite <- Permutation_middle. constructor. apply IH.
    intros o. specialize (H o). rewrite filter_app, !filter_cons in H. rewrite filter_app.
    case_decide as Ho; [|done]. subst o.
    rewrite (filter_none _ l1) in H |- * by done. by injection H.
Qed.

Lemma filter_lt_succ ord es :
  length (filter (fun e => order e < ord + 1) es) =
  Nat.add (length (filter (fun e => order e < ord) es)) (length (filter (fun e => order e = ord) es)).
Proof.
  induction es as [|x es IH]; [done|]. rewrite !filter_cons. repeat case_decide; simpl; lia.
Qed.

Lemma groups_nil n ord es : Forall (fun e => order e < ord) es -> groups n ord es = [].
Proof.
  revert ord. induction n as [|n IH]; intros ord H; [done|]. simpl. rewrite IH.
  - rewrite app_nil_r. apply filter_none. rewrite Forall_forall in H. intros e He <-.
    specialize (H _ He). lia.
  - eapply Forall_impl; eauto; simpl; lia.
Qed.

Lemma filter_full (P : txc_tx_action_list_entry_t F -> Prop) `{forall x, Decision (P x)} es :
  length (filter P es) = length es -> Forall P es.
Proof.
  induction es as [|x es IH]; [done|]. rewrite filter_cons. case_decide; simpl; intros E.
  - constructor; [done|]. apply IH. lia.
  - pose proof (length_filter P es). lia.
Qed.
End order.

Section run_lemmas.
Context {St F : Type}.
Variable run : F -> M St Z.
Variable store : Z -> Z -> St -> St.
Implicit Types (es l : list (txc_tx_action_list_entry_t F)).

Lemma exec_seq_app l1 l2 first s :
  exec_seq run store (l1 ++ l2) first s =
  m_bind (exec_seq run store l1 first) (exec_seq run store l2) s.
Proof.
  revert first s. induction l1 as [|e l1 IH]; intros first s; [done|]. simpl.
  unfold m_bind in *. destruct (exec_entry run store e first s); [apply IH|done..].
Qed.

Lemma exec_pass_seq ord es ex first s :
  exec_pass run store ord es ex first s =
  m_bind (exec_seq run store (filter (fun e => order e = ord) es) first)
    (fun first' => m_ret (ex + Z.of_nat (length (filter (fun e => order e = ord) es)), first')) s.
Proof.
  revert ex first s. induction es as [|e es IH]; intros ex first s.
  - simpl. unfold m_bind, m_ret. by rewrite Z.add_0_r.
  - simpl exec_pass. rewrite filter_cons. case_decide as Ho.
    + rewrite bool_decide_eq_true_2 by done. simpl. unfold m_bind in *.
      destruct (exec_entry run store e first s); [|done..]. rewrite IH.
      destruct (exec_seq _ _ _ _ _); [|done..]. unfold m_ret. do 2 f_equal. lia.
    + by rewrite bool_decide_eq_false_2.
Qed.

Lemma exec_passes_seq n fuel ord es first s :
  Forall (fun e => order e < ord + Z.of_nat n) es -> (n <= fuel)%nat ->
  exec_passes run store fuel ord es (Z.of_nat (length (filter (fun e => order e < ord) es))) first s =
  exec_seq run store (groups n ord es) first s.
Proof.
  revert fuel ord first s. induction n as [|n IH]; intros fuel ord first s Hle Hf.
  - assert (length (filter (fun e => order e < ord) es) = length es) as ->.
    { rewrite filter_all; [done|]. rewrite Forall_forall in Hle. intros x Hx.
      specialize (Hle x Hx). lia. }
    destruct fuel; simpl; by rewrite bool_decide_eq_true_2.
  - destruct fuel as [|fuel]; [lia|]. simpl exec_passes. case_bool_decide as Hd.
    + rewrite groups_nil; [done|].
      apply (filter_full (fun e => order e < ord)). lia.
    + cbn [groups]. rewrite exec_seq_app. unfold m_bind. rewrite exec_pass_seq.
      unfold m_bind. destruct (exec_seq _ _ _ _ _) as [first' s'| | | | |]; [|done..]. simpl.
      rewrite <- (IH fuel (ord + 1) first' s'); [|eapply Forall_impl; [exact Hle|simpl; lia]|lia].
      f_equal. rewrite filter_lt_succ. lia.
Qed.

(** With non-negative orders, the passes are one run over the groups. *)
Lemma exec_passes_groups es first s :
  Forall (fun e => 0 <= order e) es ->
  exec_passes run store (S (Z.to_nat (max_order es))) 0 es 0 first s =
  exec_seq run store (groups (S (Z.to_nat (max_order es))) 0 es) first s.
Proof.
  intros H. rewrite <- exec_passes_seq with (fuel := S (Z.to_nat (max_order es))).
  - do 2 f_equal. rewrite (filter_none (fun e => order e < 0)); [done|].
    rewrite Forall_forall in H. intros e He Hlt. specialize (H e He). lia.
  - apply Forall_forall. intros e He%max_order_le. lia.
  - done.
Qed.

Lemma exec_passes_order es first s :
  Forall (fun e => 0 <= order e) es ->
  exists l, stable_by_order es l /\
    exec_passes run store (S (Z.to_nat (max_order es))) 0 es 0 first s = exec_seq run store l first s.
Proof.
  intros H. exists (groups (S (Z.to_nat (max_order es))) 0 es).
  split; [by apply groups_stable|by apply exec_passes_groups].
Qed.

(** The passes run the actions of order 0, and then the rest. *)
Lemma exec_passes_split es s :
  Forall (fun e => 0 <= order e) es ->
  exists l, Forall (fun e => e ∈ es /\ 1 <= order e) l /\
    exec_passes run store (S (Z.to_nat (max_order es))) 0 es 0 0 s =
    (do first <- exec_seq run store (filter (fun e => order e = 0) es) 0 ;; exec_seq run store l first) s.
Proof.
  intros H. exists (groups (Z.to_nat (max_order es)) 1 es). split.
  - apply Forall_forall. intros e He. split; [|by eapply groups_ge].
    revert He. generalize (max_order es). intros z.
    generalize 1. induction (Z.to_nat z) as [|n IH]; intros o; simpl; [set_solver|].
    intros [[_ ?]%list_elem_of_filter|?]%elem_of_app; [done|by eapply IH].
  - rewrite <- exec_seq_app. by rewrite exec_passes_groups.
Qed.

Lemma exec_undo_split (la : txc_tx_action_list_t F) s :
  Forall (fun e => 0 <= order e) (la_actions la) ->
  exists l, Forall (fun e => e ∈ la_actions la /\ 1 <= order e) l /\
    exec_undo_actions run store la s =
    (do first <- exec_seq run store (reverse (filter (fun e => order e = 0) (la_actions la))) 0 ;;
     exec_seq run store l first) s.
Proof.
  intros H. destruct (exec_passes_split (reverse (la_actions la)) s) as (l & Hl & E); [by apply Forall_reverse|].
  exists l. split.
  - eapply Forall_impl; [exact Hl|]. intros e [He ?]. by rewrite elem_of_reverse in He.
  - unfold exec_undo_actions, passes_fuel. change (foldr Z.max 0 (order <$> la_actions la)) with (max_order (la_actions la)).
    rewrite <- max_order_rev, E. by rewrite filter_reverse.
Qed.

Lemma exec_commit_split (la : txc_tx_action_list_t F) s :
  Forall (fun e => 0 <= order e) (la_actions la) ->
  exists l, Forall (fun e => e ∈ la_actions la /\ 1 <= order e) l /\
    exec_commit_actions run store la s =
    (do first <- exec_seq run store (filter (fun e => order e = 0) (la_actions la)) 0 ;;
     exec_seq run store l first) s.
Proof. apply exec_passes_split. Qed.

(** With an action of a negative order, the passes do not end. *)
Lemma exec_passes_stuck fuel ord es ex first s a s' :
  0 <= ord -> ex = Z.of_nat (length (filter (fun e => 0 <= order e < ord) es)) ->
  Exists (fun e => order e < 0) es ->
  exec_passes run store fuel ord es ex first s <> Ret a s'.
Proof.
  revert ord ex first s. induction fuel as [|fuel IH]; intros ord ex first s Ho Hex Hneg;
    assert (Hlt : ex < Z.of_nat (length es)).
  1, 3: subst ex; apply Exists_exists in Hneg as (e & He & Hn);
    apply list_elem_of_split in He as (l1 & l2 & ->);
    rewrite filter_app, filter_cons_False, !length_app by lia; simpl;
    pose proof (length_filter (fun e => 0 <= order e < ord) l1);
    pose proof (length_filter (fun e => 0 <= order e < ord) l2); lia.
  - simpl. by rewrite bool_decide_eq_false_2 by lia.
  - simpl. rewrite bool_decide_eq_false_2 by lia. unfold m_bind. rewrite exec_pass_seq.
    unfold m_bind. destruct (exec_seq _ _ _ _ _) as [first' s1| | | | |]; [|done..]. simpl.
    apply IH; [lia| |done]. subst ex.
    clear Hneg Hlt IH. induction es as [|x es IHes]; [done|].
    rewrite !filter_cons. repeat case_decide; simpl in *; lia.
Qed.

(** ** Traces *)

(** Running [l] from [s] to [s'], with the error each action left. *)
Inductive exec_trace : list (txc_tx_action_list_entry_t F) -> list Z -> St -> St -> Prop :=
  | exec_trace_nil s : exec_trace [] [] s s
  | exec_trace_cons e l err errs s s1 s' :
      run (function e) s = Ret err s1 ->
      exec_trace l errs (match error_result e with Some p => store p err s1 | None => s1 end) s' ->
      exec_trace (e :: l) (err :: errs) s s'.

(** The first error of a run, 0 if there is none. *)
Definition first_error (first : Z) (errs : list Z) : Z :=
  default 0 (head (filter (fun z => z <> 0) (first :: errs))).

Lemma first_error_cons first err errs :
  first_error first (err :: errs) = first_error (if bool_decide (first = 0) then err else first) errs.
Proof.
  unfold first_error. rewrite !filter_cons. case_bool_decide; repeat case_decide; try done; congruence.
Qed.

Lemma exec_seq_trace l first s r s' :
  exec_seq run store l first s = Ret r s' <->
  exists errs, exec_trace l errs s s' /\ r = first_error first errs.
Proof.
  revert first s. induction l as [|e l IH]; intros first s; simpl.
  - split.
    + intros [= <- <-]. exists []. split; [constructor|]. unfold first_error. rewrite filter_cons.
      by case_decide as Hc; [|rewrite Hc].
    + intros (errs & Ht & ->). inversion Ht; subst. unfold m_ret. f_equal.
      unfold first_error. rewrite filter_cons. by case_decide as Hc; [|rewrite Hc].
  - rewrite m_bind_ret_inv. split.
    + intros (first' & s1 & He & Hl). unfold exec_entry in He.
      apply m_bind_ret_inv in He as (err & s2 & Hr & He).
      apply m_bind_ret_inv in He as ([] & s3 & Hst & [= <- <-]).
      apply IH in Hl as (errs & Ht & ->). exists (err :: errs). split; [|by rewrite first_error_cons].
      econstructor; [done|]. by destruct (error_result e); injection Hst as ->.
    + intros (errs & Ht & ->). inversion Ht as [|? ? err errs' ? s1 ? Hr Ht']; subst.
      eexists _, _. split; [|apply IH; exists errs'; split; [exact Ht'|apply first_error_cons]].
      unfold exec_entry. m_next by exact Hr. by destruct (error_result e).
Qed.
End run_lemmas.

(** ** Properties of the action lists *)

Section exec_properties.
Context {St F : Type}.
Variable run : F -> M St Z.
Variable store : Z -> Z -> St -> St.

(** C24: when every order is non-negative, [tx_generic_commit_action]'s passes
    end, and run every registered action exactly once, in ascending order and,
    within an order, in the order of registration; each action's error is stored
    where its registrant asked, and the result is the first error of the run. *)
Theorem commit_actions_spec (la : txc_tx_action_list_t F) s :
  Forall (fun e => 0 <= order e) (la_actions la) ->
  exists l, l ≡ₚ la_actions la /\ StronglySorted Z.le (order <$> l) /\
    (forall o, filter (fun e => order e = o) l = filter (fun e => order e = o) (la_actions la)) /\
    forall r s', exec_commit_actions run store la s = Ret r s' <->
      exists errs, exec_trace run store l errs s s' /\ r = first_error 0 errs.
Proof.
  intros H. destruct (exec_passes_order run store _ 0 s H) as (l & [Hs Hf] & E).
  exists l. split_and!; [|done|done|].
  - by apply stable_permutation.
  - intros r s'. rewrite <- exec_seq_trace, <- E. done.
Qed.

(** C23: the compensating actions run in ascending order and, within an order,
    in the reverse order of registration, the last action done undone first. *)
Theorem undo_actions_spec (la : txc_tx_action_list_t F) s :
  Forall (fun e => 0 <= order e) (la_actions la) ->
  exists l, l ≡ₚ la_actions la /\ StronglySorted Z.le (order <$> l) /\
    (forall o, filter (fun e => order e = o) l =
       reverse (filter (fun e => order e = o) (la_actions la))) /\
    forall r s', exec_undo_actions run store la s = Ret r s' <->
      exists errs, exec_trace run store l errs s s' /\ r = first_error 0 errs.
Proof.
  intros H. assert (H' : Forall (fun e => 0 <= order e) (reverse (la_actions la))).
  { by apply Forall_reverse. }
  destruct (exec_passes_order run store _ 0 s H') as (l & [Hs Hf] & E).
  rewrite max_order_rev in E. exists l. split_and!; [|done| |].
  - rewrite (stable_permutation _ _ Hf). by rewrite reverse_Permutation.
  - intros o. rewrite Hf. by rewrite filter_reverse.
  - intros r s'. rewrite <- exec_seq_trace, <- E. done.
Qed.

(** An action registered with a negative order is never reached: whatever
    the number of passes, the loop over the actions does not end with a result. *)
Theorem negative_order_stuck (la : txc_tx_action_list_t F) fuel s r s' :
  Exists (fun e => order e < 0) (la_actions la) ->
  exec_passes run store fuel 0 (la_actions la) 0 0 s <> Ret r s'.
Proof.
  intros H. apply exec_passes_stuck; [done| |done].
  rewrite (filter_none (fun e => 0 <= order e < 0)); [done|]. intros; lia.
Qed.
End exec_properties.

(** A concrete library of actions: the action [n] appends [n] to a log and
    leaves the error [n / 10]. *)
Definition log_run (n : Z) : M (list Z * gmap Z Z) Z :=
  fun s => Ret (n / 10) (s.1 ++ [n], s.2).

Definition log_store (p v : Z) (s : list Z * gmap Z Z) : list Z * gmap Z Z :=
  (s.1, <[p := v]> s.2).

Definition log_actions : txc_tx_action_list_t Z :=
  ActionList (Some [ActionEntry 1 None 2; ActionEntry 2 None 0; ActionEntry 30 (Some 7) 2;
                    ActionEntry 4 None 0]) 4 32.

(** The two passes over that list. *)
Example log_actions_commit :
  exec_commit_actions log_run log_store log_actions ([], ∅) = Ret 3 ([2; 4; 1; 30], {[7 := 3]}).
Proof. reflexivity. Qed.

Example log_actions_undo :
  exec_undo_actions log_run log_store log_actions ([], ∅) = Ret 3 ([4; 2; 30; 1], {[7 := 3]}).
Proof. reflexivity. Qed.

Lemma log_actions_nonneg : Forall (fun e => 0 <= order e) (la_actions log_actions).
Proof. vm_compute. repeat constructor; discriminate. Defined.

Lemma commit_actions_spec_witness :
  exists l, l ≡ₚ la_actions log_actions /\ StronglySorted Z.le (order <$> l) /\
    (forall o, filter (fun e => order e = o) l =
       filter (fun e => order e = o) (la_actions log_actions)) /\
    forall r s', exec_commit_actions log_run log_store log_actions ([], ∅) = Ret r s' <->
      exists errs, exec_trace log_run log_store l errs ([], ∅) s' /\ r = first_error 0 errs.
Proof. exact (commit_actions_spec log_run log_store log_actions ([], ∅) log_actions_nonneg). Defined.

Lemma undo_actions_spec_witness :
  exists l, l ≡ₚ la_actions log_actions /\ StronglySorted Z.le (order <$> l) /\
    (forall o, filter (fun e => order e = o) l =
       reverse (filter (fun e => order e = o) (la_actions log_actions))) /\
    forall r s', exec_undo_actions log_run log_store log_actions ([], ∅) = Ret r s' <->
      exists errs, exec_trace log_run log_store l errs ([], ∅) s' /\ r = first_error 0 errs.
Proof. exact (undo_actions_spec log_run log_store log_actions ([], ∅) log_actions_nonneg). Defined.

Lemma negative_order_stuck_witness :
  exec_passes log_run log_store 1000 0
    (la_actions (ActionList (Some [ActionEntry 1 None (-1)]) 1 32)) 0 0 ([], ∅) <> Ret 0 ([1], ∅).
Proof.
  apply (negative_order_stuck log_run log_store (ActionList (Some [ActionEntry 1 None (-1)]) 1 32)).
  by constructor.
Defined.

(** *** Registration *)

Definition la_ok {F} (la : txc_tx_action_list_t F) : Prop :=
  exists es, entries la = Some es /\ 0 <= num_entries la <= la_size la /\
    num_entries la <= Z.of_nat (length es) /\ 0 < la_size la < 2 ^ 31.

(** While the array can double, registering appends the action to those
    registered, at any fill of the array, and the list is again in order. When
    the array is full and [realloc] fails, [TXC_R_NOMEMORY] is returned and the
    actions registered so far are lost: the array is NULL. *)
Theorem register_action_spec {F} (la : txc_tx_action_list_t F) e :
  la_ok la ->
  (exists la', register_action true e la = Some (TXC_R_SUCCESS, la') /\
     la_actions la' = la_actions la ++ [e] /\ num_entries la' = num_entries la + 1 /\
     (la_size la' < 2 ^ 31 -> la_ok la')) /\
  (num_entries la = la_size la -> exists la',
     register_action false e la = Some (TXC_R_NOMEMORY, la') /\ la_actions la' = []) /\
  (num_entries la < la_size la -> register_action false e la = register_action true e la).
Proof.
  intros (es & He & Hn & Hl & Hs). split_and!.
  - assert (Hst : forall size, num_entries la < size -> 0 < size ->
      exists la', la_store e (ActionList (Some es) (num_entries la) size) = Some la' /\
        la_actions la' = la_actions la ++ [e] /\ num_entries la' = num_entries la + 1 /\
        (la_size la' < 2 ^ 31 -> la_ok la')).
    { intros size Hlt Hpos. eexists. split; [done|]. unfold la_actions, la_ok; simpl.
      rewrite u32_small by lia.
      assert (Hz : Z.to_nat (num_entries la + 1) = (Z.to_nat (num_entries la) + 1)%nat) by lia.
      assert (Hlen : length (take (Z.to_nat (num_entries la)) es) = Z.to_nat (num_entries la))
        by (rewrite length_take; lia).
      split_and!; [|done|].
      - rewrite He. simpl. rewrite Hz. rewrite take_app, take_take, Hlen.
        rewrite Nat.min_r by lia.
        by replace (Z.to_nat (num_entries la) + 1 - Z.to_nat (num_entries la))%nat with 1%nat by lia.
      - intros Hb. eexists. split; [done|]. rewrite length_app, Hlen. simpl.
        rewrite length_drop. lia. }
    unfold register_action. case_bool_decide as Hf.
    + destruct (Hst (la_size la * 2)) as (la' & E & ?); [lia..|].
      exists la'. split; [|done]. unfold allocate_action_list_entries.
      rewrite He, u32_small by lia. rewrite bool_decide_eq_false_2 by (intros X; by apply X).
      change (default [] (Some es)) with es. by rewrite E.
    + destruct (Hst (la_size la)) as (la' & E & ?); [lia..|].
      exists la'. destruct la; simpl in *; subst. by rewrite E.
  - intros Hf. eexists. unfold register_action. rewrite bool_decide_eq_true_2 by done.
    split; [done|]. unfold la_actions. simpl. by rewrite take_nil.
  - intros Hf. unfold register_action. by rewrite bool_decide_eq_false_2 by lia.
Qed.

Lemma register_action_spec_witness :
  (exists la', register_action true (ActionEntry 9 None 1) log_actions = Some (TXC_R_SUCCESS, la') /\
     la_actions la' = la_actions log_actions ++ [ActionEntry 9 None 1] /\ num_entries la' = 4 + 1 /\
     (la_size la' < 2 ^ 31 -> la_ok la')) /\
  (4 = 32 -> exists la',
     register_action false (ActionEntry 9 None 1) log_actions = Some (TXC_R_NOMEMORY, la') /\
     la_actions la' = []) /\
  (4 < 32 -> register_action false (ActionEntry 9 None 1) log_actions =
     register_action true (ActionEntry 9 None 1) log_actions).
Proof.
  apply (register_action_spec log_actions (ActionEntry 9 None 1)).
  eexists. split; [reflexivity|]. simpl. lia.
Defined.

(** *** Lists with room to grow *)

(** A list in order, with at most [n] actions and a size far from wrapping. *)
Definition la_good {F} (n : Z) (la : txc_tx_action_list_t F) : Prop :=
  exists es, entries la = Some es /\ 0 <= num_entries la <= Z.of_nat (length es) /\
    num_entries la <= n /\ num_entries la <= la_size la /\ 0 < la_size la < 2 ^ 30.

Lemma la_good_mono {F} n m (la : txc_tx_action_list_t F) : la_good n la -> n <= m -> la_good m la.
Proof. intros (es & He & Hn & Hm & Hs) H. exists es. split_and!; [done|lia..]. Qed.

Lemma la_store_good {F} n (la : txc_tx_action_list_t F) es e size :
  entries la = Some es -> 0 <= num_entries la <= Z.of_nat (length es) -> num_entries la <= n ->
  num_entries la < size -> 0 < size < 2 ^ 30 ->
  exists la', la_store e (ActionList (Some es) (num_entries la) size) = Some la' /\
    la_good (n + 1) la' /\ la_actions la' = la_actions la ++ [e].
Proof.
  intros He Hn Hm Hlt Hs. eexists. split; [done|]. simpl. rewrite u32_small by lia.
  assert (Hlen : length (take (Z.to_nat (num_entries la)) es) = Z.to_nat (num_entries la))
    by (rewrite length_take; lia).
  split.
  - eexists. split; [done|]. simpl. rewrite length_app, Hlen. simpl. lia.
  - unfold la_actions; simpl. rewrite He. simpl.
    replace (Z.to_nat (num_entries la + 1)) with (Z.to_nat (num_entries la) + 1)%nat by lia.
    rewrite take_app, take_take, Hlen, Nat.min_r by lia.
    by replace (Z.to_nat (num_entries la) + 1 - Z.to_nat (num_entries la))%nat with 1%nat by lia.
Qed.

Lemma register_good {F} n (la : txc_tx_action_list_t F) e :
  la_good n la -> n < 2 ^ 29 ->
  exists la', register_action true e la = Some (TXC_R_SUCCESS, la') /\ la_good (n + 1) la' /\
    la_actions la' = la_actions la ++ [e].
Proof.
  intros (es & He & Hn & Hm & Hle & Hs) Hlt. unfold register_action. case_bool_decide as Hf.
  - unfold allocate_action_list_entries. rewrite He, u32_small by lia.
    rewrite bool_decide_eq_false_2 by (intros X; by apply X).
    change (default [] (Some es)) with es.
    destruct (la_store_good n la es e (la_size la * 2)) as (la' & E & ?); [done|lia..|].
    rewrite E. by exists la'.
  - destruct (la_store_good n la es e (la_size la)) as (la' & E & ?); [done|lia..|].
    destruct la; simpl in *; subst. rewrite E. by exists la'.
Qed.
