(* ===== verification/CString.v ===== *)
(** * Strings in memory ([libc/string.c], [libc/stdlib.c])

    The library's versions of the C string functions, which a transaction can
    call, over a memory of bytes. Reading or writing an address that is not mapped
    is undefined. The loops whose end is in the data take fuel; the others run as
    often as their counter says.

    The first part holds the functions as the source has them, the second what
    they compute: the unrolled and the word-at-a-time loops do what the loops over
    one character at a time do. *)

From S2P Require Import Prelude.

Notation cmem := (gmap Z Z).

(** [*p] as an [unsigned char], and [*p = c]. *)
Definition mread (p : Z) : M cmem Z := fun m => match m !! p with Some c => Ret c m | None => Undef end.
Definition mwrite (p c : Z) : M cmem unit := fun m =>
  match m !! p with Some _ => Ret tt (<[p := c]> m) | None => Undef end.

(** The same byte read as a [char], which is signed. *)
Definition schar (c : Z) : Z := if bool_decide (c < 128) then c else c - 256.

(** [tolower] in the C locale. *)
Definition tolower (c : Z) : Z := if bool_decide (65 <= c <= 90) then c + 32 else c.

(** ** Copying *)

Definition strcpy_body (st : Z * Z) : M cmem (Z * Z + Z) :=
  let '(p, q) := st in
  do c <- mread p ;;
  if bool_decide (c = 0) then m_ret (inr q)
  else do c <- mread p ;; mwrite q c ;;; m_ret (inl (p + 1, q + 1)).

Definition txc_libc_strcpy (fuel : nat) (dest src : Z) : M cmem Z :=
  do q <- m_loop fuel strcpy_body (src, dest) ;;
  mwrite q 0 ;;;
  m_ret dest.

(** [c = *s2++; *++s1 = c;] *)
Definition copy_char (s1 s2 : Z) : M cmem Z :=
  do c <- mread s2 ;;
  mwrite (s1 + 1) c ;;;
  m_ret c.

(** The unrolled loop of [strncpy]: it breaks with [s1] at the terminator, or goes
    to [last_chars]. *)
Definition strncpy_quad (st : Z * Z * Z) : M cmem (Z * Z * Z + (Z + Z * Z)) :=
  let '(s1, s2, n4) := st in
  do c <- copy_char s1 s2 ;;
  if bool_decide (c = 0) then m_ret (inr (inl (s1 + 1))) else
  do c <- copy_char (s1 + 1) (s2 + 1) ;;
  if bool_decide (c = 0) then m_ret (inr (inl (s1 + 2))) else
  do c <- copy_char (s1 + 2) (s2 + 2) ;;
  if bool_decide (c = 0) then m_ret (inr (inl (s1 + 3))) else
  do c <- copy_char (s1 + 3) (s2 + 3) ;;
  if bool_decide (c = 0) then m_ret (inr (inl (s1 + 4))) else
  if bool_decide (n4 - 1 = 0) then m_ret (inr (inr (s1 + 4, s2 + 4)))
  else m_ret (inl (s1 + 4, s2 + 4, n4 - 1)).

(** [do *++s1 = '\0'; while (--n > 0);] *)
Definition zero_fill (s1 n : Z) : M cmem unit :=
  m_loop (S (Z.to_nat n)) (fun st => let '(s1, n) := st in
    mwrite (s1 + 1) 0 ;;;
    let n := u32 (n - 1) in
    m_ret (if bool_decide (n > 0) then inl (s1 + 1, n) else inr tt)) (s1, n).

Definition strncpy_last (s s1 s2 n : Z) : M cmem Z :=
  let n := Z.land n 3 in
  if bool_decide (n = 0) then m_ret s else
  do r <- m_loop (S (Z.to_nat n)) (fun st => let '(s1, s2, n) := st in
    do c <- copy_char s1 s2 ;;
    let n := u32 (n - 1) in
    if bool_decide (n = 0) then m_ret (inr None)
    else m_ret (if bool_decide (c <> 0) then inl (s1 + 1, s2 + 1, n) else inr (Some (s1 + 1, n))))
    (s1, s2, n) ;;
  match r with
  | None => m_ret s
  | Some (s1, n) => zero_fill s1 n ;;; m_ret s
  end.

(** Where the unrolled loop left: the zeros, or the last characters. *)
Definition strncpy_rest (s n : Z) (r : Z + Z * Z) : M cmem Z :=
  match r with
  | inl s1 =>
      let n := u32 (n - (s1 - s) - 1) in
      if bool_decide (n = 0) then m_ret s else zero_fill s1 n ;;; m_ret s
  | inr (s1, s2) => strncpy_last s s1 s2 n
  end.

Definition txc_libc_strncpy (s1 s2 n : Z) : M cmem Z :=
  let s := s1 in
  let s1 := s1 - 1 in
  if bool_decide (n >= 4) then
    do r <- m_loop (S (Z.to_nat (Z.shiftr n 2))) strncpy_quad (s1, s2, Z.shiftr n 2) ;;
    strncpy_rest s n r
  else strncpy_last s s1 s2 n.

(** [do c = *s1++; while (c != '\0');] and [s1 -= 2]: before the terminator. *)
Definition find_end (fuel : nat) (s1 : Z) : M cmem Z :=
  do s1 <- m_loop fuel (fun s1 => do c <- mread s1 ;;
    m_ret (if bool_decide (c <> 0) then inl (s1 + 1) else inr (s1 + 1))) s1 ;;
  m_ret (s1 - 2).

Definition txc_libc_strcat (fuel : nat) (dest src : Z) : M cmem Z :=
  do s1 <- find_end fuel dest ;;
  m_loop fuel (fun st => let '(s1, s2) := st in
    do c <- copy_char s1 s2 ;;
    m_ret (if bool_decide (c <> 0) then inl (s1 + 1, s2 + 1) else inr tt)) (s1, src) ;;;
  m_ret dest.

(** The unrolled loop of [strncat]: it returns, or leaves the pointers and the
    last character read. *)
Definition strncat_quad (st : Z * Z * Z) : M cmem (Z * Z * Z + option (Z * Z * Z)) :=
  let '(s1, s2, n4) := st in
  do c <- copy_char s1 s2 ;;
  if bool_decide (c = 0) then m_ret (inr None) else
  do c <- copy_char (s1 + 1) (s2 + 1) ;;
  if bool_decide (c = 0) then m_ret (inr None) else
  do c <- copy_char (s1 + 2) (s2 + 2) ;;
  if bool_decide (c = 0) then m_ret (inr None) else
  do c <- copy_char (s1 + 3) (s2 + 3) ;;
  if bool_decide (c = 0) then m_ret (inr None) else
  m_ret (if bool_decide (n4 - 1 > 0) then inl (s1 + 4, s2 + 4, n4 - 1) else inr (Some (s1 + 4, s2 + 4, c))).

(** The loop over the rest; [c] is the last character read. *)
Definition strncat_last (s s1 s2 n c : Z) : M cmem Z :=
  do r <- m_loop (S (Z.to_nat n)) (fun st => let '(s1, s2, n, c) := st in
    if bool_decide (n > 0) then
      do c <- copy_char s1 s2 ;;
      m_ret (if bool_decide (c = 0) then inr None else inl (s1 + 1, s2 + 1, u32 (n - 1), c))
    else m_ret (inr (Some (s1, c)))) (s1, s2, n, c) ;;
  match r with
  | None => m_ret s
  | Some (s1, c) => (if bool_decide (c <> 0) then mwrite (s1 + 1) 0 else m_ret tt) ;;; m_ret s
  end.

(** Without the unrolled loop the last character read is the one that ended [s1]. *)
Definition txc_libc_strncat (fuel : nat) (s1 s2 n : Z) : M cmem Z :=
  let s := s1 in
  do s1 <- find_end fuel s1 ;;
  if bool_decide (n >= 4) then
    do r <- m_loop (S (Z.to_nat (Z.shiftr n 2))) strncat_quad (s1, s2, Z.shiftr n 2) ;;
    match r with
    | None => m_ret s
    | Some (s1, s2, c) => strncat_last s s1 s2 (Z.land n 3) c
    end
  else strncat_last s s1 s2 n 0.

(** ** Comparing *)

Definition txc_libc_strcmp (fuel : nat) (a b : Z) : M cmem Z :=
  m_loop fuel (fun st => let '(a, b) := st in
    do c1 <- mread a ;;
    do c2 <- mread b ;;
    let delta := schar c1 - schar c2 in
    if bool_decide (delta <> 0) then m_ret (inr delta)
    else m_ret (if bool_decide (c1 <> 0 /\ c2 <> 0) then inl (a + 1, b + 1) else inr 0)) (a, b).

(** Two characters: the loop returns their difference, or goes on. *)
Definition cmp_char (s1 s2 : Z) : M cmem (Z * Z * bool) :=
  do c1 <- mread s1 ;;
  do c2 <- mread s2 ;;
  m_ret (c1, c2, bool_decide (c1 = 0 \/ c1 <> c2)).

(** The unrolled loop of [strncmp]: a result, or the pointers and the last two
    characters. *)
Definition strncmp_quad (st : Z * Z * Z) : M cmem (Z * Z * Z + (Z + Z * Z * (Z * Z))) :=
  let '(s1, s2, n4) := st in
  do '(c1, c2, stop) <- cmp_char s1 s2 ;;
  if stop then m_ret (inr (inl (c1 - c2))) else
  do '(c1, c2, stop) <- cmp_char (s1 + 1) (s2 + 1) ;;
  if (stop : bool) then m_ret (inr (inl (c1 - c2))) else
  do '(c1, c2, stop) <- cmp_char (s1 + 2) (s2 + 2) ;;
  if (stop : bool) then m_ret (inr (inl (c1 - c2))) else
  do '(c1, c2, stop) <- cmp_char (s1 + 3) (s2 + 3) ;;
  if (stop : bool) then m_ret (inr (inl (c1 - c2))) else
  m_ret (if bool_decide (n4 - 1 > 0) then inl (s1 + 4, s2 + 4, n4 - 1)
         else inr (inr (s1 + 4, s2 + 4, (c1, c2)))).

Definition strncmp_last (s1 s2 n c1 c2 : Z) : M cmem Z :=
  m_loop (S (Z.to_nat n)) (fun st => let '(s1, s2, n, c1, c2) := st in
    if bool_decide (n > 0) then
      do '(c1, c2, stop) <- cmp_char s1 s2 ;;
      m_ret (if (stop : bool) then inr (c1 - c2) else inl (s1 + 1, s2 + 1, u32 (n - 1), c1, c2))
    else m_ret (inr (c1 - c2))) (s1, s2, n, c1, c2).

Definition txc_libc_strncmp (s1 s2 n : Z) : M cmem Z :=
  if bool_decide (n >= 4) then
    do r <- m_loop (S (Z.to_nat (Z.shiftr n 2))) strncmp_quad (s1, s2, Z.shiftr n 2) ;;
    match r with
    | inl d => m_ret d
    | inr (s1, s2, (c1, c2)) => strncmp_last s1 s2 (Z.land n 3) c1 c2
    end
  else strncmp_last s1 s2 n 0 0.

(** The characters are compared as signed ones, the difference is of unsigned
    ones. *)
Definition lower_diff (s1 s2 : Z) : M cmem Z :=
  do c1 <- mread s1 ;;
  do c2 <- mread s2 ;;
  m_ret (tolower c1 - tolower c2).

Definition txc_libc_strcasecmp (fuel : nat) (s1 s2 : Z) : M cmem Z :=
  do '(s1, s2) <- m_loop fuel (fun st => let '(s1, s2) := st in
    do c1 <- mread s1 ;;
    if bool_decide (c1 <> 0) then
      do c2 <- mread s2 ;;
      m_ret (if bool_decide (tolower (schar c1) = tolower (schar c2)) then inl (s1 + 1, s2 + 1) else inr (s1, s2))
    else m_ret (inr (s1, s2))) (s1, s2) ;;
  lower_diff s1 s2.

Definition txc_libc_strncasecmp (s1 s2 n : Z) : M cmem Z :=
  if bool_decide (n = 0) then m_ret 0 else
  do '(s1, s2) <- m_loop (S (Z.to_nat n)) (fun st => let '(s1, s2, n) := st in
    if bool_decide (n <> 0) then
      let n := u32 (n - 1) in
      do c1 <- mread s1 ;;
      do c2 <- mread s2 ;;
      if bool_decide (tolower (schar c1) = tolower (schar c2)) then
        m_ret (if bool_decide (n = 0 \/ c1 = 0 \/ c2 = 0) then inr (s1, s2) else inl (s1 + 1, s2 + 1, n))
      else m_ret (inr (s1, s2))
    else m_ret (inr (s1, s2))) (s1, s2, n) ;;
  lower_diff s1 s2.

(** ** Searching *)

(** The pointer is [None] when it is null; the result is a [size_t]. *)
Definition txc_libc_strlen (fuel : nat) (str : option Z) : M cmem Z :=
  match str with
  | None => m_ret (u32 (-1))
  | Some str =>
      do s <- m_loop fuel (fun s => do c <- mread s ;;
        m_ret (if bool_decide (c <> 0) then inl (s + 1) else inr s)) str ;;
      m_ret (u32 (s - str))
  end.

(** A longword of four bytes, the lowest first. *)
Definition mread_long (p : Z) : M cmem Z :=
  do b0 <- mread p ;;
  do b1 <- mread (p + 1) ;;
  do b2 <- mread (p + 2) ;;
  do b3 <- mread (p + 3) ;;
  m_ret (b0 + 256 * b1 + 65536 * b2 + 16777216 * b3).

Definition magic_bits : Z := 0x7efefeff.

(** [~x] on 32 bits. *)
Definition not32 (x : Z) : Z := Z.lxor x (2 ^ 32 - 1).

(** [(((longword + magic_bits) ^ ~longword) & ~magic_bits) != 0] *)
Definition maybe_zero (longword : Z) : bool :=
  bool_decide (Z.land (Z.lxor (u32 (longword + magic_bits)) (not32 longword)) (not32 magic_bits) <> 0).

(** [charmask = c | (c << 8); charmask |= charmask << 16;] *)
Definition charmask (c : Z) : Z :=
  let m := Z.lor c (Z.shiftl c 8) in
  Z.lor m (u32 (Z.shiftl m 16)).

(** The test of one character: [Some (Some cp)] when it is [c], [Some None] when it
    is the terminator, [None] to go on. *)
Definition strchr_test (c cp : Z) : M cmem (option (option Z)) :=
  do x <- mread cp ;;
  m_ret (if bool_decide (x = c) then Some (Some cp) else if bool_decide (x = 0) then Some None else None).

Definition strchr_align (c char_ptr : Z) : M cmem (Z + (Z + option Z)) :=
  if bool_decide (Z.land char_ptr 3 <> 0) then
    do r <- strchr_test c char_ptr ;;
    m_ret (match r with Some r => inr (inr r) | None => inl (char_ptr + 1) end)
  else m_ret (inr (inl char_ptr)).

Definition strchr_word (c p : Z) : M cmem (Z + option Z) :=
  do longword <- mread_long p ;;
  if maybe_zero longword || maybe_zero (Z.lxor longword (charmask c)) then
    do r <- strchr_test c p ;;
    match r with Some r => m_ret (inr r) | None =>
    do r <- strchr_test c (p + 1) ;;
    match r with Some r => m_ret (inr r) | None =>
    do r <- strchr_test c (p + 2) ;;
    match r with Some r => m_ret (inr r) | None =>
    do r <- strchr_test c (p + 3) ;;
    match r with Some r => m_ret (inr r) | None => m_ret (inl (p + 4)) end end end end
  else m_ret (inl (p + 4)).

(** [sizeof (unsigned long int)] is 4. *)
Definition txc_libc_strchr (fuel : nat) (s c_in : Z) : M cmem (option Z) :=
  let c := c_in mod 256 in
  do r <- m_loop 4 (strchr_align c) s ;;
  match r with
  | inr r => m_ret r
  | inl p => m_loop fuel (strchr_word c) p
  end.

(** The C library's [strchr], which [strrchr] calls. *)
Definition strchr (fuel : nat) (s c_in : Z) : M cmem (option Z) :=
  let c := c_in mod 256 in
  m_loop fuel (fun p => do r <- strchr_test c p ;;
    m_ret (match r with Some r => inr r | None => inl (p + 1) end)) s.

Definition txc_libc_strrchr (fuel : nat) (s c : Z) : M cmem (option Z) :=
  let c := c mod 256 in
  if bool_decide (c = 0) then strchr fuel s 0 else
  m_loop fuel (fun st => let '(s, found) := st in
    do p <- strchr fuel s c ;;
    m_ret (match p with Some p => inl (p + 1, Some p) | None => inr found end)) (s, None).

(** ** [libc/stdlib.c] *)

(** Arithmetic on [int] that overflows is undefined. *)
Definition int_ok (z : Z) : M cmem Z := if bool_decide (- 2 ^ 31 <= z < 2 ^ 31) then m_ret z else m_undef.

(** Blanks and a sign: whether it is negative. *)
Definition atoi_prefix (p : Z) : M cmem (Z + Z * bool) :=
  do c <- mread p ;;
  m_ret (if bool_decide (c = 32 \/ c = 9) then inl (p + 1)
         else if bool_decide (c = 45) then inr (p + 1, true)
         else if bool_decide (c = 43) then inr (p + 1, false)
         else inr (p, false)).

Definition atoi_body (st : Z * Z) : M cmem (Z * Z + Z) :=
  let '(p, n) := st in
  do c <- mread p ;;
  if bool_decide (48 <= c <= 57) then
    do x <- int_ok (n * 10) ;;
    do x <- int_ok (x + c) ;;
    m_ret (inl (p + 1, x - 48))
  else m_ret (inr n).

Definition txc_libc_atoi (fuel : nat) (p : Z) : M cmem Z :=
  do '(p, f) <- m_loop fuel atoi_prefix p ;;
  do n <- m_loop fuel atoi_body (p, 0) ;;
  if (f : bool) then int_ok (- n) else m_ret n.

(** ** What the functions compute *)

(** *** Strings and regions *)

(** The string [l], terminated, is at [p]. *)
Fixpoint cstr (m : cmem) (p : Z) (l : list Z) : Prop :=
  match l with
  | [] => m !! p = Some 0
  | c :: l => 0 < c < 256 /\ m !! p = Some c /\ cstr m (p + 1) l
  end.

Definition writable (m : cmem) (d n : Z) : Prop := forall i, d <= i < d + n -> is_Some (m !! i).

Fixpoint put_bytes (d : Z) (l : list Z) (m : cmem) : cmem :=
  match l with
  | [] => m
  | c :: l => put_bytes (d + 1) l (<[d := c]> m)
  end.

(** The order of two strings whose characters are read with [f]: the difference at
    the first place where they differ. *)
Fixpoint cmp_list (f : Z -> Z) (a b : list Z) : Z :=
  match a, b with
  | [], [] => 0
  | [], c2 :: _ => f 0 - f c2
  | c1 :: _, [] => f c1 - f 0
  | c1 :: a, c2 :: b => if bool_decide (c1 = c2) then cmp_list f a b else f c1 - f c2
  end.

(** Where [c] is first in the terminated string. *)
Fixpoint index_of (c : Z) (l : list Z) : option Z :=
  match l with
  | [] => if bool_decide (c = 0) then Some 0 else None
  | x :: l => if bool_decide (x = c) then Some 0 else Z.succ <$> index_of c l
  end.

(** Copying one character at a time. *)
Fixpoint nzero (n : nat) (d : Z) : M cmem unit :=
  match n with
  | O => m_ret tt
  | S n => mwrite d 0 ;;; nzero n (d + 1)
  end.

Fixpoint ncopy (n : nat) (d s : Z) : M cmem unit :=
  match n with
  | O => m_ret tt
  | S n =>
      do c <- mread s ;;
      mwrite d c ;;;
      if bool_decide (c = 0) then nzero n (d + 1) else ncopy n (d + 1) (s + 1)
  end.

Fixpoint ncat (n : nat) (d s : Z) : M cmem unit :=
  match n with
  | O => mwrite d 0
  | S n =>
      do c <- mread s ;;
      mwrite d c ;;;
      if bool_decide (c = 0) then m_ret tt else ncat n (d + 1) (s + 1)
  end.

(** *** Loops *)

Lemma u32_pred n : 0 < n < 2 ^ 32 -> u32 (n - 1) = n - 1.
Proof. intros. apply u32_small. lia. Qed.

Lemma mread_cases p (m : cmem) : (exists c, mread p m = Ret c m) \/ mread p m = Undef.
Proof. unfold mread. destruct (m !! p) as [c|]; [left; by exists c|by right]. Qed.

Lemma mwrite_cases p c (m : cmem) : (exists m', mwrite p c m = Ret tt m') \/ mwrite p c m = Undef.
Proof. unfold mwrite. destruct (m !! p); [left; by eexists|by right]. Qed.

(** Run the next access; where it is undefined both sides are. *)
Ltac mstep :=
  cbv beta iota zeta; rewrite ?m_bind_assoc; cbv beta;
  match goal with
  | |- context [m_bind (mread ?p) ?f ?m] =>
      let c := fresh "c" in let E := fresh "E" in
      destruct (mread_cases p m) as [[c E]|E];
      [rewrite !(m_bind_run _ _ _ _ _ E)|unfold m_bind; rewrite !E; reflexivity]
  | |- context [m_bind (mwrite ?p ?x) ?f ?m] =>
      let m' := fresh "m" in let E := fresh "E" in
      destruct (mwrite_cases p x m) as [[m' E]|E];
      [rewrite !(m_bind_run _ _ _ _ _ E)|unfold m_bind; rewrite !E; reflexivity]
  | |- context [m_bind (m_ret ?a) ?f ?m] => change (m_bind (m_ret a) f m) with (f a m)
  end; cbv beta iota zeta.

Lemma zero_fill_eq s1 n m : 0 < n < 2 ^ 32 -> zero_fill s1 n m = nzero (Z.to_nat n) (s1 + 1) m.
Proof.
  intros Hn. unfold zero_fill. remember (Z.to_nat n) as k eqn:Hk. assert (n = Z.of_nat k) as -> by lia. clear Hk.
  revert s1 m Hn. induction k as [|k IH]; intros s1 m Hn; [lia|].
  rewrite m_loop_S; cbn [nzero]. mstep. rewrite u32_pred by lia.
  case_bool_decide as H.
  - mstep. replace (Z.of_nat (S k) - 1) with (Z.of_nat k) by lia. apply IH. lia.
  - mstep. assert (k = 0%nat) as -> by lia. done.
Qed.

Lemma strncpy_last_eq s s1 s2 n m :
  strncpy_last s s1 s2 n m = (ncopy (Z.to_nat (Z.land n 3)) (s1 + 1) s2 ;;; m_ret s) m.
Proof.
  unfold strncpy_last. assert (0 <= Z.land n 3 < 4) as Hr.
  { change 3 with (Z.ones 2). rewrite Z.land_ones by lia. by apply Z.mod_pos_bound. }
  remember (Z.to_nat (Z.land n 3)) as k eqn:Hk. replace (Z.land n 3) with (Z.of_nat k) in * by lia. clear Hk.
  case_bool_decide as H0; [assert (k = 0%nat) as -> by lia; done|].
  clear n. revert s1 s2 m Hr H0. induction k as [|k IH]; intros s1 s2 m Hr H0; [lia|].
  rewrite m_loop_S; cbn [ncopy]. unfold copy_char at 1. mstep. mstep. mstep. rewrite u32_pred by lia.
  case_bool_decide as H1; mstep.
  - assert (k = 0%nat) as -> by lia. by case_bool_decide.
  - case_bool_decide as H2.
    + rewrite (bool_decide_eq_false_2 (c = 0)) by done.
      replace (Z.of_nat (S k) - 1) with (Z.of_nat k) by lia. apply IH; lia.
    + rewrite (bool_decide_eq_true_2 (c = 0)) by lia. mstep. apply m_bind_ext; [|done].
      rewrite zero_fill_eq by lia. f_equal. lia.
Qed.

(** A counter is four times the rounds of the unrolled loop, and the rest. *)
Lemma shiftr_land n : 0 <= n -> n = 4 * Z.shiftr n 2 + Z.land n 3.
Proof.
  intros. rewrite Z.shiftr_div_pow2 by lia. change 3 with (Z.ones 2). rewrite Z.land_ones by lia.
  change (2 ^ 2) with 4. apply Z.div_mod. lia.
Qed.

Lemma land3_range n : 0 <= Z.land n 3 < 4.
Proof. change 3 with (Z.ones 2). rewrite Z.land_ones by lia. by apply Z.mod_pos_bound. Qed.

Lemma strncpy_break s n d d' j m :
  n < 2 ^ 32 -> n = d - s + 1 + Z.of_nat j -> d' = d + 1 -> s <= d ->
  strncpy_rest s n (inl d) m = (nzero j d' ;;; m_ret s) m.
Proof.
  intros Hn Hj -> Hd. simpl. rewrite u32_small by lia. case_bool_decide as H0.
  - assert (j = 0%nat) as -> by lia. done.
  - apply m_bind_ext; [|done]. rewrite zero_fill_eq by lia. f_equal. lia.
Qed.

Lemma strncpy_quads s n k d e m :
  n < 2 ^ 32 -> (0 < k)%nat -> n = d + 1 - s + 4 * Z.of_nat k + Z.land n 3 -> s <= d + 1 ->
  (do r <- m_loop (S k) strncpy_quad (d, e, Z.of_nat k) ;; strncpy_rest s n r) m =
  (ncopy (4 * k + Z.to_nat (Z.land n 3)) (d + 1) e ;;; m_ret s) m.
Proof.
  pose proof (land3_range n) as Hr. intros Hn.
  revert d e m. induction k as [|k IH]; intros d e m Hk Hd Hs'; [lia|].
  replace (4 * S k + Z.to_nat (Z.land n 3))%nat with (S (S (S (S (4 * k + Z.to_nat (Z.land n 3))))))%nat by lia.
  rewrite m_loop_S. cbn [ncopy strncpy_quad]. unfold copy_char.
  mstep. mstep. mstep. case_bool_decide as Hc0; [mstep; mstep; apply strncpy_break; lia|].
  replace (d + 1 + 1) with (d + 2) by lia.
  mstep. mstep. mstep. case_bool_decide as Hc1; [mstep; mstep; apply strncpy_break; lia|].
  replace (d + 2 + 1) with (d + 3) by lia. replace (e + 1 + 1) with (e + 2) by lia.
  mstep. mstep. mstep. case_bool_decide as Hc2; [mstep; mstep; apply strncpy_break; lia|].
  replace (d + 3 + 1) with (d + 4) by lia. replace (e + 2 + 1) with (e + 3) by lia.
  mstep. mstep. mstep. case_bool_decide as Hc3; [mstep; mstep; apply strncpy_break; lia|].
  replace (Z.of_nat (S k) - 1) with (Z.of_nat k) by lia. replace (e + 3 + 1) with (e + 4) by lia.
  case_bool_decide as Hk0; mstep.
  - mstep. assert (k = 0%nat) as -> by lia. apply strncpy_last_eq.
  - apply IH; lia.
Qed.

Lemma strncpy_eq s1 s2 n m :
  0 <= n < 2 ^ 32 -> txc_libc_strncpy s1 s2 n m = (ncopy (Z.to_nat n) s1 s2 ;;; m_ret s1) m.
Proof.
  intros Hn. unfold txc_libc_strncpy. pose proof (shiftr_land n ltac:(lia)) as Hs. pose proof (land3_range n) as Hr.
  case_bool_decide as H4.
  - assert (exists k, Z.shiftr n 2 = Z.of_nat k /\ (0 < k)%nat) as (k & Hk & Hk0)
      by (exists (Z.to_nat (Z.shiftr n 2)); lia).
    rewrite Hk, Nat2Z.id, strncpy_quads by lia. replace (s1 - 1 + 1) with s1 by lia.
    by replace (4 * k + Z.to_nat (Z.land n 3))%nat with (Z.to_nat n) by lia.
  - rewrite strncpy_last_eq. replace (Z.land n 3) with n by lia. by replace (s1 - 1 + 1) with s1 by lia.
Qed.

Fixpoint ncmp (n : nat) (s1 s2 : Z) : M cmem Z :=
  match n with
  | O => m_ret 0
  | S n =>
      do c1 <- mread s1 ;;
      do c2 <- mread s2 ;;
      if bool_decide (c1 = 0 \/ c1 <> c2) then m_ret (c1 - c2) else ncmp n (s1 + 1) (s2 + 1)
  end.

(** *** [strncat] *)

Lemma strncat_last_eq s s1 s2 n c m :
  0 <= n < 2 ^ 32 -> (c = 0 -> 0 < n) ->
  strncat_last s s1 s2 n c m = (ncat (Z.to_nat n) (s1 + 1) s2 ;;; m_ret s) m.
Proof.
  intros Hn Hc. unfold strncat_last. remember (Z.to_nat n) as k eqn:Hk. assert (n = Z.of_nat k) as -> by lia. clear Hk.
  revert s1 s2 c m Hn Hc. induction k as [|k IH]; intros s1 s2 c m Hn Hc; rewrite m_loop_S; cbn [ncat].
  - rewrite bool_decide_eq_false_2 by lia. mstep. mstep. by rewrite bool_decide_eq_true_2 by lia.
  - rewrite bool_decide_eq_true_2 by lia. unfold copy_char at 1. mstep. mstep. mstep. rewrite u32_pred by lia.
    replace (Z.of_nat (S k) - 1) with (Z.of_nat k) by lia.
    case_bool_decide as H; mstep; [done|]. apply IH; lia.
Qed.

Lemma strncat_quads s r k d e m :
  (0 < k)%nat -> 0 <= r < 4 ->
  (do x <- m_loop (S k) strncat_quad (d, e, Z.of_nat k) ;;
   match x with None => m_ret s | Some (s1, s2, c) => strncat_last s s1 s2 r c end) m =
  (ncat (4 * k + Z.to_nat r) (d + 1) e ;;; m_ret s) m.
Proof.
  intros Hk Hr. revert d e m Hk. induction k as [|k IH]; intros d e m Hk; [lia|].
  replace (4 * S k + Z.to_nat r)%nat with (S (S (S (S (4 * k + Z.to_nat r))))) by lia.
  rewrite m_loop_S. cbn [ncat strncat_quad]. unfold copy_char.
  mstep. mstep. mstep. case_bool_decide as Hc0; [by mstep; mstep; mstep|].
  replace (d + 1 + 1) with (d + 2) by lia.
  mstep. mstep. mstep. case_bool_decide as Hc1; [by mstep; mstep; mstep|].
  replace (d + 2 + 1) with (d + 3) by lia. replace (e + 1 + 1) with (e + 2) by lia.
  mstep. mstep. mstep. case_bool_decide as Hc2; [by mstep; mstep; mstep|].
  replace (d + 3 + 1) with (d + 4) by lia. replace (e + 2 + 1) with (e + 3) by lia.
  mstep. mstep. mstep. case_bool_decide as Hc3; [by mstep; mstep; mstep|].
  replace (Z.of_nat (S k) - 1) with (Z.of_nat k) by lia. replace (e + 3 + 1) with (e + 4) by lia.
  mstep. case_bool_decide as Hk0.
  - apply IH; lia.
  - mstep. assert (k = 0%nat) as -> by lia. rewrite strncat_last_eq by lia. done.
Qed.

(** *** [strncmp] *)

Lemma strncmp_last_eq s1 s2 n c m :
  0 <= n < 2 ^ 32 -> strncmp_last s1 s2 n c c m = ncmp (Z.to_nat n) s1 s2 m.
Proof.
  intros Hn. unfold strncmp_last. remember (Z.to_nat n) as k eqn:Hk. assert (n = Z.of_nat k) as -> by lia. clear Hk.
  revert s1 s2 c m Hn. induction k as [|k IH]; intros s1 s2 c m Hn; rewrite m_loop_S; cbn [ncmp].
  - rewrite bool_decide_eq_false_2 by lia. mstep. by rewrite Z.sub_diag.
  - rewrite bool_decide_eq_true_2 by lia. unfold cmp_char at 1. mstep. mstep. mstep. mstep. rewrite u32_pred by lia.
    replace (Z.of_nat (S k) - 1) with (Z.of_nat k) by lia.
    case_bool_decide as H; [done|]. assert (c0 = c1) as -> by (destruct (decide (c0 = c1)); tauto). apply IH. lia.
Qed.

Lemma strncmp_quads n k s1 s2 m :
  (0 < k)%nat -> 
  (do r <- m_loop (S k) strncmp_quad (s1, s2, Z.of_nat k) ;;
   match r with inl d => m_ret d | inr (s1, s2, (c1, c2)) => strncmp_last s1 s2 (Z.land n 3) c1 c2 end) m =
  ncmp (4 * k + Z.to_nat (Z.land n 3)) s1 s2 m.
Proof.
  pose proof (land3_range n) as Hr. revert s1 s2 m. induction k as [|k IH]; intros s1 s2 m Hk; [lia|].
  replace (4 * S k + Z.to_nat (Z.land n 3))%nat with (S (S (S (S (4 * k + Z.to_nat (Z.land n 3)))))) by lia.
  rewrite m_loop_S. cbn [ncmp strncmp_quad]. unfold cmp_char.
  mstep. mstep. mstep. case_bool_decide as Hc0; [by mstep; mstep|].
  mstep. mstep. mstep. case_bool_decide as Hc1; [by mstep; mstep|].
  replace (s1 + 1 + 1) with (s1 + 2) by lia. replace (s2 + 1 + 1) with (s2 + 2) by lia.
  mstep. mstep. mstep. case_bool_decide as Hc2; [by mstep; mstep|].
  replace (s1 + 2 + 1) with (s1 + 3) by lia. replace (s2 + 2 + 1) with (s2 + 3) by lia.
  mstep. mstep. mstep. case_bool_decide as Hc3; [by mstep; mstep|].
  replace (Z.of_nat (S k) - 1) with (Z.of_nat k) by lia.
  replace (s1 + 3 + 1) with (s1 + 4) by lia. replace (s2 + 3 + 1) with (s2 + 4) by lia.
  mstep. case_bool_decide as Hk0.
  - apply IH; lia.
  - mstep. assert (k = 0%nat) as -> by lia.
    assert (c5 = c6) as -> by (destruct (decide (c5 = c6)); tauto). rewrite strncmp_last_eq by lia. done.
Qed.

Lemma strncmp_eq s1 s2 n m :
  0 <= n < 2 ^ 32 -> txc_libc_strncmp s1 s2 n m = ncmp (Z.to_nat n) s1 s2 m.
Proof.
  intros Hn. unfold txc_libc_strncmp. pose proof (shiftr_land n ltac:(lia)) as Hs. pose proof (land3_range n) as Hr.
  case_bool_decide as H4; [|by apply strncmp_last_eq].
  assert (exists k, Z.shiftr n 2 = Z.of_nat k /\ (0 < k)%nat) as (k & Hk & Hk0) by (exists (Z.to_nat (Z.shiftr n 2)); lia).
  rewrite Hk, Nat2Z.id, strncmp_quads by lia. by replace (4 * k + Z.to_nat (Z.land n 3))%nat with (Z.to_nat n) by lia.
Qed.

(** *** Regions *)

Lemma mread_some m p c : m !! p = Some c -> mread p m = Ret c m.
Proof. unfold mread. by intros ->. Qed.

Lemma mwrite_some m p c : is_Some (m !! p) -> mwrite p c m = Ret tt (<[p := c]> m).
Proof. unfold mwrite. by intros [? ->]. Qed.

(** The next read is of a known byte. *)
Ltac read_at H :=
  cbv beta iota zeta; rewrite ?m_bind_assoc, (m_bind_run _ _ _ _ _ (mread_some _ _ _ H)); cbv beta iota zeta.

Lemma cstr_frame m m' p l :
  cstr m p l -> (forall i, p <= i <= p + Z.of_nat (length l) -> m' !! i = m !! i) -> cstr m' p l.
Proof.
  revert p. induction l as [|c l IH]; intros p; simpl.
  - intros H Hm. rewrite Hm by lia. done.
  - intros (Hc & Hp & Hl) Hm. split_and!; [lia..|by rewrite Hm by lia|]. apply IH; [done|]. intros i Hi. apply Hm. lia.
Qed.

Lemma cstr_app m p a b : cstr m p (a ++ b) -> cstr m (p + Z.of_nat (length a)) b.
Proof.
  revert p. induction a as [|c a IH]; intros p; simpl; [by rewrite Z.add_0_r|].
  intros (_ & _ & H). apply IH in H. by replace (p + Z.of_nat (S (length a))) with (p + 1 + Z.of_nat (length a)) by lia.
Qed.

Lemma cstr_end m p l : cstr m p l -> m !! (p + Z.of_nat (length l)) = Some 0.
Proof. intros H. rewrite <- (app_nil_r l) in H. by apply cstr_app in H. Qed.

Lemma put_bytes_lookup_ne d l m i :
  ~ (d <= i < d + Z.of_nat (length l)) -> put_bytes d l m !! i = m !! i.
Proof.
  revert d m. induction l as [|c l IH]; intros d m Hi; simpl in *; [done|].
  rewrite IH by lia. apply lookup_insert_ne. lia.
Qed.

Lemma put_bytes_app d a b m : put_bytes d (a ++ b) m = put_bytes (d + Z.of_nat (length a)) b (put_bytes d a m).
Proof.
  revert d m. induction a as [|c a IH]; intros d m; simpl; [by rewrite Z.add_0_r|].
  rewrite IH. f_equal. lia.
Qed.

Lemma put_bytes_cstr d l m : Forall (fun c => 0 < c < 256) l -> cstr (put_bytes d (l ++ [0]) m) d l.
Proof.
  intros Hl. revert d m. induction Hl as [|c l Hc Hl IH]; intros d m; simpl; [by rewrite lookup_insert_eq|].
  split_and!; [lia..| |apply IH]. rewrite put_bytes_lookup_ne by lia. apply lookup_insert_eq.
Qed.

Lemma writable_insert m d n i x : writable m d n -> writable (<[i := x]> m) d n.
Proof. intros H j Hj. destruct (decide (i = j)) as [->|]; [by rewrite lookup_insert_eq|by rewrite lookup_insert_ne by done; apply H]. Qed.

Lemma writable_mono m d n d' n' : writable m d n -> d <= d' -> d' + n' <= d + n -> writable m d' n'.
Proof. intros H Hd Hn i Hi. apply H. lia. Qed.

(** The copies of a string to a region apart from it. *)
Lemma nzero_spec n d m : writable m d (Z.of_nat n) -> nzero n d m = Ret tt (put_bytes d (replicate n 0) m).
Proof.
  revert d m. induction n as [|n IH]; intros d m Hw; simpl; [done|].
  rewrite (m_bind_run _ _ _ _ _ (mwrite_some m d 0 ltac:(apply Hw; lia))). apply IH.
  apply writable_insert. eapply writable_mono; [exact Hw|lia..].
Qed.

Lemma ncopy_spec n d s l m :
  cstr m s l -> writable m d (Z.of_nat n) ->
  (forall i, d <= i < d + Z.of_nat n -> ~ (s <= i <= s + Z.of_nat (length l))) ->
  ncopy n d s m = Ret tt (put_bytes d (take n l ++ replicate (n - length l) 0) m).
Proof.
  revert d s l m. induction n as [|n IH]; intros d s l m Hl Hw Hd; simpl.
  { done. }
  destruct l as [|c l]; simpl in *.
  - read_at Hl.
    rewrite (m_bind_run _ _ _ _ _ (mwrite_some m d 0 ltac:(apply Hw; lia))).
    rewrite bool_decide_eq_true_2 by done. apply nzero_spec.
    apply writable_insert. eapply writable_mono; [exact Hw|lia..].
  - destruct Hl as (Hc & Hs & Hl). read_at Hs.
    rewrite (m_bind_run _ _ _ _ _ (mwrite_some m d c ltac:(apply Hw; lia))).
    rewrite bool_decide_eq_false_2 by lia. apply IH.
    + eapply cstr_frame; [exact Hl|]. intros i Hi. apply lookup_insert_ne. intros <-. apply (Hd d); lia.
    + apply writable_insert. eapply writable_mono; [exact Hw|lia..].
    + intros i Hi Hi'. apply (Hd i); lia.
Qed.

Lemma ncat_spec n d s l m :
  cstr m s l -> writable m d (Z.of_nat (Nat.min n (length l)) + 1) ->
  (forall i, d <= i <= d + Z.of_nat (Nat.min n (length l)) -> ~ (s <= i <= s + Z.of_nat (length l))) ->
  ncat n d s m = Ret tt (put_bytes d (take n l ++ [0]) m).
Proof.
  revert d s l m. induction n as [|n IH]; intros d s l m Hl Hw Hd; simpl.
  { apply mwrite_some, Hw. lia. }
  destruct l as [|c l]; simpl in *.
  - read_at Hl.
    by rewrite (m_bind_run _ _ _ _ _ (mwrite_some m d 0 ltac:(apply Hw; lia))).
  - destruct Hl as (Hc & Hs & Hl). read_at Hs.
    rewrite (m_bind_run _ _ _ _ _ (mwrite_some m d c ltac:(apply Hw; lia))).
    rewrite bool_decide_eq_false_2 by lia. apply IH.
    + eapply cstr_frame; [exact Hl|]. intros i Hi. apply lookup_insert_ne. intros <-. apply (Hd d); lia.
    + apply writable_insert. eapply writable_mono; [exact Hw|lia..].
    + intros i Hi Hi'. apply (Hd i); lia.
Qed.

Lemma find_end_spec fuel p l m :
  cstr m p l -> (length l < fuel)%nat -> find_end fuel p m = Ret (p + Z.of_nat (length l) - 1) m.
Proof.
  intros Hl Hf. unfold find_end.
  assert (m_loop fuel (fun s1 => do c <- mread s1 ;;
    m_ret (if bool_decide (c <> 0) then inl (s1 + 1) else inr (s1 + 1))) p m = Ret (p + Z.of_nat (length l) + 1) m) as Hr.
  { revert p l Hl Hf. induction fuel as [|fuel IH]; intros p l Hl Hf; [lia|]. rewrite m_loop_S.
    destruct l as [|c l]; simpl in *.
    - read_at Hl. rewrite bool_decide_eq_false_2 by lia. mstep. unfold m_ret. f_equal. lia.
    - destruct Hl as (Hc & Hs & Hl). read_at Hs. rewrite bool_decide_eq_true_2 by lia. mstep. rewrite (IH _ l) by (done || lia). f_equal. lia. }
  rewrite (m_bind_run _ _ _ _ _ Hr). unfold m_ret. f_equal. lia.
Qed.

(** *** Words *)

Definition word (b0 b1 b2 b3 : Z) : Z := b0 + 256 * b1 + 65536 * b2 + 16777216 * b3.

Lemma maybe_zero_bit L k :
  0 <= k < 32 -> Z.testbit magic_bits k = false -> Z.testbit (u32 (L + magic_bits)) k = Z.testbit L k -> maybe_zero L = true.
Proof.
  intros Hk Hm Hb. unfold maybe_zero. apply bool_decide_eq_true_2. intros H.
  assert (Z.testbit (Z.land (Z.lxor (u32 (L + magic_bits)) (not32 L)) (not32 magic_bits)) k = true) as Ht.
  { unfold not32. rewrite Z.land_spec, !Z.lxor_spec, Hb, Hm. change (2 ^ 32 - 1) with (Z.ones 32).
    rewrite Z.ones_spec_low by lia. by destruct (Z.testbit L k). }
  rewrite H, Z.bits_0 in Ht. done.
Qed.

Lemma testbit_mod a b k : 0 <= k -> (a / 2 ^ k) mod 2 = (b / 2 ^ k) mod 2 -> Z.testbit a k = Z.testbit b k.
Proof. intros Hk H. rewrite !Z.testbit_eqb, H by done. done. Qed.

(** A zero byte is never missed. *)
Lemma maybe_zero_word b0 b1 b2 b3 :
  0 <= b0 < 256 -> 0 <= b1 < 256 -> 0 <= b2 < 256 -> 0 <= b3 < 256 ->
  b0 = 0 \/ b1 = 0 \/ b2 = 0 \/ b3 = 0 -> maybe_zero (word b0 b1 b2 b3) = true.
Proof.
  intros H0 H1 H2 H3 [Hz|[Hz|[Hz|Hz]]]; subst.
  - apply (maybe_zero_bit _ 8); [lia|done|]. apply testbit_mod; [lia|]. unfold u32, word, magic_bits.
    change (2 ^ 8) with 256. change (2 ^ 32) with 4294967296. Z.div_mod_to_equations. lia.
  - apply (maybe_zero_bit _ 16); [lia|done|]. apply testbit_mod; [lia|]. unfold u32, word, magic_bits.
    change (2 ^ 16) with 65536. change (2 ^ 32) with 4294967296. Z.div_mod_to_equations. lia.
  - apply (maybe_zero_bit _ 24); [lia|done|]. apply testbit_mod; [lia|]. unfold u32, word, magic_bits.
    change (2 ^ 24) with 16777216. change (2 ^ 32) with 4294967296. Z.div_mod_to_equations. lia.
  - apply (maybe_zero_bit _ 31); [lia|done|]. apply testbit_mod; [lia|]. unfold u32, word, magic_bits.
    change (2 ^ 31) with 2147483648. change (2 ^ 32) with 4294967296. Z.div_mod_to_equations. lia.
Qed.

Lemma land_lxor a b k : Z.land (Z.lxor a b) k = Z.lxor (Z.land a k) (Z.land b k).
Proof.
  apply Z.bits_inj'. intros n Hn. rewrite !Z.land_spec, !Z.lxor_spec, !Z.land_spec.
  by destruct (Z.testbit a n), (Z.testbit b n), (Z.testbit k n).
Qed.

Lemma lxor_low a b x y :
  0 <= a < 256 -> 0 <= b < 256 -> Z.lxor (a + 256 * x) (b + 256 * y) = Z.lxor a b + 256 * Z.lxor x y.
Proof.
  intros Ha Hb. set (z := Z.lxor _ _).
  assert (z mod 256 = Z.lxor a b) as Hm.
  { change 256 with (2 ^ 8) at 1. rewrite <- Z.land_ones by lia. unfold z. rewrite land_lxor, !Z.land_ones by lia.
    change (2 ^ 8) with 256. f_equal; Z.div_mod_to_equations; lia. }
  assert (z / 256 = Z.lxor x y) as Hd.
  { change 256 with (2 ^ 8) at 1. rewrite <- Z.shiftr_div_pow2 by lia. unfold z. rewrite Z.shiftr_lxor, !Z.shiftr_div_pow2 by lia.
    change (2 ^ 8) with 256. f_equal; Z.div_mod_to_equations; lia. }
  rewrite <- Hm, <- Hd. pose proof (Z.div_mod z 256). lia.
Qed.


Lemma word_lxor b0 b1 b2 b3 c :
  0 <= b0 < 256 -> 0 <= b1 < 256 -> 0 <= b2 < 256 -> 0 <= b3 < 256 -> 0 <= c < 256 ->
  Z.lxor (word b0 b1 b2 b3) (word c c c c) = word (Z.lxor b0 c) (Z.lxor b1 c) (Z.lxor b2 c) (Z.lxor b3 c).
Proof.
  intros. 
  assert (forall a b d e, word a b d e = a + 256 * (b + 256 * (d + 256 * e))) as Hw by (intros; unfold word; lia).
  by rewrite !Hw, !lxor_low.
Qed.

Lemma lxor_byte a b : 0 <= a < 256 -> 0 <= b < 256 -> 0 <= Z.lxor a b < 256.
Proof.
  intros Ha Hb. assert (Z.lxor a b mod 256 = Z.lxor a b) as <-; [|by apply Z.mod_pos_bound].
  change 256 with (2 ^ 8). rewrite <- Z.land_ones by lia. rewrite land_lxor, !Z.land_ones by lia.
  by rewrite !Z.mod_small.
Qed.

Lemma charmask_word c : 0 <= c < 256 -> charmask c = word c c c c.
Proof.
  intros Hc. assert (forallb (fun n => charmask (Z.of_nat n) =? word (Z.of_nat n) (Z.of_nat n) (Z.of_nat n) (Z.of_nat n))
    (seq 0 256) = true) as H by reflexivity.
  rewrite forallb_forall in H. specialize (H (Z.to_nat c)). rewrite Z2Nat.id in H by lia.
  apply Z.eqb_eq, H, in_seq. lia.
Qed.

(** Nor is a byte that is the searched one: there the exclusive or is zero. *)
Lemma maybe_char_word b0 b1 b2 b3 c :
  0 <= b0 < 256 -> 0 <= b1 < 256 -> 0 <= b2 < 256 -> 0 <= b3 < 256 -> 0 <= c < 256 ->
  b0 = c \/ b1 = c \/ b2 = c \/ b3 = c -> maybe_zero (Z.lxor (word b0 b1 b2 b3) (charmask c)) = true.
Proof.
  intros H0 H1 H2 H3 Hc Hz. rewrite charmask_word, word_lxor by done.
  apply maybe_zero_word; try (by apply lxor_byte). rewrite !Z.lxor_eq_0_iff. done.
Qed.

(** *** [strchr] *)

Definition mem_bytes (m : cmem) : Prop := map_Forall (fun _ c => 0 <= c < 256) m.

(** Memory is mapped by whole aligned words. *)
Definition word_mapped (m : cmem) : Prop :=
  forall p i j, p mod 4 = 0 -> 0 <= i < 4 -> 0 <= j < 4 -> is_Some (m !! (p + i)) -> is_Some (m !! (p + j)).

Lemma strchr_test_run c p x m : m !! p = Some x ->
  strchr_test c p m = Ret (if bool_decide (x = c) then Some (Some p) else if bool_decide (x = 0) then Some None else None) m.
Proof. intros H. unfold strchr_test. by rewrite (m_bind_run _ _ _ _ _ (mread_some _ _ _ H)). Qed.

(** What is at [p] of the string [l]. *)
Lemma index_of_head m p l c :
  cstr m p l -> exists x, m !! p = Some x /\
  (if bool_decide (x = c) then index_of c l = Some 0
   else if bool_decide (x = 0) then index_of c l = None
   else exists l', l = x :: l' /\ cstr m (p + 1) l' /\ index_of c l = Z.succ <$> index_of c l').
Proof.
  destruct l as [|x l]; simpl.
  - intros H. exists 0. split; [done|]. repeat case_bool_decide; try done; congruence.
  - intros (Hx & Hp & Hl). exists x. split; [done|]. rewrite (bool_decide_eq_false_2 (x = 0)) by lia.
    case_bool_decide; [done|]. by exists l.
Qed.

Definition at_index (p : Z) (r : option Z) : option Z := Z.add p <$> r.

Lemma at_index_succ p r : at_index p (Z.succ <$> r) = at_index (p + 1) r.
Proof. destruct r; simpl; [|done]. f_equal. lia. Qed.

(** A test of one character, on a string. *)
Lemma strchr_test_spec m p l c : cstr m p l ->
  exists x, m !! p = Some x /\
  (((x = c \/ x = 0) /\ strchr_test c p m = Ret (Some (at_index p (index_of c l))) m) \/
   (exists l', l = x :: l' /\ cstr m (p + 1) l' /\ strchr_test c p m = Ret None m /\
     at_index p (index_of c l) = at_index (p + 1) (index_of c l'))).
Proof.
  intros Hl. destruct (index_of_head m p l c Hl) as (x & Hx & Hi). exists x. split; [done|].
  rewrite (strchr_test_run _ _ _ _ Hx).
  case_bool_decide; [left; rewrite Hi; simpl; split; [by left|]; repeat f_equal; lia|].
  case_bool_decide; [left; rewrite Hi; split; [by right|done]|].
  right. destruct Hi as (l' & -> & Hl' & ->). exists l'. split_and!; try done. apply at_index_succ.
Qed.

Section strchr.
Context (m : cmem) (Hm : mem_bytes m) (Hw : word_mapped m) (c : Z) (Hc : 0 <= c < 256).

(** Whatever is in a word, its four bytes are tested if one of them ends the search. *)
Lemma read_word p x : p mod 4 = 0 -> m !! p = Some x -> exists b1 b2 b3,
  m !! (p + 1) = Some b1 /\ m !! (p + 2) = Some b2 /\ m !! (p + 3) = Some b3 /\
  mread_long p m = Ret (word x b1 b2 b3) m /\
  (forall b, b = x \/ b = b1 \/ b = b2 \/ b = b3 -> b = c \/ b = 0 ->
    maybe_zero (word x b1 b2 b3) || maybe_zero (Z.lxor (word x b1 b2 b3) (charmask c)) = true).
Proof.
  intros Hp Hx. assert (Hi : forall j, 0 <= j < 4 -> is_Some (m !! (p + j))).
  { intros j Hj. apply (Hw p 0 j); [done|lia|done|]. rewrite Z.add_0_r. by exists x. }
  destruct (Hi 1 ltac:(lia)) as [b1 H1], (Hi 2 ltac:(lia)) as [b2 H2], (Hi 3 ltac:(lia)) as [b3 H3].
  exists b1, b2, b3. split_and!; [done..| |].
  - unfold mread_long. read_at Hx. read_at H1. read_at H2. by read_at H3.
  - pose proof (Hm _ _ Hx). pose proof (Hm _ _ H1). pose proof (Hm _ _ H2). pose proof (Hm _ _ H3).
    intros b Hb Hbc. apply orb_true_iff. destruct Hbc as [->| ->].
    + right. apply maybe_char_word; [done..|]. naive_solver.
    + left. apply maybe_zero_word; [done..|]. naive_solver.
Qed.

Lemma strchr_word_spec p l : p mod 4 = 0 -> cstr m p l ->
  strchr_word c p m = Ret (inr (at_index p (index_of c l))) m \/
  (exists l', (length l' < length l)%nat /\ cstr m (p + 4) l' /\ strchr_word c p m = Ret (inl (p + 4)) m /\
    at_index p (index_of c l) = at_index (p + 4) (index_of c l')).
Proof.
  intros Hp H0. destruct (strchr_test_spec m p l c H0) as (x0 & Hx0 & T0).
  destruct (read_word p x0 Hp Hx0) as (x1 & x2 & x3 & Hx1 & Hx2 & Hx3 & Hlong & Hends).
  unfold strchr_word. rewrite (m_bind_run _ _ _ _ _ Hlong).
  destruct T0 as [[Hx R0]|(l0 & -> & H1 & R0 & I0)].
  { left. rewrite (Hends x0) by auto. by rewrite (m_bind_run _ _ _ _ _ R0). }
  destruct (strchr_test_spec m (p + 1) l0 c H1) as (y1 & Hy1 & T1). simplify_eq.
  destruct T1 as [[Hx R1]|(l1 & -> & H2 & R1 & I1)].
  { left. rewrite (Hends x1) by auto. rewrite (m_bind_run _ _ _ _ _ R0), (m_bind_run _ _ _ _ _ R1). by rewrite I0. }
  replace (p + 1 + 1) with (p + 2) in * by lia.
  destruct (strchr_test_spec m (p + 2) l1 c H2) as (y2 & Hy2 & T2). simplify_eq.
  destruct T2 as [[Hx R2]|(l2 & -> & H3 & R2 & I2)].
  { left. rewrite (Hends x2) by auto.
    rewrite (m_bind_run _ _ _ _ _ R0), (m_bind_run _ _ _ _ _ R1), (m_bind_run _ _ _ _ _ R2). by rewrite I0, I1. }
  replace (p + 2 + 1) with (p + 3) in * by lia.
  destruct (strchr_test_spec m (p + 3) l2 c H3) as (y3 & Hy3 & T3). simplify_eq.
  destruct T3 as [[Hx R3]|(l3 & -> & H4 & R3 & I3)].
  { left. rewrite (Hends x3) by auto.
    rewrite (m_bind_run _ _ _ _ _ R0), (m_bind_run _ _ _ _ _ R1), (m_bind_run _ _ _ _ _ R2), (m_bind_run _ _ _ _ _ R3).
    by rewrite I0, I1, I2. }
  replace (p + 3 + 1) with (p + 4) in * by lia. right. exists l3. split_and!; [simpl; lia|done| |congruence].
  destruct (_ || _); [|done].
  by rewrite (m_bind_run _ _ _ _ _ R0), (m_bind_run _ _ _ _ _ R1), (m_bind_run _ _ _ _ _ R2), (m_bind_run _ _ _ _ _ R3).
Qed.

Lemma strchr_words fuel p l : p mod 4 = 0 -> cstr m p l -> (length l < fuel)%nat ->
  m_loop fuel (strchr_word c) p m = Ret (at_index p (index_of c l)) m.
Proof.
  revert p l. induction fuel as [|fuel IH]; intros p l Hp Hl Hf; [lia|]. rewrite m_loop_S.
  destruct (strchr_word_spec p l Hp Hl) as [R|(l' & Hlen & Hl' & R & ->)]; rewrite (m_bind_run _ _ _ _ _ R); [done|].
  apply IH; [|done|lia]. rewrite Z.add_mod, Hp by done. done.
Qed.

(** The characters before the first aligned address. *)
Lemma strchr_aligned fuel k p l : cstr m p l -> (length l < fuel)%nat -> (- p) mod 4 < Z.of_nat k ->
  (do r <- m_loop k (strchr_align c) p ;;
   match r with inr r => m_ret r | inl p => m_loop fuel (strchr_word c) p end) m =
  Ret (at_index p (index_of c l)) m.
Proof.
  revert p l. induction k as [|k IH]; intros p l Hl Hf Hk; [Z.div_mod_to_equations; lia|].
  rewrite m_loop_S. unfold strchr_align at 1. change 3 with (Z.ones 2). rewrite Z.land_ones by lia. change (2 ^ 2) with 4.
  case_bool_decide as Hp.
  - rewrite !m_bind_assoc.
    destruct (strchr_test_spec m p l c Hl) as (x & Hx & [[_ R]|(l' & -> & Hl' & R & ->)]);
      rewrite (m_bind_run _ _ _ _ _ R); [done|].
    mstep. apply IH; [done|simpl in *; lia|Z.div_mod_to_equations; lia].
  - mstep. mstep. apply strchr_words; [lia|done|done].
Qed.
End strchr.

(** *** [strcpy], [strcat] and [strncat] *)

Lemma strcpy_spec fuel d s l m :
  cstr m s l -> (length l < fuel)%nat -> writable m d (Z.of_nat (length l) + 1) ->
  (forall i, d <= i <= d + Z.of_nat (length l) -> ~ (s <= i <= s + Z.of_nat (length l))) ->
  txc_libc_strcpy fuel d s m = Ret d (put_bytes d (l ++ [0]) m).
Proof.
  intros Hl Hf Hw Hd. unfold txc_libc_strcpy.
  enough (forall q m, cstr m s l -> writable m q (Z.of_nat (length l) + 1) ->
    (forall i, q <= i <= q + Z.of_nat (length l) -> ~ (s <= i <= s + Z.of_nat (length l))) ->
    (do q <- m_loop fuel strcpy_body (s, q) ;; mwrite q 0 ;;; m_ret d) m = Ret d (put_bytes q (l ++ [0]) m)) as He
    by (by apply He).
  clear Hl Hw Hd m. revert s l Hf. induction fuel as [|fuel IH]; intros s l Hf q m Hl Hw Hd; [lia|].
  rewrite m_loop_S. unfold strcpy_body at 1. destruct l as [|c l]; simpl in Hl.
  - read_at Hl. rewrite bool_decide_eq_true_2 by done. mstep. mstep.
    by rewrite (m_bind_run _ _ _ _ _ (mwrite_some m q 0 ltac:(apply Hw; lia))).
  - destruct Hl as (Hc & Hs & Hl). read_at Hs. rewrite bool_decide_eq_false_2 by lia. read_at Hs. simpl in *.
    rewrite !m_bind_assoc, (m_bind_run _ _ _ _ _ (mwrite_some m q c ltac:(apply Hw; lia))). mstep.
    apply IH; [lia| | |].
    + eapply cstr_frame; [exact Hl|]. intros i Hi. apply lookup_insert_ne. intros <-. apply (Hd q); lia.
    + apply writable_insert. eapply writable_mono; [exact Hw|lia..].
    + intros i Hi Hi'. apply (Hd i); lia.
Qed.

Lemma strcat_loop fuel d s l m :
  cstr m s l -> (length l < fuel)%nat -> writable m d (Z.of_nat (length l) + 1) ->
  (forall i, d <= i <= d + Z.of_nat (length l) -> ~ (s <= i <= s + Z.of_nat (length l))) ->
  m_loop fuel (fun st => let '(s1, s2) := st in
    do c <- copy_char s1 s2 ;;
    m_ret (if bool_decide (c <> 0) then inl (s1 + 1, s2 + 1) else inr tt)) (d - 1, s) m =
  Ret tt (put_bytes d (l ++ [0]) m).
Proof.
  revert d s l m. induction fuel as [|fuel IH]; intros d s l m Hl Hf Hw Hd; [lia|].
  rewrite m_loop_S. unfold copy_char at 1. replace (d - 1 + 1) with d by lia. destruct l as [|c l]; simpl in Hl.
  - read_at Hl. rewrite !m_bind_assoc, (m_bind_run _ _ _ _ _ (mwrite_some m d 0 ltac:(apply Hw; lia))).
    mstep. by rewrite bool_decide_eq_false_2 by lia.
  - destruct Hl as (Hc & Hs & Hl). read_at Hs. simpl in *.
    rewrite !m_bind_assoc, (m_bind_run _ _ _ _ _ (mwrite_some m d c ltac:(apply Hw; lia))).
    mstep. rewrite bool_decide_eq_true_2 by lia. mstep. replace d with (d + 1 - 1) at 1 by lia. apply IH.
    + eapply cstr_frame; [exact Hl|]. intros i Hi. apply lookup_insert_ne. intros <-. apply (Hd d); lia.
    + lia.
    + apply writable_insert. eapply writable_mono; [exact Hw|lia..].
    + intros i Hi Hi'. apply (Hd i); lia.
Qed.

Lemma strcat_spec fuel d s a b m :
  cstr m d a -> cstr m s b -> (length a < fuel)%nat -> (length b < fuel)%nat ->
  writable m (d + Z.of_nat (length a)) (Z.of_nat (length b) + 1) ->
  (forall i, d <= i <= d + Z.of_nat (length a + length b) -> ~ (s <= i <= s + Z.of_nat (length b))) ->
  txc_libc_strcat fuel d s m = Ret d (put_bytes (d + Z.of_nat (length a)) (b ++ [0]) m).
Proof.
  intros Ha Hb Hfa Hfb Hw Hd. unfold txc_libc_strcat.
  rewrite (m_bind_run _ _ _ _ _ (find_end_spec _ _ _ _ Ha Hfa)).
  rewrite (m_bind_run _ _ _ _ _ (strcat_loop fuel (d + Z.of_nat (length a)) s b m Hb Hfb Hw ltac:(intros i Hi; apply Hd; lia))).
  done.
Qed.

Lemma strncat_eq fuel s1 s2 n a m :
  cstr m s1 a -> (length a < fuel)%nat -> 0 <= n < 2 ^ 32 ->
  txc_libc_strncat fuel s1 s2 n m = (ncat (Z.to_nat n) (s1 + Z.of_nat (length a)) s2 ;;; m_ret s1) m.
Proof.
  intros Ha Hf Hn. unfold txc_libc_strncat. rewrite (m_bind_run _ _ _ _ _ (find_end_spec _ _ _ _ Ha Hf)).
  pose proof (shiftr_land n ltac:(lia)) as Hs. pose proof (land3_range n) as Hr.
  assert (s1 + Z.of_nat (length a) - 1 + 1 = s1 + Z.of_nat (length a)) as Hd by lia. case_bool_decide as H4.
  - assert (exists k, Z.shiftr n 2 = Z.of_nat k /\ (0 < k)%nat) as (k & Hk & Hk0) by (exists (Z.to_nat (Z.shiftr n 2)); lia).
    rewrite Hk, Nat2Z.id, strncat_quads, Hd by lia. by replace (4 * k + Z.to_nat (Z.land n 3))%nat with (Z.to_nat n) by lia.
  - destruct (decide (n = 0)) as [->|H0]; [|by rewrite strncat_last_eq, Hd by lia].
    unfold strncat_last. rewrite m_loop_S. cbv beta iota zeta. rewrite bool_decide_eq_false_2 by lia. mstep. mstep.
    rewrite bool_decide_eq_false_2 by lia. change (ncat (Z.to_nat 0) ?d ?e) with (mwrite d 0).
    pose proof (cstr_end _ _ _ Ha) as He. rewrite (m_bind_run _ _ _ _ _ (mwrite_some _ _ _ (ex_intro _ _ He))).
    unfold m_bind, m_ret. by rewrite insert_id.
Qed.

(** *** Comparing *)

Lemma ncmp_spec n a b p q m :
  cstr m p a -> cstr m q b -> ncmp n p q m = Ret (cmp_list id (take n a) (take n b)) m.
Proof.
  revert a b p q. induction n as [|n IH]; intros a b p q Ha Hb; [done|]. cbn [ncmp].
  assert (exists x, m !! p = Some x /\ head (a ++ [0]) = Some x) as (x & Hx & Ax) by (destruct a; simpl in *; naive_solver).
  assert (exists y, m !! q = Some y /\ head (b ++ [0]) = Some y) as (y & Hy & By) by (destruct b; simpl in *; naive_solver).
  read_at Hx. read_at Hy. destruct a as [|x' a], b as [|y' b]; simpl in Ax, By, Ha, Hb; simplify_eq; cbn [take cmp_list].
  - by rewrite bool_decide_eq_true_2 by lia.
  - destruct Hb as (? & _ & _). by rewrite bool_decide_eq_true_2 by lia.
  - destruct Ha as (? & _ & _). by rewrite bool_decide_eq_true_2 by lia.
  - destruct Ha as (? & _ & Ha), Hb as (? & _ & Hb). unfold id. case_bool_decide as H1.
    + by rewrite bool_decide_eq_false_2 by lia.
    + rewrite bool_decide_eq_true_2 by lia. by apply IH.
Qed.

Lemma schar_inj x y : 0 <= x < 256 -> 0 <= y < 256 -> schar x - schar y = 0 -> x = y.
Proof. unfold schar. intros. repeat case_bool_decide; lia. Qed.

Lemma strcmp_run fuel a b p q m :
  cstr m p a -> cstr m q b -> (length a < fuel)%nat ->
  txc_libc_strcmp fuel p q m = Ret (cmp_list schar a b) m.
Proof.
  unfold txc_libc_strcmp. revert a b p q. induction fuel as [|fuel IH]; intros a b p q Ha Hb Hf; [lia|]. rewrite m_loop_S.
  assert (exists x, m !! p = Some x /\ head (a ++ [0]) = Some x) as (x & Hx & Ax) by (destruct a; simpl in *; naive_solver).
  assert (exists y, m !! q = Some y /\ head (b ++ [0]) = Some y) as (y & Hy & By) by (destruct b; simpl in *; naive_solver).
  read_at Hx. read_at Hy. destruct a as [|x' a], b as [|y' b]; simpl in Ax, By, Ha, Hb; simplify_eq; cbn [take cmp_list].
  - by rewrite bool_decide_eq_false_2 by lia.
  - destruct Hb as (? & _ & _). rewrite bool_decide_eq_true_2; [done|]. intros E. apply (schar_inj 0) in E || apply (schar_inj _ 0) in E; lia.
  - destruct Ha as (? & _ & _). rewrite bool_decide_eq_true_2; [done|]. intros E. apply (schar_inj 0) in E || apply (schar_inj _ 0) in E; lia.
  - destruct Ha as (? & _ & Ha), Hb as (? & _ & Hb). destruct (decide (x = y)) as [->|Hne].
    + rewrite bool_decide_eq_false_2 by lia. rewrite (bool_decide_eq_true_2 (y = y)) by done.
      mstep. rewrite bool_decide_eq_true_2 by lia. apply IH; [done|done|simpl in Hf; lia].
    + rewrite bool_decide_eq_true_2 by (intros E; apply schar_inj in E; lia). by rewrite (bool_decide_eq_false_2 (x = y)).
Qed.

(** *** [atoi] *)

(** The value of decimal digits, after [n]. *)
Definition digits_value (n : Z) (ds : list Z) : Z := foldl (fun n d => 10 * n + d) n ds.

Lemma digits_value_ge n ds : 0 <= n -> Forall (fun d => 0 <= d < 10) ds -> n <= digits_value n ds.
Proof.
  intros Hn Hds. revert n Hn. induction Hds as [|d ds Hd Hds IH]; intros n Hn; simpl; [lia|].
  pose proof (IH (10 * n + d) ltac:(lia)) as H. unfold digits_value in *. simpl. lia.
Qed.

(** What follows the digits is not a digit. *)
Definition no_digit (l : list Z) : Prop := match l with [] => True | c :: _ => ~ (48 <= c <= 57) end.

(** The digits: the last step adds the character before it takes its base away, so
    it needs room for both. *)
Lemma atoi_digits fuel p n ds rest m :
  0 <= n < 2 ^ 31 - 48 -> cstr m p (map (Z.add 48) ds ++ rest) -> Forall (fun d => 0 <= d < 10) ds -> no_digit rest ->
  (length ds < fuel)%nat ->
  m_loop fuel atoi_body (p, n) m =
  if bool_decide (digits_value n ds < 2 ^ 31 - 48) then Ret (digits_value n ds) m else Undef.
Proof.
  revert p n ds. induction fuel as [|fuel IH]; intros p n ds Hn Hl Hds Hrest Hf; [lia|].
  rewrite m_loop_S. unfold atoi_body at 1. destruct ds as [|d ds]; simpl in Hl.
  - assert (exists c, m !! p = Some c /\ ~ (48 <= c <= 57)) as (c & Hc & Hno).
    { destruct rest as [|c rest]; simpl in *; [exists 0; split; [done|lia]|]. destruct Hl as (_ & Hp & _). by exists c. }
    read_at Hc. rewrite bool_decide_eq_false_2 by done. mstep. unfold digits_value. simpl.
    by rewrite bool_decide_eq_true_2 by lia.
  - destruct Hl as (_ & Hp & Hl). inversion Hds as [|? ? Hd Hds']; subst.
    pose proof (digits_value_ge (10 * n + d) ds ltac:(lia) Hds') as Hge.
    read_at Hp. rewrite bool_decide_eq_true_2 by lia.
    change (digits_value n (d :: ds)) with (digits_value (10 * n + d) ds).
    destruct (decide (n * 10 < 2 ^ 31)) as [H10|H10]; unfold int_ok at 1.
    2: { rewrite bool_decide_eq_false_2 by lia. rewrite bool_decide_eq_false_2 by lia. done. }
    rewrite bool_decide_eq_true_2 by lia. rewrite !m_bind_assoc. mstep. unfold int_ok at 1.
    destruct (decide (10 * n + d < 2 ^ 31 - 48)) as [Hv|Hv].
    + rewrite bool_decide_eq_true_2 by lia. mstep. mstep.
      replace (n * 10 + (48 + d) - 48) with (10 * n + d) by lia. apply IH; [lia|done|done|done|simpl in Hf; lia].
    + rewrite bool_decide_eq_false_2 by lia. rewrite bool_decide_eq_false_2 by lia. done.
Qed.

Definition sign_chars (neg : option bool) : list Z :=
  match neg with None => [] | Some true => [45] | Some false => [43] end.
Definition with_sign (neg : option bool) (v : Z) : Z := match neg with Some true => - v | _ => v end.

Lemma cstr_chars m p l : cstr m p l -> Forall (fun c => 0 < c < 256) l.
Proof. revert p. induction l as [|c l IH]; intros p; simpl; [constructor|]. intros (Hc & _ & Hl). constructor; [done|by eapply IH]. Qed.

Lemma put_bytes_writable d l m a n : writable m a n -> writable (put_bytes d l m) a n.
Proof. revert d m. induction l as [|c l IH]; intros d m H; simpl; [done|]. by apply IH, writable_insert. Qed.



Lemma cstr_put_after d a b m :
  put_bytes d ((a ++ b) ++ [0]) m = put_bytes (d + Z.of_nat (length a)) (b ++ [0]) (put_bytes d (a ++ [0]) m).
Proof.
  rewrite <- app_assoc, (put_bytes_app d a (b ++ [0])), (put_bytes_app d a [0]). simpl.
  destruct b as [|c b]; simpl; by rewrite insert_insert_eq.
Qed.

Lemma cmp_list_prefix f l a b : cmp_list f (l ++ a) (l ++ b) = cmp_list f a b.
Proof. induction l as [|x l IH]; simpl; [done|]. by rewrite bool_decide_eq_true_2. Qed.

Lemma atoi_prefix_spec fuel p blanks neg ds rest m :
  cstr m p (blanks ++ sign_chars neg ++ map (Z.add 48) ds ++ rest) ->
  Forall (fun c => c = 32 \/ c = 9) blanks -> Forall (fun d => 0 <= d < 10) ds -> (neg = None -> ds <> []) ->
  (length blanks < fuel)%nat ->
  m_loop fuel atoi_prefix p m =
  Ret (p + Z.of_nat (length blanks + length (sign_chars neg)), bool_decide (neg = Some true)) m.
Proof.
  intros Hl Hb Hds Hsign. revert p blanks Hl Hb. induction fuel as [|fuel IH]; intros p blanks Hl Hb Hf; [lia|].
  rewrite m_loop_S. unfold atoi_prefix at 1. destruct Hb as [|c blanks Hc Hb].
  - destruct neg as [[]|]; simpl in Hl.
    + destruct Hl as (_ & Hp & _). read_at Hp. mstep. done.
    + destruct Hl as (_ & Hp & _). read_at Hp. mstep. done.
    + destruct Hds as [|d ds Hd Hds]; [by destruct Hsign|]. destruct Hl as (_ & Hp & _). read_at Hp.
      rewrite !bool_decide_eq_false_2 by (done || lia). mstep. unfold m_ret. do 2 f_equal. simpl. lia.
  - destruct Hl as (_ & Hp & Hl). read_at Hp. rewrite bool_decide_eq_true_2 by done. mstep.
    rewrite (IH _ blanks) by (done || (simpl in Hf; lia)). do 2 f_equal. simpl. lia.
Qed.

(** ** The properties *)

(** [strncpy], unrolled four times, is the loop over one character at a time,
    in every memory: the same accesses, overlapping regions included. *)
Theorem strncpy_unrolled (s1 s2 n : Z) m :
  0 <= n < 2 ^ 32 -> txc_libc_strncpy s1 s2 n m = (ncopy (Z.to_nat n) s1 s2 ;;; m_ret s1) m.
Proof. apply strncpy_eq. Qed.

(** To a region of [n] bytes apart from the string, [strncpy] writes its first
    [n] characters, and zeros up to [n] when it is shorter. *)
Theorem strncpy_pads (s1 s2 n : Z) l m :
  0 <= n < 2 ^ 32 -> cstr m s2 l -> writable m s1 n ->
  (forall i, s1 <= i < s1 + n -> ~ (s2 <= i <= s2 + Z.of_nat (length l))) ->
  txc_libc_strncpy s1 s2 n m =
    Ret s1 (put_bytes s1 (take (Z.to_nat n) l ++ replicate (Z.to_nat n - length l) 0) m).
Proof.
  intros Hn Hl Hw Hd. rewrite strncpy_eq by done.
  assert (ncopy (Z.to_nat n) s1 s2 m = Ret tt (put_bytes s1 (take (Z.to_nat n) l ++ replicate (Z.to_nat n - length l) 0) m)) as E
    by (apply ncopy_spec; rewrite ?Z2Nat.id by lia; done).
  by rewrite (m_bind_run _ _ _ _ _ E).
Qed.

(** [strcpy] and then [strcat] leave the two strings one after the other, and
    [strncat] as much of the second as it is told, always terminated. *)
Theorem strcat_concatenates fuel d s1 s2 n a b m :
  cstr m s1 a -> cstr m s2 b -> (length a < fuel)%nat -> (length b < fuel)%nat -> 0 <= n < 2 ^ 32 ->
  writable m d (Z.of_nat (length a + length b) + 1) ->
  (forall i, d <= i <= d + Z.of_nat (length a + length b) ->
    ~ (s1 <= i <= s1 + Z.of_nat (length a)) /\ ~ (s2 <= i <= s2 + Z.of_nat (length b))) ->
  let m1 := put_bytes d (a ++ [0]) m in
  txc_libc_strcpy fuel d s1 m = Ret d m1 /\
  (exists m2, txc_libc_strcat fuel d s2 m1 = Ret d m2 /\ cstr m2 d (a ++ b)) /\
  (exists m2, txc_libc_strncat fuel d s2 n m1 = Ret d m2 /\ cstr m2 d (a ++ take (Z.to_nat n) b)).
Proof.
  intros Ha Hb Hfa Hfb Hn Hw Hd m1.
  assert (cstr m1 d a) as Ha1 by (apply put_bytes_cstr; by eapply cstr_chars).
  assert (cstr m1 s2 b) as Hb1.
  { eapply cstr_frame; [exact Hb|]. intros i Hi. apply put_bytes_lookup_ne. rewrite length_app. simpl.
    intros Hi'. apply (Hd i); lia. }
  assert (Hw1 : writable m1 d (Z.of_nat (length a + length b) + 1)) by (by apply put_bytes_writable).
  split; [apply strcpy_spec; [done|done|eapply writable_mono; [exact Hw|lia..]|intros i Hi; apply Hd; lia]|].
  split; eexists; split.
  - apply strcat_spec; [done..|eapply writable_mono; [exact Hw1|lia..]|intros i Hi; apply Hd; lia].
  - unfold m1. rewrite <- (cstr_put_after d a b m). apply put_bytes_cstr.
    apply Forall_app; split; by eapply cstr_chars.
  - rewrite (strncat_eq _ _ _ _ a) by done.
    assert (ncat (Z.to_nat n) (d + Z.of_nat (length a)) s2 m1 =
      Ret tt (put_bytes (d + Z.of_nat (length a)) (take (Z.to_nat n) b ++ [0]) m1)) as E.
    { apply ncat_spec; [done|eapply writable_mono; [exact Hw1|lia..]|intros i Hi; apply Hd; lia]. }
    by rewrite (m_bind_run _ _ _ _ _ E).
  - unfold m1. rewrite <- (cstr_put_after d a _ m). apply put_bytes_cstr.
    apply Forall_app; split; [by eapply cstr_chars|]. apply Forall_take. by eapply cstr_chars.
Qed.

(** [strncmp] compares at most [n] characters, as unsigned ones, and [strcmp]
    all of them, but as signed ones: on strings that first differ in a character
    above 127 on one side only, their signs are opposite, and the C library's
    [strcmp] has the one of [strncmp]. *)
Theorem strcmp_signed fuel p q l x y a b n m :
  cstr m p (l ++ x :: a) -> cstr m q (l ++ y :: b) -> x < 128 -> 128 <= y ->
  (length (l ++ x :: a) < fuel)%nat -> Z.of_nat (length l) < n < 2 ^ 32 ->
  txc_libc_strncmp p q n m = Ret (x - y) m /\ x - y < 0 /\
  txc_libc_strcmp fuel p q m = Ret (x - y + 256) m /\ 0 < x - y + 256.
Proof.
  intros Hp Hq Hx Hy Hf Hn.
  pose proof (cstr_chars _ _ _ Hp) as Hcp. pose proof (cstr_chars _ _ _ Hq) as Hcq.
  apply Forall_app in Hcp as [_ Hcp]. apply Forall_app in Hcq as [_ Hcq].
  apply Forall_cons in Hcp as [Hcx _]. apply Forall_cons in Hcq as [Hcy _].
  rewrite strncmp_eq by lia. rewrite (ncmp_spec _ _ _ _ _ _ Hp Hq), (strcmp_run _ _ _ _ _ _ Hp Hq Hf).
  rewrite !take_app_ge by lia. rewrite !cmp_list_prefix.
  replace (Z.to_nat n - length l)%nat with (S (Z.to_nat n - length l - 1)) by lia. simpl.
  rewrite !bool_decide_eq_false_2 by lia. unfold id, schar.
  rewrite bool_decide_eq_true_2, bool_decide_eq_false_2 by lia. split_and!; [done|lia|do 2 f_equal; lia|lia].
Qed.

(** C28: [strchr], a word at a time, finds what a search one character at a time
    finds: the first place of the character in the terminated string, at every
    alignment. Memory must be mapped by whole words: it reads past the
    terminator, up to the end of its word. *)
Theorem strchr_finds_first fuel s l c_in m :
  mem_bytes m -> word_mapped m -> cstr m s l -> (length l < fuel)%nat ->
  txc_libc_strchr fuel s c_in m = Ret (Z.add s <$> index_of (c_in mod 256) l) m.
Proof.
  intros Hm Hw Hl Hf. unfold txc_libc_strchr. apply strchr_aligned; try done.
  - by apply Z.mod_pos_bound.
  - pose proof (Z.mod_pos_bound (- s) 4). simpl. lia.
Qed.

(** C32: [atoi] reads blanks, a sign and decimal digits. It overflows, which is
    undefined, from 2147483600 on, although [int] goes up to 2147483647: it adds
    the last character before it takes away the code of zero. *)
Theorem atoi_spec fuel p blanks neg ds rest m :
  cstr m p (blanks ++ sign_chars neg ++ map (Z.add 48) ds ++ rest) ->
  Forall (fun c => c = 32 \/ c = 9) blanks -> Forall (fun d => 0 <= d < 10) ds -> no_digit rest ->
  (neg = None -> ds <> []) -> (length blanks + length ds < fuel)%nat ->
  txc_libc_atoi fuel p m =
  if bool_decide (digits_value 0 ds < 2147483600) then Ret (with_sign neg (digits_value 0 ds)) m else Undef.
Proof.
  intros Hl Hb Hds Hrest Hsign Hf. unfold txc_libc_atoi.
  assert (m_loop fuel atoi_prefix p m = Ret (p + Z.of_nat (length blanks + length (sign_chars neg)), bool_decide (neg = Some true)) m) as E
    by (eapply atoi_prefix_spec; [exact Hl|done..|lia]).
  rewrite (m_bind_run _ _ _ _ _ E). rewrite app_assoc in Hl. apply cstr_app in Hl. rewrite length_app in Hl.
  pose proof (atoi_digits fuel _ 0 ds rest m ltac:(lia) Hl Hds Hrest ltac:(lia)) as Hd.
  change 2147483600 with (2 ^ 31 - 48). unfold m_bind at 1. rewrite Hd. case_bool_decide as Hv; [|done].
  pose proof (digits_value_ge 0 ds ltac:(lia) Hds). destruct neg as [[]|]; simpl; try done.
  unfold int_ok. by rewrite bool_decide_eq_true_2 by lia.
Qed.

(** *** A concrete memory

    Words 96 to 151: the strings "hey" at 97 and "you!" at 109, room at 116. *)

Lemma put_bytes_region d l m i : d <= i < d + Z.of_nat (length l) -> is_Some (put_bytes d l m !! i).
Proof.
  revert d m. induction l as [|c l IH]; intros d m Hi; simpl in *; [lia|].
  destruct (decide (i = d)) as [->|]; [|apply IH; lia].
  rewrite put_bytes_lookup_ne by lia. by rewrite lookup_insert_eq.
Qed.

Lemma put_bytes_word_mapped d l : d mod 4 = 0 -> Z.of_nat (length l) mod 4 = 0 -> word_mapped (put_bytes d l ∅).
Proof.
  intros Hd Hl p i j Hp Hi Hj [x Hx]. apply put_bytes_region.
  destruct (decide (d <= p + i < d + Z.of_nat (length l))) as [H|H].
  - Z.div_mod_to_equations. lia.
  - by rewrite put_bytes_lookup_ne in Hx.
Qed.

Definition hey : list Z := [104; 101; 121].
Definition you : list Z := [121; 111; 117; 33].
Definition m_words : cmem := put_bytes 96 ([7] ++ hey ++ [0] ++ replicate 7 1 ++ [9] ++ you ++ [0; 5; 6] ++ replicate 36 3) ∅.

Lemma strncpy_unrolled_witness : 0 <= 6 < 2 ^ 32 /\
  txc_libc_strncpy 116 97 6 m_words = (ncopy 6 116 97 ;;; m_ret 116) m_words.
Proof. split; [lia|]. apply (strncpy_unrolled 116 97 6). lia. Defined.

Lemma m_words_hey : cstr m_words 97 hey.
Proof. vm_compute. repeat split. Qed.

Lemma m_words_you : cstr m_words 109 you.
Proof. vm_compute. repeat split. Qed.

Lemma m_words_writable : writable m_words 116 36.
Proof.
  intros i Hi. unfold m_words. rewrite !put_bytes_app. simpl length.
  apply (put_bytes_region 116 (replicate 36 3)). simpl. lia.
Qed.

Lemma strncpy_pads_witness :
  txc_libc_strncpy 116 97 6 m_words = Ret 116 (put_bytes 116 [104; 101; 121; 0; 0; 0] m_words).
Proof.
  apply (strncpy_pads 116 97 6 hey m_words).
  - lia.
  - exact m_words_hey.
  - eapply writable_mono; [exact m_words_writable|lia..].
  - intros i Hi Hi'. simpl in Hi'. lia.
Defined.

Lemma strcat_concatenates_witness : exists m2,
  txc_libc_strcat 9 116 109 (put_bytes 116 [104; 101; 121; 0] m_words) = Ret 116 m2 /\ cstr m2 116 (hey ++ you).
Proof.
  destruct (strcat_concatenates 9 116 97 109 2 hey you m_words) as (_ & H & _).
  - exact m_words_hey.
  - exact m_words_you.
  - simpl. lia.
  - simpl. lia.
  - lia.
  - eapply writable_mono; [exact m_words_writable|simpl; lia..].
  - intros i Hi. simpl in *. lia.
  - exact H.
Defined.

Definition m_signs : cmem := put_bytes 8 [97; 200; 0] (put_bytes 4 [97; 98; 0] ∅).

Lemma strcmp_signed_witness :
  txc_libc_strncmp 4 8 7 m_signs = Ret (-102) m_signs /\ txc_libc_strcmp 3 4 8 m_signs = Ret 154 m_signs.
Proof.
  destruct (strcmp_signed 3 4 8 [97] 98 200 [] [] 7 m_signs) as (H1 & _ & H2 & _).
  - vm_compute. repeat split.
  - vm_compute. repeat split.
  - lia.
  - lia.
  - simpl. lia.
  - simpl. lia.
  - split; assumption.
Defined.

Lemma strchr_finds_first_witness : txc_libc_strchr 5 109 117 m_words = Ret (Some 111) m_words.
Proof.
  apply (strchr_finds_first 5 109 you 117 m_words).
  - unfold mem_bytes. apply (bool_decide_unpack _). vm_compute. exact I.
  - apply put_bytes_word_mapped; reflexivity.
  - exact m_words_you.
  - simpl. lia.
Defined.

Definition m_number (ds : list Z) : cmem := put_bytes 0 ([32; 45] ++ map (Z.add 48) ds ++ [59; 0]) ∅.

Lemma atoi_spec_witness :
  txc_libc_atoi 20 0 (m_number [4; 0; 7]) = Ret (-407) (m_number [4; 0; 7]) /\
  txc_libc_atoi 20 0 (m_number [2;1;4;7;4;8;3;6;4;7]) = Undef.
Proof.
  split.
  - apply (atoi_spec 20 0 [32] (Some true) [4; 0; 7] [59] (m_number [4; 0; 7])).
    + vm_compute. repeat split.
    + repeat constructor.
    + repeat constructor; lia.
    + simpl. lia.
    + discriminate.
    + simpl. lia.
  - apply (atoi_spec 20 0 [32] (Some true) [2;1;4;7;4;8;3;6;4;7] [59] (m_number [2;1;4;7;4;8;3;6;4;7])).
    + vm_compute. repeat split.
    + repeat constructor.
    + repeat constructor; lia.
    + simpl. lia.
    + discriminate.
    + simpl. lia.
Defined.
