(* ===== verification/WordCopy.v ===== *)
(** * Copying blocks ([libc/wordcopy.c], [libc/memcopy.h])

    The C library's block copies: bytes, and words in loops that are unrolled eight
    or four times and entered in the middle, with a word read ahead of the one
    that is written. When the source is not aligned like the destination, each
    word is merged from two.

    The memory is the one of the string functions. The size of a word, [OPSIZ], is 4
    (IA-32) or 8; the bytes of a word are in little-endian order. Pointers are
    [long int]s that pass through [unsigned long int]; they are not reduced, so a
    pointer below the block by some words is a number below its address. *)

From S2P Require Import Prelude CString.

(** What [memmove] does: [len] bytes of [m] from [s] on are at [d] in [m']. *)
Definition moves (m : cmem) (d s len : Z) (m' : cmem) : Prop :=
  forall q, m' !! q = if bool_decide (d <= q < d + len) then m !! (s + (q - d)) else m !! q.

Definition OP_T_THRES : Z := 16.

Section copy.
Context (ops : nat).
Definition OPSIZ : Z := Z.of_nat ops.

(** [size_t] and [op_t]. *)
Definition usize (z : Z) : Z := z mod 2 ^ (8 * OPSIZ).

(** [*(op_t * ) p], and [*(op_t * ) p = z]. *)
Fixpoint load (n : nat) (p : Z) : M cmem Z :=
  match n with
  | O => m_ret 0
  | Datatypes.S n' => do b <- mread p ;; do r <- load n' (p + 1) ;; m_ret (b + 256 * r)
  end.
Fixpoint store (n : nat) (p z : Z) : M cmem unit :=
  match n with
  | O => m_ret tt
  | Datatypes.S n' => mwrite p (z mod 256) ;;; store n' (p + 1) (z / 256)
  end.
Definition op_load (p i : Z) : M cmem Z := load ops (p + i * OPSIZ).
Definition op_store (p i z : Z) : M cmem unit := store ops (p + i * OPSIZ) z.

Definition MERGE (w0 sh_1 w1 sh_2 : Z) : Z := Z.lor (Z.shiftr w0 sh_1) (usize (Z.shiftl w1 sh_2)).

(** [a0 = ((op_t * ) srcp)[i]; ((op_t * ) dstp)[i] = a1;], or with [a0] and [a1] the other way
    round: [a] is the one that was read before, and the result the other. *)
Definition copy_word (srcp dstp i a : Z) : M cmem Z :=
  do a' <- op_load srcp i ;;
  op_store dstp i a ;;;
  m_ret a'.

(** [a0 = ((op_t * ) srcp)[i]; ((op_t * ) dstp)[i] = MERGE (a2, sh_1, a3, sh_2);] and its
    turns: forward the words read are [a2] and then [a3], backward the other way. *)
Definition merge_word_fwd (sh_1 sh_2 srcp dstp i : Z) (a : Z * Z) : M cmem (Z * Z) :=
  do a' <- op_load srcp i ;;
  op_store dstp i (MERGE a.1 sh_1 a.2 sh_2) ;;;
  m_ret (a.2, a').
Definition merge_word_bwd (sh_1 sh_2 srcp dstp i : Z) (a : Z * Z) : M cmem (Z * Z) :=
  do a' <- op_load srcp i ;;
  op_store dstp i (MERGE a.2 sh_1 a.1 sh_2) ;;;
  m_ret (a.2, a').

(** The bodies of the loops, from a label on. *)
Definition body8 (step : Z -> Z -> M cmem Z) (i8 i7 i6 i5 i4 i3 i2 i1 : Z) (label : nat) (a : Z) : M cmem Z :=
  let do1 a := step i1 a in
  let do2 a := do a <- step i2 a ;; do1 a in
  let do3 a := do a <- step i3 a ;; do2 a in
  let do4 a := do a <- step i4 a ;; do3 a in
  let do5 a := do a <- step i5 a ;; do4 a in
  let do6 a := do a <- step i6 a ;; do5 a in
  let do7 a := do a <- step i7 a ;; do6 a in
  let do8 a := do a <- step i8 a ;; do7 a in
  match label with
  | 1 => do1 a | 2 => do2 a | 3 => do3 a | 4 => do4 a
  | 5 => do5 a | 6 => do6 a | 7 => do7 a | _ => do8 a
  end%nat.
Definition body4 (step : Z -> Z * Z -> M cmem (Z * Z)) (i4 i3 i2 i1 : Z) (label : nat) (a : Z * Z) : M cmem (Z * Z) :=
  let do1 a := step i1 a in
  let do2 a := do a <- step i2 a ;; do1 a in
  let do3 a := do a <- step i3 a ;; do2 a in
  let do4 a := do a <- step i4 a ;; do3 a in
  match label with 1 => do1 a | 2 => do2 a | 3 => do3 a | _ => do4 a end%nat.

(** [do { label: ... srcp += by * OPSIZ; dstp += by * OPSIZ; len -= top; } while (len != 0);] from a
    label on, or past the loop when the label is 0; the result has the words that
    are left to store, at [dstp]. *)
Definition unrolled {R} (fuel top : nat) (by_ : Z) (body : Z -> Z -> nat -> R -> M cmem R)
    (label : nat) (srcp dstp len : Z) (a : R) : M cmem (Z * R) :=
  if bool_decide (label = 0%nat) then m_ret (dstp, a) else
  m_loop fuel (fun '(label, srcp, dstp, len, a) =>
    do a <- body srcp dstp label a ;;
    let srcp := srcp + by_ * OPSIZ in
    let dstp := dstp + by_ * OPSIZ in
    let len := usize (len - Z.of_nat top) in
    m_ret (if bool_decide (len <> 0) then inl (top, srcp, dstp, len, a) else inr (dstp, a)))
    (label, srcp, dstp, len, a).

(** [OP_T_THRES <= 3 * OPSIZ && len == 0] *)
Definition short (len : Z) : bool := bool_decide (OP_T_THRES <= 3 * OPSIZ /\ len = 0).

(** *** [switch (len % 8)]: the label, the pointers, the length, and the word read. [None] is
    the return. *)
Definition fwd_aligned_switch (dstp srcp len : Z) : M cmem (option (nat * Z * Z * Z * Z)) :=
  match len mod 8 with
  | 2 => do a0 <- op_load srcp 0 ;; m_ret (Some (1%nat, srcp - 6 * OPSIZ, dstp - 7 * OPSIZ, len + 6, a0))
  | 3 => do a1 <- op_load srcp 0 ;; m_ret (Some (2%nat, srcp - 5 * OPSIZ, dstp - 6 * OPSIZ, len + 5, a1))
  | 4 => do a0 <- op_load srcp 0 ;; m_ret (Some (3%nat, srcp - 4 * OPSIZ, dstp - 5 * OPSIZ, len + 4, a0))
  | 5 => do a1 <- op_load srcp 0 ;; m_ret (Some (4%nat, srcp - 3 * OPSIZ, dstp - 4 * OPSIZ, len + 3, a1))
  | 6 => do a0 <- op_load srcp 0 ;; m_ret (Some (5%nat, srcp - 2 * OPSIZ, dstp - 3 * OPSIZ, len + 2, a0))
  | 7 => do a1 <- op_load srcp 0 ;; m_ret (Some (6%nat, srcp - 1 * OPSIZ, dstp - 2 * OPSIZ, len + 1, a1))
  | 0 =>
      if short len then m_ret None else
      do a0 <- op_load srcp 0 ;; m_ret (Some (7%nat, srcp - 0 * OPSIZ, dstp - 1 * OPSIZ, len, a0))
  | _ =>
      do a1 <- op_load srcp 0 ;;
      let len := len - 1 in
      m_ret (Some (if short len then 0%nat else 8%nat, srcp - -1 * OPSIZ, dstp - 0 * OPSIZ, len, a1))
  end.

Definition txc_libc_wordcopy_fwd_aligned (fuel : nat) (dstp srcp len : Z) : M cmem unit :=
  do r <- fwd_aligned_switch dstp srcp len ;;
  match r with
  | None => m_ret tt
  | Some (label, srcp, dstp, len, a) =>
      do '(dstp, a1) <- unrolled fuel 8 8 (fun srcp dstp => body8 (copy_word srcp dstp) 0 1 2 3 4 5 6 7)
        label srcp dstp len a ;;
      op_store dstp 0 a1
  end.

Definition fwd_dest_aligned_switch (dstp srcp len : Z) : M cmem (option (nat * Z * Z * Z * (Z * Z))) :=
  match len mod 4 with
  | 2 => do a1 <- op_load srcp 0 ;; do a2 <- op_load srcp 1 ;;
         m_ret (Some (1%nat, srcp - 1 * OPSIZ, dstp - 3 * OPSIZ, len + 2, (a1, a2)))
  | 3 => do a0 <- op_load srcp 0 ;; do a1 <- op_load srcp 1 ;;
         m_ret (Some (2%nat, srcp - 0 * OPSIZ, dstp - 2 * OPSIZ, len + 1, (a0, a1)))
  | 0 =>
      if short len then m_ret None else
      do a3 <- op_load srcp 0 ;; do a0 <- op_load srcp 1 ;;
      m_ret (Some (3%nat, srcp - -1 * OPSIZ, dstp - 1 * OPSIZ, len + 0, (a3, a0)))
  | _ =>
      do a2 <- op_load srcp 0 ;; do a3 <- op_load srcp 1 ;;
      let len := len - 1 in
      m_ret (Some (if short len then 0%nat else 4%nat, srcp - -2 * OPSIZ, dstp - 0 * OPSIZ, len, (a2, a3)))
  end.

Definition txc_libc_wordcopy_fwd_dest_aligned (fuel : nat) (dstp srcp len : Z) : M cmem unit :=
  let sh_1 := 8 * (srcp mod OPSIZ) in
  let sh_2 := 8 * OPSIZ - sh_1 in
  let srcp := Z.land srcp (- OPSIZ) in
  do r <- fwd_dest_aligned_switch dstp srcp len ;;
  match r with
  | None => m_ret tt
  | Some (label, srcp, dstp, len, a) =>
      do '(dstp, a) <- unrolled fuel 4 4 (fun srcp dstp => body4 (merge_word_fwd sh_1 sh_2 srcp dstp) 0 1 2 3)
        label srcp dstp len a ;;
      op_store dstp 0 (MERGE a.1 sh_1 a.2 sh_2)
  end.

Definition bwd_aligned_switch (dstp srcp len : Z) : M cmem (option (nat * Z * Z * Z * Z)) :=
  match len mod 8 with
  | 2 => let srcp := srcp - 2 * OPSIZ in do a0 <- op_load srcp 1 ;; m_ret (Some (1%nat, srcp, dstp - 1 * OPSIZ, len + 6, a0))
  | 3 => let srcp := srcp - 3 * OPSIZ in do a1 <- op_load srcp 2 ;; m_ret (Some (2%nat, srcp, dstp - 2 * OPSIZ, len + 5, a1))
  | 4 => let srcp := srcp - 4 * OPSIZ in do a0 <- op_load srcp 3 ;; m_ret (Some (3%nat, srcp, dstp - 3 * OPSIZ, len + 4, a0))
  | 5 => let srcp := srcp - 5 * OPSIZ in do a1 <- op_load srcp 4 ;; m_ret (Some (4%nat, srcp, dstp - 4 * OPSIZ, len + 3, a1))
  | 6 => let srcp := srcp - 6 * OPSIZ in do a0 <- op_load srcp 5 ;; m_ret (Some (5%nat, srcp, dstp - 5 * OPSIZ, len + 2, a0))
  | 7 => let srcp := srcp - 7 * OPSIZ in do a1 <- op_load srcp 6 ;; m_ret (Some (6%nat, srcp, dstp - 6 * OPSIZ, len + 1, a1))
  | 0 =>
      if short len then m_ret None else
      let srcp := srcp - 8 * OPSIZ in
      do a0 <- op_load srcp 7 ;; m_ret (Some (7%nat, srcp, dstp - 7 * OPSIZ, len, a0))
  | _ =>
      let srcp := srcp - 9 * OPSIZ in
      do a1 <- op_load srcp 8 ;;
      let len := len - 1 in
      m_ret (Some (if short len then 0%nat else 8%nat, srcp, dstp - 8 * OPSIZ, len, a1))
  end.

Definition txc_libc_wordcopy_bwd_aligned (fuel : nat) (dstp srcp len : Z) : M cmem unit :=
  do r <- bwd_aligned_switch dstp srcp len ;;
  match r with
  | None => m_ret tt
  | Some (label, srcp, dstp, len, a) =>
      do '(dstp, a1) <- unrolled fuel 8 (-8) (fun srcp dstp => body8 (copy_word srcp dstp) 7 6 5 4 3 2 1 0)
        label srcp dstp len a ;;
      op_store dstp 7 a1
  end.

Definition bwd_dest_aligned_switch (dstp srcp len : Z) : M cmem (option (nat * Z * Z * Z * (Z * Z))) :=
  match len mod 4 with
  | 2 => let srcp := srcp - 3 * OPSIZ in
         do a2 <- op_load srcp 2 ;; do a1 <- op_load srcp 1 ;; m_ret (Some (1%nat, srcp, dstp - 1 * OPSIZ, len + 2, (a2, a1)))
  | 3 => let srcp := srcp - 4 * OPSIZ in
         do a3 <- op_load srcp 3 ;; do a2 <- op_load srcp 2 ;; m_ret (Some (2%nat, srcp, dstp - 2 * OPSIZ, len + 1, (a3, a2)))
  | 0 =>
      if short len then m_ret None else
      let srcp := srcp - 5 * OPSIZ in
      do a0 <- op_load srcp 4 ;; do a3 <- op_load srcp 3 ;; m_ret (Some (3%nat, srcp, dstp - 3 * OPSIZ, len, (a0, a3)))
  | _ =>
      let srcp := srcp - 6 * OPSIZ in
      do a1 <- op_load srcp 5 ;; do a0 <- op_load srcp 4 ;;
      let len := len - 1 in
      m_ret (Some (if short len then 0%nat else 4%nat, srcp, dstp - 4 * OPSIZ, len, (a1, a0)))
  end.

Definition txc_libc_wordcopy_bwd_dest_aligned (fuel : nat) (dstp srcp len : Z) : M cmem unit :=
  let sh_1 := 8 * (srcp mod OPSIZ) in
  let sh_2 := 8 * OPSIZ - sh_1 in
  let srcp := Z.land srcp (- OPSIZ) in
  let srcp := srcp + OPSIZ in
  do r <- bwd_dest_aligned_switch dstp srcp len ;;
  match r with
  | None => m_ret tt
  | Some (label, srcp, dstp, len, a) =>
      do '(dstp, a) <- unrolled fuel 4 (-4) (fun srcp dstp => body4 (merge_word_bwd sh_1 sh_2 srcp dstp) 3 2 1 0)
        label srcp dstp len a ;;
      op_store dstp 3 (MERGE a.2 sh_1 a.1 sh_2)
  end.

(** *** The macros of [memcopy.h]: they move the pointers, and give the bytes left *)

Definition BYTE_COPY_FWD (dst_bp src_bp nbytes : Z) : M cmem (Z * Z) :=
  m_loop (Datatypes.S (Z.to_nat nbytes)) (fun '(dst_bp, src_bp, n) =>
    if bool_decide (n > 0) then
      do x <- mread src_bp ;;
      mwrite dst_bp x ;;;
      m_ret (inl (dst_bp + 1, src_bp + 1, n - 1))
    else m_ret (inr (dst_bp, src_bp))) (dst_bp, src_bp, nbytes).

Definition BYTE_COPY_BWD (dst_ep src_ep nbytes : Z) : M cmem (Z * Z) :=
  m_loop (Datatypes.S (Z.to_nat nbytes)) (fun '(dst_ep, src_ep, n) =>
    if bool_decide (n > 0) then
      do x <- mread (src_ep - 1) ;;
      mwrite (dst_ep - 1) x ;;;
      m_ret (inl (dst_ep - 1, src_ep - 1, n - 1))
    else m_ret (inr (dst_ep, src_ep))) (dst_ep, src_ep, nbytes).

Definition WORD_COPY_FWD (fuel : nat) (dst_bp src_bp nbytes : Z) : M cmem (Z * Z * Z) :=
  (if bool_decide (src_bp mod OPSIZ = 0)
   then txc_libc_wordcopy_fwd_aligned fuel dst_bp src_bp (nbytes / OPSIZ)
   else txc_libc_wordcopy_fwd_dest_aligned fuel dst_bp src_bp (nbytes / OPSIZ)) ;;;
  m_ret (dst_bp + Z.land nbytes (- OPSIZ), src_bp + Z.land nbytes (- OPSIZ), nbytes mod OPSIZ).

Definition WORD_COPY_BWD (fuel : nat) (dst_ep src_ep nbytes : Z) : M cmem (Z * Z * Z) :=
  (if bool_decide (src_ep mod OPSIZ = 0)
   then txc_libc_wordcopy_bwd_aligned fuel dst_ep src_ep (nbytes / OPSIZ)
   else txc_libc_wordcopy_bwd_dest_aligned fuel dst_ep src_ep (nbytes / OPSIZ)) ;;;
  m_ret (dst_ep - Z.land nbytes (- OPSIZ), src_ep - Z.land nbytes (- OPSIZ), nbytes mod OPSIZ).
End copy.

(** ** Words of memory *)

(** The value of [n] bytes. *)
Fixpoint word_at (m : cmem) (n : nat) (p : Z) : Z :=
  match n with O => 0 | Datatypes.S n' => default 0 (m !! p) + 256 * word_at m n' (p + 1) end.

Lemma byte_default m p : mem_bytes m -> 0 <= default 0 (m !! p) < 256.
Proof. intros Hm. destruct (m !! p) eqn:E; [by apply (Hm p)|simpl; lia]. Qed.

Lemma pow8 k : 0 <= k -> 2 ^ (8 * k) = 256 ^ k.
Proof. intros. by rewrite Z.pow_mul_r by lia. Qed.

Lemma pow256_pos k : 0 <= k -> 0 < 256 ^ k.
Proof. intros. by apply Z.pow_pos_nonneg. Qed.

Lemma word_at_range m n p : mem_bytes m -> 0 <= word_at m n p < 256 ^ Z.of_nat n.
Proof.
  intros Hm. revert p. induction n as [|n IH]; intros p; [done|]. cbn [word_at].
  rewrite Nat2Z.inj_succ, Z.pow_succ_r by lia. pose proof (byte_default m p Hm). specialize (IH (p + 1)). lia.
Qed.

Lemma word_at_app m a b p : word_at m (a + b) p = word_at m a p + 256 ^ Z.of_nat a * word_at m b (p + Z.of_nat a).
Proof.
  revert p. induction a as [|a IH]; intros p; cbn [word_at Nat.add]; [rewrite Z.add_0_r; lia|].
  rewrite IH, Nat2Z.inj_succ, Z.pow_succ_r by lia.
  replace (p + 1 + Z.of_nat a) with (p + Z.succ (Z.of_nat a)) by lia. lia.
Qed.

Lemma word_at_ext m m' n p : (forall q, p <= q < p + Z.of_nat n -> m' !! q = m !! q) -> word_at m' n p = word_at m n p.
Proof.
  revert p. induction n as [|n IH]; intros p H; [done|]. cbn [word_at]. rewrite H by lia.
  rewrite IH; [done|]. intros q Hq. apply H. lia.
Qed.

Lemma load_spec m n p : writable m p (Z.of_nat n) -> load n p m = Ret (word_at m n p) m.
Proof.
  revert p. induction n as [|n IH]; intros p H; [done|]. cbn [load word_at]. destruct (H p ltac:(lia)) as [b Hb].
  unfold m_bind. rewrite (mread_some _ _ _ Hb), IH; [by rewrite Hb|]. eapply writable_mono; [exact H|lia..].
Qed.

(** A word that is stored is moved. *)
Lemma store_moves m0 n q : mem_bytes m0 -> forall m p, writable m p (Z.of_nat n) ->
  writable m0 q (Z.of_nat n) ->
  exists m', store n p (word_at m0 n q) m = Ret tt m' /\
    forall x, m' !! x = if bool_decide (p <= x < p + Z.of_nat n) then m0 !! (q + (x - p)) else m !! x.
Proof.
  intros Hb. revert q. induction n as [|n IH]; intros q m p Hw Hq.
  { exists m. split; [done|]. intros x. by rewrite bool_decide_eq_false_2 by lia. }
  cbn [store word_at]. pose proof (byte_default m0 q Hb) as Hr. destruct (Hq q ltac:(lia)) as [b E].
  rewrite E in *. simpl in Hr.
  assert ((default 0 (Some b) + 256 * word_at m0 n (q + 1)) mod 256 = b) as -> by (simpl; rewrite Z.mul_comm, Z.mod_add by lia; by apply Z.mod_small).
  assert ((default 0 (Some b) + 256 * word_at m0 n (q + 1)) / 256 = word_at m0 n (q + 1)) as ->
    by (simpl; rewrite Z.mul_comm, Z.div_add by lia; rewrite Z.div_small; lia).
  unfold m_bind. rewrite mwrite_some by (apply Hw; lia).
  destruct (IH (q + 1) (<[p := b]> m) (p + 1)) as (m' & -> & Hm').
  - apply writable_insert. eapply writable_mono; [exact Hw|lia..].
  - eapply writable_mono; [exact Hq|lia..].
  - exists m'. split; [done|]. intros x. rewrite Hm'. destruct (decide (x = p)) as [->|Hne].
    + rewrite bool_decide_eq_false_2, bool_decide_eq_true_2, lookup_insert_eq by lia.
      rewrite <- E. f_equal. lia.
    + rewrite lookup_insert_ne by done. case_bool_decide as H1; case_bool_decide as H2; try lia; [|done]. f_equal. lia.
Qed.

Lemma lor_shift_add a b n : 0 <= n -> 0 <= a < 2 ^ n -> Z.lor a (b * 2 ^ n) = a + b * 2 ^ n.
Proof.
  intros Hn Ha. destruct (decide (a = 0)) as [->|Hne]; [by rewrite Z.lor_0_l|].
  assert (Z.log2 a < n) by (apply Z.log2_lt_pow2; lia).
  assert (Z.land a (b * 2 ^ n) = 0) as Hl; [|by rewrite Z.add_nocarry_lxor, Z.lxor_lor].
  apply Z.bits_inj'. intros k Hk. rewrite Z.land_spec, Z.bits_0. destruct (decide (k < n)).
  - rewrite Z.mul_pow2_bits_low by lia. apply andb_false_r.
  - by rewrite (Z.bits_above_log2 a k) by lia.
Qed.

(** A word that lies across two aligned ones. *)
Lemma merge_words ops m p k : mem_bytes m -> (k < ops)%nat -> let W := Z.of_nat ops in
  MERGE ops (word_at m ops p) (8 * Z.of_nat k) (word_at m ops (p + W)) (8 * W - 8 * Z.of_nat k)
    = word_at m ops (p + Z.of_nat k).
Proof.
  intros Hm Hk W. set (K := Z.of_nat k). set (J := Z.of_nat (ops - k)). assert (K + J = W /\ 0 <= K /\ 0 <= J) as (HW & HK & HJ) by lia.
  assert (ops = (k + (ops - k))%nat /\ ops = (ops - k + k)%nat) as [E1 E2] by lia.
  unfold MERGE, usize, OPSIZ. rewrite Z.shiftr_div_pow2, Z.shiftl_mul_pow2 by lia.
  replace (8 * W - 8 * K) with (8 * J) by lia. fold W. rewrite !pow8 by lia.
  pose proof (pow256_pos K HK). pose proof (pow256_pos J HJ). pose proof (pow256_pos W ltac:(lia)).
  assert (256 ^ W = 256 ^ K * 256 ^ J) as EW by (rewrite <- HW; by apply Z.pow_add_r).
  assert (forall q, word_at m ops q = word_at m k q + 256 ^ K * word_at m (ops - k) (q + K)) as S1
    by (intros q; rewrite E1 at 1; apply word_at_app).
  assert (forall q, word_at m ops q = word_at m (ops - k) q + 256 ^ J * word_at m k (q + J)) as S2
    by (intros q; rewrite E2 at 1; apply word_at_app).
  pose proof (word_at_range m k (p + W) Hm) as Hz. fold K in Hz.
  rewrite (S1 p), (S1 (p + W)), (S2 (p + K)), (Z.mul_comm (256 ^ K)), Z.div_add by lia.
  rewrite Z.div_small, Z.add_0_l by apply (word_at_range m k p Hm).
  replace ((word_at m k (p + W) + 256 ^ K * word_at m (ops - k) (p + W + K)) * 256 ^ J)
    with (word_at m k (p + W) * 256 ^ J + word_at m (ops - k) (p + W + K) * 256 ^ W) by (rewrite EW; ring).
  rewrite Z.mod_add, Z.mod_small by (lia || nia).
  rewrite <- pow8, lor_shift_add, pow8 by (try lia; rewrite pow8 by lia; apply (word_at_range m (ops - k)); done).
  replace (p + K + J) with (p + W) by lia. lia.
Qed.

(** ** The unrolled loops are loops over one word *)

Fixpoint chain {R} (f : nat -> R -> M cmem R) (l : nat) (r : R) : M cmem R :=
  match l with O => m_ret r | Datatypes.S l' => do r <- f l r ;; chain f l' r end.

Lemma m_bind_ret {S A} (m : M S A) s : m_bind m m_ret s = m s.
Proof. unfold m_bind. by destruct (m s). Qed.

Section unroll.
Context {R : Type} (ops top : nat) (sgn c : Z).
Notation W := (OPSIZ ops).
(** The steps read at [s + j * W] and write at [d + j * W]; from the label [l] on, [j]
    starts with [idx l] and goes up or down. *)
Context (step : Z -> Z -> Z -> R -> M cmem R) (body : Z -> Z -> nat -> R -> M cmem R).
Definition idx (l : nat) : Z := sgn * (Z.of_nat top - Z.of_nat l) + c.
Context (P : Z -> R -> cmem -> Prop) (S0 D0 N : Z).
Context (body_chain : forall s d l r m, (1 <= l <= top)%nat -> body s d l r m = chain (fun l => step s d (idx l)) l r m).
Context (step_ok : forall i s d j r m, 0 <= i < N -> s + j * W = S0 + sgn * i * W -> d + j * W = D0 + sgn * i * W ->
  P i r m -> exists r' m', step s d j r m = Ret r' m' /\ P (i + 1) r' m').

Definition pos (l : nat) (i s d : Z) : Prop :=
  s + idx l * W = S0 + sgn * i * W /\ d + idx l * W = D0 + sgn * i * W.

(** What the [switch] sets for [N + 1] words: the loop is entered at a label with so
    many words to go, or not entered for one word. *)
Definition entered (l : nat) (s d len : Z) : Prop :=
  (l = 0%nat /\ N = 0 /\ d + c * W = D0) \/
  ((1 <= l <= top)%nat /\ pos l 0 s d /\ N = Z.of_nat l + (len - Z.of_nat top) /\
    exists q, 1 <= q /\ len = Z.of_nat top * q).

Lemma pos_next l i s d : pos (Datatypes.S l) i s d -> pos l (i + 1) s d.
Proof. unfold pos, idx. rewrite Nat2Z.inj_succ. intros [H1 H2]. split; nia. Qed.

Lemma pos_wrap i s d : pos 0 i s d -> pos top i (s + sgn * Z.of_nat top * W) (d + sgn * Z.of_nat top * W).
Proof. unfold pos, idx. intros [H1 H2]. split; nia. Qed.

Lemma chain_ok s d l i r m : pos l i s d -> 0 <= i -> i + Z.of_nat l <= N -> P i r m ->
  exists r' m', chain (fun l => step s d (idx l)) l r m = Ret r' m' /\ P (i + Z.of_nat l) r' m' /\
    pos 0 (i + Z.of_nat l) s d.
Proof.
  revert i r m. induction l as [|l IH]; intros i r m Hp Hi Hl HP.
  - exists r, m. rewrite Z.add_0_r. done.
  - cbn [chain]. destruct (step_ok i s d (idx (Datatypes.S l)) r m) as (r1 & m1 & E & H1); [lia|apply Hp..|done|].
    destruct (IH (i + 1) r1 m1) as (r2 & m2 & E2 & H2 & Hp2); [by apply pos_next|lia..|done|].
    exists r2, m2. unfold m_bind. rewrite E, E2. replace (i + Z.of_nat (Datatypes.S l)) with (i + 1 + Z.of_nat l) by lia. done.
Qed.

Lemma unrolled_ok fuel l s d len r m :
  entered l s d len -> (0 < top)%nat -> len < 2 ^ (8 * W) -> len <= Z.of_nat top * Z.of_nat fuel -> P 0 r m ->
  exists d' r' m', unrolled ops fuel top (sgn * Z.of_nat top) body l s d len r m = Ret (d', r') m' /\
    P N r' m' /\ d' + c * W = D0 + sgn * N * W.
Proof.
  intros [(-> & -> & Hd)|(Hl & Hp & HN & q & Hq & Hlen)] Htop Hmax Hfuel HP.
  { exists d, r, m. unfold unrolled. rewrite bool_decide_eq_true_2 by done. split_and!; [done..|lia]. }
  unfold unrolled. rewrite bool_decide_eq_false_2 by lia.
  assert (exists i, i = 0 /\ 0 <= i) as (i & Hi0 & Hi) by (by exists 0). rewrite <- Hi0 in Hp, HP.
  assert (N - i = Z.of_nat l + (len - Z.of_nat top)) as HN' by lia. clear HN Hi0.
  revert l s d len r m i q Hl Hp HN' Hq Hlen Hmax Hfuel Hi HP.
  induction fuel as [|fuel IH]; intros l s d len r m i q Hl Hp HN Hq Hlen Hmax Hfuel Hi HP; [nia|].
  rewrite m_loop_S. rewrite m_bind_assoc. destruct (chain_ok s d l i r m) as (r1 & m1 & E & H1 & Hp1); [done..|nia|done|].
  unfold m_bind at 1. rewrite body_chain, E by done. cbn zeta. rewrite (m_bind_run _ _ _ _ _ eq_refl).
  apply pos_wrap in Hp1. unfold usize. rewrite Z.mod_small by nia. case_bool_decide as Hn.
  - apply (IH _ _ _ _ _ _ (i + Z.of_nat l) (q - 1)); [lia|done|nia|nia|nia|nia|nia|lia|done].
  - exists (d + sgn * Z.of_nat top * W), r1, m1. replace N with (i + Z.of_nat l) by lia. split_and!; [done|done|].
    destruct Hp1 as [_ Hp1]. unfold idx in Hp1. lia.
Qed.
End unroll.

Lemma body8_chain step i8 i7 i6 i5 i4 i3 i2 i1 sgn c l r (m : cmem) : (1 <= l <= 8)%nat ->
  [i8; i7; i6; i5; i4; i3; i2; i1] = map (idx 8 sgn c) [8; 7; 6; 5; 4; 3; 2; 1]%nat ->
  body8 step i8 i7 i6 i5 i4 i3 i2 i1 l r m = chain (fun l => step (idx 8 sgn c l)) l r m.
Proof.
  intros Hl [= -> -> -> -> -> -> -> ->].
  do 9 (destruct l as [|l]; [first [lia|cbn [body8 chain]; repeat (apply m_bind_ext; [done|]; intros ? ?); by rewrite m_bind_ret]|]). lia.
Qed.

Lemma body4_chain step i4 i3 i2 i1 sgn c l r (m : cmem) : (1 <= l <= 4)%nat ->
  [i4; i3; i2; i1] = map (idx 4 sgn c) [4; 3; 2; 1]%nat ->
  body4 step i4 i3 i2 i1 l r m = chain (fun l => step (idx 4 sgn c l)) l r m.
Proof.
  intros Hl [= -> -> -> ->].
  do 5 (destruct l as [|l]; [first [lia|cbn [body4 chain]; repeat (apply m_bind_ext; [done|]; intros ? ?); by rewrite m_bind_ret]|]). lia.
Qed.

(** ** The blocks move *)

Section blocks.
Context (ops : nat) (Hops : ops = 4%nat \/ ops = 8%nat).
Context (m : cmem) (Hm : mem_bytes m).
Notation W := (OPSIZ ops).
Notation word p := (word_at m ops p).

Lemma W_pos : 0 < W.
Proof. unfold OPSIZ. destruct Hops; subst; lia. Qed.

(** [p & -OPSIZ] *)
Lemma land_down p : Z.land p (- W) = p - p mod W.
Proof.
  assert (exists e, 0 <= e /\ W = 2 ^ e) as (e & He & ->) by (unfold OPSIZ; destruct Hops; subst; [exists 2|exists 3]; done).
  assert (- 2 ^ e = Z.lnot (Z.ones e)) as -> by (unfold Z.lnot; rewrite Z.ones_equiv; lia).
  rewrite <- Z.ldiff_land, Z.ldiff_ones_r by done. rewrite Z.shiftl_mul_pow2, Z.shiftr_div_pow2 by done.
  pose proof (Z.div_mod p (2 ^ e)). pose proof (Z.pow_pos_nonneg 2 e). lia.
Qed.

Lemma moves_nil d s : moves m d s 0 m.
Proof. intros q. by rewrite bool_decide_eq_false_2 by lia. Qed.

Lemma load_moved p d s len m' : moves m d s len m' -> p + W <= d \/ d + len <= p -> writable m p W ->
  load ops p m' = Ret (word p) m'.
Proof.
  intros Hv Hd Hp. assert (forall q, p <= q < p + W -> m' !! q = m !! q) as He.
  { intros q Hq. rewrite Hv. by rewrite bool_decide_eq_false_2 by lia. }
  rewrite load_spec; [|intros q Hq; rewrite He by done; by apply Hp]. by rewrite (word_at_ext m m') by exact He.
Qed.

Lemma store_moved_fwd d s len m' : moves m d s len m' -> 0 <= len -> writable m (d + len) W -> writable m (s + len) W ->
  exists m2, store ops (d + len) (word (s + len)) m' = Ret tt m2 /\ moves m d s (len + W) m2.
Proof.
  intros Hv Hl Hd Hs. pose proof W_pos. destruct (store_moves m ops (s + len) Hm m' (d + len)) as (m2 & E & H2); [|done|].
  { intros q Hq. rewrite Hv, bool_decide_eq_false_2 by (unfold OPSIZ in *; lia). by apply Hd. }
  exists m2. split; [done|]. intros q. rewrite H2, Hv. fold W. repeat case_bool_decide; try lia; try done. f_equal. lia.
Qed.

Lemma store_moved_bwd d s len m' : moves m (d - len) (s - len) len m' -> 0 <= len ->
  writable m (d - len - W) W -> writable m (s - len - W) W ->
  exists m2, store ops (d - len - W) (word (s - len - W)) m' = Ret tt m2 /\
    moves m (d - (len + W)) (s - (len + W)) (len + W) m2.
Proof.
  intros Hv Hl Hd Hs. pose proof W_pos. destruct (store_moves m ops (s - len - W) Hm m' (d - len - W)) as (m2 & E & H2); [|done|].
  { intros q Hq. rewrite Hv, bool_decide_eq_false_2 by (unfold OPSIZ in *; lia). by apply Hd. }
  exists m2. split; [done|]. intros q. rewrite H2, Hv. fold W. repeat case_bool_decide; try lia; try done; f_equal; lia.
Qed.

(** *** Forward, both aligned *)

Definition apart (d s len : Z) : Prop := d <= s \/ s + len <= d.

Definition fwd_words (d s : Z) (i a : Z) (m' : cmem) : Prop := moves m d s (i * W) m' /\ a = word (s + i * W).

Lemma copy_word_fwd n d s i srcp dstp j a m' :
  writable m s (n * W) -> writable m d (n * W) -> apart d s (n * W) -> 0 <= i < n - 1 ->
  srcp + j * W = (s + W) + 1 * i * W -> dstp + j * W = d + 1 * i * W -> fwd_words d s i a m' ->
  exists a' m2, copy_word ops srcp dstp j a m' = Ret a' m2 /\ fwd_words d s (i + 1) a' m2.
Proof.
  intros Hs Hd Ha Hi Es Ed [Hv ->]. pose proof W_pos. unfold copy_word, op_load, op_store. unfold m_bind.
  rewrite Es, Ed. replace (s + W + 1 * i * W) with (s + (i + 1) * W) by lia. replace (d + 1 * i * W) with (d + i * W) by lia.
  rewrite (load_moved _ d s (i * W)); [|done|destruct Ha; nia|eapply writable_mono; [exact Hs|nia..]].
  destruct (store_moved_fwd d s (i * W) m') as (m2 & E & H2); [done|nia|eapply writable_mono; [exact Hd|nia..]|
    eapply writable_mono; [exact Hs|nia..]|].
  rewrite E. exists (word (s + (i + 1) * W)), m2. split; [done|]. split; [|done]. by replace ((i + 1) * W) with (i * W + W) by lia.
Qed.

Definition enough (n : Z) : Prop := 0 <= n /\ (OP_T_THRES <= 3 * W \/ 2 <= n).

Lemma mod_cases8 n : 0 <= n -> exists q r, 0 <= q /\ n = 8 * q + r /\ n mod 8 = r /\
  (r = 0 \/ r = 1 \/ r = 2 \/ r = 3 \/ r = 4 \/ r = 5 \/ r = 6 \/ r = 7).
Proof. intros Hn. exists (n / 8), (n mod 8). pose proof (Z.div_mod n 8). pose proof (Z.mod_pos_bound n 8). lia. Qed.

Lemma mod_cases4 n : 0 <= n -> exists q r, 0 <= q /\ n = 4 * q + r /\ n mod 4 = r /\ (r = 0 \/ r = 1 \/ r = 2 \/ r = 3).
Proof. intros Hn. exists (n / 4), (n mod 4). pose proof (Z.div_mod n 4). pose proof (Z.mod_pos_bound n 4). lia. Qed.

Lemma short_spec len : enough len \/ enough (len + 1) -> short ops len = bool_decide (len = 0).
Proof.
  unfold enough, short. intros H. apply bool_decide_ext. split; [tauto|]. intros ->. split; [|done]. lia.
Qed.

Ltac enter q := first [left; split_and!; [done|lia|lia] |
  right; split_and!; [lia|lia|split; unfold idx; lia|lia|exists (q + 1); lia]|
  right; split_and!; [lia|lia|split; unfold idx; lia|lia|exists q; lia]].

Lemma op_load_word p i q : p + i * W = q -> writable m q W -> op_load ops p i m = Ret (word q) m.
Proof. intros <- Hq. unfold op_load. by rewrite load_spec. Qed.

Lemma fwd_aligned_entered n d s : enough n -> 0 < n -> writable m s W ->
  exists l srcp dstp len, fwd_aligned_switch ops d s n m = Ret (Some (l, srcp, dstp, len, word s)) m /\
    entered ops 8 1 0 (s + W) d (n - 1) l srcp dstp len /\ len <= n + 6.
Proof.
  intros He Hn Hs. pose proof (op_load_word s 0 s ltac:(lia) Hs) as Hl. unfold fwd_aligned_switch.
  destruct (mod_cases8 n) as (q & r & Hq & E & Em & Hc); [lia|].
  destruct Hc as [->|[->|[->|[->|[->|[->|[->| ->]]]]]]]; rewrite Em; cbn iota beta zeta.
  1: rewrite short_spec, bool_decide_eq_false_2 by (lia || tauto).
  2: rewrite (m_bind_run _ _ _ _ _ Hl), short_spec by (unfold enough in *; lia || (right; by rewrite Z.sub_add));
    case_bool_decide; repeat esplit; [enter q|lia|enter q|lia].
  all: rewrite (m_bind_run _ _ _ _ _ Hl); repeat esplit; [enter q|lia].
Qed.

Lemma enough_0 : enough 0 -> short ops 0 = true.
Proof. intros He. rewrite short_spec by auto. by rewrite bool_decide_eq_true_2. Qed.

Lemma fwd_aligned_moves fuel d s n :
  enough n -> n + 6 < 2 ^ (8 * W) -> n + 6 <= 8 * Z.of_nat fuel ->
  writable m s (n * W) -> writable m d (n * W) -> apart d s (n * W) ->
  exists m', txc_libc_wordcopy_fwd_aligned ops fuel d s n m = Ret tt m' /\ moves m d s (n * W) m'.
Proof.
  intros He Hmax Hf Hs Hd Ha. pose proof W_pos. unfold txc_libc_wordcopy_fwd_aligned. destruct (decide (n = 0)) as [->|Hn].
  { unfold fwd_aligned_switch. simpl. rewrite enough_0 by done. exists m. split; [done|]. apply moves_nil. }
  assert (0 < n) as Hn0 by (destruct He; lia). clear Hn.
  destruct (fwd_aligned_entered n d s) as (l & s' & d' & len & E & Hen & Hlen); [done|done|eapply writable_mono; [exact Hs|nia..]|].
  rewrite (m_bind_run _ _ _ _ _ E).
  destruct (unrolled_ok ops 8 1 0 (copy_word ops) _ (fwd_words d s) (s + W) d (n - 1)
    (fun s d l r m Hl => body8_chain (copy_word ops s d) _ _ _ _ _ _ _ _ 1 0 l r m Hl eq_refl)
    (fun i s' d' j r m' => copy_word_fwd n d s i s' d' j r m' Hs Hd Ha) fuel l s' d' len (word s) m Hen)
    as (d2 & a & m2 & E2 & [Hv ->] & Hd2); [lia..| |].
  { split; [apply moves_nil|]. by rewrite Z.mul_0_l, Z.add_0_r. }
  change (1 * Z.of_nat 8) with 8 in E2. rewrite (m_bind_run _ _ _ _ _ E2). unfold op_store.
  replace (d2 + 0 * W) with (d + (n - 1) * W) by lia.
  destruct (store_moved_fwd d s ((n - 1) * W) m2) as (m3 & E3 & H3); [done|nia|eapply writable_mono; [exact Hd|nia..]|
    eapply writable_mono; [exact Hs|nia..]|].
  exists m3. split; [done|]. by replace (n * W) with ((n - 1) * W + W) by lia.
Qed.

(** *** Backward, both aligned *)

Definition apart_bwd (d s len : Z) : Prop := s <= d \/ d <= s - len.

Definition bwd_words (d s : Z) (i a : Z) (m' : cmem) : Prop :=
  moves m (d - i * W) (s - i * W) (i * W) m' /\ a = word (s - i * W - W).

Lemma copy_word_bwd n d s i srcp dstp j a m' :
  writable m (s - n * W) (n * W) -> writable m (d - n * W) (n * W) -> apart_bwd d s (n * W) -> 0 <= i < n - 1 ->
  srcp + j * W = (s - 2 * W) + -1 * i * W -> dstp + j * W = (d - W) + -1 * i * W -> bwd_words d s i a m' ->
  exists a' m2, copy_word ops srcp dstp j a m' = Ret a' m2 /\ bwd_words d s (i + 1) a' m2.
Proof.
  intros Hs Hd Ha Hi Es Ed [Hv ->]. pose proof W_pos. unfold copy_word, op_load, op_store. unfold m_bind.
  rewrite Es, Ed. replace (s - 2 * W + -1 * i * W) with (s - (i + 1) * W - W) by lia.
  replace (d - W + -1 * i * W) with (d - i * W - W) by lia.
  rewrite (load_moved _ _ _ _ _ Hv); [|destruct Ha; nia|eapply writable_mono; [exact Hs|nia..]].
  destruct (store_moved_bwd d s (i * W) m') as (m2 & E & H2); [done|nia|eapply writable_mono; [exact Hd|nia..]|
    eapply writable_mono; [exact Hs|nia..]|].
  rewrite E. eexists _, m2. split; [done|]. split; [|done]. by replace ((i + 1) * W) with (i * W + W) by lia.
Qed.

Lemma bwd_aligned_entered n d s : enough n -> 0 < n -> writable m (s - W) W ->
  exists l srcp dstp len, bwd_aligned_switch ops d s n m = Ret (Some (l, srcp, dstp, len, word (s - W))) m /\
    entered ops 8 (-1) 7 (s - 2 * W) (d - W) (n - 1) l srcp dstp len /\ len <= n + 6.
Proof.
  intros He Hn Hs.
  pose proof (fun p j Hj => op_load_word p j (s - W) Hj Hs) as Hl.
  unfold bwd_aligned_switch. destruct (mod_cases8 n) as (q & r & Hq & E & Em & Hc); [lia|].
  destruct Hc as [->|[->|[->|[->|[->|[->|[->| ->]]]]]]]; rewrite Em; cbn iota beta zeta.
  1: rewrite short_spec, bool_decide_eq_false_2 by (lia || tauto).
  2: erewrite m_bind_run by (apply Hl; lia); rewrite short_spec by (unfold enough in *; lia || (right; by rewrite Z.sub_add));
    case_bool_decide; repeat esplit; [enter q|lia|enter q|lia].
  all: erewrite m_bind_run by (apply Hl; lia); repeat esplit; [enter q|lia].
Qed.

Lemma bwd_aligned_moves fuel d s n :
  enough n -> n + 6 < 2 ^ (8 * W) -> n + 6 <= 8 * Z.of_nat fuel ->
  writable m (s - n * W) (n * W) -> writable m (d - n * W) (n * W) -> apart_bwd d s (n * W) ->
  exists m', txc_libc_wordcopy_bwd_aligned ops fuel d s n m = Ret tt m' /\ moves m (d - n * W) (s - n * W) (n * W) m'.
Proof.
  intros He Hmax Hf Hs Hd Ha. pose proof W_pos. unfold txc_libc_wordcopy_bwd_aligned. destruct (decide (n = 0)) as [->|Hn].
  { unfold bwd_aligned_switch. simpl. rewrite enough_0 by done. exists m. split; [done|]. apply moves_nil. }
  assert (0 < n) as Hn0 by (destruct He; lia). clear Hn.
  destruct (bwd_aligned_entered n d s) as (l & s' & d' & len & E & Hen & Hlen); [done|done|eapply writable_mono; [exact Hs|nia..]|].
  rewrite (m_bind_run _ _ _ _ _ E).
  destruct (unrolled_ok ops 8 (-1) 7 (copy_word ops) _ (bwd_words d s) (s - 2 * W) (d - W) (n - 1)
    (fun s d l r m Hl => body8_chain (copy_word ops s d) _ _ _ _ _ _ _ _ (-1) 7 l r m Hl eq_refl)
    (fun i s' d' j r m' => copy_word_bwd n d s i s' d' j r m' Hs Hd Ha) fuel l s' d' len (word (s - W)) m Hen)
    as (d2 & a & m2 & E2 & [Hv ->] & Hd2); [lia..| |].
  { split; [rewrite Z.mul_0_l, !Z.sub_0_r; apply moves_nil|]. by rewrite Z.mul_0_l, Z.sub_0_r. }
  change (-1 * Z.of_nat 8) with (-8) in E2. rewrite (m_bind_run _ _ _ _ _ E2). unfold op_store.
  replace (d2 + 7 * W) with (d - (n - 1) * W - W) by lia.
  destruct (store_moved_bwd d s ((n - 1) * W) m2) as (m3 & E3 & H3); [done|nia|eapply writable_mono; [exact Hd|nia..]|
    eapply writable_mono; [exact Hs|nia..]|].
  exists m3. split; [done|]. by replace (n * W) with ((n - 1) * W + W) by lia.
Qed.

(** *** The source between words: [k] bytes above the word boundary [s - k] *)

Definition sh_1 (k : Z) : Z := 8 * k.
Definition sh_2 (k : Z) : Z := 8 * W - 8 * k.

Lemma merge_at k q p p' : 0 < k < W -> p' = p + W -> q = p + k ->
  MERGE ops (word p) (sh_1 k) (word p') (sh_2 k) = word q.
Proof.
  intros Hk -> ->. unfold sh_1, sh_2. rewrite <- (Z2Nat.id k) by lia. apply merge_words; [done|]. unfold OPSIZ in *. lia.
Qed.

Definition fwd_merged (k d s i : Z) (a : Z * Z) (m' : cmem) : Prop :=
  moves m d s (i * W) m' /\ a = (word (s - k + i * W), word (s - k + (i + 1) * W)).

Lemma merge_word_fwd_ok k n d s i srcp dstp j a m' :
  0 < k < W -> writable m (s - k) ((n + 1) * W) -> writable m d (n * W) -> d <= s \/ s - k + (n + 1) * W <= d ->
  0 <= i < n - 1 -> srcp + j * W = (s - k + 2 * W) + 1 * i * W -> dstp + j * W = d + 1 * i * W -> fwd_merged k d s i a m' ->
  exists a' m2, merge_word_fwd ops (sh_1 k) (sh_2 k) srcp dstp j a m' = Ret a' m2 /\ fwd_merged k d s (i + 1) a' m2.
Proof.
  intros Hk Hs Hd Ha Hi Es Ed [Hv ->]. pose proof W_pos. unfold merge_word_fwd, op_load, op_store. unfold m_bind.
  rewrite Es, Ed. replace (s - k + 2 * W + 1 * i * W) with (s - k + (i + 1 + 1) * W) by lia. replace (d + 1 * i * W) with (d + i * W) by lia.
  rewrite (load_moved _ _ _ _ _ Hv); [|destruct Ha; nia|eapply writable_mono; [exact Hs|nia..]]. simpl.
  rewrite (merge_at k (s + i * W)) by lia.
  destruct (store_moved_fwd d s (i * W) m') as (m2 & E & H2); [done|nia|eapply writable_mono; [exact Hd|nia..]|
    eapply writable_mono; [exact Hs|nia..]|].
  rewrite E. eexists _, m2. split; [done|]. split; [|done]. by replace ((i + 1) * W) with (i * W + W) by lia.
Qed.

Lemma fwd_dest_aligned_entered n d A : enough n -> 0 < n -> writable m A (2 * W) ->
  exists l srcp dstp len, fwd_dest_aligned_switch ops d A n m = Ret (Some (l, srcp, dstp, len, (word A, word (A + W)))) m /\
    entered ops 4 1 0 (A + 2 * W) d (n - 1) l srcp dstp len /\ len <= n + 6.
Proof.
  intros He Hn Hs. pose proof W_pos.
  pose proof (op_load_word A 0 A ltac:(lia) ltac:(eapply writable_mono; [exact Hs|nia..])) as H0.
  pose proof (op_load_word A 1 (A + W) ltac:(lia) ltac:(eapply writable_mono; [exact Hs|nia..])) as H1.
  unfold fwd_dest_aligned_switch. destruct (mod_cases4 n) as (q & r & Hq & E & Em & Hc); [lia|].
  destruct Hc as [->|[->|[->| ->]]]; rewrite Em; cbn iota beta zeta.
  1: rewrite short_spec, bool_decide_eq_false_2 by (lia || tauto).
  2: rewrite (m_bind_run _ _ _ _ _ H0), (m_bind_run _ _ _ _ _ H1), short_spec by (unfold enough in *; lia || (right; by rewrite Z.sub_add));
    case_bool_decide; repeat esplit; [enter q|lia|enter q|lia].
  all: rewrite (m_bind_run _ _ _ _ _ H0), (m_bind_run _ _ _ _ _ H1); repeat esplit; [enter q|lia].
Qed.

Lemma fwd_dest_aligned_moves fuel d s n :
  let k := s mod W in 0 < k -> enough n -> n + 6 < 2 ^ (8 * W) -> n + 6 <= 4 * Z.of_nat fuel ->
  (0 < n -> writable m (s - k) ((n + 1) * W)) -> writable m d (n * W) -> d <= s \/ s - k + (n + 1) * W <= d ->
  exists m', txc_libc_wordcopy_fwd_dest_aligned ops fuel d s n m = Ret tt m' /\ moves m d s (n * W) m'.
Proof.
  intros k Hk0 He Hmax Hf Hs Hd Ha. pose proof W_pos. assert (0 < k < W) as Hk by (pose proof (Z.mod_pos_bound s W); lia).
  unfold txc_libc_wordcopy_fwd_dest_aligned. fold k. fold (sh_1 k). change (8 * OPSIZ ops - sh_1 k) with (sh_2 k).
  rewrite land_down. fold k. destruct (decide (n = 0)) as [->|Hn].
  { unfold fwd_dest_aligned_switch. simpl. rewrite enough_0 by done. exists m. split; [done|]. apply moves_nil. }
  assert (0 < n) as Hn0 by (destruct He; lia). clear Hn. specialize (Hs Hn0).
  destruct (fwd_dest_aligned_entered n d (s - k)) as (l & s' & d' & len & E & Hen & Hlen); [done|done|eapply writable_mono; [exact Hs|nia..]|].
  rewrite (m_bind_run _ _ _ _ _ E).
  destruct (unrolled_ok ops 4 1 0 (merge_word_fwd ops (sh_1 k) (sh_2 k)) _ (fwd_merged k d s) (s - k + 2 * W) d (n - 1)
    (fun s d l r m Hl => body4_chain (merge_word_fwd ops (sh_1 k) (sh_2 k) s d) _ _ _ _ 1 0 l r m Hl eq_refl)
    (fun i s' d' j r m' => merge_word_fwd_ok k n d s i s' d' j r m' Hk Hs Hd Ha) fuel l s' d' len (word (s - k), word (s - k + W)) m Hen)
    as (d2 & a & m2 & E2 & [Hv ->] & Hd2); [lia..| |].
  { split; [apply moves_nil|]. by rewrite Z.mul_0_l, Z.add_0_r, Z.add_0_l, Z.mul_1_l. }
  change (1 * Z.of_nat 4) with 4 in E2. rewrite (m_bind_run _ _ _ _ _ E2). unfold op_store. simpl.
  rewrite (merge_at k (s + (n - 1) * W)) by lia. replace (d2 + 0 * W) with (d + (n - 1) * W) by lia.
  destruct (store_moved_fwd d s ((n - 1) * W) m2) as (m3 & E3 & H3); [done|nia|eapply writable_mono; [exact Hd|nia..]|
    eapply writable_mono; [exact Hs|nia..]|].
  exists m3. split; [done|]. by replace (n * W) with ((n - 1) * W + W) by lia.
Qed.

Definition bwd_merged (k d s i : Z) (a : Z * Z) (m' : cmem) : Prop :=
  moves m (d - i * W) (s - i * W) (i * W) m' /\ a = (word (s - k - i * W), word (s - k - (i + 1) * W)).

Lemma merge_word_bwd_ok k n d s i srcp dstp j a m' :
  0 < k < W -> writable m (s - k - n * W) ((n + 1) * W) -> writable m (d - n * W) (n * W) ->
  s <= d \/ d <= s - k - n * W ->
  0 <= i < n - 1 -> srcp + j * W = (s - k - 2 * W) + -1 * i * W -> dstp + j * W = (d - W) + -1 * i * W -> bwd_merged k d s i a m' ->
  exists a' m2, merge_word_bwd ops (sh_1 k) (sh_2 k) srcp dstp j a m' = Ret a' m2 /\ bwd_merged k d s (i + 1) a' m2.
Proof.
  intros Hk Hs Hd Ha Hi Es Ed [Hv ->]. pose proof W_pos. unfold merge_word_bwd, op_load, op_store. unfold m_bind.
  rewrite Es, Ed. replace (s - k - 2 * W + -1 * i * W) with (s - k - (i + 1 + 1) * W) by lia.
  replace (d - W + -1 * i * W) with (d - i * W - W) by lia.
  rewrite (load_moved _ _ _ _ _ Hv); [|destruct Ha; nia|eapply writable_mono; [exact Hs|nia..]]. simpl.
  rewrite (merge_at k (s - i * W - W)) by lia.
  destruct (store_moved_bwd d s (i * W) m') as (m2 & E & H2); [done|nia|eapply writable_mono; [exact Hd|nia..]|
    eapply writable_mono; [exact Hs|nia..]|].
  rewrite E. eexists _, m2. split; [done|]. split; [|done]. by replace ((i + 1) * W) with (i * W + W) by lia.
Qed.

Lemma bwd_dest_aligned_entered n d A : enough n -> 0 < n -> writable m (A - W) (2 * W) ->
  exists l srcp dstp len, bwd_dest_aligned_switch ops d (A + W) n m = Ret (Some (l, srcp, dstp, len, (word A, word (A - W)))) m /\
    entered ops 4 (-1) 3 (A - 2 * W) (d - W) (n - 1) l srcp dstp len /\ len <= n + 6.
Proof.
  intros He Hn Hs. pose proof W_pos.
  pose proof (fun p j Hj => op_load_word p j A Hj ltac:(eapply writable_mono; [exact Hs|nia..])) as H0.
  pose proof (fun p j Hj => op_load_word p j (A - W) Hj ltac:(eapply writable_mono; [exact Hs|nia..])) as H1.
  unfold bwd_dest_aligned_switch. destruct (mod_cases4 n) as (q & r & Hq & E & Em & Hc); [lia|].
  destruct Hc as [->|[->|[->| ->]]]; rewrite Em; cbn iota beta zeta.
  1: rewrite short_spec, bool_decide_eq_false_2 by (lia || tauto).
  2: erewrite m_bind_run by (apply H0; lia); erewrite m_bind_run by (apply H1; lia);
    rewrite short_spec by (unfold enough in *; lia || (right; by rewrite Z.sub_add));
    case_bool_decide; repeat esplit; [enter q|lia|enter q|lia].
  all: erewrite m_bind_run by (apply H0; lia); erewrite m_bind_run by (apply H1; lia); repeat esplit; [enter q|lia].
Qed.

Lemma bwd_dest_aligned_moves fuel d s n :
  let k := s mod W in 0 < k -> enough n -> n + 6 < 2 ^ (8 * W) -> n + 6 <= 4 * Z.of_nat fuel ->
  (0 < n -> writable m (s - k - n * W) ((n + 1) * W)) -> writable m (d - n * W) (n * W) -> s <= d \/ d <= s - k - n * W ->
  exists m', txc_libc_wordcopy_bwd_dest_aligned ops fuel d s n m = Ret tt m' /\ moves m (d - n * W) (s - n * W) (n * W) m'.
Proof.
  intros k Hk0 He Hmax Hf Hs Hd Ha. pose proof W_pos. assert (0 < k < W) as Hk by (pose proof (Z.mod_pos_bound s W); lia).
  unfold txc_libc_wordcopy_bwd_dest_aligned. fold k. fold (sh_1 k). change (8 * OPSIZ ops - sh_1 k) with (sh_2 k).
  rewrite land_down. fold k. destruct (decide (n = 0)) as [->|Hn].
  { unfold bwd_dest_aligned_switch. simpl. rewrite enough_0 by done. exists m. split; [done|]. apply moves_nil. }
  assert (0 < n) as Hn0 by (destruct He; lia). clear Hn. specialize (Hs Hn0).
  destruct (bwd_dest_aligned_entered n d (s - k)) as (l & s' & d' & len & E & Hen & Hlen); [done|done|eapply writable_mono; [exact Hs|nia..]|].
  rewrite (m_bind_run _ _ _ _ _ E).
  destruct (unrolled_ok ops 4 (-1) 3 (merge_word_bwd ops (sh_1 k) (sh_2 k)) _ (bwd_merged k d s) (s - k - 2 * W) (d - W) (n - 1)
    (fun s d l r m Hl => body4_chain (merge_word_bwd ops (sh_1 k) (sh_2 k) s d) _ _ _ _ (-1) 3 l r m Hl eq_refl)
    (fun i s' d' j r m' => merge_word_bwd_ok k n d s i s' d' j r m' Hk Hs Hd Ha) fuel l s' d' len (word (s - k), word (s - k - W)) m Hen)
    as (d2 & a & m2 & E2 & [Hv ->] & Hd2); [lia..| |].
  { split; [rewrite Z.mul_0_l, !Z.sub_0_r; apply moves_nil|]. by rewrite Z.mul_0_l, Z.sub_0_r, Z.add_0_l, Z.mul_1_l. }
  change (-1 * Z.of_nat 4) with (-4) in E2. rewrite (m_bind_run _ _ _ _ _ E2). unfold op_store. simpl.
  rewrite (merge_at k (s - (n - 1) * W - W)) by lia. replace (d2 + 3 * W) with (d - (n - 1) * W - W) by lia.
  destruct (store_moved_bwd d s ((n - 1) * W) m2) as (m3 & E3 & H3); [done|nia|eapply writable_mono; [exact Hd|nia..]|
    eapply writable_mono; [exact Hs|nia..]|].
  exists m3. split; [done|]. by replace (n * W) with ((n - 1) * W + W) by lia.
Qed.

(** *** The bytes that are left *)

Lemma byte_copy_fwd_moves d s L nb m' :
  moves m d s L m' -> 0 <= L -> 0 <= nb -> writable m (s + L) nb -> writable m (d + L) nb -> d <= s \/ s + (L + nb) <= d ->
  exists m2, BYTE_COPY_FWD (d + L) (s + L) nb m' = Ret (d + (L + nb), s + (L + nb)) m2 /\ moves m d s (L + nb) m2.
Proof.
  clear Hops Hm. intros Hv HL Hnb. unfold BYTE_COPY_FWD. rewrite <- (Z2Nat.id nb Hnb). generalize (Z.to_nat nb) as n. clear nb Hnb.
  intros n. rewrite Nat2Z.id. revert L m' Hv HL. induction n as [|n IH]; intros L m' Hv HL Hs Hd Ha; rewrite m_loop_S.
  { rewrite bool_decide_eq_false_2 by lia. exists m'. rewrite !Z.add_0_r. done. }
  rewrite bool_decide_eq_true_2 by lia. destruct (Hs (s + L)) as [c Hc]; [lia|]. destruct (Hd (d + L)) as [c' Hc']; [lia|].
  assert (forall q, m' !! q = m !! q \/ d <= q < d + L) as Hq by (intros q; rewrite Hv; case_bool_decide; auto).
  unfold m_bind at 1. unfold m_bind at 1. rewrite (mread_some m' (s + L) c); [|destruct (Hq (s + L)); [congruence|lia]].
  unfold m_bind at 1. rewrite mwrite_some; [|destruct (Hq (d + L)) as [->|]; [done|lia]]. cbn iota beta.
  destruct (IH (L + 1) (<[d + L := c]> m')) as (m2 & E & H2).
  - intros q. destruct (decide (q = d + L)) as [->|].
    + rewrite lookup_insert_eq, bool_decide_eq_true_2 by lia. rewrite <- Hc. f_equal. lia.
    + rewrite lookup_insert_ne, Hv by done. repeat case_bool_decide; done || lia.
  - lia.
  - eapply writable_mono; [exact Hs|lia..].
  - eapply writable_mono; [exact Hd|lia..].
  - lia.
  - exists m2. replace (L + Z.of_nat (Datatypes.S n)) with (L + 1 + Z.of_nat n) by lia. split; [|done].
    rewrite <- E. do 3 f_equal; lia.
Qed.

Lemma byte_copy_bwd_moves d s L nb m' :
  moves m (d - L) (s - L) L m' -> 0 <= L -> 0 <= nb -> writable m (s - (L + nb)) nb -> writable m (d - (L + nb)) nb ->
  s <= d \/ d <= s - (L + nb) ->
  exists m2, BYTE_COPY_BWD (d - L) (s - L) nb m' = Ret (d - (L + nb), s - (L + nb)) m2 /\
    moves m (d - (L + nb)) (s - (L + nb)) (L + nb) m2.
Proof.
  clear Hops Hm. intros Hv HL Hnb. unfold BYTE_COPY_BWD. rewrite <- (Z2Nat.id nb Hnb). generalize (Z.to_nat nb) as n. clear nb Hnb.
  intros n. rewrite Nat2Z.id. revert L m' Hv HL. induction n as [|n IH]; intros L m' Hv HL Hs Hd Ha; rewrite m_loop_S.
  { rewrite bool_decide_eq_false_2 by lia. exists m'. rewrite !Z.add_0_r. done. }
  rewrite bool_decide_eq_true_2 by lia. destruct (Hs (s - L - 1)) as [c Hc]; [lia|]. destruct (Hd (d - L - 1)) as [c' Hc']; [lia|].
  assert (forall q, m' !! q = m !! q \/ d - L <= q < d) as Hq by (intros q; rewrite Hv; case_bool_decide; auto; right; lia).
  unfold m_bind at 1. unfold m_bind at 1. rewrite (mread_some m' (s - L - 1) c); [|destruct (Hq (s - L - 1)); [congruence|lia]].
  unfold m_bind at 1. rewrite mwrite_some; [|destruct (Hq (d - L - 1)) as [->|]; [done|lia]]. cbn iota beta.
  destruct (IH (L + 1) (<[d - L - 1 := c]> m')) as (m2 & E & H2).
  - intros q. destruct (decide (q = d - L - 1)) as [->|].
    + rewrite lookup_insert_eq, bool_decide_eq_true_2 by lia. rewrite <- Hc. f_equal. lia.
    + rewrite lookup_insert_ne, Hv by done. repeat case_bool_decide; try done; try lia. f_equal. lia.
  - lia.
  - eapply writable_mono; [exact Hs|lia..].
  - eapply writable_mono; [exact Hd|lia..].
  - lia.
  - exists m2. replace (L + Z.of_nat (Datatypes.S n)) with (L + 1 + Z.of_nat n) by lia. split; [|done].
    rewrite <- E. do 3 f_equal; lia.
Qed.
End blocks.

(** Memory is mapped by words, since it is mapped by pages. *)
Definition words_mapped (ops : nat) (m : cmem) : Prop :=
  forall p q, p / OPSIZ ops = q / OPSIZ ops -> is_Some (m !! p) -> is_Some (m !! q).

Section macros.
Context (ops : nat) (Hops : ops = 4%nat \/ ops = 8%nat) (m : cmem) (Hm : mem_bytes m) (Hw : words_mapped ops m).
Notation W := (OPSIZ ops).

Lemma W_cases : W = 4 \/ W = 8.
Proof. unfold OPSIZ. destruct Hops; subst; auto. Qed.

(** The words that a block of [n] words between words lies in. *)
Lemma block_words s n : 0 < s mod W -> 0 < n -> writable m s (n * W) -> writable m (s - s mod W) ((n + 1) * W).
Proof.
  intros Hk Hn Hs q Hq. pose proof W_cases as HW.
  pose proof (Z.div_mod q W). pose proof (Z.mod_pos_bound q W). pose proof (Z.div_mod s W). pose proof (Z.mod_pos_bound s W).
  set (p := Z.max s (q - q mod W)).
  assert (s <= p < s + n * W /\ q - q mod W <= p < q - q mod W + W) as [Hp Hpq].
  { unfold p. destruct HW as [E|E]; rewrite E in *; lia. }
  apply (Hw p q); [|by apply Hs]. symmetry. apply Z.div_unique with (r := p - W * (q / W)); lia.
Qed.

(** The words of a block of [nb] bytes, and the bytes that are left. *)
Lemma split_block nb : 0 <= nb < 2 ^ (8 * W) ->
  nb = nb / W * W + nb mod W /\ 0 <= nb mod W /\ 0 <= nb / W /\ nb / W + 6 < 2 ^ (8 * W) /\ Z.land nb (- W) = nb / W * W.
Proof.
  intros Hnb. rewrite (land_down ops Hops). pose proof (Z.div_mod nb W). pose proof (Z.mod_pos_bound nb W).
  destruct W_cases as [E|E]; rewrite E in *; lia.
Qed.

Lemma forward_moves fuel d s nb :
  writable m s nb -> writable m d nb -> 0 <= nb < 2 ^ (8 * W) -> enough ops (nb / W) -> nb / W + 6 <= 4 * Z.of_nat fuel ->
  d mod W = 0 -> d <= s \/ s + nb <= d ->
  exists m', (do '(d', s', rest) <- WORD_COPY_FWD ops fuel d s nb ;; BYTE_COPY_FWD d' s' rest) m = Ret (d + nb, s + nb) m' /\
    moves m d s nb m'.
Proof.
  intros Hs Hd Hnb He Hf Hda Ha. destruct (split_block nb Hnb) as (En & Hr & Hn & Hmax & El). pose proof (W_pos ops Hops) as HW.
  set (n := nb / W) in *. set (r := nb mod W) in *.
  assert (exists m1, (if bool_decide (s mod W = 0) then txc_libc_wordcopy_fwd_aligned ops fuel d s n
    else txc_libc_wordcopy_fwd_dest_aligned ops fuel d s n) m = Ret tt m1 /\ moves m d s (n * W) m1) as (m1 & E1 & H1).
  { case_bool_decide as Hk.
    - apply fwd_aligned_moves; try done; [lia|by apply (writable_mono _ _ _ _ _ Hs); lia|by apply (writable_mono _ _ _ _ _ Hd); lia|unfold apart; lia].
    - assert (0 < s mod W) as Hk' by (pose proof (Z.mod_pos_bound s W); lia).
      apply fwd_dest_aligned_moves; try done; [|by apply (writable_mono _ _ _ _ _ Hd); lia|].
      + intros Hn0. apply block_words; [done..|]. by apply (writable_mono _ _ _ _ _ Hs); lia.
      + destruct Ha as [Ha|Ha]; [by left|]. right.
        pose proof (Z.div_mod d W). pose proof (Z.div_mod s W). pose proof (Z.mod_pos_bound s W).
        destruct W_cases as [E|E]; rewrite E in *; lia. }
  destruct (byte_copy_fwd_moves m d s (n * W) r m1) as (m2 & E2 & H2); [done|nia|done|by apply (writable_mono _ _ _ _ _ Hs); lia|by apply (writable_mono _ _ _ _ _ Hd); lia|lia|].
  exists m2. rewrite <- En in E2, H2. split; [|done].
  unfold WORD_COPY_FWD. rewrite m_bind_assoc. fold n r. rewrite (m_bind_run _ _ _ _ _ E1), El.
  rewrite (m_bind_run _ _ _ _ _ eq_refl). exact E2.
Qed.

Lemma backward_moves fuel d s nb :
  writable m (s - nb) nb -> writable m (d - nb) nb -> 0 <= nb < 2 ^ (8 * W) -> enough ops (nb / W) ->
  nb / W + 6 <= 4 * Z.of_nat fuel -> d mod W = 0 -> s <= d \/ d <= s - nb ->
  exists m', (do '(d', s', rest) <- WORD_COPY_BWD ops fuel d s nb ;; BYTE_COPY_BWD d' s' rest) m = Ret (d - nb, s - nb) m' /\
    moves m (d - nb) (s - nb) nb m'.
Proof.
  intros Hs Hd Hnb He Hf Hda Ha. destruct (split_block nb Hnb) as (En & Hr & Hn & Hmax & El). pose proof (W_pos ops Hops) as HW.
  set (n := nb / W) in *. set (r := nb mod W) in *.
  assert (writable m (s - n * W) (n * W)) as Hs' by (apply (writable_mono _ _ _ _ _ Hs); lia).
  assert (writable m (d - n * W) (n * W)) as Hd' by (apply (writable_mono _ _ _ _ _ Hd); lia).
  assert (exists m1, (if bool_decide (s mod W = 0) then txc_libc_wordcopy_bwd_aligned ops fuel d s n
    else txc_libc_wordcopy_bwd_dest_aligned ops fuel d s n) m = Ret tt m1 /\ moves m (d - n * W) (s - n * W) (n * W) m1)
    as (m1 & E1 & H1).
  { case_bool_decide as Hk.
    - apply bwd_aligned_moves; try done; [lia|unfold apart_bwd; lia].
    - assert (0 < s mod W) as Hk' by (pose proof (Z.mod_pos_bound s W); lia).
      assert ((s - n * W) mod W = s mod W) as Em by (rewrite <- (Z.mod_add (s - n * W) n) by lia; f_equal; lia).
      apply bwd_dest_aligned_moves; try done.
      + intros Hn0. replace (s - s mod W - n * W) with (s - n * W - (s - n * W) mod W) by lia. apply block_words; [lia|done..].
      + destruct Ha as [Ha|Ha]; [by left|]. right.
        pose proof (Z.div_mod d W). pose proof (Z.div_mod s W). pose proof (Z.mod_pos_bound s W).
        destruct W_cases as [E|E]; rewrite E in *; lia. }
  destruct (byte_copy_bwd_moves m d s (n * W) r m1) as (m2 & E2 & H2); [done|nia|done|by rewrite <- En; apply (writable_mono _ _ _ _ _ Hs); lia|
    by rewrite <- En; apply (writable_mono _ _ _ _ _ Hd); lia|lia|].
  exists m2. rewrite <- En in E2, H2. split; [|done].
  unfold WORD_COPY_BWD. rewrite m_bind_assoc. fold n r. rewrite (m_bind_run _ _ _ _ _ E1), El.
  rewrite (m_bind_run _ _ _ _ _ eq_refl). exact E2.
Qed.
End macros.

(** C29: [WORD_COPY_FWD] and then [BYTE_COPY_FWD] on what it leaves, to an aligned
    destination that is not above the source in its block, move the block as
    [memmove] does, for every alignment of the source, words of four or eight
    bytes, and at least two words where the unrolled loops do not test for fewer;
    and so do [WORD_COPY_BWD] and [BYTE_COPY_BWD] from the ends, where the
    destination is not below the source. *)
Theorem block_copies_move (ops fuel : nat) (m : cmem) d s nb :
  ops = 4%nat \/ ops = 8%nat -> mem_bytes m -> words_mapped ops m -> 0 <= nb < 2 ^ (8 * OPSIZ ops) ->
  enough ops (nb / OPSIZ ops) -> nb / OPSIZ ops + 6 <= 4 * Z.of_nat fuel -> writable m s nb -> writable m d nb ->
  (d mod OPSIZ ops = 0 -> d <= s \/ s + nb <= d ->
    exists m', (do '(d', s', rest) <- WORD_COPY_FWD ops fuel d s nb ;; BYTE_COPY_FWD d' s' rest) m
        = Ret (d + nb, s + nb) m' /\ moves m d s nb m') /\
  ((d + nb) mod OPSIZ ops = 0 -> s <= d \/ d + nb <= s ->
    exists m', (do '(d', s', rest) <- WORD_COPY_BWD ops fuel (d + nb) (s + nb) nb ;; BYTE_COPY_BWD d' s' rest) m
        = Ret (d, s) m' /\ moves m d s nb m').
Proof.
  intros Hops Hm Hw Hnb He Hf Hs Hd. split.
  - intros Hda Ha. by apply forward_moves.
  - intros Hda Ha. pose proof (backward_moves ops Hops m Hm Hw fuel (d + nb) (s + nb) nb) as H.
    rewrite !Z.add_simpl_r in H. apply H; try done. lia.
Qed.

(** Nine words, the first of which is at 0; eighteen bytes from 5 on, to 0 and to 18. *)
Definition m_block : cmem := put_bytes 0 (map Z.of_nat (seq 40 36)) ∅.

Lemma m_block_mapped p : is_Some (m_block !! p) <-> 0 <= p < 36.
Proof.
  unfold m_block. split; [|intros Hp; by apply put_bytes_region].
  intros Hs. destruct (decide (0 <= p < 36)); [done|]. rewrite put_bytes_lookup_ne in Hs by (simpl; lia).
  by destruct Hs.
Qed.

Lemma block_copies_move_witness :
  (exists m', (do '(d', s', rest) <- WORD_COPY_FWD 4 3 0 5 18 ;; BYTE_COPY_FWD d' s' rest) m_block = Ret (18, 23) m' /\
    moves m_block 0 5 18 m') /\
  (exists m', (do '(d', s', rest) <- WORD_COPY_BWD 4 3 36 23 18 ;; BYTE_COPY_BWD d' s' rest) m_block = Ret (18, 5) m' /\
    moves m_block 18 5 18 m').
Proof.
  assert (mem_bytes m_block) as Hb by (apply (bool_decide_unpack _); vm_compute; exact I).
  assert (words_mapped 4 m_block) as Hw by (intros p q H; change (OPSIZ 4) with 4 in H; rewrite !m_block_mapped; Z.to_euclidean_division_equations; lia).
  assert (forall p, 0 <= p -> p + 18 <= 36 -> writable m_block p 18) as Hp by (intros p H1 H2 q Hq; apply m_block_mapped; lia).
  assert (enough 4 (18 / OPSIZ 4)) as He by (split; [done|right; done]).
  split.
  - apply (block_copies_move 4 3 m_block 0 5 18); [by left|done|done|done|done|done|by apply Hp|by apply Hp|done|by left].
  - apply (proj2 (block_copies_move 4 3 m_block 18 5 18 (or_introl eq_refl) Hb Hw ltac:(done) He ltac:(done)
      (Hp 5 ltac:(done) ltac:(done)) (Hp 18 ltac:(done) ltac:(done)))); [done|by left].
Defined.
