(* ===== verification/Net.v ===== *)
(** * Addresses ([libc/net.c])

    [htons], [inet_aton] and [inet_ntop] over the memory of bytes of [CString] and
    [errno], on the little-endian machine of the source. The width of [u_long] is an
    argument: 32 or 64 bits.

    The C library's [strtoul], [isspace], [sprintf] and [strcpy] are modelled as far
    as the code uses them: base 0, the C locale, the format ["%u.%u.%u.%u"]. *)

From S2P Require Import Prelude CString WordCopy.

(** ** The code *)

(** [__bswap_16]. *)
Definition txc_libc_htons (x : Z) : Z := Z.lor (Z.land (Z.shiftr x 8) 255) (Z.shiftl (Z.land x 255) 8).

(** [htonl], and the bytes of a number as they lie in memory. *)
Definition htonl (x : Z) : Z :=
  Z.lor (Z.shiftr (Z.land x 0xff000000) 24)
    (Z.lor (Z.shiftr (Z.land x 0xff0000) 8)
      (Z.lor (Z.shiftl (Z.land x 0xff00) 8) (Z.shiftl (Z.land x 0xff) 24))).
Definition bytes32 (x : Z) : list Z := [x mod 256; x / 2 ^ 8 mod 256; x / 2 ^ 16 mod 256; x / 2 ^ 24 mod 256].

(** *** The C library *)

Definition ERANGE : Z := 34.
Definition ENOSPC : Z := 28.
Definition EAFNOSUPPORT : Z := 97.
Definition AF_INET : Z := 2.
Definition AF_INET6 : Z := 10.

Definition isspace (c : Z) : bool := bool_decide (c = 32 \/ 9 <= c <= 13).

(** The value of a character as a digit of the base. *)
Definition digit (base c : Z) : option Z :=
  let v := if bool_decide (48 <= c <= 57) then c - 48
           else if bool_decide (97 <= c <= 122) then c - 87
           else if bool_decide (65 <= c <= 90) then c - 55 else base in
  if bool_decide (v < base) then Some v else None.

(** The digits a string starts with. *)
Fixpoint digits (base : Z) (s : list Z) : list Z :=
  match s with
  | [] => []
  | c :: s => match digit base c with Some v => v :: digits base s | None => [] end
  end.

Definition number_in (base : Z) (ds : list Z) : Z := foldl (fun n d => base * n + d) 0 ds.

Fixpoint spaces (s : list Z) : nat :=
  match s with [] => O | c :: s => if isspace c then S (spaces s) else O end.

(** The sign: whether it is negative, and how long it is. *)
Definition sign_of (s : list Z) : bool * nat :=
  match s with 45 :: _ => (true, 1%nat) | 43 :: _ => (false, 1%nat) | _ => (false, O) end.

(** The prefix of a number: its base and the characters that say so. *)
Definition base_of (s : list Z) : Z * nat :=
  match s with
  | 48 :: x :: d :: _ =>
      if bool_decide (x = 120 \/ x = 88) && bool_decide (is_Some (digit 16 d)) then (16, 2%nat) else (8, O)
  | 48 :: _ => (8, O)
  | _ => (10, O)
  end.

(** The value, whether it is out of range, and how many characters were read: none
    when there is no number. *)
Record strtoul_result := Ul { ul_value : Z; ul_range : bool; ul_read : nat }.

Definition strtoul_of (bits : Z) (s : list Z) : strtoul_result :=
  let sp := spaces s in
  let s1 := drop sp s in
  let '(neg, sg) := sign_of s1 in
  let s2 := drop sg s1 in
  let '(base, px) := base_of s2 in
  let ds := digits base (drop px s2) in
  if bool_decide (ds = []) then Ul 0 false O else
  let v := number_in base ds in
  let n := (sp + sg + px + length ds)%nat in
  if bool_decide (v < 2 ^ bits) then Ul (if (neg : bool) then (- v) mod 2 ^ bits else v) false n
  else Ul (2 ^ bits - 1) true n.

(** *** The state: the memory and [errno] *)

Record net := Net { n_mem : cmem; n_errno : Z }.

Definition in_mem {A} (m : M cmem A) : M net A := m_zoom n_mem (fun m s => Net m (n_errno s)) m.
Definition set_errno (e : Z) : M net unit := m_modify (fun s => Net (n_mem s) e).

(** The string at [p]. *)
Definition read_string (fuel : nat) (p : Z) : M cmem (list Z) :=
  m_loop fuel (fun st => let '(p, l) := st in
    do c <- mread p ;;
    m_ret (if bool_decide (c = 0) then inr (reverse l) else inl (p + 1, c :: l))) (p, []).

(** [strtoul(nptr, &endptr, 0)]: the value and [endptr]. *)
Definition strtoul (bits : Z) (fuel : nat) (nptr : Z) : M net (Z * Z) :=
  do s <- in_mem (read_string fuel nptr) ;;
  let r := strtoul_of bits s in
  m_when (ul_range r) (set_errno ERANGE) ;;;
  m_ret (ul_value r, nptr + Z.of_nat (ul_read r)).

(** Writing a string of the C library, with its terminator. *)
Fixpoint write_bytes (d : Z) (l : list Z) : M cmem unit :=
  match l with
  | [] => m_ret tt
  | c :: l => mwrite d c ;;; write_bytes (d + 1) l
  end.

(** *** [inet_aton] *)

(** [u_long parts[4]]: an element that was not stored has no value. *)
Notation parts := (list (option Z)).
Definition part (ps : parts) (i : Z) : M net Z :=
  do p <- m_deref (arr_get ps i) ;; m_deref p.
Definition store_part (ps : parts) (n v : Z) : M net parts :=
  m_deref (arr_get ps n) ;;; m_ret (<[Z.to_nat n := Some v]> ps).

(** One number: the loop goes on after a dot with the next [c] and [n], and ends with
    [return (0)] or at the end of the string with [val]. *)
Definition aton_body (bits : Z) (fuel : nat) (st : Z * Z * parts) : M net (Z * Z * parts + option (Z * Z * parts)) :=
  let '(c, n, ps) := st in
  set_errno 0 ;;;
  do '(v, endptr) <- strtoul bits fuel c ;;
  let val := u32 v in
  do errno <- m_gets n_errno ;;
  if bool_decide (errno = ERANGE) then m_ret (inr None) else
  if bool_decide (endptr = c) then m_ret (inr None) else
  do ps <- store_part ps n val ;;
  do ch <- in_mem (mread endptr) ;;
  if bool_decide (ch = 46) then
    if bool_decide (n = 3) then m_ret (inr None) else m_ret (inl (endptr + 1, n + 1, ps))
  else if bool_decide (ch = 0) then m_ret (inr (Some (val, n, ps)))
  else if isspace ch then m_ret (inr (Some (val, n, ps)))
  else m_ret (inr None).

(** The address according to the number of parts, [None] for [return (0)]. *)
Definition concoct (bits val n : Z) (ps : parts) : M net (option Z) :=
  let ul x := x mod 2 ^ bits in
  if bool_decide (n = 0) then m_ret (Some val) else
  if bool_decide (n = 1) then
    do p0 <- part ps 0 ;;
    if bool_decide (val > 0xffffff \/ p0 > 0xff) then m_ret None
    else m_ret (Some (u32 (Z.lor val (ul (Z.shiftl p0 24)))))
  else if bool_decide (n = 2) then
    do p0 <- part ps 0 ;; do p1 <- part ps 1 ;;
    if bool_decide (val > 0xffff \/ p0 > 0xff \/ p1 > 0xff) then m_ret None
    else m_ret (Some (u32 (Z.lor val (Z.lor (ul (Z.shiftl p0 24)) (ul (Z.shiftl p1 16))))))
  else if bool_decide (n = 3) then
    do p0 <- part ps 0 ;; do p1 <- part ps 1 ;; do p2 <- part ps 2 ;;
    if bool_decide (val > 0xff \/ p0 > 0xff \/ p1 > 0xff \/ p2 > 0xff) then m_ret None
    else m_ret (Some (u32 (Z.lor val (Z.lor (Z.lor (ul (Z.shiftl p0 24)) (ul (Z.shiftl p1 16))) (ul (Z.shiftl p2 8))))))
  else m_ret (Some val).

(** [addr] is null or where the four bytes go. *)
Definition txc_libc_inet_aton (bits : Z) (fuel : nat) (cp : Z) (addr : option Z) : M net Z :=
  do r <- m_loop fuel (aton_body bits fuel) (cp, 0, replicate 4 None) ;;
  match r with
  | None => m_ret 0
  | Some (val, n, ps) =>
      do v <- concoct bits val n ps ;;
      match v with
      | None => m_ret 0
      | Some v =>
          match addr with
          | Some a => in_mem (write_bytes a (bytes32 (htonl v)))
          | None => m_ret tt
          end ;;;
          m_ret 1
      end
  end.

(** *** [inet_ntop] *)

(** ["%u"]: [fuel] digits are enough for any [unsigned int] when it is 10. *)
Fixpoint decimal (fuel : nat) (n : Z) : list Z :=
  match fuel with
  | O => []
  | S fuel => if bool_decide (n < 10) then [n] else decimal fuel (n / 10) ++ [n mod 10]
  end.
Definition print_u (n : Z) : list Z := map (Z.add 48) (decimal 10 n).

(** The format ["%u.%u.%u.%u"]. *)
Definition dotted (a b c d : Z) : list Z :=
  print_u a ++ [46] ++ print_u b ++ [46] ++ print_u c ++ [46] ++ print_u d.

(** [tmp] has the 16 bytes of ["255.255.255.255"]: what is printed there, and its
    length. *)
Definition inet_ntop4_sprintf (a b c d : Z) : M net (list Z * Z) :=
  let tmp := dotted a b c d in
  if bool_decide (length tmp < 16)%nat then m_ret (tmp, Z.of_nat (length tmp)) else m_undef.

Definition inet_ntop4 (src dst size : Z) : M net (option Z) :=
  do a <- in_mem (mread src) ;; do b <- in_mem (mread (src + 1)) ;;
  do c <- in_mem (mread (src + 2)) ;; do d <- in_mem (mread (src + 3)) ;;
  do '(tmp, r) <- inet_ntop4_sprintf a b c d ;;
  if bool_decide (u32 r >= size) then
    set_errno ENOSPC ;;;
    m_ret None
  else
    in_mem (write_bytes dst (tmp ++ [0])) ;;;
    m_ret (Some dst).

(** [assert(0)] ends the program. *)
Definition txc_libc_inet_ntop (af src dst size : Z) : M net (option Z) :=
  if bool_decide (af = AF_INET) then inet_ntop4 src dst size
  else if bool_decide (af = AF_INET6) then m_exit
  else set_errno EAFNOSUPPORT ;;; m_ret None.

(** ** What they compute *)

(** The value of the parts of an address, with 8 bits for each but the last one, which
    fills the rest. *)
Fixpoint address_of (room : Z) (vs : list Z) : option Z :=
  match vs with
  | [] => None
  | [v] => if bool_decide (v < 2 ^ room) then Some v else None
  | v :: vs => if bool_decide (v < 2 ^ 8) then Z.add (v * 2 ^ (room - 8)) <$> address_of (room - 8) vs else None
  end.

(** The parts of a string of numbers with up to [dots] dots between them, that ends at
    a blank. *)
Fixpoint parts_of (bits : Z) (dots : nat) (s : list Z) : option (list Z) :=
  let r := strtoul_of bits s in
  if ul_range r || bool_decide (ul_read r = O) then None else
  match drop (ul_read r) s with
  | [] => Some [u32 (ul_value r)]
  | c :: s =>
      if bool_decide (c = 46) then
        match dots with O => None | S dots => cons (u32 (ul_value r)) <$> parts_of bits dots s end
      else if isspace c then Some [u32 (ul_value r)] else None
  end.

Definition aton (bits : Z) (s : list Z) : option Z := parts_of bits 3 s ≫= address_of 32.

(** The bytes of an address in the order of the network. *)
Definition network_bytes (v : Z) : list Z := [v / 2 ^ 24 mod 256; v / 2 ^ 16 mod 256; v / 2 ^ 8 mod 256; v mod 256].

(** *** Strings *)

Lemma in_mem_run {A} (m : M cmem A) s a : m (n_mem s) = Ret a (n_mem s) -> in_mem m s = Ret a s.
Proof. intros H. unfold in_mem, m_zoom. rewrite H. by destruct s. Qed.

Lemma read_string_run fuel p l m : cstr m p l -> (length l < fuel)%nat -> read_string fuel p m = Ret l m.
Proof.
  intros Hl Hf. unfold read_string. change (Ret l m) with (Ret (reverse [] ++ l) m). generalize (@nil Z) as acc.
  revert p l Hl Hf. induction fuel as [|fuel IH]; intros p l Hl Hf acc; [lia|]. rewrite m_loop_S.
  destruct l as [|c l]; simpl in *.
  - read_at Hl. by rewrite app_nil_r.
  - destruct Hl as (Hc & Hp & Hl). read_at Hp. rewrite bool_decide_eq_false_2 by lia. unfold m_bind, m_ret.
    rewrite (IH _ _ Hl) by lia. by rewrite reverse_cons, <- app_assoc.
Qed.

Lemma write_bytes_run d l m : writable m d (Z.of_nat (length l)) -> write_bytes d l m = Ret tt (put_bytes d l m).
Proof.
  revert d m. induction l as [|c l IH]; intros d m Hw; [done|]. simpl in *.
  rewrite (m_bind_run _ _ _ _ _ (mwrite_some m d c ltac:(apply Hw; lia))). apply IH, writable_insert.
  eapply writable_mono; [exact Hw|lia..].
Qed.

Lemma in_mem_write d l s : writable (n_mem s) d (Z.of_nat (length l)) ->
  in_mem (write_bytes d l) s = Ret tt (Net (put_bytes d l (n_mem s)) (n_errno s)).
Proof. intros Hw. unfold in_mem, m_zoom. by rewrite write_bytes_run. Qed.

Lemma cstr_drop m p l n : (n <= length l)%nat -> cstr m p l -> cstr m (p + Z.of_nat n) (drop n l).
Proof.
  intros Hn Hl. rewrite <- (take_drop n l) in Hl. apply cstr_app in Hl. by rewrite length_take, Nat.min_l in Hl.
Qed.

(** *** Numbers *)

Lemma digits_length base s : (length (digits base s) <= length s)%nat.
Proof. induction s as [|c s IH]; simpl; [lia|]. destruct (digit base c); simpl; lia. Qed.

Lemma spaces_length s : (spaces s <= length s)%nat.
Proof. induction s as [|c s IH]; simpl; [lia|]. destruct (isspace c); lia. Qed.

Lemma base_of_length s : ((base_of s).2 <= length s)%nat.
Proof. unfold base_of. repeat case_match; simpl; lia. Qed.

Lemma ul_read_length bits s : (ul_read (strtoul_of bits s) <= length s)%nat.
Proof.
  unfold strtoul_of. set (s1 := drop (spaces s) s).
  assert ((sign_of s1).2 <= length s1)%nat as Hs by (unfold sign_of; repeat case_match; simpl; lia).
  destruct (sign_of s1) as [neg sg]. pose proof (base_of_length (drop sg s1)) as Hb. destruct (base_of (drop sg s1)) as [base px].
  pose proof (spaces_length s). pose proof (digits_length base (drop px (drop sg s1))) as Hd. simpl in *.
  rewrite !length_drop in *. subst s1. rewrite !length_drop in *. repeat case_bool_decide; simpl; lia.
Qed.

Lemma strtoul_run bits fuel p l s : cstr (n_mem s) p l -> (length l < fuel)%nat ->
  strtoul bits fuel p s =
  Ret (ul_value (strtoul_of bits l), p + Z.of_nat (ul_read (strtoul_of bits l)))
    (if ul_range (strtoul_of bits l) then Net (n_mem s) ERANGE else s).
Proof.
  intros Hl Hf. unfold strtoul. rewrite (m_bind_run _ _ _ _ _ (in_mem_run _ _ _ (read_string_run _ _ _ _ Hl Hf))).
  by destruct (ul_range _).
Qed.

(** *** [inet_aton] *)

Definition parts_at (vs : list Z) : parts := (Some <$> vs) ++ replicate (4 - length vs) None.

Lemma store_part_run vs v s : (length vs < 4)%nat ->
  store_part (parts_at vs) (Z.of_nat (length vs)) v s = Ret (parts_at (vs ++ [v])) s.
Proof. intros H. by do 4 (destruct vs as [|? vs]; [done|]); simpl in H; try lia. Qed.

(** One number, as [parts_of] reads it. *)
Lemma aton_body_run bits fuel vs c l s :
  (length vs < 4)%nat -> cstr (n_mem s) c l -> (length l < fuel)%nat ->
  let r := strtoul_of bits l in
  let v := u32 (ul_value r) in
  let n := Z.of_nat (length vs) in
  exists e, aton_body bits fuel (c, n, parts_at vs) s =
    Ret (if ul_range r || bool_decide (ul_read r = O) then inr None else
         match drop (ul_read r) l with
         | [] => inr (Some (v, n, parts_at (vs ++ [v])))
         | x :: _ =>
             if bool_decide (x = 46) then
               if bool_decide (n = 3) then inr None
               else inl (c + Z.of_nat (ul_read r) + 1, n + 1, parts_at (vs ++ [v]))
             else if isspace x then inr (Some (v, n, parts_at (vs ++ [v]))) else inr None
         end) (Net (n_mem s) e).
Proof.
  intros Hn Hl Hf r v n. subst n v. unfold aton_body. unfold set_errno at 1. rewrite bind_modify.
  erewrite m_bind_run by (apply strtoul_run; [exact Hl|done]). pose proof (ul_read_length bits l) as Hr. fold r in Hr |- *.
  cbv beta iota zeta. destruct (ul_range r); [by eexists|]. simpl.
  rewrite (m_bind_run (m_gets n_errno) _ (Net (n_mem s) 0) 0 _ eq_refl).
  rewrite (bool_decide_eq_false_2 (0 = ERANGE)) by done.
  destruct (decide (ul_read r = O)) as [E|E]; [rewrite E, !bool_decide_eq_true_2 by lia; by eexists|].
  rewrite (bool_decide_eq_false_2 (_ + _ = _)), (bool_decide_eq_false_2 (ul_read r = O)) by lia. erewrite m_bind_run by (by apply store_part_run).
  pose proof (cstr_drop _ _ _ _ Hr Hl) as Hd. exists 0. destruct (drop _ l) as [|x rest]; simpl in Hd.
  - rewrite (m_bind_run _ _ _ _ _ (in_mem_run _ (Net (n_mem s) 0) _ (mread_some _ _ _ Hd))). done.
  - destruct Hd as (Hx & Hd & _). rewrite (m_bind_run _ _ _ _ _ (in_mem_run _ (Net (n_mem s) 0) _ (mread_some _ _ _ Hd))).
    rewrite (bool_decide_eq_false_2 (x = 0)) by lia. repeat case_bool_decide; try done; by destruct (isspace x).
Qed.

Lemma parts_of_eq bits dots l : parts_of bits dots l =
  let r := strtoul_of bits l in
  if ul_range r || bool_decide (ul_read r = O) then None else
  match drop (ul_read r) l with
  | [] => Some [u32 (ul_value r)]
  | c :: s =>
      if bool_decide (c = 46) then
        match dots with O => None | S dots => cons (u32 (ul_value r)) <$> parts_of bits dots s end
      else if isspace c then Some [u32 (ul_value r)] else None
  end.
Proof. by destruct dots. Qed.

Lemma parts_of_some bits dots l : parts_of bits dots l <> Some [].
Proof. destruct dots; simpl; repeat case_match; try done. by destruct (parts_of _ _ _). Qed.

Lemma aton_loop bits fuel loops vs c l s :
  (length vs < 4)%nat -> cstr (n_mem s) c l -> (length l < fuel)%nat -> (length l < loops)%nat ->
  exists e, m_loop loops (aton_body bits fuel) (c, Z.of_nat (length vs), parts_at vs) s =
    Ret (ws ← parts_of bits (3 - length vs) l;
         Some (default 0 (last ws), Z.of_nat (length (vs ++ ws)) - 1, parts_at (vs ++ ws))) (Net (n_mem s) e).
Proof.
  revert vs c l s. induction loops as [|loops IH]; intros vs c l s Hn Hl Hf Hloops; [lia|]. rewrite m_loop_S.
  destruct (aton_body_run bits fuel vs c l s Hn Hl Hf) as [e He]. rewrite (m_bind_run _ _ _ _ _ He). clear He.
  pose proof (ul_read_length bits l) as Hr. pose proof (cstr_drop _ _ _ _ Hr Hl) as Hd.
  assert (length (drop (ul_read (strtoul_of bits l)) l) = length l - ul_read (strtoul_of bits l))%nat as Hlen by apply length_drop.
  rewrite parts_of_eq. cbv zeta.
  set (r := strtoul_of bits l) in *. set (v := u32 (ul_value r)).
  assert (Z.of_nat (length (vs ++ [v])) - 1 = Z.of_nat (length vs)) as Hone by (rewrite length_app; simpl; lia).
  destruct (ul_range r); simpl; [by eexists|]. case_bool_decide as E0; [by eexists|].
  destruct (drop (ul_read r) l) as [|x rest]; [exists e; simpl; by rewrite ?Hone|].
  destruct (bool_decide (x = 46)) eqn:Ex; [|destruct (isspace x); exists e; simpl; by rewrite ?Hone].
  simpl in Hlen, Hd. destruct Hd as (_ & _ & Hd). clear Ex.
  case_bool_decide as En; [replace (3 - length vs)%nat with O by lia; by eexists|].
  destruct (IH (vs ++ [v]) (c + Z.of_nat (ul_read r) + 1) rest (Net (n_mem s) e)) as [e' He'];
    [rewrite length_app; simpl; lia|exact Hd|lia..|].
  rewrite length_app in He'. simpl in He'. rewrite Nat2Z.inj_add in He'. change (Z.of_nat 1) with 1 in He'. exists e'. rewrite He'.
  replace (3 - length vs)%nat with (S (3 - (length vs + 1))) by lia.
  pose proof (parts_of_some bits (3 - (length vs + 1)) rest) as Hs.
  destruct (parts_of bits _ rest) as [[|w ws]|]; [done| |done]. simpl. by rewrite <- app_assoc.
Qed.

#[local] Arguments Z.shiftl : simpl never.
#[local] Arguments Z.modulo : simpl never.
#[local] Arguments Z.lor : simpl never.
#[local] Arguments Z.pow : simpl never.
#[local] Arguments write_bytes : simpl never.
#[local] Arguments put_bytes : simpl never.

(** The sum of the parts. *)
Lemma lor_shift a b n : 0 <= n -> 0 <= a < 2 ^ n -> Z.lor a (Z.shiftl b n) = a + b * 2 ^ n.
Proof. intros. rewrite Z.shiftl_mul_pow2 by done. by apply lor_shift_add. Qed.

Lemma ul_shift bits p k : bits = 32 \/ bits = 64 -> 0 <= p < 256 -> 0 <= k <= 24 ->
  Z.shiftl p k mod 2 ^ bits = Z.shiftl p k.
Proof.
  intros Hb Hp Hk. apply Z.mod_small. rewrite Z.shiftl_mul_pow2 by lia.
  pose proof (Z.pow_le_mono_r 2 k 24 ltac:(lia) ltac:(lia)). pose proof (Z.pow_pos_nonneg 2 k ltac:(lia) ltac:(lia)).
  assert (2 ^ 32 <= 2 ^ bits) by (apply Z.pow_le_mono_r; lia). nia.
Qed.

Lemma part_run ws i v s : ws !! i = Some v -> (length ws <= 4)%nat -> part (parts_at ws) (Z.of_nat i) s = Ret v s.
Proof.
  intros Hi Hl. pose proof (lookup_lt_Some _ _ _ Hi). unfold part. rewrite arr_get_nat. unfold parts_at.
  by rewrite lookup_app_l, list_lookup_fmap, Hi by (by rewrite length_fmap).
Qed.

Ltac next_part i := erewrite m_bind_run by (apply (part_run _ i); [done|simpl; lia]); cbv beta.

Lemma concoct_run bits ws s : bits = 32 \/ bits = 64 -> (1 <= length ws <= 4)%nat -> Forall (fun v => 0 <= v < 2 ^ 32) ws ->
  concoct bits (default 0 (last ws)) (Z.of_nat (length ws) - 1) (parts_at ws) s = Ret (address_of 32 ws) s.
Proof.
  intros Hb Hn Hw.
  assert (forall x y, 0 <= x < 2 ^ 32 -> x = y -> Ret (Some (u32 x)) s = Ret (Some y) s) as Hu by (by intros x y Hx <-; rewrite u32_small).
  destruct ws as [|a [|b [|c [|d [|]]]]]; simpl in Hn; try lia; decompose_Forall_hyps; unfold concoct; simpl;
    change (2 ^ 24) with 16777216; change (2 ^ 16) with 65536; change (2 ^ 8) with 256; simpl.
  - by rewrite bool_decide_eq_true_2 by lia.
  - next_part 0%nat. repeat case_bool_decide; try lia; try done. simpl. unfold m_ret.
    rewrite ul_shift, lor_shift by (done || lia). apply Hu; lia.
  - next_part 0%nat. next_part 1%nat. repeat case_bool_decide; try lia; try done. simpl. unfold m_ret.
    rewrite !ul_shift, (Z.lor_comm (Z.shiftl _ _)), Z.lor_assoc, (lor_shift c b 16), (lor_shift _ a 24) by (done || lia). apply Hu; lia.
  - next_part 0%nat. next_part 1%nat. next_part 2%nat. repeat case_bool_decide; try lia; try done. simpl. unfold m_ret.
    rewrite !ul_shift, (Z.lor_comm (Z.lor (Z.shiftl _ _) _)), (Z.lor_comm (Z.shiftl _ 24)), !Z.lor_assoc,
      (lor_shift d c 8), (lor_shift _ b 16), (lor_shift _ a 24) by (done || lia). apply Hu; lia.
Qed.

(** *** Bytes *)

Lemma byte_bits x y : (forall i, 0 <= i < 8 -> Z.testbit x i = Z.testbit y i) -> x mod 256 = y mod 256.
Proof.
  intros H. change 256 with (2 ^ 8). apply Z.bits_inj'. intros i Hi. destruct (decide (i < 8)).
  - rewrite !Z.mod_pow2_bits_low by lia. apply H. lia.
  - by rewrite !Z.mod_pow2_bits_high by lia.
Qed.

Lemma bytes32_htonl v : bytes32 (htonl v) = network_bytes v.
Proof.
  unfold bytes32, network_bytes. rewrite <- !Z.shiftr_div_pow2 by lia.
  f_equal; [|f_equal; [|f_equal; [|f_equal]]]; apply byte_bits; intros i Hi; unfold htonl;
    rewrite ?Z.shiftr_spec, !Z.lor_spec, ?Z.shiftr_spec, ?Z.shiftl_spec, ?Z.land_spec, ?Z.shiftr_spec by lia;
    assert (i = 0 \/ i = 1 \/ i = 2 \/ i = 3 \/ i = 4 \/ i = 5 \/ i = 6 \/ i = 7) as Hc by lia;
    destruct_or! Hc; subst i; simpl; rewrite ?andb_false_r, ?andb_true_r, ?orb_false_r; try done.
Qed.

Lemma parts_of_bounds bits dots l ws : parts_of bits dots l = Some ws ->
  (1 <= length ws <= S dots)%nat /\ Forall (fun v => 0 <= v < 2 ^ 32) ws.
Proof.
  revert l ws. induction dots as [|dots IH]; intros l ws H; simpl in H; repeat case_match; simplify_eq;
    try (simpl; split; [lia|]; apply Forall_singleton, u32_range).
  apply fmap_Some in H as (ws' & H & ->). apply IH in H as (Hn & Hf). simpl. split; [lia|].
  constructor; [apply u32_range|done].
Qed.

(** The function on any string: it returns, and what it stores is [aton] of the
    string. *)
Lemma inet_aton_run bits fuel cp addr l s :
  bits = 32 \/ bits = 64 -> cstr (n_mem s) cp l -> (length l < fuel)%nat ->
  (forall a, addr = Some a -> writable (n_mem s) a 4) ->
  exists e, txc_libc_inet_aton bits fuel cp addr s =
    match aton bits l with
    | Some v => Ret 1 (Net (match addr with Some a => put_bytes a (network_bytes v) (n_mem s) | None => n_mem s end) e)
    | None => Ret 0 (Net (n_mem s) e)
    end.
Proof.
  intros Hb Hl Hf Hw. unfold txc_libc_inet_aton.
  destruct (aton_loop bits fuel fuel [] cp l s ltac:(simpl; lia) Hl Hf Hf) as [e He]. exists e.
  change (parts_at []) with (@replicate (option Z) 4 None) in He. change (Z.of_nat (length [])) with 0 in He.
  rewrite (m_bind_run _ _ _ _ _ He). unfold aton. change (3 - length [])%nat with 3%nat.
  destruct (parts_of bits 3 l) as [ws|] eqn:Ew; [|done]. apply parts_of_bounds in Ew as [Hn Hr]. simpl.
  rewrite (m_bind_run _ _ _ _ _ (concoct_run bits ws _ Hb Hn Hr)).
  destruct (address_of 32 ws) as [v|]; [|done]. destruct addr as [a|]; [|done].
  rewrite bytes32_htonl. by rewrite (m_bind_run _ _ _ _ _ (in_mem_write a (network_bytes v) (Net (n_mem s) e) (Hw a eq_refl))).
Qed.

(** *** Decimal numbers *)

(** The digits of a number in decimal: no zero in front. *)
Definition numeral (ds : list Z) : Prop :=
  ds <> [] /\ Forall (fun d => 0 <= d < 10) ds /\ (head ds = Some 0 -> ds = [0]).
Definition text (ds : list Z) : list Z := map (Z.add 48) ds.

(** Numbers with dots between them. *)
Fixpoint dots_between (dss : list (list Z)) : list Z :=
  match dss with
  | [] => []
  | [ds] => text ds
  | ds :: dss => text ds ++ 46 :: dots_between dss
  end.

(** A number ends there: at a dot, a blank, or the end. *)
Definition ends_number (l : list Z) : Prop := match l with [] => True | c :: _ => c = 46 \/ isspace c = true end.
Definition ends_address (l : list Z) : Prop := match l with [] => True | c :: _ => isspace c = true end.

Lemma digits_text base ds rest : base = 8 \/ base = 10 -> Forall (fun d => 0 <= d < base) ds -> ends_number rest ->
  digits base (text ds ++ rest) = ds.
Proof.
  intros Hb Hds Hr. induction Hds as [|d ds Hd Hds IH]; simpl.
  - destruct rest as [|c rest]; [done|]. simpl in *. unfold digit, isspace in *.
    rewrite !(bool_decide_eq_false_2 (_ <= c <= _)) by (rewrite bool_decide_eq_true in Hr; lia).
    by rewrite bool_decide_eq_false_2 by lia.
  - unfold digit. rewrite (bool_decide_eq_true_2 (48 <= 48 + d <= 57)), bool_decide_eq_true_2 by lia.
    rewrite IH. f_equal. lia.
Qed.

Lemma decimal_base ds rest : numeral ds -> ends_number rest ->
  base_of (text ds ++ rest) = (match ds with 0 :: _ => 8 | _ => 10 end, O).
Proof.
  intros (Hne & Hds & H0) Hr. destruct ds as [|d ds]; [done|]. inversion Hds as [|? ? Hd _]; subst.
  destruct (decide (d = 0)) as [->|Hd0].
  - specialize (H0 eq_refl). simplify_eq. simpl. destruct rest as [|x [|y rest]]; [done..|]. simpl in *.
    unfold isspace in Hr. rewrite bool_decide_eq_true in Hr. by rewrite bool_decide_eq_false_2 by lia.
  - assert (d = 1 \/ d = 2 \/ d = 3 \/ d = 4 \/ d = 5 \/ d = 6 \/ d = 7 \/ d = 8 \/ d = 9) as Hc by lia.
    by destruct_or! Hc; subst d.
Qed.

Lemma text_sign ds (l : list Z) : Forall (fun d => 0 <= d < 10) ds -> ds <> [] ->
  sign_of (text ds ++ l) = (false, O) /\
  spaces (text ds ++ l) = O.
Proof.
  intros Hds Hne. destruct Hds as [|d ds Hd _]; [done|].
  assert (d = 0 \/ d = 1 \/ d = 2 \/ d = 3 \/ d = 4 \/ d = 5 \/ d = 6 \/ d = 7 \/ d = 8 \/ d = 9) as Hc by lia.
  by destruct_or! Hc; subst d.
Qed.

Lemma strtoul_decimal bits ds rest : numeral ds -> ends_number rest ->
  strtoul_of bits (text ds ++ rest) =
  if bool_decide (number_in 10 ds < 2 ^ bits) then Ul (number_in 10 ds) false (length ds) else Ul (2 ^ bits - 1) true (length ds).
Proof.
  intros Hn Hr. pose proof Hn as (Hne & Hds & H0). unfold strtoul_of. cbv zeta.
  destruct (text_sign ds rest Hds Hne) as [Hs ->]. rewrite !drop_0, Hs. cbv beta iota. rewrite drop_0, (decimal_base ds rest Hn Hr).
  cbv beta iota. rewrite drop_0.
  assert (digits (match ds with 0 :: _ => 8 | _ => 10 end) (text ds ++ rest) = ds /\
    number_in (match ds with 0 :: _ => 8 | _ => 10 end) ds = number_in 10 ds) as [-> ->].
  { destruct (decide (head ds = Some 0)) as [E|E].
    - rewrite (H0 E). split; [|done]. apply digits_text; [by left| |done]. apply Forall_singleton. lia.
    - replace (match ds with 0 :: _ => 8 | _ => 10 end) with 10 by (destruct ds as [|[] ?]; done).
      split; [|done]. apply digits_text; [by right|done..]. }
  by rewrite bool_decide_eq_false_2.
Qed.

Definition fits (bits : Z) (ds : list Z) : Prop := number_in 10 ds < 2 ^ bits.
#[global] Instance fits_dec bits ds : Decision (fits bits ds).
Proof. unfold fits. apply _. Defined.

(** The number in front, and what is after it. *)
Lemma parts_of_numeral bits dots ds rest : numeral ds -> ends_number rest ->
  parts_of bits dots (text ds ++ rest) =
  if bool_decide (fits bits ds) then
    match rest with
    | 46 :: l => match dots with O => None | S dots => cons (u32 (number_in 10 ds)) <$> parts_of bits dots l end
    | _ => Some [u32 (number_in 10 ds)]
    end
  else None.
Proof.
  intros Hn Hr. rewrite parts_of_eq, strtoul_decimal by done.
  change (bool_decide (number_in 10 ds < 2 ^ bits)) with (bool_decide (fits bits ds)). case_bool_decide; [|done]. simpl.
  destruct Hn as (Hne & _). rewrite bool_decide_eq_false_2 by (by destruct ds).
  rewrite drop_app_length' by (unfold text; by rewrite length_map). destruct rest as [|c rest]; [done|]. simpl in Hr.
  destruct (decide (c = 46)) as [->|Hc]; [done|]. destruct Hr as [|Hr]; [done|]. rewrite bool_decide_eq_false_2, Hr by done.
  by repeat case_match.
Qed.

Lemma ends_address_number l : ends_address l -> ends_number l.
Proof. destruct l; [done|]. by right. Qed.

Lemma parts_of_numerals bits dots ds dss rest : Forall numeral (ds :: dss) -> ends_address rest ->
  parts_of bits dots (dots_between (ds :: dss) ++ rest) =
  if bool_decide (length dss <= dots)%nat && bool_decide (Forall (fits bits) (ds :: dss))
  then Some ((fun ds => u32 (number_in 10 ds)) <$> ds :: dss) else None.
Proof.
  intros Hn Hr. revert ds dots Hn. induction dss as [|ds' dss IH]; intros ds dots Hn; inversion Hn as [|? ? Hd Hds]; subst.
  - change (dots_between [ds]) with (text ds). rewrite parts_of_numeral by (try apply ends_address_number; done).
    rewrite (bool_decide_eq_true_2 (_ <= _)%nat) by (simpl; lia). simpl.
    rewrite (bool_decide_ext (Forall (fits bits) [ds]) (fits bits ds)) by (rewrite Forall_singleton; done).
    case_bool_decide; [|done]. destruct rest as [|c rest]; [done|]. by repeat case_match.
  - change (dots_between (ds :: ds' :: dss)) with (text ds ++ 46 :: dots_between (ds' :: dss)).
    rewrite <- app_assoc. rewrite parts_of_numeral by (simpl; auto).
    rewrite (bool_decide_ext (Forall _ (ds :: ds' :: dss)) (fits bits ds /\ Forall (fits bits) (ds' :: dss))) by apply Forall_cons.
    rewrite bool_decide_and. case_bool_decide as Hf; [|by rewrite andb_false_r].
    destruct dots as [|dots]; [by rewrite bool_decide_eq_false_2 by (simpl; lia)|].
    change ((46 :: dots_between (ds' :: dss)) ++ rest) with (46 :: dots_between (ds' :: dss) ++ rest). cbv iota.
    rewrite IH by done. rewrite (bool_decide_ext (length (ds' :: dss) <= S dots)%nat (length dss <= dots)%nat) by (simpl; lia).
    simpl. by destruct (_ && _).
Qed.

(** *** Printed addresses *)

Lemma octet_printed o : 0 <= o < 256 ->
  numeral (decimal 10 o) /\ number_in 10 (decimal 10 o) = o /\ (length (decimal 10 o) <= 3)%nat.
Proof.
  intros Ho.
  assert (forallb (fun n => match decimal 10 (Z.of_nat n) with
      | [] => false
      | d :: ds => forallb (fun d => (0 <=? d) && (d <? 10)) (d :: ds) && (negb (d =? 0) || (length ds =? 0)%nat) &&
                   (number_in 10 (d :: ds) =? Z.of_nat n) && (length ds <=? 2)%nat
      end) (seq 0 256) = true) as H by (vm_compute; reflexivity).
  rewrite forallb_forall in H. specialize (H (Z.to_nat o) ltac:(apply in_seq; lia)). rewrite Z2Nat.id in H by lia.
  destruct (decimal 10 o) as [|d ds]; [done|]. rewrite !andb_true_iff, forallb_forall, orb_true_iff, negb_true_iff in H.
  destruct H as (((Hd & H0) & Hv) & Hl). unfold numeral. split_and!; [done| | |by apply Z.eqb_eq|apply Nat.leb_le in Hl; simpl; lia].
  - apply Forall_forall. intros x Hx. apply list_elem_of_In, Hd, andb_true_iff in Hx as [? ?]. lia.
  - simpl. intros [= ->]. destruct ds; [done|]. simpl in H0. by destruct H0.
Qed.

#[local] Arguments decimal : simpl never.

Definition octet (o : Z) : Prop := 0 <= o < 256.

Lemma dotted_between a b c d : dotted a b c d = dots_between [decimal 10 a; decimal 10 b; decimal 10 c; decimal 10 d].
Proof. done. Qed.

Lemma dotted_length a b c d : octet a -> octet b -> octet c -> octet d -> (length (dotted a b c d) <= 15)%nat.
Proof.
  intros Ha Hb Hc Hd. apply octet_printed in Ha as (_ & _ & Ha), Hb as (_ & _ & Hb), Hc as (_ & _ & Hc), Hd as (_ & _ & Hd).
  unfold dotted, print_u. rewrite !length_app, !length_map. simpl. lia.
Qed.

Lemma text_chars ds : Forall (fun d => 0 <= d < 10) ds -> Forall (fun c => 0 < c < 256) (text ds).
Proof. intros H. apply Forall_fmap. eapply Forall_impl; [exact H|]. simpl. lia. Qed.

Lemma dotted_chars a b c d : octet a -> octet b -> octet c -> octet d -> Forall (fun x => 0 < x < 256) (dotted a b c d).
Proof.
  intros Ha Hb Hc Hd.
  apply octet_printed in Ha as ((_ & Ha & _) & _), Hb as ((_ & Hb & _) & _), Hc as ((_ & Hc & _) & _), Hd as ((_ & Hd & _) & _).
  unfold dotted, print_u. rewrite !Forall_app, !Forall_singleton. split_and!; try lia; by apply text_chars.
Qed.

Lemma aton_dotted bits a b c d : bits = 32 \/ bits = 64 -> octet a -> octet b -> octet c -> octet d ->
  aton bits (dotted a b c d) = Some (a * 2 ^ 24 + (b * 2 ^ 16 + (c * 2 ^ 8 + d))).
Proof.
  intros Hb Ha Hb' Hc Hd. unfold aton. rewrite dotted_between, <- (app_nil_r (dots_between _)).
  pose proof (octet_printed a Ha) as (Na & Va & _). pose proof (octet_printed b Hb') as (Nb & Vb & _).
  pose proof (octet_printed c Hc) as (Nc & Vc & _). pose proof (octet_printed d Hd) as (Nd & Vd & _).
  unfold octet in *.
  assert (2 ^ 32 <= 2 ^ bits) by (apply Z.pow_le_mono_r; lia).
  rewrite parts_of_numerals by (repeat constructor; by try apply Na || apply Nb || apply Nc || apply Nd).
  rewrite (bool_decide_eq_true_2 (Forall _ _)) by (repeat constructor; unfold fits; lia).
  rewrite bool_decide_eq_true_2 by (simpl; lia). simpl. rewrite Va, Vb, Vc, Vd, !u32_small by lia.
  change (2 ^ 8) with 256. by rewrite !bool_decide_eq_true_2 by lia.
Qed.

Lemma network_dotted a b c d : octet a -> octet b -> octet c -> octet d ->
  network_bytes (a * 2 ^ 24 + (b * 2 ^ 16 + (c * 2 ^ 8 + d))) = [a; b; c; d].
Proof.
  unfold octet, network_bytes. intros.
  change (2 ^ 24) with 16777216. change (2 ^ 16) with 65536. change (2 ^ 8) with 256.
  f_equal; [|f_equal; [|f_equal; [|f_equal]]]; Z.div_mod_to_equations; lia.
Qed.

Definition bytes_at (m : cmem) (p : Z) (l : list Z) : Prop := forall i x, l !! i = Some x -> m !! (p + Z.of_nat i) = Some x.

Lemma put_bytes_at d l m : bytes_at (put_bytes d l m) d l.
Proof.
  unfold bytes_at. revert d m. induction l as [|c l IH]; intros d m i x Hi; [done|]. unfold put_bytes. fold put_bytes.
  destruct i as [|i]; simpl in Hi.
  - simplify_eq. rewrite Z.add_0_r, put_bytes_lookup_ne by lia. apply lookup_insert_eq.
  - replace (d + Z.of_nat (S i)) with (d + 1 + Z.of_nat i) by lia. by apply IH.
Qed.

Lemma bytes_at_read p l i x s : bytes_at (n_mem s) p l -> l !! i = Some x -> in_mem (mread (p + Z.of_nat i)) s = Ret x s.
Proof. intros H Hi. apply in_mem_run, mread_some. by apply H. Qed.

(** [htons] swaps the two bytes, so doing it twice does nothing. *)
Lemma htons_swaps hi lo : octet hi -> octet lo -> txc_libc_htons (256 * hi + lo) = 256 * lo + hi.
Proof.
  unfold octet. intros Hh Hl. unfold txc_libc_htons. rewrite Z.shiftr_div_pow2 by lia. change 255 with (Z.ones 8).
  rewrite !Z.land_ones by lia. change (2 ^ 8) with 256. rewrite lor_shift; [|lia|Z.div_mod_to_equations; lia].
  change (2 ^ 8) with 256. Z.div_mod_to_equations. lia.
Qed.

Lemma htons_twice x : 0 <= x < 2 ^ 16 -> txc_libc_htons (txc_libc_htons x) = x.
Proof.
  intros Hx. change (2 ^ 16) with 65536 in Hx. rewrite (Z.div_mod x 256) at 1 by lia.
  rewrite !htons_swaps by (unfold octet; Z.div_mod_to_equations; lia). Z.div_mod_to_equations. lia.
Qed.

(** What [inet_ntop] does with an address of four bytes. *)
Lemma inet_ntop_run src dst size a b c d s :
  bytes_at (n_mem s) src [a; b; c; d] -> octet a -> octet b -> octet c -> octet d -> writable (n_mem s) dst size ->
  txc_libc_inet_ntop AF_INET src dst size s =
  if bool_decide (Z.of_nat (length (dotted a b c d)) < size)
  then Ret (Some dst) (Net (put_bytes dst (dotted a b c d ++ [0]) (n_mem s)) (n_errno s))
  else Ret None (Net (n_mem s) ENOSPC).
Proof.
  intros Hsrc Ha Hb Hc Hd Hw. unfold txc_libc_inet_ntop. rewrite bool_decide_eq_true_2 by done. unfold inet_ntop4.
  pose proof (fun i x => bytes_at_read src _ i x s Hsrc) as Hr.
  pose proof (Hr 0%nat a eq_refl) as H0. rewrite Z.add_0_r in H0. rewrite (m_bind_run _ _ _ _ _ H0).
  rewrite (m_bind_run _ _ _ _ _ (Hr 1%nat b eq_refl)), (m_bind_run _ _ _ _ _ (Hr 2%nat c eq_refl)),
    (m_bind_run _ _ _ _ _ (Hr 3%nat d eq_refl)).
  pose proof (dotted_length a b c d Ha Hb Hc Hd) as Hl. unfold inet_ntop4_sprintf. cbv zeta.
  rewrite bool_decide_eq_true_2 by lia. rewrite (m_bind_run _ _ _ (dotted a b c d, Z.of_nat (length (dotted a b c d))) s) by done.
  rewrite u32_small by lia.
  destruct (decide (Z.of_nat (length (dotted a b c d)) < size)) as [H|H].
  - rewrite bool_decide_eq_false_2, bool_decide_eq_true_2 by lia.
    rewrite (m_bind_run _ _ _ _ _ (in_mem_write dst (dotted a b c d ++ [0]) s
      ltac:(eapply writable_mono; [exact Hw|lia|rewrite length_app; simpl; lia]))). done.
  - by rewrite bool_decide_eq_true_2, bool_decide_eq_false_2 by lia.
Qed.

(** ** Properties *)

(** C30: [inet_aton] on decimal numbers with dots between them, up to a blank or the end
    of the string. With one to four numbers that fit in [u_long] it takes each modulo
    2^32, gives 8 bits to each but the last one, which fills the rest, stores the address
    in the order of the network and returns 1; else it returns 0 and stores nothing. It
    never reads or writes outside the string, the four parts and the four bytes. *)
Theorem inet_aton_numbers bits fuel cp addr ds dss rest s :
  bits = 32 \/ bits = 64 -> Forall numeral (ds :: dss) -> ends_address rest ->
  cstr (n_mem s) cp (dots_between (ds :: dss) ++ rest) -> (length (dots_between (ds :: dss) ++ rest) < fuel)%nat ->
  (forall a, addr = Some a -> writable (n_mem s) a 4) ->
  exists e, txc_libc_inet_aton bits fuel cp addr s =
    match
      if bool_decide (length (ds :: dss) <= 4)%nat && bool_decide (Forall (fits bits) (ds :: dss))
      then address_of 32 ((fun ds => u32 (number_in 10 ds)) <$> ds :: dss) else None
    with
    | Some v => Ret 1 (Net (match addr with Some a => put_bytes a (network_bytes v) (n_mem s) | None => n_mem s end) e)
    | None => Ret 0 (Net (n_mem s) e)
    end.
Proof.
  intros Hb Hn Hr Hl Hf Hw. destruct (inet_aton_run bits fuel cp addr _ s Hb Hl Hf Hw) as [e He]. exists e. rewrite He.
  unfold aton. rewrite parts_of_numerals by done.
  rewrite (bool_decide_ext (length (ds :: dss) <= 4)%nat (length dss <= 3)%nat) by (simpl; lia).
  by destruct (_ && _).
Qed.

(** C31: [inet_aton] reads back what [inet_ntop] prints: the four bytes of the address
    arrive at [addr], wherever it is. *)
Theorem inet_round_trip bits fuel src dst size addr a b c d s :
  bits = 32 \/ bits = 64 -> (15 < fuel)%nat ->
  octet a -> octet b -> octet c -> octet d -> bytes_at (n_mem s) src [a; b; c; d] ->
  16 <= size -> writable (n_mem s) dst size -> writable (n_mem s) addr 4 ->
  exists s', (txc_libc_inet_ntop AF_INET src dst size ;;; txc_libc_inet_aton bits fuel dst (Some addr)) s = Ret 1 s' /\
    bytes_at (n_mem s') addr [a; b; c; d].
Proof.
  intros Hb Hf Ha Hb' Hc Hd Hsrc Hs Hw Haddr. pose proof (dotted_length a b c d Ha Hb' Hc Hd) as Hl.
  pose proof (inet_ntop_run src dst size a b c d s Hsrc Ha Hb' Hc Hd Hw) as E. rewrite bool_decide_eq_true_2 in E by lia.
  rewrite (m_bind_run _ _ _ _ _ E).
  destruct (inet_aton_run bits fuel dst (Some addr) (dotted a b c d)
    (Net (put_bytes dst (dotted a b c d ++ [0]) (n_mem s)) (n_errno s)) Hb) as [e He].
  - by apply put_bytes_cstr, dotted_chars.
  - lia.
  - intros ? [= <-]. by apply put_bytes_writable.
  - rewrite He, aton_dotted, network_dotted by done. eexists. split; [done|]. apply put_bytes_at.
Qed.

(** *** Concrete addresses

    The string "10.4294967297 x" at 100, which names 10.0.0.1 when [u_long] has 64 bits,
    and is no address when it has 32; the bytes of 192.0.2.7 at 50; room at 200 and 300. *)

Definition m_net : cmem :=
  put_bytes 100 ([49; 48; 46; 52; 50; 57; 52; 57; 54; 55; 50; 57; 55; 32; 120] ++ [0])
    (put_bytes 50 [192; 0; 2; 7] (put_bytes 200 (replicate 16 0) (put_bytes 300 (replicate 4 0) ∅))).

Lemma m_net_room16 : writable m_net 200 16.
Proof. do 2 apply put_bytes_writable. intros i Hi. by apply put_bytes_region. Qed.

Lemma m_net_room4 : writable m_net 300 4.
Proof. do 3 apply put_bytes_writable. intros i Hi. by apply put_bytes_region. Qed.

Lemma inet_aton_numbers_witness :
  let ten := [1; 0] in
  let big := [4; 2; 9; 4; 9; 6; 7; 2; 9; 7] in
  Forall numeral [ten; big] /\
  exists e, txc_libc_inet_aton 64 20 100 (Some 300) (Net m_net 0) =
    Ret 1 (Net (put_bytes 300 [10; 0; 0; 1] m_net) e).
Proof.
  intros ten big. assert (Forall numeral [ten; big]) as Hn by (repeat constructor; by try lia || done).
  split; [exact Hn|].
  destruct (inet_aton_numbers 64 20 100 (Some 300) ten [big] [32; 120] (Net m_net 0)) as [e He]; try exact Hn.
  - by right.
  - done.
  - vm_compute. repeat split.
  - simpl. lia.
  - intros ? [= <-]. apply m_net_room4.
  - exists e. exact He.
Defined.

Lemma inet_round_trip_witness :
  exists s', (txc_libc_inet_ntop AF_INET 50 200 16 ;;; txc_libc_inet_aton 32 20 200 (Some 300)) (Net m_net 0) = Ret 1 s' /\
    bytes_at (n_mem s') 300 [192; 0; 2; 7].
Proof.
  apply (inet_round_trip 32 20 50 200 16 300 192 0 2 7 (Net m_net 0)); try (unfold octet; lia).
  - intros i x Hi. do 4 (destruct i as [|i]; [simpl in Hi; simplify_eq; reflexivity|]). done.
  - apply m_net_room16.
  - apply m_net_room4.
Defined.
