(* ===== verification/Atof.v ===== *)
(** * Reading a floating-point number ([libc/stdlib.c])

    [atof], over the memory of [CString]. A [double] is a number of IEEE 754 with 53 bits
    of precision, as the Standard Library specifies it ([spec_float]), and every operation
    rounds to it: the code as built for SSE2, not for the x87, whose registers are wider.
    Arithmetic on [int] that overflows is undefined. *)

From Stdlib Require Import SpecFloat.
From S2P Require Import Prelude CString.

(** ** The code *)

Definition fadd := SFadd 53 1024.
Definition fmul := SFmul 53 1024.
Definition fdiv := SFdiv 53 1024.
Definition ldexp := SFldexp 53 1024.
(** The conversion of an [int]. *)
Definition of_int (n : Z) : spec_float := binary_normalize 53 1024 n 0 false.
(** [72057594037927936.], 2^56 *)
Definition big : spec_float := S754_finite false 4503599627370496 4.
Definition LOGHUGE : Z := 39.

(** [c = *p++] *)
Definition getc (p : Z) : M cmem Z := do c <- mread p ;; m_ret (schar c).
Definition txc_libc_isdigit (c : Z) : bool := bool_decide (48 <= c <= 57).

(** [while((c = *p++) == ' ');]: the next character, and [p] after it. *)
Definition atof_blanks (p : Z) : M cmem (Z + Z * Z) :=
  do c <- getc p ;;
  m_ret (if bool_decide (c = 32) then inl (p + 1) else inr (c, p + 1)).

Definition atof_sign (c p : Z) : bool * Z :=
  if bool_decide (c = 45) then (true, p) else if bool_decide (c = 43) then (false, p) else (false, p - 1).

(** The digits before and after the point: [p], [fl], [exp] and [nd]. *)
Definition atof_digits (st : Z * spec_float * Z * Z) : M cmem (Z * spec_float * Z * Z + Z * Z * spec_float * Z * Z) :=
  let '(p, fl, exp, nd) := st in
  do c <- getc p ;;
  let p := p + 1 in
  if txc_libc_isdigit c then
    if SFltb fl big then
      do nd <- int_ok (nd + 1) ;;
      m_ret (inl (p, fadd (fmul (of_int 10) fl) (of_int (c - 48)), exp, nd))
    else
      do exp <- int_ok (exp + 1) ;;
      do nd <- int_ok (nd + 1) ;;
      m_ret (inl (p, fl, exp, nd))
  else m_ret (inr (c, p, fl, exp, nd)).

Definition atof_fraction (st : Z * spec_float * Z * Z) : M cmem (Z * spec_float * Z * Z + Z * Z * spec_float * Z * Z) :=
  let '(p, fl, exp, nd) := st in
  do c <- getc p ;;
  let p := p + 1 in
  if txc_libc_isdigit c then
    if SFltb fl big then
      do exp <- int_ok (exp - 1) ;;
      do nd <- int_ok (nd + 1) ;;
      m_ret (inl (p, fadd (fmul (of_int 10) fl) (of_int (c - 48)), exp, nd))
    else
      do nd <- int_ok (nd + 1) ;;
      m_ret (inl (p, fl, exp, nd))
  else m_ret (inr (c, p, fl, exp, nd)).

(** The digits of the exponent. *)
Definition atof_eexp (st : Z * Z) : M cmem (Z * Z + Z) :=
  let '(p, eexp) := st in
  do c <- getc p ;;
  let p := p + 1 in
  if txc_libc_isdigit c then
    do x <- int_ok (10 * eexp) ;;
    do x <- int_ok (x + (c - 48)) ;;
    m_ret (inl (p, x))
  else m_ret (inr eexp).

(** From the character after the digits: the exponent added to [exp]. *)
Definition atof_exponent (fuel : nat) (c p exp : Z) : M cmem Z :=
  if bool_decide (c = 69 \/ c = 101) then
    do c <- getc p ;;
    let p := p + 1 in
    let '(neg, p) := if bool_decide (c = 43) then (false, p) else if bool_decide (c = 45) then (true, p) else (false, p - 1) in
    do eexp <- m_loop fuel atof_eexp (p, 0) ;;
    int_ok (exp + (if (neg : bool) then - eexp else eexp))
  else m_ret exp.

(** 5 to the power [exp], by squaring. *)
Definition atof_power (st : spec_float * spec_float * Z) : M cmem (spec_float * spec_float * Z + spec_float) :=
  let '(flexp, exp5, exp) := st in
  let flexp := if bool_decide (Z.land exp 1 <> 0) then fmul flexp exp5 else flexp in
  let exp := Z.shiftr exp 1 in
  m_ret (if bool_decide (exp = 0) then inr flexp else inl (flexp, fmul exp5 exp5, exp)).

(** The number [fl] times 10 to the power [exp]; an [int] has 31 bits to square through. *)
Definition atof_scale (fl : spec_float) (exp nd : Z) : M cmem spec_float :=
  do abs <- (if bool_decide (exp < 0) then int_ok (- exp) else m_ret exp) ;;
  let negexp := if bool_decide (exp < 0) then -1 else 1 in
  do x <- int_ok (nd + abs * negexp) ;;
  let '(fl, abs) := if bool_decide (x < - LOGHUGE) then (of_int 0, 0) else (fl, abs) in
  do flexp <- m_loop 32 atof_power (of_int 1, of_int 5, abs) ;;
  let fl := if bool_decide (negexp < 0) then fdiv fl flexp else fmul fl flexp in
  m_ret (ldexp fl (negexp * abs)).

Definition txc_libc_atof (fuel : nat) (p : Z) : M cmem spec_float :=
  do '(c, p) <- m_loop fuel atof_blanks p ;;
  let '(neg, p) := atof_sign c p in
  do '(c, p, fl, exp, nd) <- m_loop fuel atof_digits (p, of_int 0, 0, 0) ;;
  do '(c, p, fl, exp, nd) <-
    (if bool_decide (c = 46) then m_loop fuel atof_fraction (p, fl, exp, nd) else m_ret (c, p, fl, exp, nd)) ;;
  do exp <- atof_exponent fuel c p exp ;;
  do fl <- atof_scale fl exp nd ;;
  m_ret (if (neg : bool) then SFopp fl else fl).

(** ** Whole numbers as [double]s *)

(** The number [v * 2^k], for [v] up to 2^53. *)
Definition canon (v k : Z) : spec_float := S754_finite false (Z.to_pos (v * 2 ^ (52 - Z.log2 v))) (Z.log2 v - 52 + k).
Definition double (v k : Z) : spec_float := if bool_decide (v = 0) then S754_zero false else canon v k.

(** The whole number that a [double] is. *)
Definition denotes (x : spec_float) (n : Z) : Prop :=
  match x with
  | S754_zero _ => n = 0
  | S754_finite s m e => if bool_decide (0 <= e) then (if s then - Zpos m else Zpos m) * 2 ^ e = n
                         else (if s then - Zpos m else Zpos m) = n * 2 ^ (- e)
  | _ => False
  end.

Lemma digits2_log2 p : Zpos (digits2_pos p) = Z.log2 (Zpos p) + 1.
Proof.
  induction p as [p IH|p IH|]; simpl digits2_pos; [| |done]; rewrite Pos2Z.inj_succ, IH.
  - rewrite (Pos2Z.inj_xI p), Z.log2_succ_double by lia. lia.
  - rewrite (Pos2Z.inj_xO p), Z.log2_double by lia. lia.
Qed.

Lemma shr_1_double m : 0 < m -> shr_1 (Build_shr_record (2 * m) false false) = Build_shr_record m false false.
Proof. by destruct m. Qed.

Lemma iter_shr n m : 0 < m -> SpecFloat.iter_pos shr_1 n (Build_shr_record (m * 2 ^ Zpos n) false false) = Build_shr_record m false false.
Proof.
  revert m. induction n as [n IH|n IH|]; intros m Hm; cbn [SpecFloat.iter_pos].
  - replace (m * 2 ^ Z.pos n~1) with (2 * (m * 2 ^ Zpos n * 2 ^ Zpos n))
      by (replace (Z.pos n~1) with (1 + Zpos n + Zpos n) by lia; rewrite !Z.pow_add_r by lia; lia).
    rewrite shr_1_double by nia. rewrite IH by nia. by apply IH.
  - replace (m * 2 ^ Z.pos n~0) with (m * 2 ^ Zpos n * 2 ^ Zpos n)
      by (replace (Z.pos n~0) with (Zpos n + Zpos n) by lia; rewrite !Z.pow_add_r by lia; lia).
    rewrite IH by nia. by apply IH.
  - replace (m * 2 ^ 1) with (2 * m) by lia. by apply shr_1_double.
Qed.

Lemma iter_xO m d : Zpos (Pos.iter xO m d) = Zpos m * 2 ^ Zpos d.
Proof.
  induction d as [|d IH] using Pos.peano_ind; [simpl; lia|].
  rewrite Pos.iter_succ, Pos2Z.inj_xO, IH, Pos2Z.inj_succ, Z.pow_succ_r by lia. lia.
Qed.

Lemma log2_scaled v j : 0 < v -> 0 <= j -> Z.log2 (v * 2 ^ j) = Z.log2 v + j.
Proof. intros. rewrite Z.log2_mul_pow2; lia. Qed.

(** A number that fits in the precision is not changed by rounding, however its
    mantissa is shifted. *)
Lemma round_aux_exact v k e : 0 < v < 2 ^ 53 -> e <= k -> 52 <= Z.log2 v + (k - e) -> -1022 <= Z.log2 v + k <= 1023 ->
  binary_round_aux 53 1024 false (v * 2 ^ (k - e)) e loc_Exact = canon v k.
Proof.
  intros Hv He Hl Hk. set (m := v * 2 ^ (k - e)). pose proof (Z.log2_nonneg v) as Hn.
  assert (Z.log2 v < 53) as Hlv by (apply Z.log2_lt_pow2; lia).
  assert (0 < m) as Hm by (unfold m; pose proof (Z.pow_pos_nonneg 2 (k - e)); nia).
  assert (Z.log2 m = Z.log2 v + (k - e)) as Hlm by (apply log2_scaled; lia).
  assert (forall x, 0 < x -> Zdigits2 x = Z.log2 x + 1) as Hd by (intros [|x|x] Hx; [lia|apply digits2_log2|lia]).
  set (m1 := v * 2 ^ (52 - Z.log2 v)).
  assert (0 < m1) as Hm1 by (unfold m1; pose proof (Z.pow_pos_nonneg 2 (52 - Z.log2 v)); nia).
  assert (Z.log2 m1 = 52) as Hl1 by (unfold m1; rewrite log2_scaled by lia; lia).
  assert (shr_fexp 53 1024 m e loc_Exact = (Build_shr_record m1 false false, Z.log2 v - 52 + k)) as E1.
  { unfold shr_fexp, shr_record_of_loc. rewrite Hd, Hlm by done. unfold fexp, emin.
    replace (Z.max _ _ - e) with (Z.log2 v + (k - e) - 52) by lia.
    assert (m = m1 * 2 ^ (Z.log2 v + (k - e) - 52)) as Em.
    { unfold m, m1. rewrite <- Z.mul_assoc, <- Z.pow_add_r by lia. do 2 f_equal. lia. }
    unfold shr. destruct (Z.log2 v + (k - e) - 52) as [|n|n] eqn:En; [|f_equal; [|lia]|lia].
    - f_equal; [|lia]. rewrite Em. f_equal. lia.
    - rewrite Em. by apply iter_shr. }
  unfold binary_round_aux. rewrite E1. cbn [shr_m loc_of_shr_record round_nearest_even].
  assert (shr_fexp 53 1024 m1 (Z.log2 v - 52 + k) loc_Exact = (Build_shr_record m1 false false, Z.log2 v - 52 + k)) as ->.
  { unfold shr_fexp, shr_record_of_loc. rewrite Hd, Hl1 by done. unfold fexp, emin.
    by replace (Z.max _ _ - _) with 0 by lia. }
  cbn [shr_m]. unfold canon. fold m1. destruct m1 as [|p|p]; [lia| |lia]. by rewrite (proj2 (Z.leb_le _ _)) by lia.
Qed.

Lemma round_exact v k e : 0 < v < 2 ^ 53 -> e <= k -> -1022 <= Z.log2 v + k <= 1023 ->
  binary_normalize 53 1024 (v * 2 ^ (k - e)) e false = canon v k.
Proof.
  intros Hv He Hk. set (m := v * 2 ^ (k - e)). pose proof (Z.log2_nonneg v) as Hn.
  assert (0 < m) as Hm by (unfold m; pose proof (Z.pow_pos_nonneg 2 (k - e)); nia).
  assert (Z.log2 m = Z.log2 v + (k - e)) as Hlm by (apply log2_scaled; lia).
  destruct m as [|p|p] eqn:Em; [lia| |lia]. unfold binary_normalize, binary_round.
  rewrite digits2_log2, Hlm. unfold fexp, emin. unfold shl_align.
  replace (Z.max _ _ - e) with (Z.log2 v + (k - e) - 52) by lia.
  destruct (Z.log2 v + (k - e) - 52) as [|n|n] eqn:En.
  - rewrite <- Em. apply round_aux_exact; lia.
  - rewrite <- Em. apply round_aux_exact; lia.
  - rewrite iter_xO. replace (Z.pos p * 2 ^ Z.pos n) with (v * 2 ^ (k - (Z.log2 v + k - 52))).
    + replace (Z.max _ _) with (Z.log2 v + k - 52) by lia. apply round_aux_exact; lia.
    + rewrite <- Em. unfold m. rewrite <- Z.mul_assoc, <- Z.pow_add_r by lia. do 2 f_equal. lia.
Qed.

Lemma canon_mantissa v : 0 < v -> Z.log2 v < 53 -> Zpos (Z.to_pos (v * 2 ^ (52 - Z.log2 v))) = v * 2 ^ (52 - Z.log2 v).
Proof. intros Hv Hl. apply Z2Pos.id. pose proof (Z.pow_pos_nonneg 2 (52 - Z.log2 v)). nia. Qed.

Lemma log2_53 v : 0 < v < 2 ^ 53 -> 0 <= Z.log2 v <= 52.
Proof. intros Hv. pose proof (Z.log2_nonneg v). assert (Z.log2 v < 53) by (apply Z.log2_lt_pow2; lia). lia. Qed.

Lemma of_int_double v : 0 <= v < 2 ^ 53 -> of_int v = double v 0.
Proof.
  intros Hv. unfold of_int, double. case_bool_decide; [by subst|]. pose proof (log2_53 v ltac:(lia)).
  rewrite <- (round_exact v 0 0) by lia. f_equal. change (2 ^ (0 - 0)) with 1. lia.
Qed.

Lemma fmul_double a b : 0 <= a -> 0 <= b -> a < 2 ^ 53 -> b < 2 ^ 53 -> a * b < 2 ^ 53 ->
  fmul (double a 0) (double b 0) = double (a * b) 0.
Proof.
  intros Ha Hb Ha' Hb' Hab. unfold double. case_bool_decide as Ea; [subst; by case_bool_decide|].
  case_bool_decide as Eb; [subst; by rewrite Z.mul_0_r|]. rewrite bool_decide_eq_false_2 by lia.
  pose proof (log2_53 a ltac:(lia)). pose proof (log2_53 b ltac:(lia)). pose proof (log2_53 (a * b) ltac:(lia)).
  pose proof (Z.log2_mul_below a b ltac:(lia) ltac:(lia)).
  unfold fmul, canon at 1 2, SFmul. cbn [xorb]. rewrite Pos2Z.inj_mul, !canon_mantissa by lia.
  rewrite <- (round_aux_exact (a * b) 0 (Z.log2 a - 52 + 0 + (Z.log2 b - 52 + 0))) by lia. f_equal.
  replace (0 - _) with ((52 - Z.log2 a) + (52 - Z.log2 b)) by lia. rewrite Z.pow_add_r by lia. lia.
Qed.

Lemma fadd_double a b : 0 <= a -> 0 <= b -> a + b < 2 ^ 53 -> fadd (double a 0) (double b 0) = double (a + b) 0.
Proof.
  intros Ha Hb Hab. unfold double. case_bool_decide as Ea; [subst; rewrite Z.add_0_l; by case_bool_decide|].
  case_bool_decide as Eb; [subst; rewrite Z.add_0_r; by rewrite bool_decide_eq_false_2|]. rewrite bool_decide_eq_false_2 by lia.
  pose proof (log2_53 a ltac:(lia)). pose proof (log2_53 b ltac:(lia)). pose proof (log2_53 (a + b) ltac:(lia)).
  unfold fadd, canon at 1 2, SFadd. set (ez := Z.min _ _).
  assert (forall v, 0 < v -> 0 <= Z.log2 v <= 52 -> ez <= Z.log2 v - 52 + 0 ->
    Zpos (fst (shl_align (Z.to_pos (v * 2 ^ (52 - Z.log2 v))) (Z.log2 v - 52 + 0) ez)) = v * 2 ^ (0 - ez)) as Hs.
  { intros v Hv Hl Hz. unfold shl_align. destruct (ez - (Z.log2 v - 52 + 0)) as [|n|n] eqn:En; cbn [fst]; [|lia|].
    - rewrite canon_mantissa by lia. do 2 f_equal. lia.
    - rewrite iter_xO, canon_mantissa, <- Z.mul_assoc, <- Z.pow_add_r by lia. do 2 f_equal. lia. }
  cbn [cond_Zopp]. rewrite !Hs by lia. rewrite <- Z.mul_add_distr_r. apply round_exact; lia.
Qed.

Lemma ldexp_double v k : 0 <= v < 2 ^ 53 -> 0 <= k <= 970 -> ldexp (double v 0) k = double v k.
Proof.
  intros Hv Hk. unfold double. case_bool_decide; [done|]. pose proof (log2_53 v ltac:(lia)).
  rewrite <- (round_exact v k (Z.log2 v - 52 + 0 + k)) by lia. unfold ldexp, canon, SFldexp, binary_normalize.
  replace (k - _) with (52 - Z.log2 v) by lia. rewrite <- canon_mantissa by lia. done.
Qed.

Lemma double_big v : 0 <= v < 2 ^ 53 -> SFltb (double v 0) big = true.
Proof.
  intros Hv. unfold double. case_bool_decide; [done|]. pose proof (log2_53 v ltac:(lia)).
  unfold canon, big, SFltb, SFcompare. by rewrite (proj2 (Z.compare_lt_iff _ _)) by lia.
Qed.

Lemma double_denotes v k : 0 <= v < 2 ^ 53 -> 0 <= k -> denotes (double v k) (v * 2 ^ k).
Proof.
  intros Hv Hk. unfold double. case_bool_decide; [by subst|]. pose proof (log2_53 v ltac:(lia)).
  unfold canon, denotes. rewrite canon_mantissa by lia. case_bool_decide as He.
  - rewrite <- Z.mul_assoc, <- Z.pow_add_r by lia. do 2 f_equal. lia.
  - rewrite <- Z.mul_assoc, <- Z.pow_add_r by lia. do 2 f_equal. lia.
Qed.

Lemma opp_denotes x n : denotes x n -> denotes (SFopp x) (- n).
Proof. destruct x as [s|s| |s m e]; simpl; try done; [lia|]. destruct s; simpl; case_bool_decide; nia. Qed.

(** ** What [atof] reads *)

(** The character a string starts with, or its terminator. *)
Definition next_char (l : list Z) : Z := match l with [] => 0 | c :: _ => schar c end.

Lemma getc_run m p l : cstr m p l -> getc p m = Ret (next_char l) m.
Proof. intros H. unfold getc. destruct l as [|c l]; simpl in H; [|destruct H as (_ & H & _)]; by read_at H. Qed.

Lemma schar_low c : 0 <= c < 128 -> schar c = c.
Proof. intros H. unfold schar. by rewrite bool_decide_eq_true_2 by lia. Qed.

Lemma no_digit_next l m p : cstr m p l -> no_digit l -> txc_libc_isdigit (next_char l) = false.
Proof.
  intros Hl Hd. apply bool_decide_eq_false_2. destruct l as [|c l]; simpl in *; [lia|]. unfold schar. case_bool_decide; lia.
Qed.

Lemma digit_next d l : 0 <= d < 10 -> txc_libc_isdigit (next_char (48 + d :: l)) = true /\ next_char (48 + d :: l) - 48 = d.
Proof.
  intros Hd. simpl. rewrite schar_low by lia. split; [|lia]. apply bool_decide_eq_true_2. lia.
Qed.

Lemma int_ok_run n m : - 2 ^ 31 <= n < 2 ^ 31 -> int_ok n m = Ret n m.
Proof. intros H. unfold int_ok. by rewrite bool_decide_eq_true_2. Qed.

(** A digit more. *)
Lemma digit_step v d : 0 <= v -> 0 <= d < 10 -> 10 * v + d < 2 ^ 53 ->
  fadd (fmul (of_int 10) (double v 0)) (of_int d) = double (10 * v + d) 0.
Proof. intros Hv Hd Hb. rewrite !of_int_double by lia. rewrite fmul_double by lia. by apply fadd_double; lia. Qed.

(** Two tuples, part by part. *)
Ltac tuple_lia := repeat match goal with |- (_, _) = (_, _) => apply (f_equal2 pair) end; try reflexivity; lia.

Definition is_digits (ds : list Z) : Prop := Forall (fun d => 0 <= d < 10) ds.

Lemma digits_run fuel p v e nd ds rest m :
  0 <= v -> 0 <= nd -> cstr m p (map (Z.add 48) ds ++ rest) -> is_digits ds -> no_digit rest -> (length ds < fuel)%nat ->
  digits_value v ds < 2 ^ 53 -> nd + Z.of_nat (length ds) < 2 ^ 31 ->
  m_loop fuel atof_digits (p, double v 0, e, nd) m =
  Ret (next_char rest, p + Z.of_nat (length ds) + 1, double (digits_value v ds) 0, e, nd + Z.of_nat (length ds)) m.
Proof.
  intros Hv Hnd Hl Hds Hr Hf Hb Hn. revert p v nd ds Hv Hnd Hl Hds Hf Hb Hn.
  induction fuel as [|fuel IH]; intros p v nd ds Hv Hnd Hl Hds Hf Hb Hn; [lia|].
  rewrite m_loop_S. unfold atof_digits at 1. rewrite !m_bind_assoc, (m_bind_run _ _ _ _ _ (getc_run _ _ _ Hl)).
  destruct Hds as [|d ds Hd Hds]; simpl map in *; simpl app in *.
  - rewrite (no_digit_next _ _ _ Hl Hr). unfold m_bind, m_ret. simpl. by rewrite ?Z.sub_0_r, ?Z.add_0_r.
  - destruct (digit_next d (map (Z.add 48) ds ++ rest) Hd) as [-> ->]. destruct Hl as (_ & _ & Hl).
    change (digits_value v (d :: ds)) with (digits_value (10 * v + d) ds) in *.
    pose proof (digits_value_ge (10 * v + d) ds ltac:(lia) Hds). simpl length in *.
    rewrite double_big by lia. rewrite m_bind_assoc, (m_bind_run _ _ _ _ _ (int_ok_run (nd + 1) m ltac:(lia))), digit_step by lia.
    unfold m_bind at 1, m_ret at 1. rewrite (IH (p + 1) (10 * v + d) (nd + 1) ds) by (try done; lia).
    f_equal. tuple_lia.
Qed.

Lemma fraction_run fuel p v e nd ds rest m :
  0 <= v -> 0 <= nd -> - 2 ^ 31 <= e - Z.of_nat (length ds) -> e <= 0 -> cstr m p (map (Z.add 48) ds ++ rest) -> is_digits ds ->
  no_digit rest -> (length ds < fuel)%nat -> digits_value v ds < 2 ^ 53 -> nd + Z.of_nat (length ds) < 2 ^ 31 ->
  m_loop fuel atof_fraction (p, double v 0, e, nd) m =
  Ret (next_char rest, p + Z.of_nat (length ds) + 1, double (digits_value v ds) 0, e - Z.of_nat (length ds), nd + Z.of_nat (length ds)) m.
Proof.
  intros Hv Hnd He1 He2 Hl Hds Hr Hf Hb Hn. revert p v e nd ds Hv Hnd He1 He2 Hl Hds Hf Hb Hn.
  induction fuel as [|fuel IH]; intros p v e nd ds Hv Hnd He1 He2 Hl Hds Hf Hb Hn; [lia|].
  rewrite m_loop_S. unfold atof_fraction at 1. rewrite !m_bind_assoc, (m_bind_run _ _ _ _ _ (getc_run _ _ _ Hl)).
  destruct Hds as [|d ds Hd Hds]; simpl map in *; simpl app in *.
  - rewrite (no_digit_next _ _ _ Hl Hr). unfold m_bind, m_ret. simpl. by rewrite ?Z.sub_0_r, ?Z.add_0_r.
  - destruct (digit_next d (map (Z.add 48) ds ++ rest) Hd) as [-> ->]. destruct Hl as (_ & _ & Hl).
    change (digits_value v (d :: ds)) with (digits_value (10 * v + d) ds) in *.
    pose proof (digits_value_ge (10 * v + d) ds ltac:(lia) Hds). simpl length in *.
    rewrite double_big by lia. rewrite m_bind_assoc, (m_bind_run _ _ _ _ _ (int_ok_run (e - 1) m ltac:(lia))).
    rewrite m_bind_assoc, (m_bind_run _ _ _ _ _ (int_ok_run (nd + 1) m ltac:(lia))), digit_step by lia.
    unfold m_bind at 1, m_ret at 1. rewrite (IH (p + 1) (10 * v + d) (e - 1) (nd + 1) ds) by (try done; lia).
    f_equal. tuple_lia.
Qed.

Lemma eexp_run fuel p v ds rest m :
  0 <= v -> cstr m p (map (Z.add 48) ds ++ rest) -> is_digits ds -> no_digit rest -> (length ds < fuel)%nat ->
  digits_value v ds < 2 ^ 31 -> m_loop fuel atof_eexp (p, v) m = Ret (digits_value v ds) m.
Proof.
  intros Hv Hl Hds Hr Hf Hb. revert p v ds Hv Hl Hds Hf Hb.
  induction fuel as [|fuel IH]; intros p v ds Hv Hl Hds Hf Hb; [lia|].
  rewrite m_loop_S. unfold atof_eexp at 1. rewrite !m_bind_assoc, (m_bind_run _ _ _ _ _ (getc_run _ _ _ Hl)).
  destruct Hds as [|d ds Hd Hds]; simpl map in *; simpl app in *.
  - by rewrite (no_digit_next _ _ _ Hl Hr).
  - destruct (digit_next d (map (Z.add 48) ds ++ rest) Hd) as [-> ->]. destruct Hl as (_ & _ & Hl).
    change (digits_value v (d :: ds)) with (digits_value (10 * v + d) ds) in *.
    pose proof (digits_value_ge (10 * v + d) ds ltac:(lia) Hds). simpl length in *.
    rewrite m_bind_assoc, (m_bind_run _ _ _ _ _ (int_ok_run (10 * v) m ltac:(lia))).
    rewrite m_bind_assoc, (m_bind_run _ _ _ _ _ (int_ok_run (10 * v + d) m ltac:(lia))).
    unfold m_bind at 1, m_ret at 1. apply IH; try done; lia.
Qed.

Lemma power_run fuel f q n (m : cmem) : 1 <= f -> 1 <= q -> 0 <= n < 2 ^ Z.of_nat fuel -> (0 < fuel)%nat -> f * q ^ n < 2 ^ 53 -> q < 2 ^ 53 ->
  m_loop fuel atof_power (double f 0, double q 0, n) m = Ret (double (f * q ^ n) 0) m.
Proof.
  revert f q n. induction fuel as [|fuel IH]; intros f q n Hf Hq Hn Hfuel Hb Hq'; [lia|].
  rewrite m_loop_S. unfold atof_power at 1. unfold m_bind at 1, m_ret at 1.
  assert (n = 2 * (n / 2) + n mod 2 /\ 0 <= n / 2 /\ 0 <= n mod 2 < 2) as (Hn2 & Hd & Hm) by (Z.div_mod_to_equations; lia).
  change (Z.land n 1) with (Z.land n (Z.ones 1)). rewrite Z.land_ones, Z.shiftr_div_pow2 by lia. change (2 ^ 1) with 2.
  assert (forall x y, 1 <= x -> 0 <= y -> 1 <= x ^ y) as Hpow by (intros x y Hx Hy; pose proof (Z.pow_pos_nonneg x y); lia).
  set (f' := if bool_decide (n mod 2 <> 0) then f * q else f).
  assert (f' = f * q ^ (n mod 2)) as Hf'.
  { unfold f'. destruct (decide (n mod 2 = 0)) as [E|E]; [rewrite E, bool_decide_eq_false_2 by lia; lia|].
    rewrite bool_decide_eq_true_2 by lia. replace (n mod 2) with 1 by lia. lia. }
  assert (f * q ^ n = f' * (q * q) ^ (n / 2)) as Hsplit.
  { rewrite Hf', Z.pow_mul_l, <- Z.mul_assoc, <- !Z.pow_add_r by lia. do 2 f_equal. lia. }
  pose proof (Hpow (q * q) (n / 2) ltac:(nia) Hd) as Hp1. pose proof (Hpow q (n mod 2) Hq ltac:(lia)) as Hp2.
  assert (1 <= f' < 2 ^ 53) as Hfb by nia.
  assert ((if bool_decide (n mod 2 <> 0) then fmul (double f 0) (double q 0) else double f 0) = double f' 0) as ->.
  { unfold f'. case_bool_decide; [|done]. apply fmul_double; nia. }
  case_bool_decide as E.
  - rewrite Hsplit, E, Z.pow_0_r, Z.mul_1_r. done.
  - assert (q * q < 2 ^ 53) as Hqq.
    { assert (q * q * 1 <= (q * q) ^ (n / 2)); [|nia]. replace (n / 2) with (1 + (n / 2 - 1)) by lia.
      rewrite Z.pow_add_r, Z.pow_1_r by lia. pose proof (Hpow (q * q) (n / 2 - 1) ltac:(nia) ltac:(lia)). nia. }
    rewrite fmul_double by nia. destruct fuel as [|fuel]; [simpl in Hn; Z.div_mod_to_equations; lia|].
    rewrite Hsplit. apply IH; try nia. rewrite Nat2Z.inj_succ, Z.pow_succ_r in Hn by lia. lia.
Qed.

(** *** The text of a number

    Blanks, a sign, digits, a fraction, an exponent, and what follows. *)

Record number_text := NumberText {
  t_blanks : nat;
  t_sign : option bool;
  t_digits : list Z;
  t_fraction : option (list Z);
  t_exponent : option (Z * option bool * list Z);
  t_rest : list Z;
}.

Definition digit_chars (ds : list Z) : list Z := map (Z.add 48) ds.
Definition fraction_chars (fr : option (list Z)) : list Z := match fr with Some fs => 46 :: digit_chars fs | None => [] end.
Definition exponent_chars (ex : option (Z * option bool * list Z)) : list Z :=
  match ex with Some (c, sg, es) => c :: sign_chars sg ++ digit_chars es | None => [] end.
Definition number_chars (t : number_text) : list Z :=
  replicate (t_blanks t) 32 ++ sign_chars (t_sign t) ++ digit_chars (t_digits t) ++ fraction_chars (t_fraction t) ++
  exponent_chars (t_exponent t) ++ t_rest t.

Definition fraction_digits (t : number_text) : list Z := default [] (t_fraction t).
Definition exponent_digits (t : number_text) : list Z := match t_exponent t with Some (_, _, es) => es | None => [] end.
Definition exponent_of (t : number_text) : Z :=
  match t_exponent t with Some (_, sg, es) => with_sign sg (digits_value 0 es) | None => 0 end.

(** All its digits, and the power of ten they are multiplied by. *)
Definition mantissa_of (t : number_text) : Z := digits_value (digits_value 0 (t_digits t)) (fraction_digits t).
Definition power_of (t : number_text) : Z := exponent_of t - Z.of_nat (length (fraction_digits t)).

Record number_ok (t : number_text) : Prop := {
  ok_digits : is_digits (t_digits t) /\ t_digits t <> [];
  ok_fraction : is_digits (fraction_digits t);
  ok_exponent : match t_exponent t with Some (c, _, es) => (c = 69 \/ c = 101) /\ is_digits es /\ es <> [] | None => True end;
  ok_rest : no_digit (t_rest t);
  ok_end : t_exponent t = None -> next_char (t_rest t) <> 69 /\ next_char (t_rest t) <> 101 /\ (t_fraction t = None -> next_char (t_rest t) <> 46);
  ok_size : digits_value 0 (exponent_digits t) < 2 ^ 30;
  ok_length : Z.of_nat (length (number_chars t)) < 2 ^ 30;
}.

Lemma blanks_run fuel p n l m : cstr m p (replicate n 32 ++ l) -> next_char l <> 32 -> (n < fuel)%nat ->
  m_loop fuel atof_blanks p m = Ret (next_char l, p + Z.of_nat n + 1) m.
Proof.
  intros Hl Hne Hf. revert p n Hl Hf. induction fuel as [|fuel IH]; intros p n Hl Hf; [lia|].
  rewrite m_loop_S. unfold atof_blanks at 1. rewrite m_bind_assoc, (m_bind_run _ _ _ _ _ (getc_run _ _ _ Hl)).
  destruct n as [|n]; simpl in *.
  - rewrite bool_decide_eq_false_2 by done. unfold m_bind, m_ret. by rewrite Z.add_0_r.
  - destruct Hl as (_ & _ & Hl). unfold m_bind, m_ret. rewrite (IH (p + 1) n Hl) by lia.
    f_equal. tuple_lia.
Qed.

(** A sign, then digits: the sign is read and the next character is a digit. *)
Lemma sign_next sg ds l : is_digits ds -> ds <> [] ->
  next_char (sign_chars sg ++ digit_chars ds ++ l) <> 32 /\
  forall p, atof_sign (next_char (sign_chars sg ++ digit_chars ds ++ l)) (p + 1) =
    (bool_decide (sg = Some true), p + Z.of_nat (length (sign_chars sg))).
Proof.
  intros Hds Hne. destruct Hds as [|d ds Hd _]; [done|]. unfold atof_sign. destruct sg as [[]|]; simpl.
  - done.
  - done.
  - rewrite schar_low by lia. split; [lia|]. intros p. rewrite !bool_decide_eq_false_2 by lia. f_equal. lia.
Qed.

Lemma exponent_run fuel p e t m :
  number_ok t -> cstr m p (exponent_chars (t_exponent t) ++ t_rest t) -> (length (exponent_digits t) < fuel)%nat ->
  - 2 ^ 30 <= e <= 0 ->
  atof_exponent fuel (next_char (exponent_chars (t_exponent t) ++ t_rest t)) (p + 1) e m = Ret (e + exponent_of t) m.
Proof.
  intros [_ _ Hx Hr He Hs _] Hl Hf Hb. unfold atof_exponent, exponent_of, exponent_digits in *. destruct (t_exponent t) as [[[c sg] es]|].
  - destruct Hx as (Hc & Hes & Hne). cbn [exponent_chars app next_char] in *. rewrite (schar_low c) by lia.
    rewrite (bool_decide_eq_true_2 (c = 69 \/ c = 101)) by done. destruct Hl as (_ & _ & Hl). rewrite <- app_assoc in Hl.
    rewrite (m_bind_run _ _ _ _ _ (getc_run _ _ _ Hl)).
    set (l := sign_chars sg ++ digit_chars es ++ t_rest t) in *.
    assert ((if bool_decide (next_char l = 43) then (false, p + 1 + 1) else
             if bool_decide (next_char l = 45) then (true, p + 1 + 1) else (false, p + 1 + 1 - 1)) =
            (bool_decide (sg = Some true), p + 1 + Z.of_nat (length (sign_chars sg)))) as ->.
    { destruct Hes as [|d es Hd _]; [done|]. unfold l. destruct sg as [[]|]; [done..|]. cbn [sign_chars digit_chars map app next_char].
      rewrite schar_low by lia. rewrite !bool_decide_eq_false_2 by (lia || done). f_equal. simpl. lia. }
    apply cstr_app in Hl. pose proof (digits_value_ge 0 es ltac:(lia) Hes).
    rewrite (m_bind_run _ _ _ _ _ (eexp_run fuel _ 0 es (t_rest t) m ltac:(lia) Hl Hes Hr Hf ltac:(lia))).
    destruct sg as [[]|]; simpl; apply int_ok_run; lia.
  - destruct (He eq_refl) as (H1 & H2 & _). simpl. rewrite bool_decide_eq_false_2 by lia. by rewrite Z.add_0_r.
Qed.

Lemma digit_chars_length ds : length (digit_chars ds) = length ds.
Proof. apply length_map. Qed.

(** What is left when the text is read: the number and its scale. *)
Lemma atof_read fuel p t m :
  number_ok t -> cstr m p (number_chars t) -> (length (number_chars t) < fuel)%nat -> mantissa_of t < 2 ^ 53 ->
  txc_libc_atof fuel p m =
  (do fl <- atof_scale (double (mantissa_of t) 0) (power_of t) (Z.of_nat (length (t_digits t) + length (fraction_digits t))) ;;
   m_ret (if bool_decide (t_sign t = Some true) then SFopp fl else fl)) m.
Proof.
  intros Hok Hl Hf Hv. pose proof Hok as [[Hds Hne] Hfs Hx Hr He Hs Hlen]. unfold number_chars in *.
  rewrite !length_app, length_replicate, digit_chars_length in Hf, Hlen. unfold txc_libc_atof, mantissa_of, power_of in *.
  destruct (sign_next (t_sign t) (t_digits t) (fraction_chars (t_fraction t) ++ exponent_chars (t_exponent t) ++ t_rest t) Hds Hne) as [Hn Hsg].
  rewrite (m_bind_run _ _ _ _ _ (blanks_run fuel p _ _ m Hl Hn ltac:(lia))). cbv beta iota. rewrite Hsg. cbv iota.
  apply cstr_app in Hl. rewrite length_replicate in Hl. apply cstr_app in Hl.
  pose proof (digits_value_ge 0 _ ltac:(lia) Hds) as Hge. pose proof (digits_value_ge _ _ Hge Hfs) as Hge2.
  set (rest := exponent_chars (t_exponent t) ++ t_rest t) in *.
  assert (no_digit rest) as Hnd by (unfold rest; destruct (t_exponent t) as [[[c sg] es]|]; [simpl; lia|done]).
  assert (no_digit (fraction_chars (t_fraction t) ++ rest)) as Hnd2 by (destruct (t_fraction t); [simpl; lia|done]).
  change (of_int 0) with (double 0 0).
  assert (digits_value 0 (t_digits t) < 2 ^ 53) as Hv1 by lia.
  assert (length (t_digits t) < fuel)%nat as Hf1 by (clear -Hf; lia).
  rewrite (m_bind_run _ _ _ _ _ (digits_run fuel _ 0 0 0 (t_digits t) _ m (Z.le_refl 0) (Z.le_refl 0) Hl Hds Hnd2 Hf1 Hv1 ltac:(lia))).
  cbv beta iota. apply cstr_app in Hl. rewrite digit_chars_length in Hl. rewrite Z.add_0_l.
  set (q := p + _ + _ + _) in *. set (v := digits_value 0 (t_digits t)) in *.
  assert (length (exponent_digits t) <= length (exponent_chars (t_exponent t)))%nat as Hle.
  { unfold exponent_digits. destruct (t_exponent t) as [[[c sg] es]|]; simpl; [|lia]. rewrite length_app, digit_chars_length. lia. }
  unfold fraction_digits in *. destruct (t_fraction t) as [fs|] eqn:Ef; cbn [fraction_chars default] in *.
  - change (next_char ((46 :: digit_chars fs) ++ rest)) with 46. rewrite bool_decide_eq_true_2 by done.
    destruct Hl as (_ & _ & Hl). simpl length in *. rewrite digit_chars_length in *.
    rewrite (m_bind_run _ _ _ _ _ (fraction_run fuel _ v 0 (Z.of_nat (length (t_digits t))) fs _ m Hge ltac:(lia) ltac:(lia) ltac:(lia) Hl Hfs Hnd ltac:(lia) Hv ltac:(lia))).
    cbv beta iota. apply cstr_app in Hl. fold (digit_chars fs) in Hl. rewrite digit_chars_length in Hl.
    rewrite (m_bind_run _ _ _ _ _ (exponent_run fuel _ (0 - Z.of_nat (length fs)) t m Hok Hl ltac:(lia) ltac:(lia))).
    rewrite Nat2Z.inj_add. by replace (0 - Z.of_nat (length fs) + exponent_of t) with (exponent_of t - Z.of_nat (length fs)) by lia.
  - change ([] ++ rest) with rest in *.
    assert (next_char rest <> 46) as Hp.
    { unfold rest. destruct (t_exponent t) as [[[c sg] es]|]; [|by apply He]. cbn [exponent_chars app next_char]. rewrite schar_low; lia. }
    rewrite bool_decide_eq_false_2 by done. unfold m_bind at 1, m_ret at 1.
    rewrite (m_bind_run _ _ _ _ _ (exponent_run fuel _ 0 t m Hok Hl ltac:(lia) ltac:(lia))).
    simpl length. change (digits_value v []) with v. change (Z.of_nat 0) with 0. by rewrite Nat.add_0_r, Z.sub_0_r, Z.add_0_l.
Qed.

(** The number of digits read. *)
Definition digits_of (t : number_text) : Z := Z.of_nat (length (t_digits t) + length (fraction_digits t)).

Lemma digits_of_bound t : number_ok t -> 0 <= digits_of t < 2 ^ 30.
Proof.
  intros [_ _ _ _ _ _ Hlen]. unfold digits_of, fraction_digits, number_chars in *. rewrite !length_app, digit_chars_length in Hlen.
  destruct (t_fraction t); cbn [fraction_chars default] in *; simpl length in *; rewrite ?digit_chars_length in Hlen; lia.
Qed.

Lemma power_of_bound t : number_ok t -> - 2 ^ 30 - 2 ^ 30 < power_of t < 2 ^ 30.
Proof.
  intros Hok. pose proof Hok as [_ _ Hx _ _ Hs Hlen]. pose proof (digits_of_bound t Hok) as Hn.
  unfold digits_of, power_of, exponent_of, exponent_digits in *. destruct (t_exponent t) as [[[c sg] es]|]; [|lia].
  destruct Hx as (_ & Hes & _). pose proof (digits_value_ge 0 es ltac:(lia) Hes). destruct sg as [[]|]; simpl; lia.
Qed.

(** A power of ten up to 22: no operation rounds. *)
Lemma scale_exact v k nd m : 0 <= v -> 0 <= k <= 22 -> v * 5 ^ k < 2 ^ 53 -> 0 <= nd < 2 ^ 30 ->
  atof_scale (double v 0) k nd m = Ret (double (v * 5 ^ k) k) m.
Proof.
  intros Hv Hk Hb Hnd. assert (1 <= 5 ^ k <= 5 ^ 22) as H5 by (split; [pose proof (Z.pow_pos_nonneg 5 k); lia|apply Z.pow_le_mono_r; lia]).
  change (5 ^ 22) with 2384185791015625 in H5. change (2 ^ 53) with 9007199254740992 in *.
  assert (v < 9007199254740992) as Hv1 by nia. change (2 ^ 30) with 1073741824 in Hnd.
  unfold atof_scale. rewrite (bool_decide_eq_false_2 (k < 0)) by lia. unfold m_bind at 1, m_ret at 1.
  rewrite (m_bind_run _ _ _ _ _ (int_ok_run (nd + k * 1) m ltac:(lia))). unfold LOGHUGE.
  rewrite bool_decide_eq_false_2 by lia. cbv beta iota. change (of_int 1) with (double 1 0). change (of_int 5) with (double 5 0).
  rewrite (m_bind_run _ _ _ _ _ (power_run 32 1 5 k m ltac:(lia) ltac:(lia) ltac:(lia) ltac:(lia) ltac:(lia) ltac:(lia))).
  rewrite bool_decide_eq_false_2 by lia. rewrite !Z.mul_1_l, fmul_double, ldexp_double by lia. done.
Qed.

(** A number with no digit in the first 39 places after the point is taken for zero. *)
Lemma scale_flush fl k nd (m : cmem) : 0 <= nd < 2 ^ 30 -> - 2 ^ 31 < k -> nd + k < - LOGHUGE -> atof_scale fl k nd m = Ret (S754_zero false) m.
Proof.
  intros Hnd Hk Hx. unfold LOGHUGE in *. change (2 ^ 30) with 1073741824 in Hnd. unfold atof_scale.
  rewrite (bool_decide_eq_true_2 (k < 0)) by lia. rewrite (m_bind_run _ _ _ _ _ (int_ok_run (- k) m ltac:(lia))).
  rewrite (m_bind_run _ _ _ _ _ (int_ok_run (nd + - k * -1) m ltac:(lia))). unfold LOGHUGE. by rewrite bool_decide_eq_true_2 by lia.
Qed.

(** ** Properties *)

(** C33: A number whose digits, with a power of ten between 0 and 22 after the digits of its
    fraction are counted off, is read exactly, with its sign, if its product with the power
    of five has at most 53 bits: blanks, the point and the exponent are understood and no
    operation rounds. *)
Theorem atof_exact fuel p t m :
  number_ok t -> cstr m p (number_chars t) -> (length (number_chars t) < fuel)%nat ->
  0 <= power_of t <= 22 -> mantissa_of t * 5 ^ power_of t < 2 ^ 53 ->
  exists x, txc_libc_atof fuel p m = Ret x m /\ denotes x (with_sign (t_sign t) (mantissa_of t * 10 ^ power_of t)).
Proof.
  intros Hok Hl Hf Hk Hb. assert (0 <= mantissa_of t) as Hv0.
  { pose proof Hok as [[Hds _] Hfs _ _ _ _ _]. pose proof (digits_value_ge 0 _ ltac:(lia) Hds) as Hge.
    pose proof (digits_value_ge _ _ Hge Hfs). unfold mantissa_of. lia. }
  pose proof (digits_of_bound t Hok) as Hnd. set (v := mantissa_of t) in *. set (k := power_of t) in *.
  assert (v < 2 ^ 53) as Hv by (pose proof (Z.pow_pos_nonneg 5 k); nia).
  rewrite (atof_read fuel p t m Hok Hl Hf Hv), (m_bind_run _ _ _ _ _ (scale_exact v k (digits_of t) m Hv0 Hk Hb Hnd)).
  eexists. split; [done|]. assert (denotes (double (v * 5 ^ k) k) (v * 10 ^ k)) as Hd.
  { replace (v * 10 ^ k) with (v * 5 ^ k * 2 ^ k); [apply double_denotes; pose proof (Z.pow_pos_nonneg 5 k); nia|].
    change 10 with (5 * 2). rewrite Z.pow_mul_l. lia. }
  destruct (t_sign t) as [[]|]; simpl; [by apply opp_denotes|done..].
Qed.

(** A number is read as zero, with its sign, when the digits it has and its power of ten
    add up to less than -39, though a [double] goes down to 10^-308: [LOGHUGE] is that of
    another machine. *)
Theorem atof_flushes fuel p t m :
  number_ok t -> cstr m p (number_chars t) -> (length (number_chars t) < fuel)%nat -> mantissa_of t < 2 ^ 53 ->
  digits_of t + power_of t < - LOGHUGE ->
  txc_libc_atof fuel p m = Ret (S754_zero (bool_decide (t_sign t = Some true))) m.
Proof.
  intros Hok Hl Hf Hv Hx. pose proof (power_of_bound t Hok). pose proof (digits_of_bound t Hok) as Hnd.
  rewrite (atof_read fuel p t m Hok Hl Hf Hv), (m_bind_run _ _ _ _ _ (scale_flush _ (power_of t) (digits_of t) m Hnd ltac:(lia) Hx)).
  by destruct (t_sign t) as [[]|].
Qed.

(** *** Texts in memory *)

(** " -12.5e3;", which is -12500. *)
Definition t_number : number_text := NumberText 1 (Some true) [1; 2] (Some [5]) (Some (101, None, [3])) [59].
(** "-1E-41", a [double] that is not zero. *)
Definition t_tiny : number_text := NumberText 0 (Some true) [1] None (Some (69, Some true, [4; 1])) [].
Definition m_text (l : list Z) : cmem := put_bytes 0 (l ++ [0]) ∅.

Lemma t_number_ok : number_ok t_number.
Proof. split; simpl; repeat split; try done; try lia; repeat constructor; lia. Qed.

Lemma t_tiny_ok : number_ok t_tiny.
Proof. split; simpl; repeat split; try done; try lia; repeat constructor; lia. Qed.

Lemma atof_exact_witness : exists x,
  txc_libc_atof 20 0 (m_text (number_chars t_number)) = Ret x (m_text (number_chars t_number)) /\ denotes x (-12500).
Proof.
  apply (atof_exact 20 0 t_number (m_text (number_chars t_number))).
  - exact t_number_ok.
  - vm_compute. repeat split.
  - simpl. lia.
  - split; discriminate.
  - reflexivity.
Defined.

Lemma atof_flushes_witness :
  txc_libc_atof 20 0 (m_text (number_chars t_tiny)) = Ret (S754_zero true) (m_text (number_chars t_tiny)).
Proof.
  apply (atof_flushes 20 0 t_tiny (m_text (number_chars t_tiny))).
  - exact t_tiny_ok.
  - vm_compute. repeat split.
  - simpl. lia.
  - reflexivity.
  - reflexivity.
Defined.

(** "0e500" is zero times infinity, which is not a number. *)
Remark atof_zero_is_nan :
  let m := m_text [48; 101; 53; 48; 48] in txc_libc_atof 20 0 m = Ret S754_nan m.
Proof. vm_compute. reflexivity. Qed.
