(* ===== verification/Config.v ===== *)
(** * Run-time configuration ([core/config.c], [core/config.h])

    The settings, the table of the options, the parser of [txc.ini], the
    environment and [txc_config_set_option]. The file is its contents; strings are
    lists of characters without the terminator. A warning is printed by a debug
    build only and is not modelled; an error ends the program.

    The theorems: the integers stay in their range whatever the file and the
    environment say; the file ends or the program does; the printed settings are
    read back; the environment has the last word; an empty line is fatal. *)

From Stdlib Require Export Ascii.
From Stdlib Require Import String.
From S2P Require Import Prelude.

Definition lit (s : string) : list ascii := String.list_ascii_of_string s.
Arguments lit s%_string.

(** ** Settings *)

Record txc_runtime_settings_t := RuntimeSettings {
  debug_all : bool;
  debug_koa : bool;
  debug_pool : bool;
  debug_sentinel : bool;
  debug_tx : bool;
  debug_xcall : bool;
  printconf : bool;
  statistics : bool;
  statistics_file : list ascii;
  max_spin_retries : Z;
  max_backoff_time : Z;
}.

(** [DEFVALUES] *)
Definition txc_runtime_settings : txc_runtime_settings_t :=
  RuntimeSettings false false false false false false false true (lit "txc.stats") 0 0.

(** An option's [type], [value_ptr] and [validvalues_ptr]; [num_validvalues] is the
    length of the last. *)
Inductive option_value :=
  | IntOption (get : txc_runtime_settings_t -> Z) (set : Z -> txc_runtime_settings_t -> txc_runtime_settings_t) (valid : list Z)
  | StringOption (get : txc_runtime_settings_t -> list ascii)
      (set : list ascii -> txc_runtime_settings_t -> txc_runtime_settings_t) (valid : list (list ascii))
  | BoolOption (get : txc_runtime_settings_t -> bool)
      (set : bool -> txc_runtime_settings_t -> txc_runtime_settings_t) (valid : list (list ascii)).

Record option_t := Option { name : list ascii; value : option_value }.

Definition set_debug_all v s := RuntimeSettings v (debug_koa s) (debug_pool s) (debug_sentinel s) (debug_tx s)
  (debug_xcall s) (printconf s) (statistics s) (statistics_file s) (max_spin_retries s) (max_backoff_time s).
Definition set_debug_koa v s := RuntimeSettings (debug_all s) v (debug_pool s) (debug_sentinel s) (debug_tx s)
  (debug_xcall s) (printconf s) (statistics s) (statistics_file s) (max_spin_retries s) (max_backoff_time s).
Definition set_debug_pool v s := RuntimeSettings (debug_all s) (debug_koa s) v (debug_sentinel s) (debug_tx s)
  (debug_xcall s) (printconf s) (statistics s) (statistics_file s) (max_spin_retries s) (max_backoff_time s).
Definition set_debug_sentinel v s := RuntimeSettings (debug_all s) (debug_koa s) (debug_pool s) v (debug_tx s)
  (debug_xcall s) (printconf s) (statistics s) (statistics_file s) (max_spin_retries s) (max_backoff_time s).
Definition set_debug_tx v s := RuntimeSettings (debug_all s) (debug_koa s) (debug_pool s) (debug_sentinel s) v
  (debug_xcall s) (printconf s) (statistics s) (statistics_file s) (max_spin_retries s) (max_backoff_time s).
Definition set_debug_xcall v s := RuntimeSettings (debug_all s) (debug_koa s) (debug_pool s) (debug_sentinel s) (debug_tx s)
  v (printconf s) (statistics s) (statistics_file s) (max_spin_retries s) (max_backoff_time s).
Definition set_printconf v s := RuntimeSettings (debug_all s) (debug_koa s) (debug_pool s) (debug_sentinel s) (debug_tx s)
  (debug_xcall s) v (statistics s) (statistics_file s) (max_spin_retries s) (max_backoff_time s).
Definition set_statistics v s := RuntimeSettings (debug_all s) (debug_koa s) (debug_pool s) (debug_sentinel s) (debug_tx s)
  (debug_xcall s) (printconf s) v (statistics_file s) (max_spin_retries s) (max_backoff_time s).
Definition set_statistics_file v s := RuntimeSettings (debug_all s) (debug_koa s) (debug_pool s) (debug_sentinel s) (debug_tx s)
  (debug_xcall s) (printconf s) (statistics s) v (max_spin_retries s) (max_backoff_time s).
Definition set_max_spin_retries v s := RuntimeSettings (debug_all s) (debug_koa s) (debug_pool s) (debug_sentinel s) (debug_tx s)
  (debug_xcall s) (printconf s) (statistics s) (statistics_file s) v (max_backoff_time s).
Definition set_max_backoff_time v s := RuntimeSettings (debug_all s) (debug_koa s) (debug_pool s) (debug_sentinel s) (debug_tx s)
  (debug_xcall s) (printconf s) (statistics s) (statistics_file s) (max_spin_retries s) v.

Definition on_off : list (list ascii) := [lit "enable"; lit "disable"].

(** [FOREACH_RUNTIME_CONFIG_OPTION(CONFIG_OPTION_KEY)] *)
Definition options : list option_t := [
  Option (lit "debug_all") (BoolOption debug_all set_debug_all on_off);
  Option (lit "debug_koa") (BoolOption debug_koa set_debug_koa on_off);
  Option (lit "debug_pool") (BoolOption debug_pool set_debug_pool on_off);
  Option (lit "debug_sentinel") (BoolOption debug_sentinel set_debug_sentinel on_off);
  Option (lit "debug_tx") (BoolOption debug_tx set_debug_tx on_off);
  Option (lit "debug_xcall") (BoolOption debug_xcall set_debug_xcall on_off);
  Option (lit "printconf") (BoolOption printconf set_printconf on_off);
  Option (lit "statistics") (BoolOption statistics set_statistics on_off);
  Option (lit "statistics_file") (StringOption statistics_file set_statistics_file []);
  Option (lit "sentinel_max_spin_retries") (IntOption max_spin_retries set_max_spin_retries [0; 1000]);
  Option (lit "sentinel_max_backoff_time") (IntOption max_backoff_time set_max_backoff_time [0; 1000])
].
Arguments options : simpl never.

(** ** The C library *)

Fixpoint take_while (f : ascii -> bool) (l : list ascii) : list ascii :=
  match l with
  | c :: l => if f c then c :: take_while f l else []
  | [] => []
  end.
Fixpoint drop_while (f : ascii -> bool) (l : list ascii) : list ascii :=
  match l with
  | c :: l' => if f c then drop_while f l' else l
  | [] => []
  end.

Definition is_char (x c : ascii) : bool := Ascii.eqb x c.
Arguments is_char : simpl never.
Definition newline : ascii := "010".
Definition tab : ascii := "009".
Definition nul : ascii := "000".
Arguments newline : simpl never.
Arguments tab : simpl never.
Arguments nul : simpl never.

(** The string in a buffer ends at the first zero byte. *)
Definition c_string (buf : list ascii) : list ascii := take_while (fun c => negb (is_char nul c)) buf.

(** [strtok] with one delimiter: the token, and what is left. *)
Definition strtok (delim : ascii) (s : list ascii) : option (list ascii * list ascii) :=
  match drop_while (is_char delim) s with
  | [] => None
  | s => Some (take_while (fun c => negb (is_char delim c)) s, drop 1 (drop_while (fun c => negb (is_char delim c)) s))
  end.

(** The characters [fgets] reads into a buffer for [n], and the rest of the file. *)
Fixpoint fgets (n : nat) (file : list ascii) : list ascii * list ascii :=
  match n, file with
  | S n, c :: file =>
      if is_char newline c then ([c], file)
      else let '(line, rest) := fgets n file in (c :: line, rest)
  | _, _ => ([], file)
  end.

Definition isspace (c : ascii) : bool :=
  is_char " " c || bool_decide (9 <= Z.of_nat (nat_of_ascii c) <= 13).
Definition toupper (c : ascii) : ascii :=
  let n := nat_of_ascii c in if bool_decide (97 <= n <= 122)%nat then ascii_of_nat (n - 32) else c.

(** A decimal digit, and the value of the digits a string begins with. *)
Definition digit (c : ascii) : option Z :=
  let n := Z.of_nat (nat_of_ascii c) in if bool_decide (48 <= n <= 57) then Some (n - 48) else None.
Fixpoint digits_value (acc : Z) (l : list ascii) : Z :=
  match l with
  | c :: l => match digit c with Some d => digits_value (10 * acc + d) l | None => acc end
  | [] => acc
  end.

(** The number [atoi] reads; it has to be an [int]. *)
Definition number (l : list ascii) : Z :=
  match drop_while isspace l with
  | c :: l => if is_char "-" c then - digits_value 0 l else if is_char "+" c then digits_value 0 l else digits_value 0 (c :: l)
  | [] => 0
  end.

(** [%d] *)
Definition char_of_digit (d : Z) : ascii := ascii_of_nat (Z.to_nat (48 + d)).
Fixpoint print_digits (fuel : nat) (n : Z) : list ascii :=
  match fuel with
  | O => []
  | S fuel => (if bool_decide (n < 10) then [] else print_digits fuel (n / 10)) ++ [char_of_digit (n mod 10)]
  end.
Definition print_int (n : Z) : list ascii :=
  if bool_decide (n < 0) then "-"%char :: print_digits 10 (- n) else print_digits 10 n.

(** ** Reading the configuration *)

(** What the process is started with: its environment, the file [txc.ini] when it
    can be opened, and what [malloc] grants. *)
Record config_env := ConfigEnv {
  getenv : list ascii -> option (list ascii);
  txc_ini : option (list ascii);
  malloc_ok : Z -> bool;
}.

(** The settings, what is left of the file, and the standard error output. *)
Record config_st := ConfigSt { st_settings : txc_runtime_settings_t; st_fin : list ascii; st_err : list ascii }.

Definition blank (c : ascii) : bool := is_char " " c || is_char tab c.

Definition strtrim_whitespace (str : list ascii) : list ascii :=
  drop_while blank (reverse (drop_while blank (reverse str))).

Inductive parse_result_t :=
  | parse_result_pair (option value : list ascii)
  | parse_result_EOF
  | parse_result_error
  | parse_result_comment.

(** [strcpy] to a buffer of 128 bytes *)
Definition strcpy128 (s : list ascii) : M config_st (list ascii) :=
  if bool_decide (length s < 128)%nat then m_ret s else m_undef.

(** The next line of the file, at most 1023 characters; [None] at its end. *)
Definition get_line : M config_st (option (list ascii)) :=
  do s <- m_get ;;
  match st_fin s with
  | [] => m_ret None
  | fin =>
      let '(line, rest) := fgets 1023 fin in
      m_put (ConfigSt (st_settings s) rest (st_err s)) ;;;
      m_ret (Some (c_string line))
  end.

Definition parse : M config_st parse_result_t :=
  do ret <- get_line ;;
  match ret with
  | None => m_ret parse_result_EOF
  | Some buf1 =>
  match strtok "=" buf1 with
  | None => m_ret parse_result_error
  | Some (subtoken, rest) =>
      let trimmed := strtrim_whitespace subtoken in
      if bool_decide (head trimmed = Some "#"%char) then m_ret parse_result_comment else
      do option <- strcpy128 trimmed ;;
      match strtok newline rest with
      | None => m_ret parse_result_error
      | Some (subtoken, _) =>
          do value <- strcpy128 (strtrim_whitespace subtoken) ;;
          m_ret (parse_result_pair option value)
      end
  end end.

Section config.
Context (env : config_env).

Definition put_setting (f : txc_runtime_settings_t -> txc_runtime_settings_t) : M config_st unit :=
  m_modify (fun s => ConfigSt (f (st_settings s)) (st_fin s) (st_err s)).

(** [atoi] *)
Definition atoi (l : list ascii) : M config_st Z :=
  if bool_decide (- 2 ^ 31 <= number l < 2 ^ 31) then m_ret (number l) else m_undef.

(** No valid values means that every value is. *)
Definition value_is_valid (v : list ascii) (valid : list (list ascii)) : bool :=
  match valid with [] => true | _ => bool_decide (v ∈ valid) end.

Definition option_set (o : option_t) (v : list ascii) : M config_st unit :=
  match value o with
  | IntOption _ set valid =>
      match valid with
      | [lo; hi] =>
          do int_value <- atoi v ;;
          if bool_decide (int_value < lo \/ int_value > hi) then m_ret tt
          else put_setting (set int_value)
      | _ => m_exit
      end
  | StringOption _ set valid =>
      if value_is_valid v valid then
        if malloc_ok env (Z.of_nat (length v) + 1) then put_setting (set v) else m_undef
      else m_ret tt
  | BoolOption _ set valid =>
      if value_is_valid v valid then
        if bool_decide (v = lit "enable") then put_setting (set true) else put_setting (set false)
      else m_ret tt
  end.

(** The first option of that name is set; one that is unknown is ignored. *)
Fixpoint set_named (opts : list option_t) (option v : list ascii) : M config_st unit :=
  match opts with
  | [] => m_ret tt
  | o :: opts => if bool_decide (name o = option) then option_set o v else set_named opts option v
  end.

Definition txc_config_set_option (option v : list ascii) : M config_st Z :=
  set_named options option v ;;;
  m_ret TXC_R_SUCCESS.

Definition env_name (o : option_t) : list ascii := lit "TXC_" ++ map toupper (name o).

Definition config_init_use_env : M config_st Z :=
  m_iter (fun o => match getenv env (env_name o) with
    | Some env_value => option_set o env_value
    | None => m_ret tt
    end) options ;;;
  m_ret TXC_R_SUCCESS.

(** [while (!done) switch (parse(...))] *)
Definition file_body (_ : unit) : M config_st (unit + unit) :=
  do r <- parse ;;
  match r with
  | parse_result_EOF => m_ret (inr tt)
  | parse_result_error => m_exit
  | parse_result_comment => m_ret (inl tt)
  | parse_result_pair option v => set_named options option v ;;; m_ret (inl tt)
  end.

(** The file is read from its beginning; each line takes at least a character. *)
Definition config_init_use_file (file : option (list ascii)) : M config_st Z :=
  match file with
  | None => m_ret TXC_R_INVALIDFILE
  | Some contents =>
      m_modify (fun s => ConfigSt (st_settings s) contents (st_err s)) ;;;
      m_loop (S (length contents)) file_body tt ;;;
      m_ret TXC_R_SUCCESS
  end.

Definition print_value (o : option_t) (s : txc_runtime_settings_t) : list ascii :=
  match value o with
  | IntOption get _ _ => print_int (get s)
  | StringOption get _ _ => get s
  | BoolOption get _ _ => if get s then lit "enable" else lit "disable"
  end.
Definition print_option (s : txc_runtime_settings_t) (o : option_t) : list ascii :=
  name o ++ lit "=" ++ print_value o s ++ [newline].

Definition print_header : list ascii :=
  lit "Configuration parameters" ++ [newline] ++ lit "========================" ++ [newline].

Definition config_print : M config_st unit :=
  m_modify (fun s => ConfigSt (st_settings s) (st_fin s)
    (st_err s ++ print_header ++ concat (map (print_option (st_settings s)) options))).

Definition txc_config_init : M config_st Z :=
  do _ <- config_init_use_file (txc_ini env) ;;
  do _ <- config_init_use_env ;;
  do s <- m_get ;;
  m_when (printconf (st_settings s)) config_print ;;;
  m_ret TXC_R_SUCCESS.
End config.

(** ** What setting an option does *)

(** Seen through what [config_print] shows of a setting: the value an option takes
    from a text, when it accepts it. *)
Definition accepted (o : option_t) (v : list ascii) : bool :=
  match value o with
  | IntOption _ _ valid => match valid with [lo; hi] => bool_decide (lo <= number v <= hi) | _ => false end
  | StringOption _ _ valid | BoolOption _ _ valid => value_is_valid v valid
  end.
Definition canonical (o : option_t) (v : list ascii) : list ascii :=
  match value o with IntOption _ _ _ => print_int (number v) | _ => v end.

Definition store (o : option_t) (v : list ascii) (s : txc_runtime_settings_t) : txc_runtime_settings_t :=
  match value o with
  | IntOption _ set _ => set (number v) s
  | StringOption _ set _ => set v s
  | BoolOption _ set _ => set (bool_decide (v = lit "enable")) s
  end.

(** A property of each option is checked on the table. *)
Ltac each_option := unfold options; repeat first [apply List.Forall_nil | apply List.Forall_cons].

Lemma store_shown o o' v s : o ∈ options -> o' ∈ options -> accepted o v = true ->
  print_value o' (store o v s) = if bool_decide (name o' = name o) then canonical o v else print_value o' s.
Proof.
  intros Ho Ho'. revert o' Ho'. rewrite <- Forall_forall. revert o Ho. 
  assert (Forall (fun o => Forall (fun o' => accepted o v = true ->
    print_value o' (store o v s) = if bool_decide (name o' = name o) then canonical o v else print_value o' s) options) options) as H.
  { assert (value_is_valid v on_off = true -> v = lit "enable" \/ v = lit "disable") as Hon.
    { intros Hv. apply bool_decide_eq_true_1 in Hv. set_solver. }
    each_option; intros Ha; try reflexivity.
    all: destruct (Hon Ha) as [-> | ->]; reflexivity. }
  rewrite Forall_forall in H. intros o Ho. by apply H.
Qed.

Definition with_settings (s : txc_runtime_settings_t) (st : config_st) : config_st := ConfigSt s (st_fin st) (st_err st).

Section config_lemmas.
Context (env : config_env).

(** An option that returns has stored its value, or left the settings. *)
Lemma option_set_run o v st st' : option_set env o v st = Ret tt st' ->
  st' = with_settings (if accepted o v then store o v (st_settings st) else st_settings st) st.
Proof.
  assert (with_settings (st_settings st) st = st) as Hid by (by destruct st).
  unfold option_set, accepted, store, atoi, put_setting, with_settings, m_bind, m_ret, m_undef, m_modify, m_exit in *.
  destruct (value o) as [g f valid|g f valid|g f valid]; intros E.
  - repeat case_match; simplify_eq; rewrite ?Hid; try done; repeat case_bool_decide; simplify_eq; try done; lia.
  - repeat case_match; by simplify_eq.
  - repeat case_match; simplify_eq; try done; repeat case_bool_decide; by simplify_eq.
Qed.

Lemma option_set_ends o v st : match option_set env o v st with Ret _ _ | Exit _ | Undef => True | _ => False end.
Proof.
  unfold option_set, atoi, put_setting, m_bind, m_ret, m_undef, m_modify, m_exit. repeat case_match; simplify_eq; done.
Qed.
End config_lemmas.

(** ** Invariant and termination *)

Definition in_range (s : txc_runtime_settings_t) : Prop :=
  0 <= max_spin_retries s <= 1000 /\ 0 <= max_backoff_time s <= 1000.

Definition keeps_range (st st' : config_st) : Prop := in_range (st_settings st) -> in_range (st_settings st').

#[export] Instance keeps_range_preorder : PreOrder keeps_range.
Proof. split; unfold keeps_range; [by intros ?|naive_solver]. Qed.

Lemma store_in_range o v s : o ∈ options -> accepted o v = true -> in_range s -> in_range (store o v s).
Proof.
  assert (Forall (fun o => accepted o v = true -> in_range s -> in_range (store o v s)) options) as H.
  { each_option; intros Ha Hs; try exact Hs.
    all: apply bool_decide_eq_true_1 in Ha; destruct Hs; split; [simpl; lia..]. }
  rewrite Forall_forall in H. intros Ho. by apply H.
Qed.

(** What a run of a reader ends in: it returns, exits, or copies too much. *)
Definition ends {A} (R : config_st -> config_st -> Prop) (m : M config_st A) : Prop :=
  forall st, match m st with Ret _ st' => R st st' | Exit _ | Undef => True | _ => False end.

Definition same_file (st st' : config_st) : Prop := st_fin st' = st_fin st.

#[export] Instance same_file_preorder : PreOrder same_file.
Proof. split; unfold same_file; [by intros ?|congruence]. Qed.

Lemma ends_bind {A B} R `{!PreOrder R} (m : M config_st A) (f : A -> M config_st B) :
  ends R m -> (forall a, ends R (f a)) -> ends R (m_bind m f).
Proof.
  intros Hm Hf st. specialize (Hm st). unfold m_bind. destruct (m st) as [a st1| | | | |]; try done.
  specialize (Hf a st1). destruct (f a st1); try done. by etrans.
Qed.

Lemma ends_ret {A} R `{!PreOrder R} (a : A) : ends R (m_ret a).
Proof. intros st. simpl. done. Qed.

Section config_runs.
Context (env : config_env).

Lemma option_set_range o v : o ∈ options -> m_pres keeps_range (option_set env o v).
Proof.
  intros Ho st. pose proof (option_set_ends env o v st) as He. destruct (option_set env o v st) as [[] st'| | | | |] eqn:E; try done.
  apply option_set_run in E as ->. intros Hs. simpl. destruct (accepted o v) eqn:Ha; [by apply store_in_range|done].
Qed.

Lemma set_named_range opts nm v : opts ⊆ options -> m_pres keeps_range (set_named env opts nm v).
Proof.
  induction opts as [|o opts IH]; intros Hs; simpl; [apply m_pres_ret; typeclasses eauto|].
  case_bool_decide; [apply option_set_range; set_solver|apply IH; set_solver].
Qed.

Lemma get_line_range : m_pres keeps_range get_line.
Proof.
  intros st. unfold get_line, m_bind, m_get, m_ret, m_put. destruct (st_fin st); [done|].
  destruct (fgets 1023 (a :: l)). by intros Hs.
Qed.

Lemma parse_range : m_pres keeps_range parse.
Proof.
  pose proof get_line_range. unfold parse. m_pres_step; [done|]. unfold strcpy128. m_pres_auto.
Qed.

Lemma file_body_range u : m_pres keeps_range (file_body env u).
Proof.
  pose proof parse_range. assert (forall nm v, m_pres keeps_range (set_named env options nm v)) by (intros; by apply set_named_range).
  unfold file_body. m_pres_auto.
Qed.

Lemma config_init_range : m_pres keeps_range (txc_config_init env).
Proof.
  assert (forall u, m_pres keeps_range (file_body env u)) by (intros; apply file_body_range).
  assert (forall fuel, m_pres keeps_range (m_loop fuel (file_body env) tt)) by (intros; by apply m_pres_loop; [typeclasses eauto|]).
  assert (m_pres keeps_range (m_iter (fun o => match getenv env (env_name o) with
    | Some env_value => option_set env o env_value | None => m_ret tt end) options)).
  { assert (forall l, l ⊆ options -> m_pres keeps_range (m_iter (fun o => match getenv env (env_name o) with
      | Some env_value => option_set env o env_value | None => m_ret tt end) l)) as H'; [|by apply H'].
    induction l as [|o l IH]; intros Hl; simpl; [m_pres_auto|]. m_pres_step; [|apply IH; set_solver].
    case_match; [apply option_set_range; set_solver|m_pres_auto]. }
  assert (forall f, (forall st, st_settings (f st) = st_settings st) -> m_pres keeps_range (m_modify f)) as Hmod.
  { intros f Hf st. unfold keeps_range. simpl. by rewrite Hf. }
  unfold txc_config_init, config_init_use_file, config_init_use_env, config_print.
  m_pres_auto; by apply Hmod.
Qed.

Lemma set_named_ends opts nm v : ends same_file (set_named env opts nm v).
Proof.
  induction opts as [|o opts IH]; simpl; [apply ends_ret; typeclasses eauto|]. case_bool_decide; [|done].
  intros st. pose proof (option_set_ends env o v st) as He. destruct (option_set env o v st) as [[] st'| | | | |] eqn:E; try done.
  apply option_set_run in E as ->. unfold same_file. done.
Qed.

Lemma fgets_app n file : let '(line, rest) := fgets n file in file = line ++ rest.
Proof.
  revert file. induction n as [|n IH]; intros [|c file]; simpl; try done.
  destruct (is_char newline c); [done|]. specialize (IH file). destruct (fgets n file). simpl. by f_equal.
Qed.

Lemma fgets_cons n c file rest : fgets (S n) (c :: file) <> ([], rest).
Proof. simpl. destruct (is_char newline c); [done|]. by destruct (fgets n file). Qed.

(** The file gets shorter with each line. *)
Definition shorter (st st' : config_st) : Prop := (length (st_fin st') < length (st_fin st))%nat.

Lemma parse_ends st :
  match parse st with
  | Ret r st' => r = parse_result_EOF \/ shorter st st'
  | Undef => True
  | _ => False
  end.
Proof.
  unfold parse, get_line. unfold m_bind at 1 2, m_get. destruct (st_fin st) as [|c fin] eqn:Hfin; [by left|].
  pose proof (fgets_app 1023 (c :: fin)) as Happ. destruct (fgets 1023 (c :: fin)) as [line rest] eqn:E.
  assert (shorter st (ConfigSt (st_settings st) rest (st_err st))) as Hs.
  { unfold shorter. rewrite Hfin. simpl. destruct line as [|x line].
    - exfalso. by eapply fgets_cons.
    - injection Happ as <- ->. rewrite length_app. lia. }
  unfold m_put, m_bind, m_ret, strcpy128, m_undef, m_ret. repeat case_match; simplify_eq; auto.
Qed.

Lemma file_body_ends st :
  match file_body env tt st with
  | Ret r st' => r = inr tt \/ shorter st st'
  | Exit _ | Undef => True
  | _ => False
  end.
Proof.
  unfold file_body, m_bind, m_ret, m_exit. pose proof (parse_ends st) as Hp. destruct (parse st) as [r st'| | | | |]; try done.
  destruct r as [nm v| | |]; auto.
  - pose proof (set_named_ends options nm v st') as Hs. destruct (set_named env options nm v st') as [? st''| | | | |]; try done.
    right. destruct Hp as [?|Hp]; [done|]. unfold shorter, same_file in *. by rewrite Hs.
  - destruct Hp as [?|Hp]; [done|]. by right.
Qed.

Lemma file_loop_ends fuel st : (length (st_fin st) < fuel)%nat ->
  match m_loop fuel (file_body env) tt st with Ret _ _ | Exit _ | Undef => True | _ => False end.
Proof.
  revert st. induction fuel as [|fuel IH]; intros st Hf; [lia|]. rewrite m_loop_S. unfold m_bind.
  pose proof (file_body_ends st) as Hb. destruct (file_body env tt st) as [r st'| | | | |]; try done.
  destruct r as [[]|[]]; [|done]. destruct Hb as [?|Hb]; [done|]. apply IH. unfold shorter in Hb. lia.
Qed.
End config_runs.

(** ** The environment *)

Lemma name_inj o o' : o ∈ options -> o' ∈ options -> name o' = name o -> o' = o.
Proof.
  assert (Forall (fun o => Forall (fun o' => name o' = name o -> o' = o) options) options) as H
    by (each_option; intros E; (reflexivity || discriminate E)).
  rewrite Forall_forall in H. intros Ho. specialize (H o Ho). rewrite Forall_forall in H. apply H.
Qed.

Lemma names_distinct : NoDup (name <$> options).
Proof. apply (bool_decide_unpack _). vm_compute. exact I. Qed.

Lemma cons_subset {A} (x : A) l k : x :: l ⊆ k -> x ∈ k /\ l ⊆ k.
Proof. intros H. split; [apply H; by left|]. intros y Hy. apply H. by right. Qed.

Section environment.
Context (env : config_env).

Definition set_from_env (o : option_t) : M config_st unit :=
  match getenv env (env_name o) with Some env_value => option_set env o env_value | None => m_ret tt end.

(** What the environment says of an option, over a setting. *)
Definition env_value (o : option_t) (s : txc_runtime_settings_t) : list ascii :=
  match getenv env (env_name o) with
  | Some v => if accepted o v then canonical o v else print_value o s
  | None => print_value o s
  end.

Lemma set_from_env_shown o st st' : o ∈ options -> set_from_env o st = Ret tt st' ->
  st_err st' = st_err st /\ forall o', o' ∈ options ->
  print_value o' (st_settings st') = if bool_decide (name o' = name o) then env_value o (st_settings st) else print_value o' (st_settings st).
Proof.
  intros Ho E. unfold set_from_env, env_value in *. destruct (getenv env (env_name o)) as [v|].
  - apply option_set_run in E as ->. split; [done|]. intros o' Ho'. simpl. destruct (accepted o v) eqn:Ha.
    + by rewrite store_shown.
    + case_bool_decide as Hn; [|done]. by apply name_inj in Hn as ->.
  - injection E as <-. split; [done|]. intros o' Ho'. case_bool_decide as Hn; [|done]. by apply name_inj in Hn as ->.
Qed.

Lemma env_iter_shown l st st' : l ⊆ options -> NoDup (name <$> l) -> m_iter set_from_env l st = Ret tt st' ->
  forall o, o ∈ options ->
  print_value o (st_settings st') = if bool_decide (name o ∈ name <$> l) then env_value o (st_settings st) else print_value o (st_settings st).
Proof.
  revert st. induction l as [|o1 l IH]; intros st Hl Hnd E o Ho; simpl in E.
  { injection E as <-. by rewrite bool_decide_eq_false_2 by set_solver. }
  apply m_bind_ret_inv in E as ([] & st1 & E1 & E). apply NoDup_cons in Hnd as [Hn Hnd].
  apply cons_subset in Hl as [Ho1 Hl]. pose proof (set_from_env_shown o1 st st1 Ho1 E1) as [_ Hs].
  rewrite (IH st1 Hl Hnd E o Ho). unfold env_value at 1. rewrite (Hs o Ho).
  destruct (decide (name o = name o1)) as [Heq|Hne].
  - apply name_inj in Heq as ->; [|done..]. rewrite bool_decide_eq_false_2 by done.
    rewrite !bool_decide_eq_true_2; [done|by left|done].
  - rewrite (bool_decide_eq_false_2 (name o = name o1)) by done. fold (env_value o (st_settings st)).
    rewrite (bool_decide_ext (name o ∈ name <$> o1 :: l) (name o ∈ name <$> l)); [done|].
    rewrite fmap_cons, elem_of_cons. naive_solver.
Qed.
End environment.

(** ** Printing and reading back *)

(** A text that survives the parser: on one line, without zero bytes, and with no
    blanks around it. *)
Definition clean (t : list ascii) : bool :=
  bool_decide (Forall (fun c => c <> newline /\ c <> nul) t) && bool_decide (length t < 128)%nat &&
  match t with c :: _ => negb (blank c) | [] => false end && match last t with Some c => negb (blank c) | None => false end.

Lemma take_while_app f l1 l2 : Forall (fun c => f c = true) l1 -> take_while f (l1 ++ l2) = l1 ++ take_while f l2.
Proof. induction 1 as [|c l1 Hc Hl IH]; simpl; [done|]. by rewrite Hc, IH. Qed.

Lemma drop_while_app f l1 l2 : Forall (fun c => f c = true) l1 -> drop_while f (l1 ++ l2) = drop_while f l2.
Proof. induction 1 as [|c l1 Hc Hl IH]; simpl; [done|]. by rewrite Hc. Qed.

Lemma is_char_true x c : is_char x c = true <-> c = x.
Proof. unfold is_char. rewrite Ascii.eqb_eq. split; congruence. Qed.

Lemma is_char_false x c : is_char x c = false <-> c <> x.
Proof. rewrite <- not_true_iff_false, is_char_true. done. Qed.

(** A token up to its delimiter. *)
Lemma strtok_app d t rest : t <> [] -> Forall (fun c => c <> d) t -> strtok d (t ++ d :: rest) = Some (t, rest).
Proof.
  intros Hne Ht. assert (Forall (fun c => negb (is_char d c) = true) t) as Ht'.
  { eapply Forall_impl; [exact Ht|]. intros c Hc. simpl in Hc. by apply is_char_false in Hc as ->. }
  assert (is_char d d = true) as Hd by (by apply is_char_true).
  unfold strtok. destruct Ht as [|c t Hc Ht]; [done|]. simpl. apply is_char_false in Hc. rewrite Hc.
  apply Forall_cons in Ht' as [Hc' Ht']. rewrite Hc'. rewrite take_while_app, drop_while_app by done. simpl. rewrite Hd. simpl.
  by rewrite app_nil_r.
Qed.

Lemma drop_while_head f l : match l with c :: _ => f c = false | [] => True end -> drop_while f l = l.
Proof. destruct l; simpl; [done|]. by intros ->. Qed.

Lemma strtrim_clean t : clean t = true -> strtrim_whitespace t = t.
Proof.
  unfold clean, strtrim_whitespace. rewrite !andb_true_iff. intros [[[_ _] Hh] Hl].
  rewrite (drop_while_head blank (reverse t)).
  - rewrite reverse_involutive. apply drop_while_head. destruct t; [done|]. by apply negb_true_iff.
  - rewrite <- head_reverse in Hl. destruct (reverse t); [done|]. by apply negb_true_iff.
Qed.

Lemma fgets_line n line rest : Forall (fun c => c <> newline) line -> (length line < n)%nat ->
  fgets n (line ++ newline :: rest) = (line ++ [newline], rest).
Proof.
  intros Hl. revert n. induction Hl as [|c line Hc Hl IH]; intros [|n] Hn; simpl in *; try lia.
  - done.
  - apply is_char_false in Hc. rewrite Hc, IH by lia. done.
Qed.

Lemma c_string_clean l : Forall (fun c => c <> nul) l -> c_string l = l.
Proof.
  intros Hl. unfold c_string. rewrite <- (app_nil_r l) at 1. rewrite take_while_app; [apply app_nil_r|].
  eapply Forall_impl; [exact Hl|]. intros c Hc. simpl in Hc. by apply is_char_false in Hc as ->.
Qed.

Definition good_name (n : list ascii) : bool :=
  clean n && bool_decide (Forall (fun c => c <> "="%char) n) && bool_decide (head n <> Some "#"%char).

Lemma parse_line s n t rest err : good_name n = true -> clean t = true ->
  parse (ConfigSt s (n ++ lit "=" ++ t ++ [newline] ++ rest) err) = Ret (parse_result_pair n t) (ConfigSt s rest err).
Proof.
  unfold good_name. rewrite !andb_true_iff, !bool_decide_eq_true. intros [[Hn Heq] Hhash] Ht.
  pose proof (strtrim_clean n Hn) as Hn1. pose proof (strtrim_clean t Ht) as Ht1.
  unfold clean in Hn, Ht. rewrite !andb_true_iff, !bool_decide_eq_true in Hn, Ht.
  destruct Hn as [[[Hnc Hnl] Hn3] _], Ht as [[[Htc Htl] Ht3] _].
  apply Forall_and in Hnc as [Hn4 Hn5], Htc as [Ht4 Ht5].
  assert (fgets 1023 (n ++ lit "=" ++ t ++ [newline] ++ rest) = ((n ++ lit "=" ++ t) ++ [newline], rest)) as Hg.
  { rewrite <- (fgets_line 1023 (n ++ lit "=" ++ t) rest).
    - by rewrite <- !app_assoc.
    - rewrite !Forall_app. split_and!; [done|by apply Forall_singleton|done].
    - rewrite !length_app. simpl. lia. }
  unfold parse, get_line. rewrite m_bind_assoc. unfold m_bind at 1, m_get. cbn [st_fin].
  destruct (n ++ lit "=" ++ t ++ [newline] ++ rest) as [|c0 fin] eqn:Hfin; [by destruct n|]. rewrite Hg.
  rewrite (m_bind_assoc (m_put _)). unfold m_bind at 1, m_put. rewrite c_string_clean.
  2: { rewrite !Forall_app. split_and!; try done; by apply Forall_singleton. }
  rewrite <- !app_assoc. unfold m_bind at 1, m_ret. change (lit "=" ++ t ++ [newline]) with ("="%char :: (t ++ [newline])).
  rewrite strtok_app by (by destruct n). rewrite Hn1, bool_decide_eq_false_2 by done.
  unfold strcpy128. rewrite !bool_decide_eq_true_2 by done. unfold m_bind at 1, m_ret.
  rewrite strtok_app; [|by destruct t|done].
  by rewrite Ht1, bool_decide_eq_true_2 by done.
Qed.

(** The numbers of the range are printed and read back. *)
Lemma print_int_range n : 0 <= n <= 1000 -> clean (print_int n) = true /\ number (print_int n) = n.
Proof.
  intros Hn. assert (forallb (fun k => clean (print_int (Z.of_nat k)) && bool_decide (number (print_int (Z.of_nat k)) = Z.of_nat k))
    (seq 0 1001) = true) as H by (vm_compute; reflexivity).
  rewrite forallb_forall in H. specialize (H (Z.to_nat n)). rewrite Z2Nat.id, andb_true_iff, bool_decide_eq_true in H by lia.
  apply H, in_seq. lia.
Qed.

Section reading.
Context (env : config_env) (malloc_grants : forall n, malloc_ok env n = true).

Definition printable (s : txc_runtime_settings_t) : Prop := in_range s /\ clean (statistics_file s) = true.

Lemma printed_value s o : printable s -> o ∈ options ->
  clean (print_value o s) = true /\ accepted o (print_value o s) = true.
Proof.
  intros [[Hr1 Hr2] Hs] Ho.
  assert (Forall (fun o => clean (print_value o s) = true /\ accepted o (print_value o s) = true) options) as H.
  { pose proof (print_int_range _ Hr1) as [Hc1 Hn1]. pose proof (print_int_range _ Hr2) as [Hc2 Hn2].
    each_option; unfold print_value, accepted; cbn [value]; try (split; [done|reflexivity]).
    1-8: by case_match; vm_compute.
    - split; [exact Hc1|]. rewrite Hn1. by apply bool_decide_eq_true_2.
    - split; [exact Hc2|]. rewrite Hn2. by apply bool_decide_eq_true_2. }
  rewrite Forall_forall in H. by apply H.
Qed.

Lemma names_good o : o ∈ options -> good_name (name o) = true.
Proof.
  assert (forallb (fun o => good_name (name o)) options = true) as H by (vm_compute; reflexivity).
  rewrite forallb_forall in H. intros Ho. apply H. by apply list_elem_of_In.
Qed.

Lemma set_named_found o v st : o ∈ options -> accepted o v = true ->
  set_named env options (name o) v st = Ret tt (with_settings (store o v (st_settings st)) st).
Proof.
  assert (Forall (fun o => accepted o v = true ->
    set_named env options (name o) v st = Ret tt (with_settings (store o v (st_settings st)) st)) options) as H.
  { assert (value_is_valid v on_off = true -> v = lit "enable" \/ v = lit "disable") as Hon.
    { intros Hv. apply bool_decide_eq_true_1 in Hv. set_solver. }
    each_option; intros Ha.
    9: { unfold set_named; simpl. unfold option_set. simpl. by rewrite malloc_grants. }
    1-8: destruct (Hon Ha) as [-> | ->]; reflexivity.
    all: apply bool_decide_eq_true_1 in Ha; unfold set_named; simpl; unfold option_set, atoi; simpl.
    all: rewrite bool_decide_eq_true_2 by lia; unfold m_bind, m_ret; by rewrite bool_decide_eq_false_2 by lia. }
  rewrite Forall_forall in H. intros Ho. by apply H.
Qed.

Lemma read_option s0 o s rest err fuel : printable s0 -> o ∈ options ->
  m_loop (S fuel) (file_body env) tt (ConfigSt s (print_option s0 o ++ rest) err) =
  m_loop fuel (file_body env) tt (ConfigSt (store o (print_value o s0) s) rest err).
Proof.
  intros Hp Ho. destruct (printed_value s0 o Hp Ho) as [Hc Ha].
  pose proof (parse_line s (name o) (print_value o s0) rest err (names_good o Ho) Hc) as E.
  rewrite m_loop_S. unfold file_body at 1. unfold print_option. rewrite <- !app_assoc.
  rewrite m_bind_assoc, (m_bind_run _ _ _ _ _ E).
  by rewrite m_bind_assoc, (m_bind_run _ _ _ _ _ (set_named_found o _ _ Ho Ha)).
Qed.

(** The lines of some options, read over the settings [s]. *)
Definition copy_options (s0 : txc_runtime_settings_t) (l : list option_t) (s : txc_runtime_settings_t) : txc_runtime_settings_t :=
  foldl (fun s o => store o (print_value o s0) s) s l.

Lemma read_options s0 l s rest err fuel : printable s0 -> l ⊆ options ->
  m_loop (length l + fuel) (file_body env) tt (ConfigSt s (concat (map (print_option s0) l) ++ rest) err) =
  m_loop fuel (file_body env) tt (ConfigSt (copy_options s0 l s) rest err).
Proof.
  intros Hp. revert s. induction l as [|o l IH]; intros s Hl; [done|].
  apply cons_subset in Hl as [Ho Hl]. cbn [length Nat.add map concat]. rewrite <- app_assoc, read_option by done. by apply IH.
Qed.

(** Storing a printed value copies the setting. *)
Definition copy_option (s0 s : txc_runtime_settings_t) (o : option_t) : txc_runtime_settings_t :=
  match value o with
  | IntOption get set _ => set (get s0) s
  | StringOption get set _ => set (get s0) s
  | BoolOption get set _ => set (get s0) s
  end.

Lemma store_printed s0 s o : in_range s0 -> o ∈ options -> store o (print_value o s0) s = copy_option s0 s o.
Proof.
  intros [H1 H2] Ho. assert (Forall (fun o => store o (print_value o s0) s = copy_option s0 s o) options) as H.
  { pose proof (print_int_range _ H1) as [_ Hn1]. pose proof (print_int_range _ H2) as [_ Hn2].
    each_option; unfold store, print_value, copy_option; cbn [value]; rewrite ?Hn1, ?Hn2; try done.
    all: case_match; reflexivity. }
  rewrite Forall_forall in H. by apply H.
Qed.

Lemma copy_all s0 s : in_range s0 -> copy_options s0 options s = s0.
Proof.
  intros Hr. assert (forall l s, l ⊆ options -> copy_options s0 l s = foldl (copy_option s0) s l) as ->; [|by destruct s0|done].
  induction l as [|o l IH]; intros s' Hl; [done|]. apply cons_subset in Hl as [Ho Hl].
  unfold copy_options in *. cbn [foldl]. by rewrite store_printed, IH.
Qed.

Lemma loop_fuel fuel k st r st' : m_loop fuel (file_body env) tt st = Ret r st' ->
  m_loop (fuel + k) (file_body env) tt st = Ret r st'.
Proof.
  revert st. induction fuel as [|fuel IH]; intros st E; [done|]. cbn [Nat.add]. rewrite m_loop_S in *.
  apply m_bind_ret_inv in E as ([[]|[]] & st1 & E1 & E); rewrite (m_bind_run _ _ _ _ _ E1); [by apply IH|done].
Qed.
End reading.

Lemma lines_length s0 l : (2 * length l <= length (concat (map (print_option s0) l)))%nat.
Proof.
  induction l as [|o l IH]; [done|]. cbn [map concat length]. rewrite length_app. unfold print_option at 1.
  rewrite !length_app. simpl. lia.
Qed.

(** ** The properties *)

(** C34: Whatever [txc.ini] and the environment hold, and whatever the program sets
    afterwards, the two numbers stay between 0 and 1000. *)
Theorem settings_in_range env fin err r st calls st' :
  txc_config_init env (ConfigSt txc_runtime_settings fin err) = Ret r st ->
  m_iter (fun '(option, v) => do _ <- txc_config_set_option env option v ;; m_ret tt) calls st = Ret tt st' ->
  0 <= max_spin_retries (st_settings st') <= 1000 /\ 0 <= max_backoff_time (st_settings st') <= 1000.
Proof.
  intros E1 E2. assert (in_range (st_settings st)) as Hst.
  { apply (m_pres_run _ _ _ _ _ (config_init_range env) E1). split; simpl; lia. }
  assert (m_pres keeps_range (m_iter (fun '(option, v) => do _ <- txc_config_set_option env option v ;; m_ret tt) calls)) as Hc.
  { apply m_pres_iter; [typeclasses eauto|]. intros [option v]. unfold txc_config_set_option.
    pose proof (set_named_range env options option v ltac:(done)). m_pres_auto. }
  exact (m_pres_run _ _ _ _ _ Hc E2 Hst).
Qed.

(** Reading the configuration ends, for every file and environment: it
    succeeds, or an error ends the program, or an option or a value of 128
    characters or more, or a number that is no [int], is undefined. *)
Theorem config_init_ends env st :
  match txc_config_init env st with
  | Ret r _ => r = TXC_R_SUCCESS
  | Exit _ | Undef => True
  | _ => False
  end.
Proof.
  assert (forall st, match config_init_use_file env (txc_ini env) st with Ret _ _ | Exit _ | Undef => True | _ => False end) as Hf.
  { intros st1. unfold config_init_use_file. destruct (txc_ini env) as [contents|]; [|done].
    unfold m_bind at 1, m_modify. unfold m_bind.
    pose proof (file_loop_ends env (S (length contents)) (ConfigSt (st_settings st1) contents (st_err st1)) ltac:(simpl; lia)) as H.
    by destruct (m_loop _ _ _ _). }
  assert (forall l st, match m_iter (set_from_env env) l st with Ret _ _ | Exit _ | Undef => True | _ => False end) as He.
  { induction l as [|o l IH]; intros st1; simpl; [done|]. unfold m_bind.
    assert (match set_from_env env o st1 with Ret _ _ | Exit _ | Undef => True | _ => False end) as Ho
      by (unfold set_from_env; destruct (getenv env (env_name o)); [apply option_set_ends|done]).
    destruct (set_from_env env o st1); try done. apply IH. }
  unfold txc_config_init. unfold m_bind at 1. specialize (Hf st).
  destruct (config_init_use_file env (txc_ini env) st) as [? st1| | | | |]; try done.
  change (config_init_use_env env) with (m_iter (set_from_env env) options ;;; m_ret TXC_R_SUCCESS).
  rewrite m_bind_assoc. unfold m_bind at 1. specialize (He options st1).
  destruct (m_iter (set_from_env env) options st1) as [? st2| | | | |]; try done.
  unfold m_bind, m_ret, m_get, m_when, config_print. by destruct (printconf (st_settings st2)).
Qed.

(** C35: The lines [config_print] prints for the options, read as [txc.ini] over any
    settings, give the printed settings back, if the name of the statistics file
    is a text that a line can hold. *)
Theorem printed_settings_read_back env s0 s fin err :
  (forall n, malloc_ok env n = true) -> in_range s0 -> clean (statistics_file s0) = true ->
  config_init_use_file env (Some (concat (map (print_option s0) options))) (ConfigSt s fin err) =
  Ret TXC_R_SUCCESS (ConfigSt s0 [] err).
Proof.
  intros Hm Hr Hc. unfold config_init_use_file. set (contents := concat _).
  assert (m_loop 12 (file_body env) tt (ConfigSt s contents err) = Ret tt (ConfigSt s0 [] err)) as E.
  { change 12%nat with (length options + 1)%nat. rewrite <- (app_nil_r contents).
    rewrite (read_options env Hm s0 options) by done. by rewrite copy_all. }
  assert (exists k, S (length contents) = (12 + k)%nat) as [k ->].
  { exists (S (length contents) - 12)%nat. enough (12 <= length contents)%nat by lia.
    pose proof (lines_length s0 options) as Hlen. change (length options) with 11%nat in Hlen. unfold contents. lia. }
  unfold m_bind, m_modify, m_ret. cbn [st_settings st_err]. by rewrite (loop_fuel env 12 k _ _ _ E).
Qed.

(** The environment has the last word: an option that it sets to a value the
    option accepts has that value after the initialisation, the others what the
    file left, as [config_print] shows them. *)
Theorem environment_wins env st r st' o :
  txc_config_init env st = Ret r st' -> o ∈ options ->
  exists r1 st1, config_init_use_file env (txc_ini env) st = Ret r1 st1 /\
  print_value o (st_settings st') =
  match getenv env (env_name o) with
  | Some v => if accepted o v then canonical o v else print_value o (st_settings st1)
  | None => print_value o (st_settings st1)
  end.
Proof.
  intros E Ho. unfold txc_config_init in E. apply m_bind_ret_inv in E as (r1 & st1 & E1 & E).
  exists r1, st1. split; [done|]. apply m_bind_ret_inv in E as (r2 & st2 & E2 & E).
  apply m_bind_ret_inv in E2 as ([] & st3 & E2 & E3). injection E3 as _ <-.
  assert (st_settings st' = st_settings st3) as ->.
  { unfold m_bind, m_get, m_when, m_ret, config_print, m_modify in E. destruct (printconf (st_settings st3)); by injection E as _ <-. }
  rewrite (env_iter_shown env options st1 st3 ltac:(done) names_distinct E2 o Ho).
  rewrite bool_decide_eq_true_2; [done|]. apply list_elem_of_fmap. by exists o.
Qed.

(** A line that is empty, even the last, ends the program, whatever came
    before: the options read so far are set, and nothing after it is. *)
Theorem empty_line_is_fatal env s0 l rest s fin err :
  (forall n, malloc_ok env n = true) -> in_range s0 -> clean (statistics_file s0) = true -> l ⊆ options ->
  config_init_use_file env (Some (concat (map (print_option s0) l) ++ newline :: rest)) (ConfigSt s fin err) =
  Exit (ConfigSt (copy_options s0 l s) rest err).
Proof.
  intros Hm Hr Hc Hl. unfold config_init_use_file. set (contents := _ ++ _).
  assert (exists k, S (length contents) = (length l + S k)%nat) as [k ->].
  { exists (length contents - length l)%nat. enough (length l <= length contents)%nat by lia.
    pose proof (lines_length s0 l) as Hlen. unfold contents. rewrite length_app. lia. }
  unfold m_bind, m_modify. cbn [st_settings st_err]. unfold contents.
  rewrite (read_options env Hm s0 l) by done. by rewrite m_loop_S.
Qed.

(** *** A concrete configuration *)

Definition env0 : config_env := ConfigEnv
  (fun n => if bool_decide (n = lit "TXC_SENTINEL_MAX_BACKOFF_TIME") then Some (lit " 77us") else None)
  (Some (lit "# tuning" ++ [newline] ++ lit " sentinel_max_spin_retries = 5000" ++ [newline] ++
         lit "sentinel_max_backoff_time=12" ++ [newline] ++ lit "statistics = disable" ++ [newline]))
  (fun _ => true).
Definition st0 : config_st := ConfigSt txc_runtime_settings [] [].
Definition st1 : config_st := after (txc_config_init env0) st0.
Definition calls0 : list (list ascii * list ascii) := [(lit "sentinel_max_spin_retries", lit "33"); (lit "verbose", lit "1")].
Definition set_calls : M config_st unit :=
  m_iter (fun '(option, v) => do _ <- txc_config_set_option env0 option v ;; m_ret tt) calls0.
Definition st2 : config_st := after set_calls st1.

Lemma settings_in_range_witness :
  max_spin_retries (st_settings st1) = 0 /\ max_spin_retries (st_settings st2) = 33 /\
  0 <= max_spin_retries (st_settings st2) <= 1000 /\ 0 <= max_backoff_time (st_settings st2) <= 1000.
Proof.
  split; [vm_compute; reflexivity|]. split; [vm_compute; reflexivity|].
  apply (settings_in_range env0 [] [] TXC_R_SUCCESS st1 calls0 st2).
  - change (txc_config_init env0 st0 = Ret TXC_R_SUCCESS st1). runs_to st1.
  - change (set_calls st1 = Ret tt st2). runs_to st2.
Defined.

Definition backoff_option : option_t := Option (lit "sentinel_max_backoff_time") (IntOption max_backoff_time set_max_backoff_time [0; 1000]).

Lemma environment_wins_witness : print_value backoff_option (st_settings st1) = lit "77".
Proof.
  destruct (environment_wins env0 st0 TXC_R_SUCCESS st1 backoff_option) as (r & st & _ & H).
  - runs_to st1.
  - unfold options. repeat (first [apply list_elem_of_here|apply list_elem_of_further]).
  - rewrite H. vm_compute. reflexivity.
Defined.

Definition s_some : txc_runtime_settings_t :=
  RuntimeSettings true false true false false true false false (lit "out/run 1.stats") 5 1000.

Lemma printed_settings_read_back_witness :
  config_init_use_file env0 (Some (concat (map (print_option s_some) options))) st0 = Ret TXC_R_SUCCESS (ConfigSt s_some [] []).
Proof.
  apply (printed_settings_read_back env0 s_some txc_runtime_settings [] []).
  - reflexivity.
  - split; simpl; lia.
  - vm_compute. reflexivity.
Defined.

Lemma empty_line_is_fatal_witness :
  config_init_use_file env0 (Some (concat (map (print_option s_some) [backoff_option]) ++ newline :: lit "statistics=disable")) st0 =
  Exit (ConfigSt (set_max_backoff_time 1000 txc_runtime_settings) (lit "statistics=disable") []).
Proof.
  apply (empty_line_is_fatal env0 s_some [backoff_option] (lit "statistics=disable") txc_runtime_settings [] []).
  - reflexivity.
  - split; simpl; lia.
  - vm_compute. reflexivity.
  - intros o Ho. apply list_elem_of_singleton in Ho as ->.
    unfold options. repeat (first [apply list_elem_of_here|apply list_elem_of_further]).
Defined.
