(* ===== verification/Stats.v ===== *)
(** * The statistics manager ([core/stats.c], [core/stats.h])

    A thread counts, while a transaction runs, what its calls do ([txstat]); the
    commit action adds the counts to the thread's totals and to those of the
    transaction's source location, kept in a hash table by the location's string,
    and the undo action drops them. The report sums the threads up. The hooks
    that run the actions are in [StatsTx], the printing in [StatsReport].

    The structures are objects at addresses. [malloc] gives an address never used
    before, and its contents are what it happens to hold. *)

From Stdlib Require Import String.
From S2P Require Import Prelude Dll HashTable.

(** ** Data *)

(** [FOREACH_STAT] in the build with statistics *)
Definition stats_strings : list string := [
  "x_close"; "x_create"; "x_dup"; "x_fdatasync"; "x_fsync"; "x_lseek"; "x_open"; "x_pipe"; "x_printf"; "x_read";
  "x_read_pipe"; "x_recvmsg"; "x_rename"; "x_sendmsg"; "x_socket"; "x_unlink"; "x_write_ovr"; "x_write_ovr_ignore";
  "x_write_pipe"; "x_write_seq"]%string.
Definition txc_stats_numofstats : nat := length stats_strings.

(** [struct txc_stats_stat_s] *)
Record txc_stats_stat_t := Stat { stat_max : Z; stat_min : Z; stat_total : Z }.

(** [txc_tx_srcloc_t] *)
Record txc_tx_srcloc_t := SrcLoc { src_file : Z; src_fun : Z; src_line : Z }.

(** [struct txc_stats_txstat_s] *)
Record txc_stats_txstat_t := TxStat {
  srcloc_str : Z;
  srcloc : txc_tx_srcloc_t;
  ts_count : Z;
  ts_stats : list txc_stats_stat_t;
}.

(** [struct txc_stats_threadstat_s]; [tx_stats] is [None] when it is null. *)
Record txc_stats_threadstat_t := ThreadStat {
  th_count : Z;
  th_stats : list txc_stats_stat_t;
  tx_stats : option txc_hash_table_t;
  th_next : option Z;
  th_prev : option Z;
  th_txd : Z;
}.

(** [struct txc_statsmgr_s] *)
Record txc_statsmgr_t := StatsMgr {
  sm_mutex : bool;
  alloc_threadstat_num : Z;
  alloc_threadstat_list_head : option Z;
  alloc_threadstat_list_tail : option Z;
}.

(** The objects, and the next address [malloc] gives. *)
Record stats_st := StatsSt {
  st_mgr : txc_statsmgr_t;
  st_threads : gmap Z txc_stats_threadstat_t;
  st_txstats : gmap Z txc_stats_txstat_t;
  st_brk : Z;
}.

Definition set_mgr g s := StatsSt g (st_threads s) (st_txstats s) (st_brk s).
Definition set_threads t s := StatsSt (st_mgr s) t (st_txstats s) (st_brk s).
Definition set_txstats t s := StatsSt (st_mgr s) (st_threads s) t (st_brk s).

Definition th_set_stats c l t := ThreadStat c l (tx_stats t) (th_next t) (th_prev t) (th_txd t).
Definition th_set_table h t := ThreadStat (th_count t) (th_stats t) h (th_next t) (th_prev t) (th_txd t).
Definition th_set_next n t := ThreadStat (th_count t) (th_stats t) (tx_stats t) n (th_prev t) (th_txd t).
Definition th_set_prev p t := ThreadStat (th_count t) (th_stats t) (tx_stats t) (th_next t) p (th_txd t).
Definition th_set_txd x t := ThreadStat (th_count t) (th_stats t) (tx_stats t) (th_next t) (th_prev t) x.
Definition ts_set_stats c l t := TxStat (srcloc_str t) (srcloc t) c l.

Definition th_get (p : Z) : M stats_st txc_stats_threadstat_t := do s <- m_get ;; m_deref (st_threads s !! p).
Definition th_upd (p : Z) f : M stats_st unit :=
  do t <- th_get p ;; m_modify (fun s => set_threads (<[p := f t]> (st_threads s)) s).
Definition ts_get (p : Z) : M stats_st txc_stats_txstat_t := do s <- m_get ;; m_deref (st_txstats s !! p).
Definition ts_upd (p : Z) f : M stats_st unit :=
  do t <- ts_get p ;; m_modify (fun s => set_txstats (<[p := f t]> (st_txstats s)) s).

(** [MALLOC]: null when it is refused; the contents are [stale]. *)
Definition malloc_thread (ok : bool) (stale : txc_stats_threadstat_t) : M stats_st (option Z) :=
  if ok then
    do s <- m_get ;;
    m_put (StatsSt (st_mgr s) (<[st_brk s := stale]> (st_threads s)) (st_txstats s) (st_brk s + 1)) ;;;
    m_ret (Some (st_brk s))
  else m_ret None.
Definition malloc_txstat (ok : bool) (stale : txc_stats_txstat_t) : M stats_st (option Z) :=
  if ok then
    do s <- m_get ;;
    m_put (StatsSt (st_mgr s) (st_threads s) (<[st_brk s := stale]> (st_txstats s)) (st_brk s + 1)) ;;;
    m_ret (Some (st_brk s))
  else m_ret None.

(** An operation on the hash table of a thread. *)
Definition in_table {A} (th : Z) (m : M txc_hash_table_t A) : M stats_st A :=
  do t <- th_get th ;;
  do h <- m_deref (tx_stats t) ;;
  m_zoom (fun _ => h)
    (fun h s => set_threads (alter (th_set_table (Some h)) th (st_threads s)) s) m.

(** ** Creation *)

Definition txc_statsmgr_create (ok : bool) (s : stats_st) : Z * stats_st :=
  if ok then (TXC_R_SUCCESS, set_mgr (StatsMgr false 0 None None) s) else (TXC_R_NOMEMORY, s).

(** [min] starts at [0xFFFFFFFF]. *)
Definition new_stats : list txc_stats_stat_t := replicate txc_stats_numofstats (Stat 0 (2 ^ 32 - 1) 0).

(** The thread's statistics go to the end of the list; the [next] of one that is
    not the first is left as [malloc] gave it. *)
Definition threadstat_link (p : Z) : M stats_st unit :=
  do s <- m_get ;;
  let g := st_mgr s in
  if sm_mutex g then m_block else
  match alloc_threadstat_list_head g with
  | None =>
      th_upd p (fun t => th_set_prev None (th_set_next None t)) ;;;
      m_modify (set_mgr (StatsMgr false (u32 (alloc_threadstat_num g + 1)) (Some p) (Some p)))
  | Some head =>
      do tail <- m_deref (alloc_threadstat_list_tail g) ;;
      th_upd tail (th_set_next (Some p)) ;;;
      th_upd p (th_set_prev (Some tail)) ;;;
      m_modify (set_mgr (StatsMgr false (u32 (alloc_threadstat_num g + 1)) (Some head) (Some p)))
  end.

(** [h] is what [txc_hash_table_create] leaves in [tx_stats]. *)
Definition txc_stats_threadstat_create (ok : bool) (stale : txc_stats_threadstat_t) (m_hp m_tbl : option Z) (txd : Z)
    : M stats_st Z :=
  do p <- malloc_thread ok stale ;;
  do p <- m_deref p ;;
  threadstat_link p ;;;
  th_upd p (fun t => th_set_txd txd (th_set_stats 0 (th_stats t) t)) ;;;
  let h := snd (txc_hash_table_create m_hp m_tbl 512 false) in
  th_upd p (th_set_table h) ;;;
  th_upd p (th_set_stats 0 new_stats) ;;;
  m_ret p.

Definition txc_stats_txstat_create (ok : bool) (stale : txc_stats_txstat_t) : M stats_st Z :=
  do p <- malloc_txstat ok stale ;;
  do p <- m_deref p ;;
  ts_upd p (fun t => ts_set_stats 0 (ts_stats t) t) ;;;
  m_ret p.

(** ** Counting *)

Definition stats_txstat_reset (txstat : Z) : M stats_st unit :=
  ts_upd txstat (fun t => ts_set_stats (ts_count t) new_stats t).

(** With [statistics] disabled nothing is done. *)
Definition txc_stats_txstat_init (statistics : bool) (txstat str : Z) (loc : txc_tx_srcloc_t) : M stats_st Z :=
  m_when statistics (
    ts_upd txstat (fun t => TxStat str loc 1 (ts_stats t)) ;;;
    stats_txstat_reset txstat) ;;;
  m_ret TXC_R_SUCCESS.

Definition txc_stats_txstat_get (txstat : Z) (entry : nat) : M stats_st Z :=
  do t <- ts_get txstat ;;
  do x <- m_deref (ts_stats t !! entry) ;;
  m_ret (stat_total x).
Definition txc_stats_txstat_set (txstat : Z) (entry : nat) (val : Z) : M stats_st unit :=
  do t <- ts_get txstat ;;
  do x <- m_deref (ts_stats t !! entry) ;;
  ts_upd txstat (fun t => ts_set_stats (ts_count t)
    (<[entry := Stat (stat_max x) (stat_min x) (u32 val)]> (ts_stats t)) t).

(** [txc_stats_txstat_increment_XCALL] and [_decrement_XCALL] *)
Definition txc_stats_txstat_increment (statistics : bool) (txstat : Z) (entry : nat) (val : Z) : M stats_st unit :=
  m_when statistics (do x <- txc_stats_txstat_get txstat entry ;; txc_stats_txstat_set txstat entry (x + val)).
Definition txc_stats_txstat_decrement (statistics : bool) (txstat : Z) (entry : nat) (val : Z) : M stats_st unit :=
  m_when statistics (do x <- txc_stats_txstat_get txstat entry ;; txc_stats_txstat_set txstat entry (x - val)).

(** ** Collecting *)

(** The container of the transaction's source location in a thread's table; it is
    made when there is none. [ok] is what [MALLOC] grants, for the container and
    for the table's bucket. *)
Definition stats_get_txstat_container (ok1 ok2 : bool) (stale : txc_stats_txstat_t) (th txstat : Z) : M stats_st Z :=
  do t <- ts_get txstat ;;
  do '(r, v) <- in_table th (txc_hash_table_lookup (srcloc_str t)) ;;
  if bool_decide (r = TXC_R_SUCCESS) then m_deref v
  else
    do c <- malloc_txstat ok1 stale ;;
    do c <- m_deref c ;;
    stats_txstat_reset c ;;;
    ts_upd c (fun x => TxStat (srcloc_str t) (srcloc t) 0 (ts_stats x)) ;;;
    do _ <- in_table th (txc_hash_table_add ok2 (srcloc_str t) c) ;;
    m_ret c.

(** A transaction's counts added to a total: [min] and [max] are of its count. *)
Definition add_sample (acc x : txc_stats_stat_t) : txc_stats_stat_t :=
  Stat (Z.max (stat_max acc) (stat_total x)) (Z.min (stat_min acc) (stat_total x)) (u32 (stat_total acc + stat_total x)).

(** [txd->txstat] and [txd->threadstat] are [txstat] and [th]. *)
Definition statsmgr_commit_action (ok1 ok2 : bool) (stale : txc_stats_txstat_t) (txstat th : Z) : M stats_st unit :=
  do txstat_all <- stats_get_txstat_container ok1 ok2 stale th txstat ;;
  do t <- ts_get txstat ;;
  ts_upd txstat_all (fun a => ts_set_stats (u32 (ts_count a + 1)) (zip_with add_sample (ts_stats a) (ts_stats t)) a) ;;;
  th_upd th (fun a => th_set_stats (u32 (th_count a + 1)) (zip_with add_sample (th_stats a) (ts_stats t)) a).

Definition statsmgr_undo_action (txstat : Z) : M stats_st unit := stats_txstat_reset txstat.

(** ** The report *)

(** Totals added to totals. *)
Definition add_totals (acc x : txc_stats_stat_t) : txc_stats_stat_t :=
  Stat (Z.max (stat_max acc) (stat_max x)) (Z.min (stat_min acc) (stat_min x)) (u32 (stat_total acc + stat_total x)).

(** One static transaction of a thread, added to [summary]. *)
Definition summarize_txstat (ok1 ok2 : bool) (stale : txc_stats_txstat_t) (summary txstat : Z) : M stats_st unit :=
  do c <- stats_get_txstat_container ok1 ok2 stale summary txstat ;;
  do t <- ts_get txstat ;;
  ts_upd c (fun a => ts_set_stats (u32 (ts_count a + ts_count t)) (zip_with add_totals (ts_stats a) (ts_stats t)) a) ;;;
  th_upd summary (fun a => th_set_stats (u32 (th_count a + ts_count t)) (zip_with add_totals (th_stats a) (ts_stats t)) a).

(** The list is followed through [next]. *)
Fixpoint stats_summarize_all (fuel : nat) (ok1 ok2 : bool) (stale : txc_stats_txstat_t) (threadstat : option Z) (summary : Z)
    : M stats_st unit :=
  match fuel with
  | O => m_nofuel
  | S fuel =>
      match threadstat with
      | None => m_ret tt
      | Some p =>
          do t <- th_get p ;;
          do h <- m_deref (tx_stats t) ;;
          do l <- m_deref (hash_table_entries h) ;;
          m_iter (fun '(_, txstat) => summarize_txstat ok1 ok2 stale summary txstat) l ;;;
          do t <- th_get p ;;
          stats_summarize_all fuel ok1 ok2 stale (th_next t) summary
      end
  end.

(** The grand total [txc_stats_print] prints: [summary] is the address of its
    local variable, whose [min] starts at 0. *)
Definition grand_total (fuel : nat) (ok1 ok2 : bool) (stale : txc_stats_txstat_t) (m_hp m_tbl : option Z) (summary : Z)
    : M stats_st (Z * list txc_stats_stat_t) :=
  do s <- m_get ;;
  let h := snd (txc_hash_table_create m_hp m_tbl 512 false) in
  m_modify (fun s => set_threads (<[summary :=
    ThreadStat 0 (replicate txc_stats_numofstats (Stat 0 0 0)) h None None 0]> (st_threads s)) s) ;;;
  stats_summarize_all fuel ok1 ok2 stale (alloc_threadstat_list_head (st_mgr s)) summary ;;;
  do t <- th_get summary ;;
  m_ret (th_count t, th_stats t).

(** ** What is collected *)

(** The maximum, minimum and sum, on 32 bits, of a count over transactions. *)
Definition summary_of (hs : list (list Z)) (i : nat) : txc_stats_stat_t :=
  let col := map (fun h => nth i h 0) hs in
  Stat (foldr Z.max 0 col) (foldr Z.min (2 ^ 32 - 1) col) (u32 (foldr Z.add 0 col)).
Definition tally (hs : list (list Z)) : list txc_stats_stat_t := map (summary_of hs) (seq 0 txc_stats_numofstats).

(** The transactions of a source location. A transaction is its location's string
    and its counts. *)
Definition of_key (k : Z) (hist : list (Z * list Z)) : list (list Z) := map snd (filter (fun p => p.1 = k) hist).

Lemma u32_add_l a b : u32 (u32 a + b) = u32 (a + b).
Proof. unfold u32. by rewrite Zplus_mod_idemp_l. Qed.

Lemma foldr_snoc_max l x : foldr Z.max 0 (l ++ [x]) = Z.max (foldr Z.max 0 l) x \/ x < 0.
Proof. destruct (decide (x < 0)); [by right|left]. induction l as [|y l IH]; simpl; lia. Qed.

Lemma foldr_snoc_min l x b : x <= b -> foldr Z.min b (l ++ [x]) = Z.min (foldr Z.min b l) x.
Proof. intros Hx. induction l as [|y l IH]; simpl; lia. Qed.

Lemma foldr_snoc_add l x : foldr Z.add 0 (l ++ [x]) = foldr Z.add 0 l + x.
Proof. induction l as [|y l IH]; simpl; lia. Qed.

(** Counts of one transaction: one 32-bit number per statistic. *)
Definition counts (x : list Z) : Prop := length x = txc_stats_numofstats /\ Forall (fun v => 0 <= v < 2 ^ 32) x.

Lemma summary_snoc hs x i v : x !! i = Some v -> 0 <= v < 2 ^ 32 ->
  summary_of (hs ++ [x]) i =
  Stat (Z.max (stat_max (summary_of hs i)) v) (Z.min (stat_min (summary_of hs i)) v) (u32 (stat_total (summary_of hs i) + v)).
Proof.
  intros Hi Hv. unfold summary_of. rewrite map_app. cbn [map stat_max stat_min stat_total].
  rewrite (nth_lookup_Some x i 0 v Hi).
  destruct (foldr_snoc_max (map (fun h => nth i h 0) hs) v) as [->|]; [|lia].
  rewrite foldr_snoc_min, foldr_snoc_add, u32_add_l by lia. done.
Qed.

Lemma tally_snoc hs st : counts (map stat_total st) -> zip_with add_sample (tally hs) st = tally (hs ++ [map stat_total st]).
Proof.
  intros [Hlen Hst]. rewrite length_map in Hlen. apply list_eq. intros i. unfold tally.
  rewrite lookup_zip_with, !list_lookup_fmap. destruct (decide (i < txc_stats_numofstats)%nat) as [Hi|Hi].
  - rewrite lookup_seq_lt by done. simpl. destruct (lookup_lt_is_Some_2 st i) as [y Hy]; [lia|]. rewrite Hy. simpl.
    assert (map stat_total st !! i = Some (stat_total y)) as Hm by (by rewrite list_lookup_fmap, Hy).
    rewrite (summary_snoc _ _ _ _ Hm); [done|]. exact (Forall_lookup_1 _ _ _ _ Hst Hm).
  - rewrite lookup_seq_ge by lia. done.
Qed.

Lemma tally_nil : tally [] = new_stats.
Proof. reflexivity. Qed.

Lemma of_key_snoc k hist s x : of_key k (hist ++ [(s, x)]) = of_key k hist ++ (if decide (s = k) then [x] else []).
Proof.
  unfold of_key. rewrite filter_app, map_app. f_equal.
  case_decide; [by rewrite filter_cons_True|by rewrite filter_cons_False].
Qed.

(** The container of a key: its count and totals are of the transactions [l]. *)
Definition container (s : stats_st) (txstat k c : Z) (l : list (list Z)) : Prop :=
  c <> txstat /\ c < st_brk s /\
  exists a, st_txstats s !! c = Some a /\ srcloc_str a = k /\ ts_count a = u32 (Z.of_nat (length l)) /\ ts_stats a = tally l.

(** A thread [th] whose descriptor counts in [txstat] has collected [hist]. While
    an action runs the container of one more key ([extra]) may be there. *)
Record collected (extra : option Z) (txstat th : Z) (hist : list (Z * list Z)) (m : gmap Z Z) (s : stats_st) : Prop := {
  co_thread : exists t h, st_threads s !! th = Some t /\ tx_stats t = Some h /\ ht_rep h m /\
    th_count t = u32 (Z.of_nat (length hist)) /\ th_stats t = tally (map snd hist);
  co_some k c : m !! k = Some c -> (of_key k hist <> [] \/ extra = Some k) /\ container s txstat k c (of_key k hist);
  co_none k : m !! k = None -> of_key k hist = [];
  co_txstat : txstat < st_brk s;
  co_keys : Forall (fun p => 0 <= p.1 < 2 ^ 32) hist;
}.

Lemma th_get_run s p t : st_threads s !! p = Some t -> th_get p s = Ret t s.
Proof. unfold th_get, m_bind, m_get, m_deref. by intros ->. Qed.
Lemma ts_get_run s p t : st_txstats s !! p = Some t -> ts_get p s = Ret t s.
Proof. unfold ts_get, m_bind, m_get, m_deref. by intros ->. Qed.
Lemma th_upd_run s p t f : st_threads s !! p = Some t -> th_upd p f s = Ret tt (set_threads (<[p := f t]> (st_threads s)) s).
Proof. intros H. unfold th_upd. by rewrite (m_bind_run _ _ _ _ _ (th_get_run _ _ _ H)). Qed.
Lemma ts_upd_run s p t f : st_txstats s !! p = Some t -> ts_upd p f s = Ret tt (set_txstats (<[p := f t]> (st_txstats s)) s).
Proof. intros H. unfold ts_upd. by rewrite (m_bind_run _ _ _ _ _ (ts_get_run _ _ _ H)). Qed.

Lemma in_table_run {A} (m : M txc_hash_table_t A) s th t h a h' :
  st_threads s !! th = Some t -> tx_stats t = Some h -> m h = Ret a h' ->
  in_table th m s = Ret a (set_threads (<[th := th_set_table (Some h') t]> (st_threads s)) s).
Proof.
  intros Ht Hh Hm. unfold in_table. rewrite (m_bind_run _ _ _ _ _ (th_get_run _ _ _ Ht)).
  rewrite Hh. unfold m_bind at 1, m_deref, m_ret. unfold m_zoom. rewrite Hm.
  f_equal. f_equal. apply map_eq. intros i. destruct (decide (i = th)) as [->|].
  - rewrite lookup_alter_eq, lookup_insert_eq, Ht. done.
  - rewrite lookup_alter_ne, lookup_insert_ne by done. done.
Qed.

Lemma th_set_table_id t h : tx_stats t = Some h -> th_set_table (Some h) t = t.
Proof. destruct t; simpl. by intros ->. Qed.

(** There is no container: one is made, empty, and the table has it. *)
Lemma container_new txstat th m s stale t tt h :
  st_txstats s !! txstat = Some t -> 0 <= srcloc_str t < 2 ^ 32 -> st_threads s !! th = Some tt -> tx_stats tt = Some h ->
  ht_rep h m -> m !! srcloc_str t = None ->
  exists h', ht_rep h' (<[srcloc_str t := st_brk s]> m) /\
    stats_get_txstat_container true true stale th txstat s = Ret (st_brk s)
      (StatsSt (st_mgr s) (<[th := th_set_table (Some h') tt]> (st_threads s))
        (<[st_brk s := TxStat (srcloc_str t) (srcloc t) 0 new_stats]> (st_txstats s)) (st_brk s + 1)).
Proof.
  intros Ht Hk Hth Htab Hrep Hm. assert (u32 (srcloc_str t) = srcloc_str t) as Hu by (by apply u32_small).
  unfold stats_get_txstat_container. rewrite (m_bind_run _ _ _ _ _ (ts_get_run _ _ _ Ht)).
  pose proof (lookup_run h m (srcloc_str t) Hrep) as Hl. rewrite Hu, Hm in Hl.
  rewrite (m_bind_run _ _ _ _ _ (in_table_run _ _ _ _ _ _ _ Hth Htab Hl)).
  rewrite (th_set_table_id _ _ Htab), (insert_id (st_threads s)) by done.
  assert (set_threads (st_threads s) s = s) as -> by (by destruct s).
  rewrite bool_decide_eq_false_2 by done. unfold malloc_txstat. rewrite m_bind_assoc.
  set (c := st_brk s). set (a := TxStat (srcloc_str t) (srcloc t) 0 new_stats).
  set (s1 := StatsSt (st_mgr s) (st_threads s) (<[c := stale]> (st_txstats s)) (c + 1)).
  destruct (add_new_run h m (srcloc_str t) c Hrep) as (h' & Hadd & Hrep' & _); [by rewrite Hu|]. rewrite Hu in Hrep'.
  exists h'. split; [done|].
  unfold m_bind at 1, m_get. unfold m_bind at 1, m_put. fold c. fold s1. unfold m_bind at 1, m_ret at 1.
  unfold m_bind at 1, m_deref at 1, m_ret at 1.
  assert (st_txstats s1 !! c = Some stale) as Hs1 by apply lookup_insert_eq.
  unfold stats_txstat_reset. rewrite (m_bind_run _ _ _ _ _ (ts_upd_run _ _ _ _ Hs1)).
  match goal with |- m_bind (ts_upd _ _) _ ?x = _ => set (s3 := x) end.
  assert (st_txstats s3 !! c = Some (ts_set_stats (ts_count stale) new_stats stale)) as Hs3 by apply lookup_insert_eq.
  rewrite (m_bind_run _ _ _ _ _ (ts_upd_run _ _ _ _ Hs3)).
  match goal with |- m_bind _ _ ?x = _ => assert (x = StatsSt (st_mgr s) (st_threads s) (<[c := a]> (st_txstats s)) (c + 1)) as -> end.
  { unfold s3, s1, set_txstats. simpl. by rewrite !insert_insert_eq. }
  by rewrite (m_bind_run _ _ _ _ _ (in_table_run _ (StatsSt (st_mgr s) (st_threads s) (<[c := a]> (st_txstats s)) (c + 1)) th tt h TXC_R_SUCCESS h' Hth Htab Hadd)).
Qed.

(** The container is found, or made empty. *)
Lemma container_run txstat th hist m s stale t :
  collected None txstat th hist m s -> st_txstats s !! txstat = Some t -> 0 <= srcloc_str t < 2 ^ 32 ->
  exists c s' m', stats_get_txstat_container true true stale th txstat s = Ret c s' /\
    collected (Some (srcloc_str t)) txstat th hist m' s' /\ m' !! srcloc_str t = Some c /\
    st_txstats s' !! txstat = Some t.
Proof.
  intros Hc Ht Hk. pose proof (co_thread _ _ _ _ _ _ Hc) as (tt & h & Hth & Htab & Hrep & Hcnt & Hst).
  destruct (m !! srcloc_str t) as [c|] eqn:Hm.
  - exists c, s, m. split_and!; [| |done|done].
    + unfold stats_get_txstat_container. rewrite (m_bind_run _ _ _ _ _ (ts_get_run _ _ _ Ht)).
      pose proof (lookup_run h m (srcloc_str t) Hrep) as Hl. rewrite u32_small, Hm in Hl by done.
      rewrite (m_bind_run _ _ _ _ _ (in_table_run _ _ _ _ _ _ _ Hth Htab Hl)).
      rewrite (th_set_table_id _ _ Htab), (insert_id (st_threads s)) by done.
      by assert (set_threads (st_threads s) s = s) as -> by (by destruct s).
    + destruct Hc as [H1 H2 H3 H4 H5]. split; try done.
      intros k c' Hc'. destruct (H2 k c' Hc') as [[?|?] ?]; [by split; [left|]|done].
  - destruct (container_new txstat th m s stale t tt h Ht Hk Hth Htab Hrep Hm) as (h' & Hrep' & E).
    set (c := st_brk s) in *. set (a := TxStat (srcloc_str t) (srcloc t) 0 new_stats) in *.
    assert (txstat < c) as Hlt by apply (co_txstat _ _ _ _ _ _ Hc).
    match type of E with _ = Ret _ ?x => set (s2 := x) in E end.
    exists c, s2, (<[srcloc_str t := c]> m).
    assert (st_txstats s2 !! c = Some a) as Hc2 by apply lookup_insert_eq.
    assert (forall i, i <> c -> st_txstats s2 !! i = st_txstats s !! i) as Hne by (intros i Hi; by apply lookup_insert_ne).
    split_and!; [exact E| |apply lookup_insert_eq|by rewrite Hne by lia].
    destruct Hc as [H1 H2 H3 H4 H5]. split.
    + exists (th_set_table (Some h') tt), h'. split_and!; [apply lookup_insert_eq|done|done|done|done].
    + intros k c' Hc'. destruct (decide (k = srcloc_str t)) as [->|Hkk].
      * rewrite lookup_insert_eq in Hc'. injection Hc' as <-. split; [by right|].
        rewrite (H3 _ Hm). split_and!; [lia|simpl; lia|]. exists a. split_and!; try done.
      * rewrite lookup_insert_ne in Hc' by done. destruct (H2 k c' Hc') as [[?|?] (Hx & Hy & Hz)]; [|done].
        split; [by left|]. split_and!; [done|simpl; fold c in Hy; lia|]. rewrite Hne; [done|]. fold c in Hy. lia.
    + intros k Hkn. apply H3. by apply lookup_insert_None in Hkn as [? _].
    + simpl. fold c. lia.
    + done.
Qed.

(** The commit action: the transaction's counts go to its container and to the
    thread. *)
Lemma commit_run txstat th hist m s stale t :
  collected None txstat th hist m s -> st_txstats s !! txstat = Some t -> 0 <= srcloc_str t < 2 ^ 32 ->
  counts (map stat_total (ts_stats t)) ->
  exists s' m', statsmgr_commit_action true true stale txstat th s = Ret tt s' /\
    collected None txstat th (hist ++ [(srcloc_str t, map stat_total (ts_stats t))]) m' s' /\ st_txstats s' !! txstat = Some t.
Proof.
  intros Hc Ht Hk Hx. destruct (container_run _ _ _ _ _ stale _ Hc Ht Hk) as (c & s1 & m1 & E1 & Hc1 & Hm1 & Ht1).
  clear Hc Ht. destruct Hc1 as [(tt & h & Hth & Htab & Hrep & Hcnt & Hst) H2 H3 H4 H5].
  destruct (H2 _ _ Hm1) as [_ (Hcne & Hcb & a & Ha & Hak & Han & Hat)].
  unfold statsmgr_commit_action. rewrite (m_bind_run _ _ _ _ _ E1), (m_bind_run _ _ _ _ _ (ts_get_run _ _ _ Ht1)).
  rewrite (m_bind_run _ _ _ _ _ (ts_upd_run _ _ _ _ Ha)).
  set (a' := ts_set_stats (u32 (ts_count a + 1)) (zip_with add_sample (ts_stats a) (ts_stats t)) a).
  set (s2 := set_txstats (<[c := a']> (st_txstats s1)) s1).
  rewrite (th_upd_run s2 th tt _ Hth). eexists _, m1. split; [reflexivity|].
  assert (st_txstats s2 !! txstat = Some t) as Ht2 by (simpl; by rewrite lookup_insert_ne).
  split; [|done]. split.
  - eexists _, h. split_and!; [apply lookup_insert_eq|done|done| |].
    + simpl. rewrite Hcnt, u32_add_l, length_app. f_equal. simpl. lia.
    + simpl. rewrite Hst, tally_snoc, map_app by done. done.
  - intros k c' Hk'. destruct (H2 k c' Hk') as [Hne (Hx1 & Hx2 & b & Hb & Hbk & Hbn & Hbt)]. rewrite of_key_snoc.
    destruct (decide (k = srcloc_str t)) as [->|Hkk].
    + rewrite Hm1 in Hk'. injection Hk' as <-. rewrite decide_True by done. split; [left; by destruct (of_key _ _)|].
      split_and!; [done|done|]. exists a'. split_and!.
      * simpl. apply lookup_insert_eq.
      * done.
      * simpl. rewrite Han, u32_add_l, length_app. f_equal. simpl. lia.
      * simpl. rewrite Hat. by apply tally_snoc.
    + rewrite decide_False, app_nil_r by congruence. split; [left; destruct Hne as [?|E]; [done|by injection E]|].
      split_and!; [done|done|]. exists b. split_and!; try done. simpl. rewrite lookup_insert_ne; [done|].
      intros ->. rewrite Ha in Hb. injection Hb as ->. congruence.
  - intros k Hkn. rewrite of_key_snoc, H3 by done. rewrite decide_False; [done|]. intros <-. congruence.
  - done.
  - apply Forall_app. split; [done|]. by apply Forall_singleton.
Qed.

(** ** Counting *)

(** The counts of a transaction that does [incs]. *)
Definition count_one (x : list Z) (inc : nat * Z) : list Z := alter (fun z => u32 (z + inc.2)) inc.1 x.
Definition counts_of (incs : list (nat * Z)) : list Z := foldl count_one (replicate txc_stats_numofstats 0) incs.
Definition valid_incs (incs : list (nat * Z)) : Prop := Forall (fun inc => (inc.1 < txc_stats_numofstats)%nat) incs.

Definition count_all (txstat : Z) (incs : list (nat * Z)) : M stats_st unit :=
  m_iter (fun '(entry, val) => txc_stats_txstat_increment true txstat entry val) incs.

(** The threads and the other counts are as they were. *)
Definition only_txstat (txstat : Z) (t : txc_stats_txstat_t) (s s' : stats_st) : Prop :=
  s' = set_txstats (<[txstat := t]> (st_txstats s)) s.

Lemma only_txstat_trans txstat t1 t2 s1 s2 s3 :
  only_txstat txstat t1 s1 s2 -> only_txstat txstat t2 s2 s3 -> only_txstat txstat t2 s1 s3.
Proof. unfold only_txstat. intros -> ->. unfold set_txstats. simpl. by rewrite insert_insert_eq. Qed.

Lemma collected_only txstat th hist m s s' t :
  collected None txstat th hist m s -> only_txstat txstat t s s' -> collected None txstat th hist m s'.
Proof.
  intros [H1 H2 H3 H4 H5] ->. split; try done. intros k c Hk. destruct (H2 k c Hk) as [? (Hx & Hy & a & Ha & ?)].
  split; [done|]. split_and!; [done|done|]. exists a. simpl. by rewrite lookup_insert_ne.
Qed.

Lemma count_one_length x inc : length (count_one x inc) = length x.
Proof. apply length_alter. Qed.

Lemma count_one_counts x inc : counts x -> counts (count_one x inc).
Proof.
  intros [Hl Hx]. split; [by rewrite count_one_length|]. apply Forall_alter; [done|]. intros z _ _. apply u32_range.
Qed.

Lemma counts_of_counts incs : counts (counts_of incs).
Proof.
  unfold counts_of. assert (counts (replicate txc_stats_numofstats 0)) as H by (split; [done|]; by apply Forall_replicate).
  revert H. generalize (replicate txc_stats_numofstats 0). induction incs as [|inc incs IH]; intros x Hx; simpl; [done|].
  by apply IH, count_one_counts.
Qed.

Lemma count_all_run txstat incs s t : st_txstats s !! txstat = Some t -> length (ts_stats t) = txc_stats_numofstats ->
  valid_incs incs ->
  exists s' t', count_all txstat incs s = Ret tt s' /\ only_txstat txstat t' s s' /\
    srcloc_str t' = srcloc_str t /\ map stat_total (ts_stats t') = foldl count_one (map stat_total (ts_stats t)) incs /\
    length (ts_stats t') = txc_stats_numofstats.
Proof.
  intros Ht Hl Hv. revert s t Ht Hl. induction Hv as [|[e v] incs He Hv IH]; intros s t Ht Hl; unfold count_all; cbn [m_iter foldl].
  { exists s, t. split_and!; try done. unfold only_txstat. destruct s; unfold set_txstats; simpl in *. by rewrite insert_id. }
  simpl in He. destruct (lookup_lt_is_Some_2 (ts_stats t) e) as [x Hx]; [lia|].
  set (t1 := ts_set_stats (ts_count t) (<[e := Stat (stat_max x) (stat_min x) (u32 (stat_total x + v))]> (ts_stats t)) t).
  set (s1 := set_txstats (<[txstat := t1]> (st_txstats s)) s).
  assert (txc_stats_txstat_increment true txstat e v s = Ret tt s1) as E.
  { unfold txc_stats_txstat_increment, m_when, txc_stats_txstat_get. rewrite m_bind_assoc, (m_bind_run _ _ _ _ _ (ts_get_run _ _ _ Ht)).
    rewrite Hx. unfold m_bind at 1, m_deref, m_ret. unfold m_bind at 1.
    unfold txc_stats_txstat_set. rewrite (m_bind_run _ _ _ _ _ (ts_get_run _ _ _ Ht)). rewrite Hx.
    unfold m_bind at 1, m_deref, m_ret. by rewrite (ts_upd_run _ _ _ _ Ht). }
  destruct (IH s1 t1) as (s' & t' & E' & Ho & Hk & Hm & Hl').
  { apply lookup_insert_eq. } { simpl. by rewrite length_insert. }
  exists s', t'. split_and!; [by rewrite (m_bind_run _ _ _ _ _ E); exact E'|by eapply only_txstat_trans|done| |done].
  rewrite Hm. f_equal. simpl. unfold count_one. simpl. apply list_eq. intros i. rewrite list_lookup_fmap.
  destruct (decide (i = e)) as [->|].
  - rewrite list_lookup_insert_eq, list_lookup_alter_eq, list_lookup_fmap, Hx by lia. done.
  - by rewrite list_lookup_insert_ne, list_lookup_alter_ne, list_lookup_fmap.
Qed.

(** A transaction: attempts that abort, and one that commits. *)
Record tx_run := TxRun { r_str : Z; r_loc : txc_tx_srcloc_t; r_aborted : list (list (nat * Z)); r_incs : list (nat * Z) }.

Definition run_attempt (txstat : Z) (incs : list (nat * Z)) : M stats_st unit :=
  count_all txstat incs ;;; statsmgr_undo_action txstat.
Definition run_tx (stale : txc_stats_txstat_t) (txstat th : Z) (r : tx_run) : M stats_st unit :=
  do _ <- txc_stats_txstat_init true txstat (r_str r) (r_loc r) ;;
  m_iter (run_attempt txstat) (r_aborted r) ;;;
  count_all txstat (r_incs r) ;;;
  statsmgr_commit_action true true stale txstat th.
Definition valid_run (r : tx_run) : Prop :=
  0 <= r_str r < 2 ^ 32 /\ Forall valid_incs (r_aborted r) /\ valid_incs (r_incs r).

(** The counts start from zero. *)
Definition fresh (txstat k : Z) (s : stats_st) : Prop :=
  exists t, st_txstats s !! txstat = Some t /\ srcloc_str t = k /\ ts_stats t = new_stats.

Lemma attempts_run txstat k attempts s : Forall valid_incs attempts -> fresh txstat k s ->
  exists s' t, m_iter (run_attempt txstat) attempts s = Ret tt s' /\ only_txstat txstat t s s' /\ fresh txstat k s'.
Proof.
  intros Hv. revert s. induction Hv as [|incs attempts Hi Hv IH]; intros s (t & Ht & Hk & Hn); simpl.
  { exists s, t. split_and!; [done| |by exists t]. unfold only_txstat. destruct s; unfold set_txstats; simpl in *. by rewrite insert_id. }
  destruct (count_all_run txstat incs s t Ht) as (s1 & t1 & E1 & Ho1 & Hk1 & _ & _); [by rewrite Hn|done|].
  assert (st_txstats s1 !! txstat = Some t1) as Ht1 by (rewrite Ho1; apply lookup_insert_eq).
  set (t2 := ts_set_stats (ts_count t1) new_stats t1). set (s2 := set_txstats (<[txstat := t2]> (st_txstats s1)) s1).
  assert (run_attempt txstat incs s = Ret tt s2) as E2.
  { unfold run_attempt, statsmgr_undo_action, stats_txstat_reset. rewrite (m_bind_run _ _ _ _ _ E1). by rewrite (ts_upd_run _ _ _ _ Ht1). }
  destruct (IH s2) as (s3 & t3 & E3 & Ho3 & Hf3).
  { exists t2. split_and!; [apply lookup_insert_eq|simpl; by rewrite Hk1|done]. }
  exists s3, t3. split_and!; [by rewrite (m_bind_run _ _ _ _ _ E2)| |done].
  eapply only_txstat_trans; [|exact Ho3]. eapply only_txstat_trans; [exact Ho1|]. reflexivity.
Qed.

Lemma tx_run_collected stale txstat th hist m s r :
  collected None txstat th hist m s -> is_Some (st_txstats s !! txstat) -> valid_run r ->
  exists s' m', run_tx stale txstat th r s = Ret tt s' /\
    collected None txstat th (hist ++ [(r_str r, counts_of (r_incs r))]) m' s' /\ is_Some (st_txstats s' !! txstat).
Proof.
  intros Hc [t0 Ht0] (Hk & Ha & Hi).
  set (t1 := TxStat (r_str r) (r_loc r) 1 new_stats). set (s1 := set_txstats (<[txstat := t1]> (st_txstats s)) s).
  assert (txc_stats_txstat_init true txstat (r_str r) (r_loc r) s = Ret TXC_R_SUCCESS s1) as E1.
  { unfold txc_stats_txstat_init, m_when, stats_txstat_reset. rewrite m_bind_assoc, (m_bind_run _ _ _ _ _ (ts_upd_run _ _ _ _ Ht0)).
    match goal with |- m_bind _ _ ?x = _ => set (sx := x) end.
    assert (st_txstats sx !! txstat = Some (TxStat (r_str r) (r_loc r) 1 (ts_stats t0))) as Hsx by apply lookup_insert_eq.
    rewrite (m_bind_run _ _ _ _ _ (ts_upd_run _ _ _ _ Hsx)). unfold m_ret. f_equal. unfold sx, s1, set_txstats. simpl.
    by rewrite insert_insert_eq. }
  destruct (attempts_run txstat (r_str r) (r_aborted r) s1 Ha) as (s2 & t2 & E2 & Ho2 & (t2' & Ht2 & Hk2 & Hn2)).
  { exists t1. split_and!; [apply lookup_insert_eq|done|done]. }
  destruct (count_all_run txstat (r_incs r) s2 t2' Ht2) as (s3 & t3 & E3 & Ho3 & Hk3 & Hm3 & _); [by rewrite Hn2|done|].
  assert (st_txstats s3 !! txstat = Some t3) as Ht3 by (rewrite Ho3; apply lookup_insert_eq).
  assert (collected None txstat th hist m s3) as Hc3.
  { eapply collected_only; [|exact Ho3]. eapply collected_only; [|exact Ho2]. eapply collected_only; [exact Hc|]. reflexivity. }
  assert (map stat_total (ts_stats t3) = counts_of (r_incs r)) as Hx3 by (by rewrite Hm3, Hn2).
  destruct (commit_run txstat th hist m s3 stale t3 Hc3 Ht3) as (s4 & m4 & E4 & Hc4 & Ht4).
  { by rewrite Hk3, Hk2. } { rewrite Hx3. apply counts_of_counts. }
  exists s4, m4. split_and!; [|by rewrite Hx3, Hk3, Hk2 in Hc4|by exists t3].
  unfold run_tx. rewrite (m_bind_run _ _ _ _ _ E1), (m_bind_run _ _ _ _ _ E2), (m_bind_run _ _ _ _ _ E3). exact E4.
Qed.

(** ** The report *)

Section report.
Context (summary : Z).

Definition zero_min (s : stats_st) : Prop :=
  exists t, st_threads s !! summary = Some t /\ Forall (fun x => stat_min x <= 0) (th_stats t).
Definition keeps_min (s s' : stats_st) : Prop := zero_min s -> zero_min s'.

#[local] Instance keeps_min_preorder : PreOrder keeps_min.
Proof. split; unfold keeps_min; [by intros ?|naive_solver]. Qed.

Lemma ts_get_min p : m_pres keeps_min (ts_get p).
Proof. unfold ts_get. m_pres_auto. Qed.
Lemma th_get_min p : m_pres keeps_min (th_get p).
Proof. unfold th_get. m_pres_auto. Qed.
Lemma ts_upd_min p f : m_pres keeps_min (ts_upd p f).
Proof. pose proof ts_get_min. unfold ts_upd. m_pres_auto. apply m_pres_modify. by intros s Hs. Qed.

Lemma th_upd_min p f :
  (forall t, Forall (fun x => stat_min x <= 0) (th_stats t) -> Forall (fun x => stat_min x <= 0) (th_stats (f t))) ->
  m_pres keeps_min (th_upd p f).
Proof.
  intros Hf s. unfold th_upd, th_get, m_bind, m_get, m_deref. destruct (st_threads s !! p) as [t|] eqn:Hp; [|done].
  intros (t' & Ht' & Hm). unfold zero_min. simpl. destruct (decide (p = summary)) as [->|Hne].
  - rewrite lookup_insert_eq. eexists. split; [reflexivity|]. apply Hf. by simplify_eq.
  - rewrite lookup_insert_ne by done. by exists t'.
Qed.

Lemma malloc_txstat_min ok stale : m_pres keeps_min (malloc_txstat ok stale).
Proof.
  intros s. unfold malloc_txstat. destruct ok; [|by intros Hs]. unfold m_bind, m_get, m_put, m_ret. by intros (t & Ht & Hm); exists t.
Qed.

Lemma in_table_min {A} th (m : M txc_hash_table_t A) : m_pres keeps_min (in_table th m).
Proof.
  unfold in_table. m_pres_step; [apply th_get_min|]. m_pres_step; [m_pres_auto|]. intros s. unfold m_zoom.
  assert (forall h, keeps_min s (set_threads (alter (th_set_table (Some h)) th (st_threads s)) s)) as H.
  { intros h (t & Ht & Hm). unfold zero_min. simpl. destruct (decide (th = summary)) as [->|Hne].
    - rewrite lookup_alter_eq, Ht. by eexists.
    - rewrite lookup_alter_ne by done. by exists t. }
  by destruct (m a0).
Qed.

Lemma container_min ok1 ok2 stale th txstat : m_pres keeps_min (stats_get_txstat_container ok1 ok2 stale th txstat).
Proof.
  pose proof ts_get_min. pose proof ts_upd_min. pose proof malloc_txstat_min. pose proof (@in_table_min).
  unfold stats_get_txstat_container, stats_txstat_reset. m_pres_auto.
Qed.

Lemma zip_min l l' : Forall (fun x => stat_min x <= 0) l -> Forall (fun x => stat_min x <= 0) (zip_with add_totals l l').
Proof. intros Hl. revert l'. induction Hl as [|x l Hx Hl IH]; intros [|y l']; simpl; try done. constructor; [simpl; lia|apply IH]. Qed.

Lemma summarize_min fuel ok1 ok2 stale th : m_pres keeps_min (stats_summarize_all fuel ok1 ok2 stale th summary).
Proof.
  pose proof th_get_min. pose proof container_min. pose proof ts_get_min. pose proof ts_upd_min.
  assert (forall txstat, m_pres keeps_min (summarize_txstat ok1 ok2 stale summary txstat)) as Hs.
  { intros txstat. unfold summarize_txstat. repeat m_pres_step; auto. apply th_upd_min. intros t Ht. by apply zip_min. }
  revert th. induction fuel as [|fuel IH]; intros th; simpl; m_pres_auto.
Qed.
End report.

(** ** The list of the threads *)

Definition created (h : option txc_hash_table_t) (next prev : option Z) (txd : Z) : txc_stats_threadstat_t :=
  ThreadStat 0 new_stats h next prev txd.

Lemma thread_fields_run p s t h txd : st_threads s !! p = Some t ->
  (th_upd p (fun t => th_set_txd txd (th_set_stats 0 (th_stats t) t)) ;;;
   th_upd p (th_set_table h) ;;; th_upd p (th_set_stats 0 new_stats) ;;; m_ret p) s =
  Ret p (set_threads (<[p := created h (th_next t) (th_prev t) txd]> (st_threads s)) s).
Proof.
  intros Hp. rewrite (m_bind_run _ _ _ _ _ (th_upd_run _ _ _ _ Hp)).
  match goal with |- m_bind _ _ ?x = _ => set (x1 := x) end.
  assert (st_threads x1 !! p = Some (th_set_txd txd (th_set_stats 0 (th_stats t) t))) as H1 by apply lookup_insert_eq.
  rewrite (m_bind_run _ _ _ _ _ (th_upd_run _ _ _ _ H1)).
  match goal with |- m_bind _ _ ?x = _ => set (x2 := x) end.
  assert (st_threads x2 !! p = Some (th_set_table h (th_set_txd txd (th_set_stats 0 (th_stats t) t)))) as H2 by apply lookup_insert_eq.
  rewrite (m_bind_run _ _ _ _ _ (th_upd_run _ _ _ _ H2)). unfold m_ret. f_equal. unfold x2, x1, set_threads. simpl.
  by rewrite !insert_insert_eq.
Qed.

(** What [txc_hash_table_create] leaves. *)
Definition new_table (m_hp m_tbl : option Z) : option txc_hash_table_t := snd (txc_hash_table_create m_hp m_tbl 512 false).

Lemma create_first stale m_hp m_tbl txd s :
  st_mgr s = StatsMgr false 0 None None ->
  txc_stats_threadstat_create true stale m_hp m_tbl txd s =
  Ret (st_brk s) (StatsSt (StatsMgr false 1 (Some (st_brk s)) (Some (st_brk s)))
    (<[st_brk s := created (new_table m_hp m_tbl) None None txd]> (st_threads s)) (st_txstats s) (st_brk s + 1)).
Proof.
  intros Hg. set (p := st_brk s). unfold txc_stats_threadstat_create.
  rewrite (m_bind_run _ _ _ _ _ (eq_refl : malloc_thread true stale s = Ret (Some p) (StatsSt (st_mgr s) (<[p := stale]> (st_threads s)) (st_txstats s) (p + 1)))).
  set (s1 := StatsSt _ _ _ _). rewrite (m_bind_run _ _ _ _ _ (eq_refl : m_deref (Some p) s1 = Ret p s1)).
  assert (st_threads s1 !! p = Some stale) as Hp by apply lookup_insert_eq.
  set (t1 := th_set_prev None (th_set_next None stale)).
  assert (threadstat_link p s1 = Ret tt (StatsSt (StatsMgr false 1 (Some p) (Some p)) (<[p := t1]> (st_threads s)) (st_txstats s) (p + 1))) as E.
  { unfold threadstat_link, m_bind at 1, m_get. cbn [st_mgr s1]. rewrite Hg. cbn [sm_mutex alloc_threadstat_list_head alloc_threadstat_num].
    rewrite (m_bind_run _ _ _ _ _ (th_upd_run _ _ _ _ Hp)). unfold m_modify, s1, set_mgr, set_threads. simpl. by rewrite insert_insert_eq. }
  rewrite (m_bind_run _ _ _ _ _ E). cbv zeta. rewrite (thread_fields_run p _ t1); [|apply lookup_insert_eq].
  unfold set_threads. simpl. by rewrite insert_insert_eq.
Qed.

Lemma create_next stale m_hp m_tbl txd s n hd tl t :
  st_mgr s = StatsMgr false n (Some hd) (Some tl) -> st_threads s !! tl = Some t -> tl <> st_brk s ->
  txc_stats_threadstat_create true stale m_hp m_tbl txd s =
  Ret (st_brk s) (StatsSt (StatsMgr false (u32 (n + 1)) (Some hd) (Some (st_brk s)))
    (<[st_brk s := created (new_table m_hp m_tbl) (th_next stale) (Some tl) txd]>
      (<[tl := th_set_next (Some (st_brk s)) t]> (st_threads s))) (st_txstats s) (st_brk s + 1)).
Proof.
  intros Hg Ht Hne. set (p := st_brk s). fold p in Hne. unfold txc_stats_threadstat_create.
  rewrite (m_bind_run _ _ _ _ _ (eq_refl : malloc_thread true stale s = Ret (Some p) (StatsSt (st_mgr s) (<[p := stale]> (st_threads s)) (st_txstats s) (p + 1)))).
  set (s1 := StatsSt _ _ _ _). rewrite (m_bind_run _ _ _ _ _ (eq_refl : m_deref (Some p) s1 = Ret p s1)).
  assert (st_threads s1 !! tl = Some t) as Ht1 by (simpl; by rewrite lookup_insert_ne).
  set (t1 := th_set_prev (Some tl) stale).
  assert (threadstat_link p s1 = Ret tt (StatsSt (StatsMgr false (u32 (n + 1)) (Some hd) (Some p))
    (<[p := t1]> (<[tl := th_set_next (Some p) t]> (st_threads s))) (st_txstats s) (p + 1))) as E.
  { unfold threadstat_link, m_bind at 1, m_get. cbn [st_mgr s1]. rewrite Hg.
    cbn [sm_mutex alloc_threadstat_list_head alloc_threadstat_list_tail alloc_threadstat_num].
    unfold m_deref, m_bind at 1, m_ret. rewrite (m_bind_run _ _ _ _ _ (th_upd_run _ _ _ _ Ht1)).
    match goal with |- m_bind _ _ ?x = _ => set (x1 := x) end.
    assert (st_threads x1 !! p = Some stale) as Hp by (simpl; rewrite lookup_insert_ne by done; apply lookup_insert_eq).
    rewrite (m_bind_run _ _ _ _ _ (th_upd_run _ _ _ _ Hp)). unfold m_modify, x1, s1, set_mgr, set_threads. simpl.
    by rewrite (insert_insert_ne _ tl p), insert_insert_eq. }
  rewrite (m_bind_run _ _ _ _ _ E). cbv zeta. rewrite (thread_fields_run p _ t1); [|apply lookup_insert_eq].
  unfold set_threads. simpl. by rewrite insert_insert_eq.
Qed.

Lemma new_table_empty a b : exists h, new_table (Some a) (Some b) = Some h /\ ht_rep h ∅ /\ hash_table_entries h = Some [].
Proof.
  destruct (create_rep a b 512 false ltac:(lia)) as (h & E & Hr & _). exists h. unfold new_table. rewrite E.
  split_and!; [done|done|]. destruct (entries_run h ∅ Hr) as (l & -> & Hl). f_equal.
  rewrite map_to_list_empty in Hl. by apply Permutation_nil_r in Hl.
Qed.

(** A thread that has collected nothing is passed over. *)
Lemma summarize_empty fuel ok1 ok2 stale p t h summary s :
  st_threads s !! p = Some t -> tx_stats t = Some h -> hash_table_entries h = Some [] ->
  stats_summarize_all (S fuel) ok1 ok2 stale (Some p) summary s =
  stats_summarize_all fuel ok1 ok2 stale (th_next t) summary s.
Proof.
  intros Hp Hh Hl. cbn [stats_summarize_all]. rewrite (m_bind_run _ _ _ _ _ (th_get_run _ _ _ Hp)). rewrite Hh.
  unfold m_deref at 1, m_bind at 1, m_ret at 1. rewrite Hl. unfold m_deref at 1, m_bind at 1, m_ret at 1. cbn [m_iter].
  unfold m_bind at 1, m_ret at 1. by rewrite (m_bind_run _ _ _ _ _ (th_get_run _ _ _ Hp)).
Qed.

(** ** The properties *)

(** Whatever a thread's transactions are, attempts that abort included, it has
    collected exactly those that committed: how many, and of each statistic the
    sum, the least and the greatest count, for the thread and for each source
    location, whose container the thread's table has under the location's
    string. *)
Theorem committed_transactions_collected stale txstat th hist m s runs :
  collected None txstat th hist m s -> is_Some (st_txstats s !! txstat) -> Forall valid_run runs ->
  exists s' m', m_iter (run_tx stale txstat th) runs s = Ret tt s' /\
    collected None txstat th (hist ++ map (fun r => (r_str r, counts_of (r_incs r))) runs) m' s'.
Proof.
  intros Hc Ht Hv. revert hist m s Hc Ht. induction Hv as [|r runs Hr Hv IH]; intros hist m s Hc Ht; simpl.
  { exists s, m. by rewrite app_nil_r. }
  destruct (tx_run_collected stale txstat th hist m s r Hc Ht Hr) as (s1 & m1 & E1 & Hc1 & Ht1).
  destruct (IH _ _ _ Hc1 Ht1) as (s2 & m2 & E2 & Hc2). exists s2, m2. rewrite (m_bind_run _ _ _ _ _ E1).
  split; [exact E2|]. by rewrite <- app_assoc in Hc2.
Qed.

(** In the report's grand total the minimum of every statistic is 0: the
    summary starts its minima at 0, where the threads start theirs at the greatest
    number, and a minimum never grows. *)
Theorem grand_total_min_zero fuel ok1 ok2 stale m_hp m_tbl summary s count l s' :
  grand_total fuel ok1 ok2 stale m_hp m_tbl summary s = Ret (count, l) s' -> Forall (fun x => stat_min x <= 0) l.
Proof.
  unfold grand_total. intros E. m_inv E. injection Hm as <- <-. m_inv E. injection Hm as <- <-. m_inv E. m_inv E. injection E as _ <- _.
  pose proof (m_pres_run _ _ _ _ _ (summarize_min summary _ _ _ _ _) Hm) as Hk.
  destruct Hk as (t & Ht & Hmin).
  { eexists. split; [simpl; apply lookup_insert_eq|].
    repeat (apply List.Forall_cons; [simpl; lia|]). apply List.Forall_nil. }
  unfold th_get, m_bind, m_get, m_deref in Hm0. rewrite Ht in Hm0. by injection Hm0 as <- _.
Qed.

(** The list of the threads ends only by luck: the [next] of every thread but
    the first is what [malloc] happens to return. Where that is not null, and not
    the address of a thread, the report is undefined. *)
Theorem second_thread_unterminated ok1 ok2 stale a b txd1 txd2 stale1 stale2 s p1 s1 p2 s2 fuel summary :
  st_mgr s = StatsMgr false 0 None None ->
  txc_stats_threadstat_create true stale1 (Some a) (Some b) txd1 s = Ret p1 s1 ->
  txc_stats_threadstat_create true stale2 (Some a) (Some b) txd2 s1 = Ret p2 s2 ->
  (exists t1 t2, st_threads s2 !! p1 = Some t1 /\ st_threads s2 !! p2 = Some t2 /\
    th_next t1 = Some p2 /\ th_next t2 = th_next stale2) /\
  stats_summarize_all (3 + fuel) ok1 ok2 stale (alloc_threadstat_list_head (st_mgr s2)) summary s2 =
  match th_next stale2 with
  | None => Ret tt s2
  | Some g => stats_summarize_all (1 + fuel) ok1 ok2 stale (Some g) summary s2
  end /\
  (forall g, th_next stale2 = Some g -> st_threads s2 !! g = None ->
    stats_summarize_all (3 + fuel) ok1 ok2 stale (alloc_threadstat_list_head (st_mgr s2)) summary s2 = Undef).
Proof.
  intros Hg E1 E2. rewrite (create_first _ _ _ _ _ Hg) in E1. injection E1 as <- <-.
  destruct (new_table_empty a b) as (h & Hh & Hr & Hl). rewrite Hh in E2.
  set (t := created (Some h) None None txd1).
  rewrite (create_next _ _ _ _ _ 1 (st_brk s) (st_brk s) t) in E2.
  2: done. 2: apply lookup_insert_eq. 2: { simpl. lia. }
  injection E2 as <- <-. rewrite Hh. cbn [st_mgr alloc_threadstat_list_head]. set (s2 := StatsSt _ _ _ _).
  set (t1 := th_set_next (Some (st_brk s + 1)) t). set (t2 := created (Some h) (th_next stale2) (Some (st_brk s)) txd2).
  assert (st_threads s2 !! st_brk s = Some t1) as H1.
  { simpl. rewrite lookup_insert_ne by lia. apply lookup_insert_eq. }
  assert (st_threads s2 !! (st_brk s + 1) = Some t2) as H2 by apply lookup_insert_eq.
  assert (stats_summarize_all (3 + fuel) ok1 ok2 stale (Some (st_brk s)) summary s2 =
    stats_summarize_all (1 + fuel) ok1 ok2 stale (th_next stale2) summary s2) as Hs.
  { change (3 + fuel)%nat with (S (S (1 + fuel))). by rewrite (summarize_empty _ _ _ _ _ _ _ _ _ H1 eq_refl Hl), (summarize_empty _ _ _ _ _ _ _ _ _ H2 eq_refl Hl). }
  split; [by exists t1, t2|]. split; [rewrite Hs; by destruct (th_next stale2)|].
  intros g Hgn Hno. rewrite Hs, Hgn. cbn [Nat.add stats_summarize_all]. unfold th_get, m_bind, m_get, m_deref. by rewrite Hno.
Qed.

(** *** A concrete run

    A thread whose transactions at two places read and write pipes; the first
    aborts once. *)

Lemma collected_new txstat th txd nx pv h s :
  st_threads s !! th = Some (created (Some h) nx pv txd) -> ht_rep h ∅ -> txstat < st_brk s ->
  collected None txstat th [] ∅ s.
Proof.
  intros Hth Hr Ht. split; try done.
  exists (created (Some h) nx pv txd), h. by split_and!.
Qed.

Definition stale_txstat : txc_stats_txstat_t := TxStat 0 (SrcLoc 0 0 0) 9 new_stats.
Definition stale_thread : txc_stats_threadstat_t := ThreadStat 5 [] None (Some 4321) None 0.
Definition stats0 : stats_st := StatsSt (StatsMgr false 0 None None) ∅ ∅ 100.
Definition make_thread : M stats_st Z := txc_stats_threadstat_create true stale_thread (Some 1) (Some 2) 7.
Definition stats1 : stats_st := after make_thread stats0.
Definition stats2 : stats_st := after (txc_stats_txstat_create true stale_txstat) stats1.

#[local] Instance valid_run_dec r : Decision (valid_run r).
Proof. unfold valid_run, valid_incs. apply _. Defined.

Definition runs0 : list tx_run := [
  TxRun 5000 (SrcLoc 1 2 3) [[(9%nat, 4); (18%nat, 1)]] [(9%nat, 2); (9%nat, 3)];
  TxRun 6000 (SrcLoc 1 2 9) [] [(18%nat, 1)];
  TxRun 5000 (SrcLoc 1 2 3) [] [(9%nat, 8)]].

Lemma committed_transactions_collected_witness : exists s' m',
  m_iter (run_tx stale_txstat 101 100) runs0 stats2 = Ret tt s' /\
  collected None 101 100 (map (fun r => (r_str r, counts_of (r_incs r))) runs0) m' s' /\
  tally (of_key 5000 (map (fun r => (r_str r, counts_of (r_incs r))) runs0)) !! 9%nat = Some (Stat 8 5 13).
Proof.
  destruct (new_table_empty 1 2) as (h & Hh & Hr & _).
  destruct (committed_transactions_collected stale_txstat 101 100 [] ∅ stats2 runs0) as (s' & m' & E & Hc).
  - apply (collected_new 101 100 7 None None h); [|exact Hr|vm_compute; reflexivity].
    injection Hh as <-. vm_compute. reflexivity.
  - eexists. vm_compute. reflexivity.
  - apply (bool_decide_unpack _). vm_compute. exact I.
  - exists s', m'. split; [exact E|]. split; [exact Hc|]. vm_compute. reflexivity.
Defined.

Definition report0 : M stats_st (Z * list txc_stats_stat_t) :=
  m_iter (run_tx stale_txstat 101 100) runs0 ;;;
  grand_total 5 true true stale_txstat (Some 3) (Some 4) 50.
Definition stats3 : stats_st := after (m_iter (run_tx stale_txstat 101 100) runs0) stats2.
Definition total0 : Z * list txc_stats_stat_t :=
  match report0 stats2 with Ret r _ => r | _ => (0, []) end.

Lemma grand_total_min_zero_witness :
  total0.1 = 3 /\ total0.2 !! 9%nat = Some (Stat 8 0 13) /\ Forall (fun x => stat_min x <= 0) total0.2.
Proof.
  split; [vm_compute; reflexivity|]. split; [vm_compute; reflexivity|].
  apply (grand_total_min_zero 5 true true stale_txstat (Some 3) (Some 4) 50 stats3 total0.1 total0.2
    (after (grand_total 5 true true stale_txstat (Some 3) (Some 4) 50) stats3)).
  rewrite <- surjective_pairing. apply after_ret. vm_compute. reflexivity.
Defined.

Definition stats4 : stats_st := after make_thread stats1.

Lemma second_thread_unterminated_witness : 
  stats_summarize_all 3 true true stale_txstat (alloc_threadstat_list_head (st_mgr stats4)) 50 stats4 = Undef.
Proof.
  apply (second_thread_unterminated true true stale_txstat 1 2 7 7 stale_thread stale_thread stats0 100 stats1 101 stats4 0 50)
    with (g := 4321).
  - reflexivity.
  - change (make_thread stats0 = Ret 100 stats1). runs_to stats1.
  - change (make_thread stats1 = Ret 101 stats4). runs_to stats4.
  - reflexivity.
  - vm_compute. reflexivity.
Defined.
