(* ===== verification/StatsTx.v ===== *)
(** * The statistics of a transaction ([core/stats.c], [core/tx.c])

    In the build with statistics the hooks of [core/tx.c] reset the counts of a
    transaction when it begins and register the statistics manager's two actions each
    time it starts, the first time and after every abort. This file has the hooks, over
    the part of a descriptor they touch, and shows that transactions run through them
    collect what [Stats] says, whatever other actions they register. *)

From S2P Require Import Prelude Dll HashTable Actions Stats.

(** ** The code *)

(** [core/config.h] *)
Definition TXC_STATSMGR_COMMIT_ACTION_ORDER : Z := 3.
Definition TXC_STATSMGR_UNDO_ACTION_ORDER : Z := 3.

(** The actions of a transaction: the statistics manager's, and the others, which do not
    touch the statistics; of these the model has the error they report. *)
Inductive stats_action := StatsCommit | StatsUndo | OtherAction (error : Z).

(** The fields of [struct txc_tx_s] the hooks touch, the statistics, and whether the TM
    library was given the two callbacks of the generic actions. *)
Record stats_tx := StatsTx {
  x_st : stats_st;
  statsmgr_commit_action_registered : bool;
  statsmgr_undo_action_registered : bool;
  x_commit : txc_tx_action_list_t stats_action;
  x_undo : txc_tx_action_list_t stats_action;
  x_callback_commit : bool;
  x_callback_undo : bool;
}.

Definition x_set_st v x := StatsTx v (statsmgr_commit_action_registered x) (statsmgr_undo_action_registered x)
  (x_commit x) (x_undo x) (x_callback_commit x) (x_callback_undo x).
Definition x_set_commit_registered v x := StatsTx (x_st x) v (statsmgr_undo_action_registered x)
  (x_commit x) (x_undo x) (x_callback_commit x) (x_callback_undo x).
Definition x_set_undo_registered v x := StatsTx (x_st x) (statsmgr_commit_action_registered x) v
  (x_commit x) (x_undo x) (x_callback_commit x) (x_callback_undo x).
Definition x_set_commit la x := StatsTx (x_st x) (statsmgr_commit_action_registered x) (statsmgr_undo_action_registered x)
  la (x_undo x) true (x_callback_undo x).
Definition x_set_undo la x := StatsTx (x_st x) (statsmgr_commit_action_registered x) (statsmgr_undo_action_registered x)
  (x_commit x) la (x_callback_commit x) true.

Definition in_stats {A} (m : M stats_st A) : M stats_tx A := m_zoom x_st x_set_st m.

(** [txc_tx_register_commit_action] and [txc_tx_register_undo_action], with the memory
    granted. *)
Definition register_commit (e : txc_tx_action_list_entry_t stats_action) : M stats_tx Z :=
  do x <- m_get ;;
  do ' (ret, la) <- m_deref (register_action true e (x_commit x)) ;;
  m_modify (x_set_commit la) ;;;
  m_ret ret.
Definition register_undo (e : txc_tx_action_list_entry_t stats_action) : M stats_tx Z :=
  do x <- m_get ;;
  do ' (ret, la) <- m_deref (register_action true e (x_undo x)) ;;
  m_modify (x_set_undo la) ;;;
  m_ret ret.

Definition register_statsmgr_commit_action : M stats_tx unit :=
  do x <- m_get ;;
  m_when (negb (statsmgr_commit_action_registered x)) (
    do _ <- register_commit (ActionEntry StatsCommit None TXC_STATSMGR_COMMIT_ACTION_ORDER) ;;
    m_modify (x_set_commit_registered true)).
Definition register_statsmgr_undo_action : M stats_tx unit :=
  do x <- m_get ;;
  m_when (negb (statsmgr_undo_action_registered x)) (
    do _ <- register_undo (ActionEntry StatsUndo None TXC_STATSMGR_UNDO_ACTION_ORDER) ;;
    m_modify (x_set_undo_registered true)).

Definition txc_stats_register_statsmgr_commit_action : M stats_tx unit := register_statsmgr_commit_action.
Definition txc_stats_register_statsmgr_undo_action : M stats_tx unit := register_statsmgr_undo_action.

Definition txc_stats_transaction_postbegin (statistics : bool) : M stats_tx unit :=
  m_when statistics (register_statsmgr_commit_action ;;; register_statsmgr_undo_action).

(** What [txc_tx_create] adds in the build with statistics: [txd->txstat] and
    [txd->threadstat]. *)
Definition stats_tx_create (statistics : bool) (stale_th : txc_stats_threadstat_t) (stale : txc_stats_txstat_t)
    (m_hp m_tbl : option Z) (txd : Z) : M stats_st (option (Z * Z)) :=
  if statistics then
    do threadstat <- txc_stats_threadstat_create true stale_th m_hp m_tbl txd ;;
    do txstat <- txc_stats_txstat_create true stale ;;
    m_ret (Some (txstat, threadstat))
  else m_ret None.

(** [txc_tx_init], of these fields. *)
Definition no_actions (la : txc_tx_action_list_t stats_action) : txc_tx_action_list_t stats_action :=
  ActionList (entries la) 0 (la_size la).
Definition stats_tx_init : M stats_tx unit :=
  m_modify (fun x => StatsTx (x_st x) false false (no_actions (x_commit x)) (no_actions (x_undo x))
    (x_callback_commit x) (x_callback_undo x)).

(** The TM library starts a transaction, again and again, with no callback. *)
Definition stats_enter : M stats_tx unit :=
  m_modify (fun x => StatsTx (x_st x) (statsmgr_commit_action_registered x) (statsmgr_undo_action_registered x)
    (x_commit x) (x_undo x) false false).

Section hooks.
Context (statistics : bool) (txstat th : Z) (stale : txc_stats_txstat_t).

(** [txd->txstat] and [txd->threadstat] are [txstat] and [th]. *)
Definition run_stats_action (a : stats_action) : M stats_tx Z :=
  match a with
  | StatsCommit => in_stats (statsmgr_commit_action true true stale txstat th) ;;; m_ret 0
  | StatsUndo => in_stats (statsmgr_undo_action txstat) ;;; m_ret 0
  | OtherAction error => m_ret error
  end.

(** Where the errors of the other actions go is not in the state. *)
Definition store_error (p v : Z) (x : stats_tx) : stats_tx := x.

Definition stats_generic_undo_action : M stats_tx unit :=
  do x <- m_get ;;
  do _ <- exec_undo_actions run_stats_action store_error (x_undo x) ;;
  stats_tx_init.
Definition stats_generic_commit_action : M stats_tx unit :=
  do x <- m_get ;;
  do _ <- exec_commit_actions run_stats_action store_error (x_commit x) ;;
  stats_tx_init.

(** [tx_pre_outerbegin] and [txc_tx_post_begin] *)
Definition stats_pre_begin (str : Z) (loc : txc_tx_srcloc_t) : M stats_tx unit :=
  stats_tx_init ;;;
  m_when statistics (do _ <- in_stats (txc_stats_txstat_init statistics txstat str loc) ;; m_ret tt).
Definition stats_post_begin : M stats_tx unit :=
  stats_enter ;;; m_when statistics (txc_stats_transaction_postbegin statistics).

(** What a transaction does: its calls count, and register actions. *)
Inductive tx_op :=
  | OpCount (entry : nat) (val : Z)
  | OpCommit (e : txc_tx_action_list_entry_t Z)
  | OpUndo (e : txc_tx_action_list_entry_t Z).

Definition other (e : txc_tx_action_list_entry_t Z) : txc_tx_action_list_entry_t stats_action :=
  ActionEntry (OtherAction (function e)) (error_result e) (order e).
Definition run_op (op : tx_op) : M stats_tx unit :=
  match op with
  | OpCount entry val => in_stats (txc_stats_txstat_increment statistics txstat entry val)
  | OpCommit e => do _ <- register_commit (other e) ;; m_ret tt
  | OpUndo e => do _ <- register_undo (other e) ;; m_ret tt
  end.

(** An attempt that aborts, and the one that commits. *)
Definition aborted_attempt (ops : list tx_op) : M stats_tx unit :=
  stats_post_begin ;;;
  m_iter run_op ops ;;;
  do x <- m_get ;;
  m_when (x_callback_undo x) stats_generic_undo_action.
Definition committed_attempt (ops : list tx_op) : M stats_tx unit :=
  stats_post_begin ;;;
  m_iter run_op ops ;;;
  do x <- m_get ;;
  m_when (x_callback_commit x) stats_generic_commit_action.

Record hooked_tx := HookedTx { h_str : Z; h_loc : txc_tx_srcloc_t; h_aborted : list (list tx_op); h_ops : list tx_op }.
Definition run_hooked (r : hooked_tx) : M stats_tx unit :=
  stats_pre_begin (h_str r) (h_loc r) ;;;
  m_iter aborted_attempt (h_aborted r) ;;;
  committed_attempt (h_ops r).
End hooks.

(** ** What they do *)

(** The counts of the operations, and the actions they register. *)
Definition op_counts (ops : list tx_op) : list (nat * Z) :=
  omap (fun op => match op with OpCount e v => Some (e, v) | _ => None end) ops.
Definition op_commits (ops : list tx_op) : list (txc_tx_action_list_entry_t stats_action) :=
  omap (fun op => match op with OpCommit e => Some (other e) | _ => None end) ops.
Definition op_undos (ops : list tx_op) : list (txc_tx_action_list_entry_t stats_action) :=
  omap (fun op => match op with OpUndo e => Some (other e) | _ => None end) ops.

Definition tx_run_of (r : hooked_tx) : tx_run :=
  TxRun (h_str r) (h_loc r) (map op_counts (h_aborted r)) (op_counts (h_ops r)).

Definition order_ok (op : tx_op) : Prop :=
  match op with OpCount _ _ => True | OpCommit e | OpUndo e => 0 <= order e end.
(** Fewer than 2^28 actions, of orders from 0. *)
Definition valid_ops (ops : list tx_op) : Prop := Z.of_nat (length ops) < 2 ^ 28 /\ Forall order_ok ops.
Definition valid_hooked (r : hooked_tx) : Prop :=
  valid_run (tx_run_of r) /\ Forall valid_ops (h_aborted r) /\ valid_ops (h_ops r).

Definition is_stats (e : txc_tx_action_list_entry_t stats_action) : Prop :=
  match function e with OtherAction _ => False | _ => True end.
#[local] Instance is_stats_dec e : Decision (is_stats e).
Proof. unfold is_stats. destruct (function e); apply _. Defined.

Definition lists_ok (n : Z) (x : stats_tx) : Prop := la_good n (x_commit x) /\ la_good n (x_undo x).

Lemma in_stats_run {A} (m : M stats_st A) x a st : m (x_st x) = Ret a st -> in_stats m x = Ret a (x_set_st st x).
Proof. intros H. unfold in_stats, m_zoom. by rewrite H. Qed.

Lemma register_commit_run n e x : la_good n (x_commit x) -> n < 2 ^ 29 -> exists la,
  register_commit e x = Ret TXC_R_SUCCESS (x_set_commit la x) /\ la_good (n + 1) la /\ la_actions la = la_actions (x_commit x) ++ [e].
Proof.
  intros Hl Hn. destruct (register_good n (x_commit x) e Hl Hn) as (la & E & ?). exists la. split; [|done].
  unfold register_commit, m_bind, m_get. by rewrite E.
Qed.
Lemma register_undo_run n e x : la_good n (x_undo x) -> n < 2 ^ 29 -> exists la,
  register_undo e x = Ret TXC_R_SUCCESS (x_set_undo la x) /\ la_good (n + 1) la /\ la_actions la = la_actions (x_undo x) ++ [e].
Proof.
  intros Hl Hn. destruct (register_good n (x_undo x) e Hl Hn) as (la & E & ?). exists la. split; [|done].
  unfold register_undo, m_bind, m_get. by rewrite E.
Qed.

(** No action, none of the manager's registered: how a transaction begins, and how the
    generic actions leave it. *)
Definition idle (x : stats_tx) : Prop :=
  lists_ok 0 x /\ la_actions (x_commit x) = [] /\ la_actions (x_undo x) = [] /\
  statsmgr_commit_action_registered x = false /\ statsmgr_undo_action_registered x = false.

(** The statistics [st], and the actions registered, at most [n] in each list. *)
Definition begun (n : Z) (st : stats_st) (commits undos : list (txc_tx_action_list_entry_t stats_action)) (x : stats_tx) : Prop :=
  x_st x = st /\ lists_ok n x /\ la_actions (x_commit x) = commits /\ la_actions (x_undo x) = undos /\
  x_callback_commit x = true /\ x_callback_undo x = true.

Definition stats_commit_entry := ActionEntry StatsCommit None TXC_STATSMGR_COMMIT_ACTION_ORDER.
Definition stats_undo_entry := ActionEntry StatsUndo None TXC_STATSMGR_UNDO_ACTION_ORDER.

Lemma no_actions_good n la : la_good n la -> la_good 0 (no_actions la).
Proof. intros (es & He & Hn & ?). exists es. simpl. split_and!; [done|lia..]. Qed.

Lemma init_run n x : lists_ok n x -> exists x', stats_tx_init x = Ret tt x' /\ idle x' /\ x_st x' = x_st x.
Proof.
  intros [Hc Hu]. eexists. split; [reflexivity|]. split; [|done]. unfold idle, lists_ok, la_actions. simpl.
  rewrite !take_0. split_and!; try done; by eapply no_actions_good.
Qed.

Lemma post_begin_run x : idle x -> exists x', stats_post_begin true x = Ret tt x' /\
  begun 1 (x_st x) [stats_commit_entry] [stats_undo_entry] x'.
Proof.
  intros ((Hc & Hu) & Hac & Hau & Hrc & Hru). destruct x as [st rc ru c u cc cu]. simpl in *. subst.
  destruct (register_commit_run 0 stats_commit_entry (StatsTx st false false c u false false) Hc) as (lc & Ec & Hlc & Hlca); [lia|].
  destruct (register_undo_run 0 stats_undo_entry (StatsTx st true false lc u true false) Hu) as (lu & Eu & Hlu & Hlua); [lia|].
  eexists. split.
  - unfold stats_post_begin, stats_enter. rewrite bind_modify. simpl. unfold m_when, txc_stats_transaction_postbegin, m_when.
    erewrite m_bind_run.
    2: { unfold register_statsmgr_commit_action. unfold m_bind at 1, m_get. simpl. rewrite (m_bind_run _ _ _ _ _ Ec). reflexivity. }
    unfold register_statsmgr_undo_action. unfold m_bind at 1, m_get. simpl. rewrite (m_bind_run _ _ _ _ _ Eu). reflexivity.
  - unfold begun, lists_ok. simpl in *. rewrite Hlca, Hlua, Hac, Hau. done.
Qed.

Lemma op_run txstat n st st' cs us op x :
  begun n st cs us x -> n < 2 ^ 29 -> count_all txstat (op_counts [op]) st = Ret tt st' ->
  exists x', run_op true txstat op x = Ret tt x' /\ begun (n + 1) st' (cs ++ op_commits [op]) (us ++ op_undos [op]) x'.
Proof.
  intros (<- & (Hc & Hu) & <- & <- & Hcc & Hcu) Hn E. destruct op as [e v|e|e]; simpl in *.
  - unfold count_all in E. simpl in E. apply m_bind_ret_inv in E as ([] & st1 & E & [= <-]).
    rewrite (in_stats_run _ _ _ _ E). eexists. split; [done|]. rewrite !app_nil_r. unfold begun, lists_ok. simpl.
    split_and!; try done; eapply la_good_mono; eauto; lia.
  - injection E as <-. destruct (register_commit_run n (other e) x Hc Hn) as (la & E & Hl & Ha). rewrite (m_bind_run _ _ _ _ _ E).
    eexists. split; [done|]. rewrite !app_nil_r, <- Ha. unfold begun, lists_ok. simpl. split_and!; try done. eapply la_good_mono; eauto; lia.
  - injection E as <-. destruct (register_undo_run n (other e) x Hu Hn) as (la & E & Hl & Ha). rewrite (m_bind_run _ _ _ _ _ E).
    eexists. split; [done|]. rewrite !app_nil_r, <- Ha. unfold begun, lists_ok. simpl. split_and!; try done. eapply la_good_mono; eauto; lia.
Qed.

Lemma count_all_app txstat a b st st' : count_all txstat (a ++ b) st = Ret tt st' ->
  exists st1, count_all txstat a st = Ret tt st1 /\ count_all txstat b st1 = Ret tt st'.
Proof.
  unfold count_all. revert st. induction a as [|i a IH]; intros st E; simpl in *; [by exists st|].
  apply m_bind_ret_inv in E as ([] & st1 & E1 & E). apply IH in E as (st2 & E2 & E). exists st2.
  by rewrite (m_bind_run _ _ _ _ _ E1).
Qed.

Lemma ops_run txstat ops n st st' cs us x :
  begun n st cs us x -> n + Z.of_nat (length ops) < 2 ^ 29 -> count_all txstat (op_counts ops) st = Ret tt st' ->
  exists x', m_iter (run_op true txstat) ops x = Ret tt x' /\
    begun (n + Z.of_nat (length ops)) st' (cs ++ op_commits ops) (us ++ op_undos ops) x'.
Proof.
  revert n st cs us x. induction ops as [|op ops IH]; intros n st cs us x Hb Hn E.
  - injection E as <-. exists x. rewrite !app_nil_r. split; [done|]. by rewrite Z.add_0_r.
  - assert (forall B (f : tx_op -> option B), omap f (op :: ops) = omap f [op] ++ omap f ops) as Hsplit
      by (intros B f; simpl; by destruct (f op)).
    unfold op_counts in E. rewrite Hsplit in E. apply count_all_app in E as (st1 & E1 & E). simpl in Hn.
    destruct (op_run txstat n st st1 cs us op x Hb) as (x1 & Ex1 & Hb1); [lia|done|].
    destruct (IH _ _ _ _ _ Hb1 ltac:(lia) E) as (x' & Ex & Hb'). exists x'. cbn [m_iter]. rewrite (m_bind_run _ _ _ _ _ Ex1).
    split; [done|]. unfold op_commits, op_undos in *. rewrite !(Hsplit _ _), !app_assoc.
    replace (n + Z.of_nat (length (op :: ops))) with (n + 1 + Z.of_nat (length ops)) by (simpl; lia). done.
Qed.

(** *** The passes

    Among the actions there is one of the statistics manager: wherever it comes, it is
    what the passes do to the statistics. *)

Section passes.
Context (txstat th : Z) (stale : txc_stats_txstat_t).
Notation run := (run_stats_action txstat th stale).
Implicit Type es : list (txc_tx_action_list_entry_t stats_action).

Lemma others_run es first x : filter is_stats es = [] -> exists r, exec_seq run store_error es first x = Ret r x.
Proof.
  revert first. induction es as [|[[| |err] er o] es IH]; intros first H; [by exists first|done..|].
  destruct (IH (if bool_decide (first = 0) then err else first) H) as [r Hx]. exists r. by destruct er.
Qed.

Lemma one_stats_run es e first x st : filter is_stats es = [e] -> error_result e = None ->
  run (function e) x = Ret 0 (x_set_st st x) -> exists r, exec_seq run store_error es first x = Ret r (x_set_st st x).
Proof.
  intros H He Hr. revert first H. induction es as [|e' es IH]; intros first H; [done|]. rewrite filter_cons in H.
  cbn [exec_seq]. case_decide as Hs.
  - injection H as -> H. destruct (others_run es (if bool_decide (first = 0) then 0 else first) (x_set_st st x) H) as [r Hx].
    exists r. unfold exec_entry. rewrite !m_bind_assoc, (m_bind_run _ _ _ _ _ Hr), He. exact Hx.
  - destruct e' as [[| |err] er o]; [done..|]. destruct (IH (if bool_decide (first = 0) then err else first) H) as [r Hx].
    exists r. by destruct er.
Qed.

Lemma passes_run es l e x st : Forall (fun e => 0 <= order e) es -> l ≡ₚ es -> filter is_stats es = [e] -> error_result e = None ->
  run (function e) x = Ret 0 (x_set_st st x) ->
  exists r, exec_passes run store_error (S (Z.to_nat (max_order es))) 0 l 0 0 x = Ret r (x_set_st st x).
Proof.
  intros Ho Hl Hs He Hr. assert (Forall (fun e => 0 <= order e) l) as Ho' by (by rewrite Hl).
  assert (max_order es = max_order l) as ->.
  { clear -Hl. symmetry in Hl. unfold max_order. induction Hl; rewrite ?fmap_cons in *; simpl in *; lia. }
  destruct (exec_passes_order run store_error l 0 x Ho') as (l' & [_ Hf] & ->). apply stable_permutation in Hf.
  assert (filter is_stats l' = [e]) as Hs'.
  { apply Permutation_singleton_r. by rewrite Hf, Hl, Hs. }
  by apply (one_stats_run l' e).
Qed.

Lemma generic_commit_run la e x st : Forall (fun e => 0 <= order e) (la_actions la) -> filter is_stats (la_actions la) = [e] ->
  error_result e = None -> run (function e) x = Ret 0 (x_set_st st x) ->
  exists r, exec_commit_actions run store_error la x = Ret r (x_set_st st x).
Proof. intros. by apply (passes_run (la_actions la) _ e). Qed.

Lemma generic_undo_run la e x st : Forall (fun e => 0 <= order e) (la_actions la) -> filter is_stats (la_actions la) = [e] ->
  error_result e = None -> run (function e) x = Ret 0 (x_set_st st x) ->
  exists r, exec_undo_actions run store_error la x = Ret r (x_set_st st x).
Proof. intros. apply (passes_run (la_actions la) _ e); [done|by rewrite reverse_Permutation|done..]. Qed.
End passes.

(** *** Attempts *)

Section attempts.
Context (txstat th : Z) (stale : txc_stats_txstat_t).

Lemma op_orders ops : Forall order_ok ops ->
  Forall (fun e => 0 <= order e) (op_commits ops) /\ Forall (fun e => 0 <= order e) (op_undos ops) /\
  filter is_stats (op_commits ops) = [] /\ filter is_stats (op_undos ops) = [].
Proof. induction 1 as [|[e v|e|e] ops Ho _ (H1 & H2 & H3 & H4)]; simpl; try done; rewrite filter_cons; by split_and!; try constructor. Qed.

(** What happens up to the end of an attempt, in either way. *)
Lemma attempt_run ops st' x : idle x -> valid_ops ops -> count_all txstat (op_counts ops) (x_st x) = Ret tt st' ->
  exists x', (stats_post_begin true ;;; m_iter (run_op true txstat) ops) x = Ret tt x' /\
    begun (1 + Z.of_nat (length ops)) st' (stats_commit_entry :: op_commits ops) (stats_undo_entry :: op_undos ops) x'.
Proof.
  intros Hi [Hn Ho] E. destruct (post_begin_run x Hi) as (x1 & E1 & Hb). rewrite (m_bind_run _ _ _ _ _ E1).
  destruct (ops_run txstat ops _ _ _ _ _ _ Hb ltac:(lia) E) as (x' & ? & ?). by exists x'.
Qed.

Lemma aborted_run ops st' x : idle x -> valid_ops ops -> run_attempt txstat (op_counts ops) (x_st x) = Ret tt st' ->
  exists x', aborted_attempt true txstat th stale ops x = Ret tt x' /\ idle x' /\ x_st x' = st'.
Proof.
  intros Hi Hv E. apply m_bind_ret_inv in E as ([] & st1 & E1 & E). destruct Hv as [Hn Ho].
  destruct (attempt_run ops st1 x Hi (conj Hn Ho) E1) as (x1 & Ex & <- & Hl & _ & Hu & _ & Hcu).
  unfold aborted_attempt. rewrite <- m_bind_assoc, (m_bind_run _ _ _ _ _ Ex). unfold m_bind at 1, m_get, m_when. rewrite Hcu.
  destruct (op_orders ops Ho) as (_ & Hou & _ & Hfu).
  unfold stats_generic_undo_action, m_bind at 1, m_get.
  destruct (generic_undo_run txstat th stale (x_undo x1) stats_undo_entry x1 st') as [r Er].
  { rewrite Hu. by constructor. } { rewrite Hu. rewrite filter_cons. by rewrite Hfu. } { done. }
  { simpl. by rewrite (m_bind_run _ _ _ _ _ (in_stats_run _ _ _ _ E)). }
  rewrite (m_bind_run _ _ _ _ _ Er). by apply (init_run (1 + Z.of_nat (length ops)) (x_set_st st' x1)).
Qed.

Lemma committed_run ops st' x : idle x -> valid_ops ops ->
  (count_all txstat (op_counts ops) ;;; statsmgr_commit_action true true stale txstat th) (x_st x) = Ret tt st' ->
  exists x', committed_attempt true txstat th stale ops x = Ret tt x' /\ idle x' /\ x_st x' = st'.
Proof.
  intros Hi Hv E. apply m_bind_ret_inv in E as ([] & st1 & E1 & E). destruct Hv as [Hn Ho].
  destruct (attempt_run ops st1 x Hi (conj Hn Ho) E1) as (x1 & Ex & <- & Hl & Hc & _ & Hcc & _).
  unfold committed_attempt. rewrite <- m_bind_assoc, (m_bind_run _ _ _ _ _ Ex). unfold m_bind at 1, m_get, m_when. rewrite Hcc.
  destruct (op_orders ops Ho) as (Hoc & _ & Hfc & _).
  unfold stats_generic_commit_action, m_bind at 1, m_get.
  destruct (generic_commit_run txstat th stale (x_commit x1) stats_commit_entry x1 st') as [r Er].
  { rewrite Hc. by constructor. } { rewrite Hc. rewrite filter_cons. by rewrite Hfc. } { done. }
  { simpl. by rewrite (m_bind_run _ _ _ _ _ (in_stats_run _ _ _ _ E)). }
  rewrite (m_bind_run _ _ _ _ _ Er). by apply (init_run (1 + Z.of_nat (length ops)) (x_set_st st' x1)).
Qed.

Lemma aborts_run attempts st' x : idle x -> Forall valid_ops attempts ->
  m_iter (run_attempt txstat) (map op_counts attempts) (x_st x) = Ret tt st' ->
  exists x', m_iter (aborted_attempt true txstat th stale) attempts x = Ret tt x' /\ idle x' /\ x_st x' = st'.
Proof.
  intros Hi Hv. revert x Hi. induction Hv as [|ops attempts Ho Hv IH]; intros x Hi E; simpl in *.
  - injection E as <-. by exists x.
  - apply m_bind_ret_inv in E as ([] & st1 & E1 & E). destruct (aborted_run ops st1 x Hi Ho E1) as (x1 & Ex & Hi1 & <-).
    rewrite (m_bind_run _ _ _ _ _ Ex). by apply IH.
Qed.

(** A transaction run through the hooks does to the statistics what [run_tx] does. *)
Lemma hooked_run r n st' x : lists_ok n x -> Forall valid_ops (h_aborted r) -> valid_ops (h_ops r) ->
  run_tx stale txstat th (tx_run_of r) (x_st x) = Ret tt st' ->
  exists x', run_hooked true txstat th stale r x = Ret tt x' /\ idle x' /\ x_st x' = st'.
Proof.
  intros Hl Ha Ho E. apply m_bind_ret_inv in E as (r0 & st1 & E1 & E). apply m_bind_ret_inv in E as ([] & st2 & E2 & E).
  unfold run_hooked, stats_pre_begin. destruct (init_run n x Hl) as (x1 & Ex1 & Hi1 & Hs1). rewrite <- Hs1 in E1.
  rewrite m_bind_assoc, (m_bind_run _ _ _ _ _ Ex1). unfold m_when. rewrite m_bind_assoc, (m_bind_run _ _ _ _ _ (in_stats_run _ _ _ _ E1)).
  unfold m_bind at 1, m_ret at 1.
  destruct (aborts_run (h_aborted r) st2 (x_set_st st1 x1) Hi1 Ha E2) as (x2 & Ex2 & Hi2 & <-). rewrite (m_bind_run _ _ _ _ _ Ex2).
  by apply committed_run.
Qed.
End attempts.

(** ** Properties *)

(** C36: Transactions that run through the hooks, with any number of attempts that abort
    and any other actions registered, up to 2^28 of them, of any order from 0: a thread
    has collected exactly those that committed. Each attempt registers the two actions
    once, an abort drops its counts and nothing else, and each transaction leaves the
    lists of actions empty. *)
Theorem hooks_collect_committed txstat th stale hist m n x runs :
  collected None txstat th hist m (x_st x) -> is_Some (st_txstats (x_st x) !! txstat) -> lists_ok n x ->
  Forall valid_hooked runs ->
  exists x' m', m_iter (run_hooked true txstat th stale) runs x = Ret tt x' /\
    collected None txstat th (hist ++ map (fun r => (h_str r, counts_of (op_counts (h_ops r)))) runs) m' (x_st x') /\
    (runs <> [] -> la_actions (x_commit x') = [] /\ la_actions (x_undo x') = []).
Proof.
  intros Hc Ht Hl Hv. revert hist m n x Hc Ht Hl. induction Hv as [|r runs (Hr & Ha & Ho) Hv IH]; intros hist m n x Hc Ht Hl; simpl.
  { exists x, m. by rewrite app_nil_r. }
  destruct (tx_run_collected stale txstat th hist m (x_st x) (tx_run_of r) Hc Ht Hr) as (st & m1 & E & Hc1 & Ht1).
  destruct (hooked_run txstat th stale r n st x Hl Ha Ho E) as (x1 & Ex & Hi & <-). rewrite (m_bind_run _ _ _ _ _ Ex).
  pose proof Hi as (Hl1 & He1 & He2 & _). destruct (IH _ _ _ _ Hc1 Ht1 Hl1) as (x' & m' & E' & Hc' & He).
  exists x', m'. rewrite E'. split; [done|]. rewrite <- app_assoc in Hc'. split; [exact Hc'|]. intros _.
  destruct runs as [|r' runs]; [|by apply He]. by injection E' as <-.
Qed.

(** The first thread has collected nothing when it is created. *)
Lemma created_collected stale_th stale a b txd s :
  st_mgr s = StatsMgr false 0 None None ->
  exists txstat th s', stats_tx_create true stale_th stale (Some a) (Some b) txd s = Ret (Some (txstat, th)) s' /\
    collected None txstat th [] ∅ s' /\ is_Some (st_txstats s' !! txstat).
Proof.
  intros Hg. destruct (new_table_empty a b) as (h & Hh & Hr & _). pose proof (create_first stale_th (Some a) (Some b) txd s Hg) as E.
  rewrite Hh in E. set (p := st_brk s) in *. do 3 eexists. split.
  - unfold stats_tx_create. rewrite (m_bind_run _ _ _ _ _ E). unfold txc_stats_txstat_create, malloc_txstat.
    unfold m_bind, m_get, m_put, m_ret, m_deref, ts_upd, ts_get, m_modify, m_get, m_bind, m_ret, m_deref. simpl.
    rewrite lookup_insert_eq. reflexivity.
  - split; [|simpl; rewrite lookup_insert_eq; by eexists]. eapply collected_new; [simpl; apply lookup_insert_eq|exact Hr|simpl; lia].
Qed.

(** *** A concrete run

    The transactions of [Stats], through the hooks, with actions of other orders. *)

Definition empty_list : txc_tx_action_list_t stats_action := ActionList (Some []) 0 2.
Definition x_tx0 : stats_tx := StatsTx stats2 false false empty_list empty_list false false.

Definition hooked0 : list hooked_tx := [
  HookedTx 5000 (SrcLoc 1 2 3) [[OpUndo (ActionEntry 0 None 0); OpCount 9 4; OpCommit (ActionEntry 0 (Some 77) 2); OpCount 18 1]]
    [OpCount 9 2; OpUndo (ActionEntry 0 None 3); OpCommit (ActionEntry 5 None 4); OpCount 9 3];
  HookedTx 6000 (SrcLoc 1 2 9) [] [OpCount 18 1];
  HookedTx 5000 (SrcLoc 1 2 3) [] [OpCount 9 8]].

Lemma hooks_collect_committed_witness : exists x' m',
  m_iter (run_hooked true 101 100 stale_txstat) hooked0 x_tx0 = Ret tt x' /\
  collected None 101 100 (map (fun r => (h_str r, counts_of (op_counts (h_ops r)))) hooked0) m' (x_st x') /\
  (hooked0 <> [] -> la_actions (x_commit x') = [] /\ la_actions (x_undo x') = []).
Proof.
  destruct (new_table_empty 1 2) as (h & Hh & Hr & _).
  apply (hooks_collect_committed 101 100 stale_txstat [] ∅ 0 x_tx0 hooked0).
  - apply (collected_new 101 100 7 None None h); [|exact Hr|vm_compute; reflexivity].
    injection Hh as <-. vm_compute. reflexivity.
  - eexists. vm_compute. reflexivity.
  - split; eexists; (split; [reflexivity|simpl; lia]).
  - assert (forall incs, forallb (fun i => Nat.ltb i.1 20) incs = true -> valid_incs incs) as Hi.
    { intros incs H. apply Forall_forall. intros i Hi. apply Nat.ltb_lt. rewrite forallb_forall in H.
      by apply H, list_elem_of_In. }
    repeat apply Forall_cons_2; [..|by apply Forall_nil_2]; (split; [split_and!|split]); simpl; try lia;
      try (by apply Hi); repeat constructor; simpl; try lia; by apply Hi.
Defined.
