(* ===== verification/StatsReport.v ===== *)
(** * The report of the statistics ([core/stats.c])

    [txc_stats_print], which [_TXC_global_shutdown] calls, as the pieces it prints, in
    order. A piece is what one conversion of a format or the text between them gives;
    only the mean, a quotient of two [double]s, is left as its two numbers. *)

From stdpp Require Import pretty.
From S2P Require Import Prelude Dll HashTable Stats.

(** ** The code *)

(** What is printed: text, blanks ([WHITESPACE]), ["%13s"], ["%13u"], ["%u"], and
    ["%13.2f"] of a mean. *)
Inductive piece :=
  | Text (s : string)
  | Blanks (n : Z)
  | Field (s : string)
  | Number (v : Z)
  | Plain (v : Z)
  | Mean (total count : Z)
  | Newline.

Section report.
(** The strings of the program, at their addresses; [txd->tid]. *)
Context (str : Z -> string) (tid_of : Z -> Z).

(** The statistics, and the file. *)
Definition report : Type := stats_st * list piece.

Definition of_stats {A} (m : M stats_st A) : M report A := m_zoom fst (fun s r => (s, snd r)) m.
Definition fprintf (l : list piece) : M report unit := m_modify (fun r => (fst r, snd r ++ l)).

(** [sprintf] into [header[512]] *)
Definition header_of (loc : txc_tx_srcloc_t) : string :=
  ("Source is line " +:+ pretty (src_line loc) +:+ " in function " +:+ str (src_fun loc) +:+ " in " +:+ str (src_file loc))%string.
Definition header_fits (loc : txc_tx_srcloc_t) : Prop := (String.length (header_of loc) < 512)%nat.
#[global] Instance header_fits_dec loc : Decision (header_fits loc).
Proof. unfold header_fits. apply _. Defined.

Definition header_pieces (shiftlen : Z) (loc : txc_tx_srcloc_t) : list piece :=
  [Blanks shiftlen; Text (header_of loc); Newline; Newline].
Definition title_pieces (shiftlen : Z) : list piece :=
  [Blanks (shiftlen + 2); Text ""; Blanks 25; Text ":"; Field "Min"; Field "Mean"; Field "Max"; Field "Total"; Newline].
Definition count_pieces (shiftlen count : Z) : list piece :=
  [Blanks (shiftlen + 2); Text "Transactions"; Blanks (25 - Z.of_nat (String.length "Transactions")); Text ":";
   Field ""; Field ""; Field ""; Number count; Newline].
Definition stat_pieces (shiftlen count : Z) (name : string) (x : txc_stats_stat_t) : list piece :=
  [Blanks (shiftlen + 2); Text name; Blanks (25 - Z.of_nat (String.length name)); Text ":";
   Number (stat_min x); Mean (stat_total x) count; Number (stat_max x); Number (stat_total x); Newline].

Definition stats_txstat_print (txstat : txc_stats_txstat_t) (shiftlen : Z) (print_srcloc : bool) : M report unit :=
  m_when print_srcloc (
    if bool_decide (header_fits (srcloc txstat)) then fprintf (header_pieces shiftlen (srcloc txstat)) else m_undef) ;;;
  fprintf (title_pieces shiftlen) ;;;
  fprintf (count_pieces shiftlen (ts_count txstat)) ;;;
  m_iter (fun i =>
    do name <- m_deref (stats_strings !! i) ;;
    do x <- m_deref (ts_stats txstat !! i) ;;
    fprintf (stat_pieces shiftlen (ts_count txstat) name x)) (seq 0 txc_stats_numofstats).

(** The static transactions of a table, as its iterator gives them. *)
Definition print_table (h : option txc_hash_table_t) (shiftlen : Z) : M report unit :=
  do h <- m_deref h ;;
  do l <- m_deref (hash_table_entries h) ;;
  m_iter (fun '(_, txstat) =>
    do t <- of_stats (ts_get txstat) ;;
    stats_txstat_print t shiftlen true ;;;
    fprintf [Newline]) l.

(** [txstat_all] has no source location: it is not printed. *)
Definition stats_threadstat_print (threadstat : Z) : M report unit :=
  do t <- of_stats (th_get threadstat) ;;
  fprintf [Text "Thread "; Plain (tid_of (th_txd t)); Newline] ;;;
  stats_txstat_print (TxStat 0 (SrcLoc 0 0 0) (th_count t) (th_stats t)) 0 false ;;;
  fprintf [Newline] ;;;
  fprintf [Text "  Transactions for thread "; Plain (tid_of (th_txd t)); Newline; Newline] ;;;
  print_table (tx_stats t) 4.

Fixpoint print_threads (fuel : nat) (threadstat : option Z) : M report unit :=
  match fuel with
  | O => m_nofuel
  | S fuel =>
      match threadstat with
      | None => m_ret tt
      | Some p =>
          stats_threadstat_print p ;;;
          fprintf [Newline] ;;;
          do t <- of_stats (th_get p) ;;
          print_threads fuel (th_next t)
      end
  end.

(** [opened] is whether [fopen] gives a file, which is not checked; the other arguments
    are those of [grand_total], which sums the threads up. *)
Definition txc_stats_print (statistics opened : bool) (fuel : nat) (ok1 ok2 : bool) (stale : txc_stats_txstat_t)
    (m_hp m_tbl : option Z) (summary : Z) : M report unit :=
  if negb statistics then m_ret tt else
  if negb opened then m_undef else
  fprintf [Text "STATS REPORT"; Newline] ;;;
  fprintf [Text "THREAD TOTALS"; Newline; Newline] ;;;
  do r <- m_get ;;
  print_threads fuel (alloc_threadstat_list_head (st_mgr (fst r))) ;;;
  fprintf [Text "TRANSACTION TOTALS"; Newline; Newline] ;;;
  do '(count, stats) <- of_stats (grand_total fuel ok1 ok2 stale m_hp m_tbl summary) ;;
  do t <- of_stats (th_get summary) ;;
  print_table (tx_stats t) 0 ;;;
  fprintf [Text "GRAND TOTAL (all transactions, all threads)"; Newline; Newline] ;;;
  stats_txstat_print (TxStat 0 (SrcLoc 0 0 0) count stats) 0 false.

Definition _TXC_global_shutdown (statistics opened : bool) (fuel : nat) (ok1 ok2 : bool) (stale : txc_stats_txstat_t)
    (m_hp m_tbl : option Z) (summary : Z) : M report Z :=
  txc_stats_print statistics opened fuel ok1 ok2 stale m_hp m_tbl summary ;;;
  m_ret TXC_R_SUCCESS.

(** ** What is printed *)

(** A table of counts. *)
Definition rows (shiftlen count : Z) (stats : list txc_stats_stat_t) : list piece :=
  title_pieces shiftlen ++ count_pieces shiftlen count ++
  concat (zip_with (stat_pieces shiftlen count) stats_strings stats).

(** The transactions of the source locations [ks], whose strings [loc] gives. *)
Definition location (hist : list (Z * list Z)) (loc : Z -> txc_tx_srcloc_t) (shiftlen k : Z) : list piece :=
  header_pieces shiftlen (loc k) ++
  rows shiftlen (u32 (Z.of_nat (length (of_key k hist)))) (tally (of_key k hist)) ++ [Newline].
Definition locations (hist : list (Z * list Z)) (loc : Z -> txc_tx_srcloc_t) (shiftlen : Z) (ks : list Z) : list piece :=
  concat (map (location hist loc shiftlen) ks).

(** The least counts of the grand total are 0. *)
Definition zero_mins (l : list txc_stats_stat_t) : list txc_stats_stat_t := map (fun x => Stat (stat_max x) 0 (stat_total x)) l.

Lemma of_stats_run {A} (m : M stats_st A) s out a s' : m s = Ret a s' -> of_stats m (s, out) = Ret a (s', out).
Proof. intros H. unfold of_stats, m_zoom. simpl. by rewrite H. Qed.

Lemma fprintf_run l s out : fprintf l (s, out) = Ret tt (s, out ++ l).
Proof. done. Qed.

Lemma rows_from {X} (f : string -> X -> list piece) (names : list string) (stats : list X) n j s out :
  (j + n = length names)%nat -> length stats = length names ->
  m_iter (fun i => do name <- m_deref (names !! i) ;; do x <- m_deref (stats !! i) ;; fprintf (f name x)) (seq j n) (s, out) =
  Ret tt (s, out ++ concat (zip_with f (drop j names) (drop j stats))).
Proof.
  intros Hj Hl. revert j Hj out. induction n as [|n IH]; intros j Hj out; simpl.
  - rewrite (drop_ge names) by lia. by rewrite app_nil_r.
  - destruct (lookup_lt_is_Some_2 names j) as [name Hn]; [lia|]. destruct (lookup_lt_is_Some_2 stats j) as [x Hx]; [lia|].
    rewrite (drop_S _ _ _ Hn), (drop_S _ _ _ Hx), Hn, Hx. simpl. unfold m_bind at 1, m_ret at 1.
    unfold m_deref, m_ret. unfold m_bind at 1. unfold m_bind at 1. unfold fprintf at 1, m_modify. simpl.
    rewrite IH by lia. by rewrite <- app_assoc.
Qed.

Lemma txstat_print_run a shiftlen b s out : length (ts_stats a) = txc_stats_numofstats -> (b = true -> header_fits (srcloc a)) ->
  stats_txstat_print a shiftlen b (s, out) =
  Ret tt (s, out ++ (if b then header_pieces shiftlen (srcloc a) else []) ++ rows shiftlen (ts_count a) (ts_stats a)).
Proof.
  intros Hl Hb. unfold stats_txstat_print.
  rewrite (m_bind_run _ _ _ tt (s, out ++ (if b then header_pieces shiftlen (srcloc a) else []))).
  2: { unfold m_when. destruct b; [by rewrite bool_decide_eq_true_2 by auto|by rewrite app_nil_r]. }
  rewrite !(m_bind_run _ _ _ _ _ (fprintf_run _ _ _)). rewrite rows_from by done. rewrite !drop_0. unfold rows. by rewrite <- !app_assoc.
Qed.

(** A table whose keys [ks] have the containers of [hist]. *)
Definition table_of (hist : list (Z * list Z)) (loc : Z -> txc_tx_srcloc_t) (l : list (Z * Z)) (s : stats_st) : Prop :=
  Forall (fun '(k, c) => exists a, st_txstats s !! c = Some a /\ ts_count a = u32 (Z.of_nat (length (of_key k hist))) /\
    ts_stats a = tally (of_key k hist) /\ srcloc a = loc k /\ header_fits (loc k)) l.

Lemma print_table_run hist loc l h shiftlen s out : hash_table_entries h = Some l -> table_of hist loc l s ->
  print_table (Some h) shiftlen (s, out) = Ret tt (s, out ++ locations hist loc shiftlen l.*1).
Proof.
  intros Hl Ht. unfold print_table. rewrite !bind_deref, Hl, bind_deref.
  clear Hl h. revert out. induction Ht as [|[k c] l (a & Ha & Hc & Hs & Hloc & Hf) Ht IH]; intros out; unfold locations; simpl.
  { by rewrite app_nil_r. }
  rewrite !m_bind_assoc, (m_bind_run _ _ _ _ _ (of_stats_run _ _ _ _ _ (ts_get_run _ _ _ Ha))).
  rewrite m_bind_assoc, (m_bind_run _ _ _ _ _ (txstat_print_run a shiftlen true s out ltac:(by rewrite Hs) ltac:(by rewrite Hloc))).
  rewrite (m_bind_run _ _ _ _ _ (fprintf_run _ _ _)), IH. unfold locations, location. rewrite Hc, Hs, Hloc.
  by rewrite <- !app_assoc.
Qed.
End report.

(** ** The sums of the report *)

Lemma foldr_max_app a b : foldr Z.max 0 (a ++ b) = Z.max (foldr Z.max 0 a) (foldr Z.max 0 b).
Proof.
  assert (0 <= foldr Z.max 0 b) as H by (induction b; simpl; lia). induction a as [|x a IH]; simpl; lia.
Qed.
Lemma foldr_min_app m a b : foldr Z.min m (a ++ b) = Z.min (foldr Z.min m a) (foldr Z.min m b).
Proof.
  assert (foldr Z.min m b <= m) as H by (induction b; simpl; lia). induction a as [|x a IH]; simpl; lia.
Qed.
Lemma foldr_add_app a b : foldr Z.add 0 (a ++ b) = foldr Z.add 0 a + foldr Z.add 0 b.
Proof. induction a as [|x a IH]; simpl; lia. Qed.

Lemma u32_add u v : u32 (u32 u + u32 v) = u32 (u + v).
Proof. unfold u32. by rewrite <- Zplus_mod. Qed.

Lemma summary_of_app a b i : summary_of (a ++ b) i = add_totals (summary_of a i) (summary_of b i).
Proof.
  unfold summary_of, add_totals. rewrite map_app, foldr_max_app, foldr_min_app, foldr_add_app. cbn [stat_max stat_min stat_total].
  by rewrite u32_add.
Qed.

Lemma tally_app a b : zip_with add_totals (tally a) (tally b) = tally (a ++ b).
Proof.
  unfold tally. generalize (seq 0 txc_stats_numofstats). intros l. induction l as [|i l IH]; [done|]. cbn [map zip_with].
  by rewrite IH, summary_of_app.
Qed.

(** Counts are not negative, so a least count is not. *)
Lemma zero_mins_app a b : Forall counts b -> zip_with add_totals (zero_mins (tally a)) (tally b) = zero_mins (tally (a ++ b)).
Proof.
  intros Hb. unfold zero_mins, tally. rewrite !map_map. generalize (seq 0 txc_stats_numofstats). intros l.
  induction l as [|i l IH]; [done|]. cbn [map zip_with]. rewrite IH, summary_of_app. f_equal. unfold add_totals. cbn [stat_max stat_min stat_total].
  f_equal. assert (0 <= stat_min (summary_of b i)); [|lia]. unfold summary_of. cbn [stat_min]. clear IH l.
  induction Hb as [|x b [_ Hx] Hb IH]; simpl; [lia|]. apply Z.min_glb; [|done].
  destruct (nth_in_or_default i x 0) as [H| ->]; [|lia]. rewrite List.Forall_forall in Hx. apply Hx in H. lia.
Qed.

Lemma tally_perm a b : a ≡ₚ b -> tally a = tally b.
Proof.
  intros H. unfold tally. apply map_ext. intros i. unfold summary_of.
  assert (map (fun h => nth i h 0) a ≡ₚ map (fun h => nth i h 0) b) as Hm by (by apply Permutation_map).
  f_equal; [| |f_equal]; induction Hm; simpl; lia.
Qed.

(** The transactions of a thread are those of its source locations. *)
Definition groups_of (hist : list (Z * list Z)) (ks : list Z) : list (list Z) := concat (map (fun k => of_key k hist) ks).

Lemma groups_cons p hist ks : NoDup ks -> p.1 ∈ ks -> groups_of (p :: hist) ks ≡ₚ p.2 :: groups_of hist ks.
Proof.
  assert (forall k, of_key k (p :: hist) = (if decide (p.1 = k) then [p.2] else []) ++ of_key k hist) as Hk.
  { intros k. unfold of_key. rewrite filter_cons. by case_decide. }
  assert (forall ks, p.1 ∉ ks -> groups_of (p :: hist) ks = groups_of hist ks) as Hno.
  { intros l. unfold groups_of. induction l as [|k l IH]; intros Hn; [done|]. apply not_elem_of_cons in Hn as [Hn Hl]. simpl.
    by rewrite IH, Hk, decide_False by congruence. }
  intros Hd. induction Hd as [|k ks Hin Hd IH]; intros H; [by apply elem_of_nil in H|].
  unfold groups_of in *. simpl. rewrite Hk. destruct (decide (p.1 = k)) as [<-|Hne].
  - rewrite (Hno ks Hin). done.
  - apply elem_of_cons in H as [|H]; [done|]. simpl. rewrite (IH H). by rewrite Permutation_middle.
Qed.

Lemma groups_all hist ks : NoDup ks -> (forall p, p ∈ hist -> p.1 ∈ ks) -> groups_of hist ks ≡ₚ map snd hist.
Proof.
  intros Hd. induction hist as [|p hist IH]; intros H.
  - unfold groups_of. clear. induction ks as [|k ks IH]; [done|]. simpl. exact IH.
  - rewrite groups_cons; [|done|apply H; by left]. simpl. rewrite IH; [done|]. intros q Hq. apply H. by right.
Qed.

(** *** The threads summed up *)

Section summed.
Context (summary : Z) (s0 : stats_st) (hist : list (Z * list Z)) (loc : Z -> txc_tx_srcloc_t).

(** The container of [k] at [c]. *)
Definition holds_key (s : stats_st) (k c : Z) : Prop := exists a, st_txstats s !! c = Some a /\ srcloc_str a = k /\
  ts_count a = u32 (Z.of_nat (length (of_key k hist))) /\ ts_stats a = tally (of_key k hist) /\ srcloc a = loc k.

(** The containers of [ks] were added to the summary. *)
Record summed (ks : list Z) (s : stats_st) : Prop := {
  su_summary : exists t h m, st_threads s !! summary = Some t /\ tx_stats t = Some h /\ ht_rep h m /\
    (forall k, is_Some (m !! k) <-> k ∈ ks) /\
    th_count t = u32 (Z.of_nat (length (groups_of hist ks))) /\ th_stats t = zero_mins (tally (groups_of hist ks)) /\
    forall k c, m !! k = Some c -> st_brk s0 <= c < st_brk s /\ holds_key s k c;
  su_old c : c < st_brk s0 -> st_txstats s !! c = st_txstats s0 !! c;
  su_threads p : p <> summary -> st_threads s !! p = st_threads s0 !! p;
  su_brk : st_brk s0 <= st_brk s;
}.

Lemma summarize_step stale ks k c s : Forall (fun p => counts p.2) hist ->
  summed ks s -> k ∉ ks -> 0 <= k < 2 ^ 32 -> c < st_brk s0 -> holds_key s0 k c ->
  exists s', summarize_txstat true true stale summary c s = Ret tt s' /\ summed (ks ++ [k]) s'.
Proof.
  intros Hcnt [(t & h & m & Ht & Hh & Hrep & Hm & Hc & Hst & Hm') Hold Hth Hb] Hk Hk32 Hcb (a & Ha & <- & Hac & Has & Hal).
  assert (st_txstats s !! c = Some a) as Ha' by (by rewrite Hold).
  assert (m !! srcloc_str a = None) as Hnone.
  { destruct (m !! srcloc_str a) eqn:E; [|done]. destruct Hk. apply Hm. by eexists. }
  destruct (container_new c summary m s stale a t h Ha' Hk32 Ht Hh Hrep Hnone) as (h' & Hrep' & E).
  unfold summarize_txstat. rewrite (m_bind_run _ _ _ _ _ E). set (c' := st_brk s) in *.
  match goal with |- context [m_bind (ts_get c) _ ?x = _] => set (s1 := x) end.
  assert (st_txstats s1 !! c = Some a) as Ha1 by (simpl; rewrite lookup_insert_ne by lia; done).
  rewrite (m_bind_run _ _ _ _ _ (ts_get_run _ _ _ Ha1)).
  assert (st_txstats s1 !! c' = Some (TxStat (srcloc_str a) (srcloc a) 0 new_stats)) as Hc1 by apply lookup_insert_eq.
  rewrite (m_bind_run _ _ _ _ _ (ts_upd_run _ _ _ _ Hc1)). 
  erewrite th_upd_run by (simpl; apply lookup_insert_eq). eexists. split; [reflexivity|].
  set (l := of_key (srcloc_str a) hist) in *.
  assert (groups_of hist (ks ++ [srcloc_str a]) = groups_of hist ks ++ l) as Hg.
  { unfold groups_of. rewrite map_app, concat_app. simpl. by rewrite app_nil_r. }
  assert (Forall counts l) as Hl.
  { unfold l, of_key. apply Forall_fmap. apply Forall_forall. intros p Hp. apply list_elem_of_filter in Hp as [_ Hp].
    rewrite Forall_forall in Hcnt. by apply Hcnt. }
  split.
  - do 3 eexists. split_and!; [simpl; apply lookup_insert_eq|done|exact Hrep'| | | |].
    + intros k. rewrite lookup_insert_is_Some, Hm, elem_of_app, list_elem_of_singleton.
      destruct (decide (srcloc_str a = k)); naive_solver.
    + simpl. rewrite Hc, Hac, u32_add, Hg, length_app. f_equal. lia.
    + simpl. rewrite Hst, Has, Hg. by apply zero_mins_app.
    + intros k c2 Hk2. destruct (decide (srcloc_str a = k)) as [<-|Hne].
      * rewrite lookup_insert_eq in Hk2. injection Hk2 as <-. split; [simpl; lia|]. eexists.
        split_and!; [apply lookup_insert_eq|done|cbn [ts_set_stats ts_count]; rewrite Hac, Z.add_0_l; apply u32_idem| |done].
        cbn [ts_set_stats ts_stats]. rewrite Has, <- tally_nil. apply tally_app.
      * rewrite lookup_insert_ne in Hk2 by done. destruct (Hm' _ _ Hk2) as (Hr & b & Hbb & ?). simpl. split; [lia|].
        exists b. split; [|done]. simpl. by rewrite !lookup_insert_ne by lia.
  - intros d Hd. simpl. rewrite !lookup_insert_ne by lia. by apply Hold.
  - intros p Hp. simpl. rewrite !lookup_insert_ne by done. by apply Hth.
  - simpl. lia.
Qed.

Lemma summarize_list stale ks l s : Forall (fun p => counts p.2) hist -> summed ks s ->
  NoDup (ks ++ l.*1) -> Forall (fun '(k, c) => 0 <= k < 2 ^ 32 /\ c < st_brk s0 /\ holds_key s0 k c) l ->
  exists s', m_iter (fun '(_, txstat) => summarize_txstat true true stale summary txstat) l s = Ret tt s' /\ summed (ks ++ l.*1) s'.
Proof.
  intros Hcnt Hs Hd Hl. revert ks s Hs Hd. induction Hl as [|[k c] l (Hk & Hc & Hh) Hl IH]; intros ks s Hs Hd; cbn [m_iter].
  { exists s. by rewrite app_nil_r. }
  rewrite fmap_cons in Hd |- *. simpl fst in *. destruct (summarize_step stale ks k c s Hcnt Hs) as (s1 & E1 & Hs1); [|done..|].
  { apply NoDup_app in Hd as (_ & Hd & _). intros Hin. apply (Hd k Hin). by left. }
  rewrite (m_bind_run _ _ _ _ _ E1). assert (ks ++ k :: l.*1 = (ks ++ [k]) ++ l.*1) as E by (by rewrite <- app_assoc).
  rewrite E in Hd |- *. by apply IH.
Qed.
End summed.

(** ** The report of one thread *)

Section one_thread.
Context (str : Z -> string) (tid_of : Z -> Z).

(** The thread's part. *)
Definition thread_report (tid : Z) (hist : list (Z * list Z)) (loc : Z -> txc_tx_srcloc_t) (ks : list Z) : list piece :=
  [Text "Thread "; Plain tid; Newline] ++ rows 0 (u32 (Z.of_nat (length hist))) (tally (map snd hist)) ++ [Newline] ++
  [Text "  Transactions for thread "; Plain tid; Newline; Newline] ++ locations str hist loc 4 ks ++ [Newline].

(** What is printed of a thread whose transactions are [hist]: [ks] and [ks'] are the
    source locations in the orders of the two tables. *)
Definition report_of (tid : Z) (hist : list (Z * list Z)) (loc : Z -> txc_tx_srcloc_t) (ks ks' : list Z) : list piece :=
  let n := u32 (Z.of_nat (length hist)) in
  [Text "STATS REPORT"; Newline; Text "THREAD TOTALS"; Newline; Newline] ++ thread_report tid hist loc ks ++
  [Text "TRANSACTION TOTALS"; Newline; Newline] ++ locations str hist loc 0 ks' ++
  [Text "GRAND TOTAL (all transactions, all threads)"; Newline; Newline] ++ rows 0 n (zero_mins (tally (map snd hist))).

(** The locations of a thread, in its table. *)
Definition located (hist : list (Z * list Z)) (m : gmap Z Z) (s : stats_st) (loc : Z -> txc_tx_srcloc_t) : Prop :=
  forall k c, m !! k = Some c -> 0 <= k < 2 ^ 32 /\ c < st_brk s /\ holds_key hist loc s k c.

Definition loc_of (m : gmap Z Z) (s : stats_st) (k : Z) : txc_tx_srcloc_t :=
  from_option srcloc (SrcLoc 0 0 0) (m !! k ≫= (st_txstats s !!.)).

Lemma of_key_in k hist : of_key k hist <> [] -> exists p, p ∈ hist /\ p.1 = k.
Proof.
  unfold of_key. destruct (filter (fun p => p.1 = k) hist) as [|p l] eqn:E; [done|]. intros _. exists p.
  assert (p ∈ filter (fun p => p.1 = k) hist) as H by (rewrite E; by left). by apply list_elem_of_filter in H as [? ?].
Qed.

Lemma in_of_key p hist : p ∈ hist -> of_key p.1 hist <> [].
Proof.
  intros Hp E. apply fmap_nil_inv in E. assert (p ∈ filter (fun q => q.1 = p.1) hist) as H by (by apply list_elem_of_filter).
  rewrite E in H. by apply elem_of_nil in H.
Qed.

Lemma collected_located txstat th hist m s : collected None txstat th hist m s -> located hist m s (loc_of m s).
Proof.
  intros [_ Hs _ _ Hk] k c Hm. destruct (Hs k c Hm) as [[Hne|] (Hx & Hc & a & Ha & Hak & Han & Hat)]; [|done].
  split_and!; [| |done|].
  1,2: destruct (of_key_in k hist Hne) as (p & Hp & <-); rewrite Forall_forall in Hk; by apply Hk.
  exists a. split_and!; try done. unfold loc_of. rewrite Hm. simpl. by rewrite Ha.
Qed.

(** The keys of a table, once each. *)
Lemma table_keys (m : gmap Z Z) l : l ≡ₚ map_to_list m -> NoDup l.*1 /\ (forall k, k ∈ l.*1 <-> is_Some (m !! k)) /\
  Forall (fun '(k, c) => m !! k = Some c) l.
Proof.
  intros Hl. split_and!.
  - rewrite Hl. apply NoDup_fst_map_to_list.
  - intros k. rewrite Hl, list_elem_of_fmap. split.
    + intros ([k' c] & -> & H). apply elem_of_map_to_list in H. by exists c.
    + intros [c H]. exists (k, c). split; [done|]. by apply elem_of_map_to_list.
  - rewrite Hl. apply Forall_forall. intros [k c] H. by apply elem_of_map_to_list in H.
Qed.

Lemma located_table hist m s loc l : located hist m s loc -> (forall k, is_Some (m !! k) -> header_fits str (loc k)) ->
  Forall (fun '(k, c) => m !! k = Some c) l -> table_of str hist loc l s.
Proof.
  intros Hloc Hf Hl. eapply Forall_impl; [exact Hl|]. intros [k c] Hm. destruct (Hloc k c Hm) as (_ & _ & a & Ha & _ & Hc & Ht & Hal).
  exists a. split_and!; try done. apply Hf. by eexists.
Qed.

(** What the summary of one thread is. *)
Lemma grand_total_run fuel stale a b summary th t h hist m s loc :
  alloc_threadstat_list_head (st_mgr s) = Some th -> st_threads s !! th = Some t -> tx_stats t = Some h -> th_next t = None ->
  st_threads s !! summary = None -> ht_rep h m -> located hist m s loc -> Forall (fun p => counts p.2) hist ->
  (forall p, p ∈ hist -> is_Some (m !! p.1)) ->
  exists s' t' h' m', grand_total (2 + fuel) true true stale (Some a) (Some b) summary s =
      Ret (u32 (Z.of_nat (length hist)), zero_mins (tally (map snd hist))) s' /\
    st_threads s' !! summary = Some t' /\ tx_stats t' = Some h' /\ ht_rep h' m' /\ located hist m' s' loc /\
    forall k, is_Some (m' !! k) <-> is_Some (m !! k).
Proof.
  intros Hhead Hth Htab Hnext Hnew Hrep Hloc Hcnt Hall. destruct (entries_run h m Hrep) as (l & El & Hl).
  destruct (table_keys m l Hl) as (Hnd & Hkeys & Hlm).
  destruct (new_table_empty a b) as (h0 & E0 & Hrep0 & _).
  set (t0 := ThreadStat 0 (replicate txc_stats_numofstats (Stat 0 0 0)) (Some h0) None None 0).
  set (s1 := set_threads (<[summary := t0]> (st_threads s)) s).
  assert (th <> summary) as Hne by congruence.
  assert (summed summary s hist loc [] s1) as Hs1.
  { split; [|done| |simpl; lia].
    - exists t0, h0, ∅. split_and!; [apply lookup_insert_eq|done|done| |done|done|].
      + intros k. rewrite lookup_empty. split; [by intros []|]. by intros ?%elem_of_nil.
      + intros k c. by rewrite lookup_empty.
    - intros p Hp. simpl. by rewrite lookup_insert_ne. }
  destruct (summarize_list summary s hist loc stale [] l s1 Hcnt Hs1 Hnd) as (s2 & E2 & Hs2).
  { eapply Forall_impl; [exact Hlm|]. intros [k c]. apply Hloc. }
  destruct Hs2 as [(t' & h' & m' & Ht' & Hh' & Hrep' & Hm' & Hc' & Hst' & Hin') _ Hth2 _]. rewrite app_nil_l in *.
  assert (groups_of hist l.*1 ≡ₚ map snd hist) as Hg by (apply groups_all; [done|]; intros p Hp; by apply Hkeys, Hall).
  exists s2, t', h', m'. split_and!; try done.
  - unfold grand_total. unfold m_bind at 1, m_get. fold (new_table (Some a) (Some b)). rewrite E0, bind_modify. fold t0. fold s1.
    rewrite Hhead. erewrite m_bind_run.
    2: { cbn [Nat.add stats_summarize_all].
      rewrite (m_bind_run _ _ _ t s1) by (apply th_get_run; simpl; by rewrite lookup_insert_ne).
      rewrite Htab, bind_deref, El, bind_deref, (m_bind_run _ _ _ _ _ E2).
      rewrite (m_bind_run _ _ _ t s2) by (apply th_get_run; by rewrite Hth2).
      rewrite Hnext. reflexivity. }
    rewrite (m_bind_run _ _ _ _ _ (th_get_run _ _ _ Ht')). rewrite Hc', Hst', (tally_perm _ _ Hg), Hg, length_map. done.
  - intros k c Hk. destruct (Hin' k c Hk) as (Hr & ?). split_and!; [..|lia|done].
    all: destruct (proj1 (Hkeys k)) as [c0 Hc0]; [apply Hm'; by eexists|]; apply (Hloc k c0 Hc0).
  - intros k. by rewrite Hm', Hkeys.
Qed.

Lemma print_one_thread fuel th t h hist s loc l out :
  st_threads s !! th = Some t -> tx_stats t = Some h -> th_next t = None -> hash_table_entries h = Some l ->
  th_count t = u32 (Z.of_nat (length hist)) -> th_stats t = tally (map snd hist) -> table_of str hist loc l s ->
  print_threads str tid_of (2 + fuel) (Some th) (s, out) = Ret tt (s, out ++ thread_report (tid_of (th_txd t)) hist loc l.*1).
Proof.
  intros Hth Htab Hnext El Hc Hs Hl. cbn [Nat.add print_threads]. unfold stats_threadstat_print. rewrite !m_bind_assoc.
  rewrite (m_bind_run _ _ _ _ _ (of_stats_run _ _ _ _ _ (th_get_run _ _ _ Hth))). rewrite !m_bind_assoc.
  rewrite (m_bind_run _ _ _ _ _ (fprintf_run _ _ _)), !m_bind_assoc.
  rewrite (m_bind_run _ _ _ _ _ (txstat_print_run str (TxStat 0 (SrcLoc 0 0 0) (th_count t) (th_stats t)) 0 false _ _ ltac:(cbn [ts_stats]; by rewrite Hs) ltac:(done))), !m_bind_assoc.
  rewrite (m_bind_run _ _ _ _ _ (fprintf_run _ _ _)), !m_bind_assoc, (m_bind_run _ _ _ _ _ (fprintf_run _ _ _)).
  rewrite Htab, (m_bind_run _ _ _ _ _ (print_table_run str hist loc l h 4 s _ El Hl)).
  rewrite (m_bind_run _ _ _ _ _ (fprintf_run _ _ _)), (m_bind_run _ _ _ _ _ (of_stats_run _ _ _ _ _ (th_get_run _ _ _ Hth))).
  rewrite Hnext. cbn [print_threads ts_count ts_stats]. unfold thread_report, m_ret. rewrite Hc, Hs. cbn [app]. by rewrite <- !app_assoc.
Qed.

(** C37: The report of a thread that has collected [hist]. It gives the thread's totals;
    each of its source locations once, with the number of transactions that committed
    there and the least, the greatest and the sum of each of their counts; the same
    again for all threads; and the grand total, whose least counts are 0. The two tables
    give the locations in orders of their own. *)
Theorem report_of_one_thread fuel stale a b summary txstat th t hist m s :
  collected None txstat th hist m s -> Forall (fun p => counts p.2) hist ->
  alloc_threadstat_list_head (st_mgr s) = Some th -> st_threads s !! th = Some t -> th_next t = None ->
  st_threads s !! summary = None ->
  (forall c x, st_txstats s !! c = Some x -> header_fits str (srcloc x)) ->
  exists s' loc ks ks',
    _TXC_global_shutdown str tid_of true true (2 + fuel) true true stale (Some a) (Some b) summary (s, []) =
      Ret TXC_R_SUCCESS (s', report_of (tid_of (th_txd t)) hist loc ks ks') /\
    NoDup ks /\ ks' ≡ₚ ks /\ (forall k, k ∈ ks <-> of_key k hist <> []) /\
    (forall k c x, m !! k = Some c -> st_txstats s !! c = Some x -> loc k = srcloc x).
Proof.
  intros Hc Hcnt Hhead Hth Hnext Hnew Hfit. pose proof (collected_located _ _ _ _ _ Hc) as Hloc. set (loc := loc_of m s) in *.
  destruct (co_thread _ _ _ _ _ _ Hc) as (t1 & h & Ht1 & Htab & Hrep & Htc & Hts). assert (t1 = t) as -> by congruence. clear Ht1.
  assert (forall p, p ∈ hist -> is_Some (m !! p.1)) as Hall.
  { intros p Hp. destruct (m !! p.1) eqn:E; [by eexists|]. destruct (in_of_key p hist Hp). by apply (co_none _ _ _ _ _ _ Hc). }
  destruct (grand_total_run fuel stale a b summary th t h hist m s loc Hhead Hth Htab Hnext Hnew Hrep Hloc Hcnt Hall)
    as (s2 & t2 & h2 & m2 & E2 & Ht2 & Hh2 & Hrep2 & Hloc2 & Hkeys2).
  destruct (entries_run h m Hrep) as (l & El & Hl). destruct (table_keys m l Hl) as (Hnd & Hkeys & Hlm).
  destruct (entries_run h2 m2 Hrep2) as (l2 & El2 & Hl2). destruct (table_keys m2 l2 Hl2) as (Hnd2 & Hkeys2' & Hlm2).
  assert (forall k, is_Some (m !! k) -> header_fits str (loc k)) as Hf.
  { intros k [c Hk]. destruct (Hloc k c Hk) as (_ & _ & x & Hx & _ & _ & _ & <-). by apply (Hfit c). }
  exists s2, loc, l.*1, l2.*1. split_and!; [|done| | |].
  - assert (table_of str hist loc l s) as Hl1 by (by eapply located_table).
    assert (table_of str hist loc l2 s2) as Hl3 by (eapply located_table; [done| |done]; intros k Hk; by apply Hf, Hkeys2).
    unfold _TXC_global_shutdown, txc_stats_print. simpl negb. cbv iota. rewrite !m_bind_assoc.
    rewrite (m_bind_run _ _ _ _ _ (fprintf_run _ _ _)), !m_bind_assoc, (m_bind_run _ _ _ _ _ (fprintf_run _ _ _)), !m_bind_assoc.
    unfold m_bind at 1, m_get. cbn [fst]. rewrite Hhead, !m_bind_assoc.
    rewrite (m_bind_run _ _ _ _ _ (print_one_thread fuel th t h hist s loc l _ Hth Htab Hnext El Htc Hts Hl1)), !m_bind_assoc.
    rewrite (m_bind_run _ _ _ _ _ (fprintf_run _ _ _)), !m_bind_assoc.
    rewrite (m_bind_run _ _ _ _ _ (of_stats_run _ _ _ _ _ E2)). cbv beta iota. rewrite !m_bind_assoc.
    rewrite (m_bind_run _ _ _ _ _ (of_stats_run _ _ _ _ _ (th_get_run _ _ _ Ht2))), !m_bind_assoc.
    rewrite Hh2, (m_bind_run _ _ _ _ _ (print_table_run str hist loc l2 h2 0 s2 _ El2 Hl3)), !m_bind_assoc.
    rewrite (m_bind_run _ _ _ _ _ (fprintf_run _ _ _)).
    rewrite (m_bind_run _ _ _ _ _ (txstat_print_run str (TxStat 0 (SrcLoc 0 0 0) _ (zero_mins (tally (map snd hist)))) 0 false _ _ eq_refl ltac:(done))).
    unfold m_ret, report_of. cbn [ts_count ts_stats app]. by rewrite <- !app_assoc.
  - apply NoDup_Permutation; [done..|]. intros k. by rewrite Hkeys, Hkeys2', Hkeys2.
  - intros k. rewrite Hkeys. split.
    + intros [c Hk]. by destruct (co_some _ _ _ _ _ _ Hc k c Hk) as [[|] _].
    + intros Hne. destruct (of_key_in k hist Hne) as (p & Hp & <-). by apply Hall.
  - intros k c x Hk Hx. unfold loc, loc_of. rewrite Hk. simpl. by rewrite Hx.
Qed.
End one_thread.

(** *** A concrete report

    Of the thread of [Stats], after its transactions. *)

Definition name0 (p : Z) : string := if bool_decide (p = 1) then "main.c" else "main".

Lemma stats3_collected : exists m, collected None 101 100 (map (fun r => (r_str r, counts_of (r_incs r))) runs0) m stats3.
Proof.
  destruct committed_transactions_collected_witness as (s' & m' & E & Hc & _). exists m'.
  assert (stats3 = s') as -> by (unfold stats3, after; by rewrite E). exact Hc.
Qed.

Lemma report_of_one_thread_witness : exists s' loc ks ks',
  _TXC_global_shutdown name0 (fun txd => txd) true true 2 true true stale_txstat (Some 3) (Some 4) 50 (stats3, []) =
    Ret TXC_R_SUCCESS (s', report_of name0 7 (map (fun r => (r_str r, counts_of (r_incs r))) runs0) loc ks ks') /\
  ks' ≡ₚ ks /\ (forall k, k ∈ ks <-> of_key k (map (fun r => (r_str r, counts_of (r_incs r))) runs0) <> []).
Proof.
  destruct stats3_collected as [m Hc].
  destruct (st_threads stats3 !! 100) as [t|] eqn:Ht; [|vm_compute in Ht; discriminate].
  assert (th_txd t = 7 /\ th_next t = None) as [Htxd Hn] by (vm_compute in Ht; injection Ht as <-; done).
  destruct (report_of_one_thread name0 (fun txd => txd) 0 stale_txstat 3 4 50 101 100 t _ m stats3 Hc) as (s' & loc & ks & ks' & E & _ & Hk & Hks & _).
  - apply Forall_fmap, Forall_forall. intros r _. apply counts_of_counts.
  - vm_compute. reflexivity.
  - exact Ht.
  - exact Hn.
  - vm_compute. reflexivity.
  - apply (bool_decide_unpack (map_Forall (fun _ x => header_fits name0 (srcloc x)) (st_txstats stats3))). vm_compute. exact I.
  - exists s', loc, ks, ks'. rewrite Htxd in E. split; [exact E|]. split; [exact Hk|exact Hks].
Defined.
