(* ===== verification/World.v ===== *)
(** * The state of the library

    [Platform] is what the library is built on and does not define: the kernel's
    state and system calls, the C implementation's object sizes, and the value an
    automatic variable has before it is assigned.  [world] is the state of one
    process: the managers of [core/], each with its pool and the objects of the
    pool by address, and the [int]s the application gave the library a pointer
    to.  Pointers are addresses ([Z], NULL is 0); a [result] argument is an
    [option Z], [None] for NULL.

    A mutex is a boolean, set while it is held. Locking a held mutex is [Block]:
    the caller waits until another thread releases it (the library's mutexes are
    not recursive). *)

From S2P Require Import Prelude Dll Pool HashTable Buffer Actions.

(** ** The platform *)

(** The objects whose size the code asks for. *)
Inductive ctype :=
  | sz_txc_tx_t | sz_txc_sentinel_t | sz_txc_koa_t
  | sz_x_read_undo_args_t | sz_x_write_undo_args_t | sz_x_lseek_undo_args_t
  | sz_x_fsync_commit_args_t | sz_x_fdatasync_commit_args_t | sz_x_close_commit_args_t
  | sz_x_open_undo_args_t | sz_x_create_case1_args_t | sz_x_create_case2_args_t
  | sz_x_dup_undo_args_t | sz_x_unlink_commit_args_t | sz_x_rename_args_t
  | sz_x_pipe_undo_args_t | sz_x_read_pipe_args_t | sz_x_write_commit_args_t
  | sz_x_socket_undo_args_t | sz_x_sendmsg_commit_args_t | sz_x_recvmsg_commit_undo_args_t
  | sz_x_undo_args_t | sz_x_commit_args_t | sz_iovec.

(** A system call: its result, the value it leaves in [errno] when it sets it,
    and the new state of the kernel. *)
Definition syscall (K A : Type) : Type := K -> A * option Z * K.

(** [struct msghdr] as [sendmsg] sees it: [mh_iov] and [mh_control] are the bytes
    of the array of [iovec]s and of the control message. *)
Record msghdr := MsgHdr {
  mh_name : Z;
  mh_namelen : Z;
  mh_iov : list byte;
  mh_iovlen : Z;
  mh_control : list byte;
  mh_flags : Z;
}.

(** What [recvmsg] stores: the address, the data, the control message. *)
Record received := Received {
  rc_name : list byte;
  rc_namelen : Z;
  rc_data : list byte;
  rc_control : list byte;
  rc_flags : Z;
}.

(** [whence] of [lseek]. *)
Definition SEEK_SET : Z := 0.
Definition SEEK_CUR : Z := 1.
Definition SEEK_END : Z := 2.

Class Platform := {
  kstate : Type;
  sizeof : ctype -> Z;
  (** what an uninitialised automatic [int] or pointer holds *)
  uninit : Z;
  (** does [realloc] grant an array of this many cells? *)
  realloc_ok : Z -> bool;
  sys_open : string -> Z -> Z -> syscall kstate Z;
  sys_close : Z -> syscall kstate Z;
  (** the count, and the bytes stored in the buffer *)
  sys_read : Z -> Z -> syscall kstate (Z * list byte);
  sys_write : Z -> list byte -> syscall kstate Z;
  sys_lseek : Z -> Z -> Z -> syscall kstate Z;
  sys_ftruncate : Z -> Z -> syscall kstate Z;
  sys_pwrite : Z -> list byte -> Z -> syscall kstate Z;
  sys_fsync : Z -> syscall kstate Z;
  sys_fdatasync : Z -> syscall kstate Z;
  sys_dup : Z -> syscall kstate Z;
  sys_unlink : string -> syscall kstate Z;
  sys_rename : string -> string -> syscall kstate Z;
  sys_link : string -> string -> syscall kstate Z;
  (** the result and [st_ino] *)
  sys_stat : string -> syscall kstate (Z * Z);
  (** the result and the two descriptors *)
  sys_pipe : syscall kstate (Z * (Z * Z));
  sys_mktemp : string -> syscall kstate string;
  sys_socket : Z -> Z -> Z -> syscall kstate Z;
  sys_sendmsg : Z -> msghdr -> Z -> syscall kstate Z;
  (** [recvmsg(fd, ..., flags)] with room for so much data and control *)
  sys_recvmsg : Z -> Z -> Z -> Z -> syscall kstate (Z * received);
  (** bytes of a transaction's log that were not written *)
  log_stale : Z -> Z -> list byte;
  (** the POSIX mutexes of the application, and its threads: [pthread_create]
      runs a routine, by its address, on an argument; [mutex_lock] is [None]
      while it would wait *)
  pthread_mutex_init : Z -> syscall kstate Z;
  pthread_mutex_trylock : Z -> syscall kstate Z;
  pthread_mutex_unlock : Z -> syscall kstate Z;
  pthread_mutex_lock : Z -> kstate -> option (Z * kstate);
  pthread_create : Z -> Z -> syscall kstate Z;
  (** the address of [x_pthread_create_start_indirection] *)
  indirection_ptr : Z;
  (** an action of the application: what its function does with its argument,
      and the error it stores *)
  app_run : Z -> Z -> syscall kstate Z;
}.

(** The values of [errno] the library itself reports. *)
Definition ENOENT : Z := 2.
Definition EBADF : Z := 9.
Definition ENOMEM : Z := 12.
Definition EACCES : Z := 13.

(** [core/config.h] *)
Definition TXC_MAX_NUM_THREADS : Z := 32.
Definition TXC_SENTINEL_NUM : Z := 512.
Definition TXC_KOA_NUM : Z := 512.
Definition TXC_SENTINEL_LIST_SIZE : Z := 32.
Definition TXC_KOA_MAP_SIZE : Z := 1024.
Definition TXC_KOA_CACHE_HASHTBL_SIZE : Z := 256.
Definition TXC_MAX_NUM_FDREFS_PER_KOA : Z := 8.
Definition TXC_MAX_LEN_PATHNAME : Z := 128.
Definition TXC_TX_REGULAR_COMMIT_ACTION_ORDER : Z := 0.
Definition TXC_TX_REGULAR_UNDO_ACTION_ORDER : Z := 0.
Definition TXC_KOA_CREATE_COMMIT_ACTION_ORDER : Z := 0.
Definition TXC_KOA_CREATE_UNDO_ACTION_ORDER : Z := 0.
Definition TXC_KOA_DESTROY_COMMIT_ACTION_ORDER : Z := 1.
Definition TXC_KOA_DESTROY_UNDO_ACTION_ORDER : Z := 1.
Definition TXC_SENTINELMGR_COMMIT_ACTION_ORDER : Z := 2.
Definition TXC_SENTINELMGR_UNDO_ACTION_ORDER : Z := 2.

(** ** Commit and undo actions

    A registered function pointer with the argument block it was registered
    with; [app_action] is one the application registered. Blocks are written before they are registered and not after, except
    that they live in the transaction's linear buffer. *)
Inductive action :=
  | sentinelmgr_commit_action (txd : Z)
  | sentinelmgr_undo_action (txd : Z)
  | x_read_undo (fd nbyte : Z)
  | x_write_seq_undo (fd nbyte_new : Z)
  | x_write_ovr_undo (fd : Z) (buf : option (list byte)) (nbyte_new nbyte_old : Z)
  | x_lseek_undo (fd old_position : Z)
  | x_fsync_commit (fd : Z)
  | x_fdatasync_commit (fd : Z)
  | x_close_commit (fd koa : Z)
  | x_open_undo (fd koa : Z)
  | x_create_case1_undo (fd koa : Z) (pathname : string)
  | x_create_case2_commit (fd koa : Z) (temp_pathname original_pathname : string)
  | x_create_case2_undo (fd koa : Z) (temp_pathname original_pathname : string)
  | x_dup_undo (fd koa : Z)
  | x_unlink_commit (koa : Z) (pathname : string)
  | x_rename_commit (oldpath_koa newpath_koa : Z) (newpath_koa_is_valid : bool)
      (oldpath newpath temppath : string)
  | x_rename_undo (oldpath_koa newpath_koa : Z) (newpath_koa_is_valid : bool)
      (oldpath newpath temppath : string)
  | x_pipe_undo (fd0 fd1 koa0 koa1 : Z)
  | x_read_pipe_commit (koa buffer : Z)
  | x_read_pipe_undo (koa buffer : Z)
  | x_write_pipe_commit (fd : Z) (buf : list byte) (nbyte : Z)
  | x_socket_undo (fd koa : Z)
  | x_sendmsg_commit (fd : Z) (msg : msghdr) (flags : Z)
  | x_recvmsg_commit (koa buffer : Z)
  | x_recvmsg_undo (koa buffer : Z)
  | x_pthread_create_commit (control_block : Z)
  | x_pthread_create_undo (control_block : Z)
  | x_pthread_mutex_lock_undo (mutex : Z)
  | x_pthread_mutex_unlock_commit (mutex : Z)
  | app_action (function args : Z).

Notation action_list := (txc_tx_action_list_t action).

(** ** Sentinels and descriptors *)

(** [struct txc_sentinel_s]; the manager is the process's only one. *)
Record txc_sentinel_t := Sentinel {
  sentinel_mutex : bool;
  synch_mutex : bool;
  s_id : Z;
  s_refcnt : Z;
  s_owner : Z;
}.

(** [struct txc_sentinel_list_entry_s] *)
Record txc_sentinel_list_entry_t := SentinelEntry {
  se_sentinel : Z;
  se_status : Z;
}.

(** [struct txc_sentinel_list_s]; [None] is a NULL array, cells never written
    are left out. *)
Record txc_sentinel_list_t := SentinelList {
  sl_entries : option (list txc_sentinel_list_entry_t);
  sl_num_entries : Z;
  sl_size : Z;
}.

(** What the TM library (Intel STM, [tm/itm.h]) keeps for a thread: how it is
    executing, and whether the library's two callbacks are registered with the
    current transaction. *)
Record itm_transaction := ItmTransaction {
  itm_mode : txc_tx_xactstate_t;
  itm_undo_registered : bool;
  itm_commit_registered : bool;
}.

(** [struct txc_tx_s] *)
Record txc_tx_t := Tx {
  tid : Z;
  tid_pthread : Z;
  sentinelmgr_undo_action_registered : bool;
  sentinelmgr_commit_action_registered : bool;
  statsmgr_undo_action_registered : bool;
  statsmgr_commit_action_registered : bool;
  generic_undo_action_registered : bool;
  generic_commit_action_registered : bool;
  abort_reason : txc_tx_abortreason_t;
  forced_retries : Z;
  commit_action_list : action_list;
  undo_action_list : action_list;
  sentinel_list : txc_sentinel_list_t;
  sentinel_list_preacquire : txc_sentinel_list_t;
  buffer_linear : Z;
  tx_next : Z;
  tx_prev : Z;
  fm_flags : Z;
  fm_error_result : option Z;
  fm_abort : bool;
  itm_td : itm_transaction;
}.

(** [struct txc_txmgr_s] *)
Record txc_txmgr_t := TxMgr {
  tm_mutex : bool;
  alloc_txd_num : Z;
  alloc_txd_list_head : Z;
  alloc_txd_list_tail : Z;
  pool_txd : txc_pool_t;
  txds : gmap Z txc_tx_t;
}.

(** [struct txc_sentinelmgr_s] *)
Record txc_sentinelmgr_t := SentinelMgr {
  pool_sentinel : txc_pool_t;
  sentinels : gmap Z txc_sentinel_t;
}.

(** ** Kernel object abstractions *)

(** The [type] of a KOA. *)
Definition TXC_KOA_IS_SOCK_DGRAM : Z := 1.
Definition TXC_KOA_IS_SOCK_STREAM : Z := 2.
Definition TXC_KOA_IS_PIPE_READ_END : Z := 3.
Definition TXC_KOA_IS_PIPE_WRITE_END : Z := 4.
Definition TXC_KOA_IS_FILE : Z := 5.

(** [struct txc_koa_s]: the union of the per-type structures is its first word,
    the inode of a file or the address of a circular buffer. *)
Record txc_koa_t := Koa {
  koa_mutex : bool;
  koa_sentinel : Z;
  fdref_fd : list Z;
  fdref_refcnt : Z;
  koa_refcnt : Z;
  koa_type : Z;
  koa_word : Z;
}.

(** [struct txc_fd2koa_s] *)
Record txc_fd2koa_t := Fd2Koa {
  fd_mutex : bool;
  fd_koa : Z;
}.

(** [struct txc_koamgr_s]; [fd_map] has a cell for each index of [map]. *)
Record txc_koamgr_t := KoaMgr {
  alias_mutex : bool;
  alias_hash_tbl : txc_hash_table_t;
  fd_map : gmap Z txc_fd2koa_t;
  pool_koa_obj : txc_pool_t;
  koas : gmap Z txc_koa_t;
}.

(** [struct x_pthread_create_control_block_s]: what a thread made in a
    transaction waits for; [cb_start] is [None] for NULL. *)
Record x_pthread_create_control_block_t := ControlBlock {
  start_lock : bool;
  start : option Z;
  cb_arg : Z;
}.

(** ** The world *)

(** The two run-time settings the core reads ([core/config.c]). *)
Record settings := Settings {
  sentinel_max_spin_retries : Z;
  sentinel_max_backoff_time : Z;
}.

Section world.
Context {PF : Platform}.

Record world := World {
  w_kernel : kstate;
  w_errno : Z;
  w_txmgr : txc_txmgr_t;
  w_sentinelmgr : txc_sentinelmgr_t;
  w_buffermgr : txc_buffermgr_t;
  w_koamgr : txc_koamgr_t;
  w_ints : gmap Z Z;
  w_settings : settings;
  w_blocks : gmap Z x_pthread_create_control_block_t;   (* on the heap *)
}.

Definition set_kernel k w := World k (w_errno w) (w_txmgr w) (w_sentinelmgr w)
  (w_buffermgr w) (w_koamgr w) (w_ints w) (w_settings w) (w_blocks w).
Definition set_errno e w := World (w_kernel w) e (w_txmgr w) (w_sentinelmgr w)
  (w_buffermgr w) (w_koamgr w) (w_ints w) (w_settings w) (w_blocks w).
Definition set_txmgr t w := World (w_kernel w) (w_errno w) t (w_sentinelmgr w)
  (w_buffermgr w) (w_koamgr w) (w_ints w) (w_settings w) (w_blocks w).
Definition set_sentinelmgr s w := World (w_kernel w) (w_errno w) (w_txmgr w) s
  (w_buffermgr w) (w_koamgr w) (w_ints w) (w_settings w) (w_blocks w).
Definition set_buffermgr b w := World (w_kernel w) (w_errno w) (w_txmgr w) (w_sentinelmgr w)
  b (w_koamgr w) (w_ints w) (w_settings w) (w_blocks w).
Definition set_koamgr k w := World (w_kernel w) (w_errno w) (w_txmgr w) (w_sentinelmgr w)
  (w_buffermgr w) k (w_ints w) (w_settings w) (w_blocks w).
Definition set_ints i w := World (w_kernel w) (w_errno w) (w_txmgr w) (w_sentinelmgr w)
  (w_buffermgr w) (w_koamgr w) i (w_settings w) (w_blocks w).

Definition set_blocks b w := World (w_kernel w) (w_errno w) (w_txmgr w) (w_sentinelmgr w)
  (w_buffermgr w) (w_koamgr w) (w_ints w) (w_settings w) b.

Definition set_txds t m := TxMgr (tm_mutex m) (alloc_txd_num m) (alloc_txd_list_head m)
  (alloc_txd_list_tail m) (pool_txd m) t.
Definition set_pool_txd p m := TxMgr (tm_mutex m) (alloc_txd_num m) (alloc_txd_list_head m)
  (alloc_txd_list_tail m) p (txds m).
Definition set_sentinels s m := SentinelMgr (pool_sentinel m) s.
Definition set_pool_sentinel p m := SentinelMgr p (sentinels m).
Definition set_alias_mutex b m := KoaMgr b (alias_hash_tbl m) (fd_map m) (pool_koa_obj m) (koas m).
Definition set_alias_hash_tbl h m := KoaMgr (alias_mutex m) h (fd_map m) (pool_koa_obj m) (koas m).
Definition set_fd_map f m := KoaMgr (alias_mutex m) (alias_hash_tbl m) f (pool_koa_obj m) (koas m).
Definition set_pool_koa_obj p m := KoaMgr (alias_mutex m) (alias_hash_tbl m) (fd_map m) p (koas m).
Definition set_koas k m := KoaMgr (alias_mutex m) (alias_hash_tbl m) (fd_map m) (pool_koa_obj m) k.

(** ** Accesses *)

(** A system call of the library ([libc/syscalls.h]). *)
Definition libc {A} (c : syscall kstate A) : M world A := fun w =>
  match c (w_kernel w) with
  | (a, e, k) => Ret a (set_errno (default (w_errno w) e) (set_kernel k w))
  end.

(** [*p = v] when [p] is not NULL. *)
Definition store_int (p : Z) (v : Z) (w : world) : world := set_ints (<[p := v]> (w_ints w)) w.

Definition store_result (result : option Z) (v : Z) : M world unit :=
  match result with Some p => m_modify (store_int p v) | None => m_ret tt end.

Definition txd_get (a : Z) : M world txc_tx_t := do w <- m_get ;; m_deref (txds (w_txmgr w) !! a).
Definition txd_upd (a : Z) (f : txc_tx_t -> txc_tx_t) : M world unit :=
  do t <- txd_get a ;;
  m_modify (fun w => set_txmgr (set_txds (<[a := f t]> (txds (w_txmgr w))) (w_txmgr w)) w).

Definition sentinel_get (a : Z) : M world txc_sentinel_t :=
  do w <- m_get ;; m_deref (sentinels (w_sentinelmgr w) !! a).
Definition sentinel_upd (a : Z) (f : txc_sentinel_t -> txc_sentinel_t) : M world unit :=
  do s <- sentinel_get a ;;
  m_modify (fun w => set_sentinelmgr
    (set_sentinels (<[a := f s]> (sentinels (w_sentinelmgr w))) (w_sentinelmgr w)) w).

Definition koa_get (a : Z) : M world txc_koa_t := do w <- m_get ;; m_deref (koas (w_koamgr w) !! a).
Definition koa_upd (a : Z) (f : txc_koa_t -> txc_koa_t) : M world unit :=
  do k <- koa_get a ;;
  m_modify (fun w => set_koamgr (set_koas (<[a := f k]> (koas (w_koamgr w))) (w_koamgr w)) w).

Definition fd_get (fd : Z) : M world txc_fd2koa_t := do w <- m_get ;; m_deref (fd_map (w_koamgr w) !! fd).
Definition fd_upd (fd : Z) (f : txc_fd2koa_t -> txc_fd2koa_t) : M world unit :=
  do e <- fd_get fd ;;
  m_modify (fun w => set_koamgr (set_fd_map (<[fd := f e]> (fd_map (w_koamgr w))) (w_koamgr w)) w).

(** Operations of a component, run in the world. *)
Definition in_buffermgr {A} (m : M txc_buffermgr_t A) : M world A := m_zoom w_buffermgr set_buffermgr m.
Definition in_pool_txd {A} (m : M txc_pool_t A) : M world A :=
  m_zoom (fun w => pool_txd (w_txmgr w)) (fun p w => set_txmgr (set_pool_txd p (w_txmgr w)) w) m.
Definition in_pool_sentinel {A} (m : M txc_pool_t A) : M world A :=
  m_zoom (fun w => pool_sentinel (w_sentinelmgr w))
    (fun p w => set_sentinelmgr (set_pool_sentinel p (w_sentinelmgr w)) w) m.
Definition in_pool_koa {A} (m : M txc_pool_t A) : M world A :=
  m_zoom (fun w => pool_koa_obj (w_koamgr w))
    (fun p w => set_koamgr (set_pool_koa_obj p (w_koamgr w)) w) m.
Definition in_alias_cache {A} (m : M txc_hash_table_t A) : M world A :=
  m_zoom (fun w => alias_hash_tbl (w_koamgr w))
    (fun h w => set_koamgr (set_alias_hash_tbl h (w_koamgr w)) w) m.
End world.
