(* ===== verification/MemFs.v ===== *)
(** * A concrete platform: files in memory

    An instance of [Platform] on which the witnesses of the theorems run: a
    kernel with a flat directory of regular files, open file descriptions shared
    by [dup], and pipes.  No theorem about the library depends on it. *)

From stdpp Require Import stringmap.
From S2P Require Import Prelude Dll Pool HashTable Buffer Actions World.

(** An open file description: a file with an offset, or an end of a pipe. *)
Inductive ofd :=
  | OFile (ino : Z) (offset : Z)
  | OPipeRead (pipe : Z)
  | OPipeWrite (pipe : Z)
  | OSocket (sock : Z).

(** Sockets, the application's mutexes and its threads: the messages waiting at a
    socket, the messages sent, the mutexes by whether they are held, the threads
    made. *)
Record memnet := MemNet {
  mn_inbox : gmap Z (list received);
  mn_sent : list (Z * msghdr);
  mn_mutexes : gmap Z bool;
  mn_threads : list (Z * Z);
}.

Record memfs := MemFs {
  mf_files : gmap Z (list byte);      (* the bytes of an inode *)
  mf_names : gmap string Z;           (* directory *)
  mf_pipes : gmap Z (list byte);      (* the bytes in a pipe *)
  mf_ofds : gmap Z ofd;
  mf_fds : gmap Z Z;                  (* descriptor -> open file description *)
  mf_next : Z;                        (* next inode, pipe, socket or description *)
  mf_net : memnet;
}.

Definition mf_fail {A} (e : Z) (a : A) (k : memfs) : A * option Z * memfs := (a, Some e, k).
Definition mf_ok {A} (a : A) (k : memfs) : A * option Z * memfs := (a, None, k).

Definition mf_set_ofd (o : Z) (d : ofd) (k : memfs) : memfs :=
  MemFs (mf_files k) (mf_names k) (mf_pipes k) (<[o := d]> (mf_ofds k)) (mf_fds k) (mf_next k) (mf_net k).
Definition mf_set_file (i : Z) (b : list byte) (k : memfs) : memfs :=
  MemFs (<[i := b]> (mf_files k)) (mf_names k) (mf_pipes k) (mf_ofds k) (mf_fds k) (mf_next k) (mf_net k).

(** The lowest free descriptor. *)
Fixpoint mf_lowest (fuel : nat) (fds : gmap Z Z) (i : Z) : Z :=
  match fuel with
  | O => i
  | S f => match fds !! i with None => i | Some _ => mf_lowest f fds (i + 1) end
  end.

Definition mf_install (d : ofd) (k : memfs) : Z * memfs :=
  let fd := mf_lowest (S (size (mf_fds k))) (mf_fds k) 0 in
  (fd, MemFs (mf_files k) (mf_names k) (mf_pipes k) (<[mf_next k := d]> (mf_ofds k))
         (<[fd := mf_next k]> (mf_fds k)) (mf_next k + 1) (mf_net k)).

(** [n] bytes of a file from an offset, and the bytes with some overwritten. *)
Definition mf_slice (b : list byte) (off n : Z) : list byte :=
  take (Z.to_nat n) (drop (Z.to_nat off) b).
Definition mf_overwrite (b : list byte) (off : Z) (d : list byte) : list byte :=
  take (Z.to_nat off) (b ++ replicate (Z.to_nat off - length b) Byte.x00) ++ d ++
  drop (Z.to_nat off + length d) b.

Definition O_CREAT : Z := 64.
Definition O_TRUNC : Z := 512.

Definition mf_open (path : string) (flags mode : Z) : syscall memfs Z := fun k =>
  match mf_names k !! path with
  | Some i =>
      let k := if bool_decide (Z.land flags O_TRUNC <> 0) then mf_set_file i [] k else k in
      let (fd, k) := mf_install (OFile i 0) k in mf_ok fd k
  | None =>
      if bool_decide (Z.land flags O_CREAT = 0) then mf_fail ENOENT (-1) k
      else
        let i := mf_next k in
        let k := MemFs (<[i := []]> (mf_files k)) (<[path := i]> (mf_names k)) (mf_pipes k)
                   (mf_ofds k) (mf_fds k) (i + 1) (mf_net k) in
        let (fd, k) := mf_install (OFile i 0) k in mf_ok fd k
  end.

Definition mf_lookup (fd : Z) (k : memfs) : option (Z * ofd) :=
  o ← mf_fds k !! fd; d ← mf_ofds k !! o; Some (o, d).

Definition mf_close (fd : Z) : syscall memfs Z := fun k =>
  match mf_fds k !! fd with
  | Some _ => mf_ok 0 (MemFs (mf_files k) (mf_names k) (mf_pipes k) (mf_ofds k)
                         (delete fd (mf_fds k)) (mf_next k) (mf_net k))
  | None => mf_fail EBADF (-1) k
  end.

Definition mf_read (fd n : Z) : syscall memfs (Z * list byte) := fun k =>
  match mf_lookup fd k with
  | Some (o, OFile i off) =>
      let d := mf_slice (default [] (mf_files k !! i)) off n in
      mf_ok (Z.of_nat (length d), d) (mf_set_ofd o (OFile i (off + Z.of_nat (length d))) k)
  | Some (o, OPipeRead p) =>
      let b := default [] (mf_pipes k !! p) in
      let d := take (Z.to_nat n) b in
      mf_ok (Z.of_nat (length d), d)
        (MemFs (mf_files k) (mf_names k) (<[p := drop (Z.to_nat n) b]> (mf_pipes k))
           (mf_ofds k) (mf_fds k) (mf_next k) (mf_net k))
  | _ => mf_fail EBADF (-1, []) k
  end.

Definition mf_write (fd : Z) (d : list byte) : syscall memfs Z := fun k =>
  match mf_lookup fd k with
  | Some (o, OFile i off) =>
      mf_ok (Z.of_nat (length d))
        (mf_set_ofd o (OFile i (off + Z.of_nat (length d)))
           (mf_set_file i (mf_overwrite (default [] (mf_files k !! i)) off d) k))
  | Some (o, OPipeWrite p) =>
      mf_ok (Z.of_nat (length d))
        (MemFs (mf_files k) (mf_names k) (<[p := default [] (mf_pipes k !! p) ++ d]> (mf_pipes k))
           (mf_ofds k) (mf_fds k) (mf_next k) (mf_net k))
  | _ => mf_fail EBADF (-1) k
  end.

Definition mf_lseek (fd off whence : Z) : syscall memfs Z := fun k =>
  match mf_lookup fd k with
  | Some (o, OFile i cur) =>
      let base := if bool_decide (whence = SEEK_SET) then Some 0
                  else if bool_decide (whence = SEEK_CUR) then Some cur
                  else if bool_decide (whence = SEEK_END)
                  then Some (Z.of_nat (length (default [] (mf_files k !! i))))
                  else None in
      match base with
      | Some base =>
          if bool_decide (base + off < 0) then mf_fail 22 (-1) k
          else mf_ok (base + off) (mf_set_ofd o (OFile i (base + off)) k)
      | None => mf_fail 22 (-1) k
      end
  | _ => mf_fail EBADF (-1) k
  end.

Definition mf_ftruncate (fd len : Z) : syscall memfs Z := fun k =>
  match mf_lookup fd k with
  | Some (_, OFile i _) =>
      let b := default [] (mf_files k !! i) in
      mf_ok 0 (mf_set_file i (take (Z.to_nat len) (b ++ replicate (Z.to_nat len - length b) Byte.x00)) k)
  | _ => mf_fail EBADF (-1) k
  end.

Definition mf_pwrite (fd : Z) (d : list byte) (off : Z) : syscall memfs Z := fun k =>
  match mf_lookup fd k with
  | Some (_, OFile i _) =>
      mf_ok (Z.of_nat (length d)) (mf_set_file i (mf_overwrite (default [] (mf_files k !! i)) off d) k)
  | _ => mf_fail EBADF (-1) k
  end.

Definition mf_sync (fd : Z) : syscall memfs Z := fun k =>
  match mf_lookup fd k with Some _ => mf_ok 0 k | None => mf_fail EBADF (-1) k end.

Definition mf_dup (fd : Z) : syscall memfs Z := fun k =>
  match mf_fds k !! fd with
  | Some o =>
      let fd' := mf_lowest (S (size (mf_fds k))) (mf_fds k) 0 in
      mf_ok fd' (MemFs (mf_files k) (mf_names k) (mf_pipes k) (mf_ofds k)
                   (<[fd' := o]> (mf_fds k)) (mf_next k) (mf_net k))
  | None => mf_fail EBADF (-1) k
  end.

Definition mf_set_names (n : gmap string Z) (k : memfs) : memfs :=
  MemFs (mf_files k) n (mf_pipes k) (mf_ofds k) (mf_fds k) (mf_next k) (mf_net k).

Definition mf_unlink (path : string) : syscall memfs Z := fun k =>
  match mf_names k !! path with
  | Some _ => mf_ok 0 (mf_set_names (delete path (mf_names k)) k)
  | None => mf_fail ENOENT (-1) k
  end.

(** [/tmp] is a file system of its own. *)
Definition mf_same_fs (a b : string) : bool :=
  Bool.eqb (String.prefix "/tmp/" a) (String.prefix "/tmp/" b).

Definition mf_rename (a b : string) : syscall memfs Z := fun k =>
  match mf_names k !! a with
  | Some i =>
      if mf_same_fs a b then mf_ok 0 (mf_set_names (<[b := i]> (delete a (mf_names k))) k)
      else mf_fail 18 (-1) k
  | None => mf_fail ENOENT (-1) k
  end.

Definition mf_link (a b : string) : syscall memfs Z := fun k =>
  match mf_names k !! a, mf_names k !! b with
  | Some i, None =>
      if mf_same_fs a b then mf_ok 0 (mf_set_names (<[b := i]> (mf_names k)) k)
      else mf_fail 18 (-1) k
  | None, _ => mf_fail ENOENT (-1) k
  | _, Some _ => mf_fail 17 (-1) k
  end.

Definition mf_stat (path : string) : syscall memfs (Z * Z) := fun k =>
  match mf_names k !! path with
  | Some i => mf_ok (0, i) k
  | None => mf_fail ENOENT (-1, 0) k
  end.

Definition mf_pipe : syscall memfs (Z * (Z * Z)) := fun k =>
  let p := mf_next k in
  let k := MemFs (mf_files k) (mf_names k) (<[p := []]> (mf_pipes k)) (mf_ofds k) (mf_fds k) (p + 1) (mf_net k) in
  let (r, k) := mf_install (OPipeRead p) k in
  let (w, k) := mf_install (OPipeWrite p) k in
  mf_ok (0, (r, w)) k.

Definition mf_set_net (n : memnet) (k : memfs) : memfs :=
  MemFs (mf_files k) (mf_names k) (mf_pipes k) (mf_ofds k) (mf_fds k) (mf_next k) n.

Definition mf_socket (domain type protocol : Z) : syscall memfs Z := fun k =>
  let s := mf_next k in
  let k := MemFs (mf_files k) (mf_names k) (mf_pipes k) (mf_ofds k) (mf_fds k) (s + 1) (mf_net k) in
  let (fd, k) := mf_install (OSocket s) k in mf_ok fd k.

Definition mf_sendmsg (fd : Z) (m : msghdr) (flags : Z) : syscall memfs Z := fun k =>
  match mf_lookup fd k with
  | Some (_, OSocket s) =>
      let n := mf_net k in
      mf_ok 1 (mf_set_net (MemNet (mn_inbox n) (mn_sent n ++ [(s, m)]) (mn_mutexes n) (mn_threads n)) k)
  | _ => mf_fail EBADF (-1) k
  end.

Definition mf_recvmsg (fd maxlen maxctl flags : Z) : syscall memfs (Z * received) := fun k =>
  let none := Received [] 0 [] [] 0 in
  match mf_lookup fd k with
  | Some (_, OSocket s) =>
      let n := mf_net k in
      match default [] (mn_inbox n !! s) with
      | [] => mf_fail 11 (-1, none) k
      | m :: ms =>
          let d := take (Z.to_nat maxlen) (rc_data m) in
          mf_ok (Z.of_nat (length d),
                 Received (rc_name m) (rc_namelen m) d (take (Z.to_nat maxctl) (rc_control m)) (rc_flags m))
            (mf_set_net (MemNet (<[s := ms]> (mn_inbox n)) (mn_sent n) (mn_mutexes n) (mn_threads n)) k)
      end
  | _ => mf_fail EBADF (-1, none) k
  end.

Definition mf_set_mutex (m : Z) (b : bool) (k : memfs) : memfs :=
  let n := mf_net k in
  mf_set_net (MemNet (mn_inbox n) (mn_sent n) (<[m := b]> (mn_mutexes n)) (mn_threads n)) k.

(** A mutex nobody initialised is one initialised statically. *)
Definition mf_held (m : Z) (k : memfs) : bool := default false (mn_mutexes (mf_net k) !! m).

Definition mf_mutex_trylock (m : Z) : syscall memfs Z := fun k =>
  if mf_held m k then mf_ok 16 k else mf_ok 0 (mf_set_mutex m true k).
Definition mf_mutex_lock (m : Z) (k : memfs) : option (Z * memfs) :=
  if mf_held m k then None else Some (0, mf_set_mutex m true k).

Definition mf_pthread_create (f a : Z) : syscall memfs Z := fun k =>
  let n := mf_net k in
  mf_ok 0 (mf_set_net (MemNet (mn_inbox n) (mn_sent n) (mn_mutexes n) (mn_threads n ++ [(f, a)])) k).

#[export] Instance mem_platform : Platform := {|
  kstate := memfs;
  sizeof _ := 16;
  uninit := 3735928559;
  realloc_ok _ := true;
  sys_open := mf_open;
  sys_close := mf_close;
  sys_read := mf_read;
  sys_write := mf_write;
  sys_lseek := mf_lseek;
  sys_ftruncate := mf_ftruncate;
  sys_pwrite := mf_pwrite;
  sys_fsync := mf_sync;
  sys_fdatasync := mf_sync;
  sys_dup := mf_dup;
  sys_unlink := mf_unlink;
  sys_rename := mf_rename;
  sys_link := mf_link;
  sys_stat := mf_stat;
  sys_pipe := mf_pipe;
  sys_mktemp := fun _ k => mf_ok (fresh_string "/tmp/libtxc.tmp.000001" (mf_names k)) k;
  sys_socket := mf_socket;
  sys_sendmsg := mf_sendmsg;
  sys_recvmsg := mf_recvmsg;
  log_stale _ n := replicate (Z.to_nat n) Byte.x00;
  pthread_mutex_init m k := mf_ok 0 (mf_set_mutex m false k);
  pthread_mutex_trylock := mf_mutex_trylock;
  pthread_mutex_unlock m k := mf_ok 0 (mf_set_mutex m false k);
  pthread_mutex_lock := mf_mutex_lock;
  pthread_create := mf_pthread_create;
  indirection_ptr := 4096;
  app_run f _ := fun k => mf_ok f k;
|}.

Lemma mem_grants : forall n, @realloc_ok mem_platform n = true.
Proof. done. Qed.

(** The inode 1 named [f] with some bytes, open at descriptor 0. *)
Definition mf_one_file (bytes : list byte) (off : Z) : memfs :=
  MemFs {[1 := bytes]} {["f"%string := 1]} ∅ {[10 := OFile 1 off]} {[0 := 10]} 100 (MemNet ∅ [] ∅ []).

(** A world over a kernel, with small pools: [n] descriptors, sentinels, KOAs
    and buffers, at addresses the pools give from [2^20] on. *)
Definition mk_pool (base size n : Z) : txc_pool_t :=
  Pool false base (create_objs base size n) (Some 0%nat) None n 0 size n.

Definition fresh_tx (buf : Z) : txc_tx_t :=
  Tx 0 0 false false false false false false TXC_ABORTREASON_TMCONFLICT 0
    (ActionList (Some []) 0 TXC_ACTION_LIST_SIZE) (ActionList (Some []) 0 TXC_ACTION_LIST_SIZE)
    (SentinelList (Some []) 0 TXC_SENTINEL_LIST_SIZE) (SentinelList (Some []) 0 TXC_SENTINEL_LIST_SIZE)
    buf 0 0 0 None false (ItmTransaction TXC_XACTSTATE_NONTRANSACTIONAL false false).

Definition mem_addrs (base size : Z) (n : nat) : list Z :=
  (fun i => base + Z.of_nat i * size) <$> seq 0 n.

Definition mem_world (k : memfs) (n : nat) : world :=
  World k 0
    (TxMgr false 0 0 0 (mk_pool 1000 16 (Z.of_nat n))
       (list_to_map ((fun i => (1000 + 16 * Z.of_nat i, fresh_tx (5000 + 16 * Z.of_nat i))) <$> seq 0 n)))
    (SentinelMgr (mk_pool 2000 16 (Z.of_nat n))
       (list_to_map ((fun i => (2000 + 16 * Z.of_nat i, Sentinel false false (Z.of_nat i) 0 0)) <$> seq 0 n)))
    (BufferMgr (mk_pool 4000 16 (Z.of_nat n)) (mk_pool 5000 16 (Z.of_nat n))
       (list_to_map ((fun i => (4000 + 16 * Z.of_nat i,
          CircularBuffer 0 ∅ 64 0 0 0 0 0 0 0 0 TXC_BUFFER_STATE_NON_SPECULATIVE)) <$> seq 0 n))
       (list_to_map ((fun i => (5000 + 16 * Z.of_nat i,
          LinearBuffer (100000 + 4096 * Z.of_nat i) 4096 0 TXC_BUFFER_STATE_NON_SPECULATIVE)) <$> seq 0 n)))
    (KoaMgr false (table4 false)
       (list_to_map ((fun i => (Z.of_nat i, Fd2Koa false 0)) <$> seq 0 16))
       (mk_pool 3000 16 (Z.of_nat n))
       (list_to_map ((fun i => (3000 + 16 * Z.of_nat i, Koa false 0 (replicate 8 (-1)) 0 0 0 0)) <$> seq 0 n)))
    ∅ (Settings 3 0) ∅.
