(* ===== verification/Tx.v ===== *)
(** * The transaction manager ([core/tx.c], [tm/itm.h], [core/fm.c])

    Transaction descriptors are objects of a pool, and the descriptors in use are
    on a doubly linked list.  The file models the descriptor list, the
    initialisation of a descriptor, the registration of actions, the wrappers
    around the TM library, and the failure manager.  The two generic actions,
    which run the registered ones, are in [System.v]. *)

From S2P Require Import Prelude Dll Pool HashTable Buffer Actions World.

Definition tx_set_tid v t :=
  Tx v (tid_pthread t) (sentinelmgr_undo_action_registered t)
    (sentinelmgr_commit_action_registered t) (statsmgr_undo_action_registered t)
    (statsmgr_commit_action_registered t) (generic_undo_action_registered t)
    (generic_commit_action_registered t) (abort_reason t) (forced_retries t)
    (commit_action_list t) (undo_action_list t) (sentinel_list t) (sentinel_list_preacquire t)
    (buffer_linear t) (tx_next t) (tx_prev t) (fm_flags t) (fm_error_result t) (fm_abort t)
    (itm_td t).
Definition tx_set_tid_pthread v t :=
  Tx (tid t) v (sentinelmgr_undo_action_registered t) (sentinelmgr_commit_action_registered t)
    (statsmgr_undo_action_registered t) (statsmgr_commit_action_registered t)
    (generic_undo_action_registered t) (generic_commit_action_registered t) (abort_reason t)
    (forced_retries t) (commit_action_list t) (undo_action_list t) (sentinel_list t)
    (sentinel_list_preacquire t) (buffer_linear t) (tx_next t) (tx_prev t) (fm_flags t)
    (fm_error_result t) (fm_abort t) (itm_td t).
Definition tx_set_sentinelmgr_undo_action_registered v t :=
  Tx (tid t) (tid_pthread t) v (sentinelmgr_commit_action_registered t)
    (statsmgr_undo_action_registered t) (statsmgr_commit_action_registered t)
    (generic_undo_action_registered t) (generic_commit_action_registered t) (abort_reason t)
    (forced_retries t) (commit_action_list t) (undo_action_list t) (sentinel_list t)
    (sentinel_list_preacquire t) (buffer_linear t) (tx_next t) (tx_prev t) (fm_flags t)
    (fm_error_result t) (fm_abort t) (itm_td t).
Definition tx_set_sentinelmgr_commit_action_registered v t :=
  Tx (tid t) (tid_pthread t) (sentinelmgr_undo_action_registered t) v
    (statsmgr_undo_action_registered t) (statsmgr_commit_action_registered t)
    (generic_undo_action_registered t) (generic_commit_action_registered t) (abort_reason t)
    (forced_retries t) (commit_action_list t) (undo_action_list t) (sentinel_list t)
    (sentinel_list_preacquire t) (buffer_linear t) (tx_next t) (tx_prev t) (fm_flags t)
    (fm_error_result t) (fm_abort t) (itm_td t).
Definition tx_set_generic_undo_action_registered v t :=
  Tx (tid t) (tid_pthread t) (sentinelmgr_undo_action_registered t)
    (sentinelmgr_commit_action_registered t) (statsmgr_undo_action_registered t)
    (statsmgr_commit_action_registered t) v (generic_commit_action_registered t) (abort_reason t)
    (forced_retries t) (commit_action_list t) (undo_action_list t) (sentinel_list t)
    (sentinel_list_preacquire t) (buffer_linear t) (tx_next t) (tx_prev t) (fm_flags t)
    (fm_error_result t) (fm_abort t) (itm_td t).
Definition tx_set_generic_commit_action_registered v t :=
  Tx (tid t) (tid_pthread t) (sentinelmgr_undo_action_registered t)
    (sentinelmgr_commit_action_registered t) (statsmgr_undo_action_registered t)
    (statsmgr_commit_action_registered t) (generic_undo_action_registered t) v (abort_reason t)
    (forced_retries t) (commit_action_list t) (undo_action_list t) (sentinel_list t)
    (sentinel_list_preacquire t) (buffer_linear t) (tx_next t) (tx_prev t) (fm_flags t)
    (fm_error_result t) (fm_abort t) (itm_td t).
Definition tx_set_abort_reason v t :=
  Tx (tid t) (tid_pthread t) (sentinelmgr_undo_action_registered t)
    (sentinelmgr_commit_action_registered t) (statsmgr_undo_action_registered t)
    (statsmgr_commit_action_registered t) (generic_undo_action_registered t)
    (generic_commit_action_registered t) v (forced_retries t) (commit_action_list t)
    (undo_action_list t) (sentinel_list t) (sentinel_list_preacquire t) (buffer_linear t)
    (tx_next t) (tx_prev t) (fm_flags t) (fm_error_result t) (fm_abort t) (itm_td t).
Definition tx_set_forced_retries v t :=
  Tx (tid t) (tid_pthread t) (sentinelmgr_undo_action_registered t)
    (sentinelmgr_commit_action_registered t) (statsmgr_undo_action_registered t)
    (statsmgr_commit_action_registered t) (generic_undo_action_registered t)
    (generic_commit_action_registered t) (abort_reason t) v (commit_action_list t)
    (undo_action_list t) (sentinel_list t) (sentinel_list_preacquire t) (buffer_linear t)
    (tx_next t) (tx_prev t) (fm_flags t) (fm_error_result t) (fm_abort t) (itm_td t).
Definition tx_set_commit_action_list v t :=
  Tx (tid t) (tid_pthread t) (sentinelmgr_undo_action_registered t)
    (sentinelmgr_commit_action_registered t) (statsmgr_undo_action_registered t)
    (statsmgr_commit_action_registered t) (generic_undo_action_registered t)
    (generic_commit_action_registered t) (abort_reason t) (forced_retries t) v
    (undo_action_list t) (sentinel_list t) (sentinel_list_preacquire t) (buffer_linear t)
    (tx_next t) (tx_prev t) (fm_flags t) (fm_error_result t) (fm_abort t) (itm_td t).
Definition tx_set_undo_action_list v t :=
  Tx (tid t) (tid_pthread t) (sentinelmgr_undo_action_registered t)
    (sentinelmgr_commit_action_registered t) (statsmgr_undo_action_registered t)
    (statsmgr_commit_action_registered t) (generic_undo_action_registered t)
    (generic_commit_action_registered t) (abort_reason t) (forced_retries t)
    (commit_action_list t) v (sentinel_list t) (sentinel_list_preacquire t) (buffer_linear t)
    (tx_next t) (tx_prev t) (fm_flags t) (fm_error_result t) (fm_abort t) (itm_td t).
Definition tx_set_sentinel_list v t :=
  Tx (tid t) (tid_pthread t) (sentinelmgr_undo_action_registered t)
    (sentinelmgr_commit_action_registered t) (statsmgr_undo_action_registered t)
    (statsmgr_commit_action_registered t) (generic_undo_action_registered t)
    (generic_commit_action_registered t) (abort_reason t) (forced_retries t)
    (commit_action_list t) (undo_action_list t) v (sentinel_list_preacquire t) (buffer_linear t)
    (tx_next t) (tx_prev t) (fm_flags t) (fm_error_result t) (fm_abort t) (itm_td t).
Definition tx_set_sentinel_list_preacquire v t :=
  Tx (tid t) (tid_pthread t) (sentinelmgr_undo_action_registered t)
    (sentinelmgr_commit_action_registered t) (statsmgr_undo_action_registered t)
    (statsmgr_commit_action_registered t) (generic_undo_action_registered t)
    (generic_commit_action_registered t) (abort_reason t) (forced_retries t)
    (commit_action_list t) (undo_action_list t) (sentinel_list t) v (buffer_linear t) (tx_next t)
    (tx_prev t) (fm_flags t) (fm_error_result t) (fm_abort t) (itm_td t).
Definition tx_set_buffer_linear v t :=
  Tx (tid t) (tid_pthread t) (sentinelmgr_undo_action_registered t)
    (sentinelmgr_commit_action_registered t) (statsmgr_undo_action_registered t)
    (statsmgr_commit_action_registered t) (generic_undo_action_registered t)
    (generic_commit_action_registered t) (abort_reason t) (forced_retries t)
    (commit_action_list t) (undo_action_list t) (sentinel_list t) (sentinel_list_preacquire t) v
    (tx_next t) (tx_prev t) (fm_flags t) (fm_error_result t) (fm_abort t) (itm_td t).
Definition tx_set_tx_next v t :=
  Tx (tid t) (tid_pthread t) (sentinelmgr_undo_action_registered t)
    (sentinelmgr_commit_action_registered t) (statsmgr_undo_action_registered t)
    (statsmgr_commit_action_registered t) (generic_undo_action_registered t)
    (generic_commit_action_registered t) (abort_reason t) (forced_retries t)
    (commit_action_list t) (undo_action_list t) (sentinel_list t) (sentinel_list_preacquire t)
    (buffer_linear t) v (tx_prev t) (fm_flags t) (fm_error_result t) (fm_abort t) (itm_td t).
Definition tx_set_tx_prev v t :=
  Tx (tid t) (tid_pthread t) (sentinelmgr_undo_action_registered t)
    (sentinelmgr_commit_action_registered t) (statsmgr_undo_action_registered t)
    (statsmgr_commit_action_registered t) (generic_undo_action_registered t)
    (generic_commit_action_registered t) (abort_reason t) (forced_retries t)
    (commit_action_list t) (undo_action_list t) (sentinel_list t) (sentinel_list_preacquire t)
    (buffer_linear t) (tx_next t) v (fm_flags t) (fm_error_result t) (fm_abort t) (itm_td t).
Definition tx_set_fm_flags v t :=
  Tx (tid t) (tid_pthread t) (sentinelmgr_undo_action_registered t)
    (sentinelmgr_commit_action_registered t) (statsmgr_undo_action_registered t)
    (statsmgr_commit_action_registered t) (generic_undo_action_registered t)
    (generic_commit_action_registered t) (abort_reason t) (forced_retries t)
    (commit_action_list t) (undo_action_list t) (sentinel_list t) (sentinel_list_preacquire t)
    (buffer_linear t) (tx_next t) (tx_prev t) v (fm_error_result t) (fm_abort t) (itm_td t).
Definition tx_set_fm_error_result v t :=
  Tx (tid t) (tid_pthread t) (sentinelmgr_undo_action_registered t)
    (sentinelmgr_commit_action_registered t) (statsmgr_undo_action_registered t)
    (statsmgr_commit_action_registered t) (generic_undo_action_registered t)
    (generic_commit_action_registered t) (abort_reason t) (forced_retries t)
    (commit_action_list t) (undo_action_list t) (sentinel_list t) (sentinel_list_preacquire t)
    (buffer_linear t) (tx_next t) (tx_prev t) (fm_flags t) v (fm_abort t) (itm_td t).
Definition tx_set_fm_abort v t :=
  Tx (tid t) (tid_pthread t) (sentinelmgr_undo_action_registered t)
    (sentinelmgr_commit_action_registered t) (statsmgr_undo_action_registered t)
    (statsmgr_commit_action_registered t) (generic_undo_action_registered t)
    (generic_commit_action_registered t) (abort_reason t) (forced_retries t)
    (commit_action_list t) (undo_action_list t) (sentinel_list t) (sentinel_list_preacquire t)
    (buffer_linear t) (tx_next t) (tx_prev t) (fm_flags t) (fm_error_result t) v (itm_td t).
Definition tx_set_itm_td v t :=
  Tx (tid t) (tid_pthread t) (sentinelmgr_undo_action_registered t)
    (sentinelmgr_commit_action_registered t) (statsmgr_undo_action_registered t)
    (statsmgr_commit_action_registered t) (generic_undo_action_registered t)
    (generic_commit_action_registered t) (abort_reason t) (forced_retries t)
    (commit_action_list t) (undo_action_list t) (sentinel_list t) (sentinel_list_preacquire t)
    (buffer_linear t) (tx_next t) (tx_prev t) (fm_flags t) (fm_error_result t) (fm_abort t) v.

Definition itm_set_mode m i := ItmTransaction m (itm_undo_registered i) (itm_commit_registered i).
Definition itm_set_undo b i := ItmTransaction (itm_mode i) b (itm_commit_registered i).
Definition itm_set_commit b i := ItmTransaction (itm_mode i) (itm_undo_registered i) b.

Definition la_set_num_entries {F} n (la : txc_tx_action_list_t F) := ActionList (entries la) n (la_size la).

Section tx.
Context {PF : Platform}.

(** ** The TM library ([tm/itm.h]) *)

(** [tmsystem_register_generic_undo_action]: at most one callback per
    transaction. *)
Definition tmsystem_register_generic_undo_action (txd : Z) : M world unit :=
  do t <- txd_get txd ;;
  if generic_undo_action_registered t then m_ret tt
  else
    txd_upd txd (fun t => tx_set_itm_td (itm_set_undo true (itm_td t)) t) ;;;
    txd_upd txd (tx_set_generic_undo_action_registered true).

Definition tmsystem_register_generic_commit_action (txd : Z) : M world unit :=
  do t <- txd_get txd ;;
  if generic_commit_action_registered t then m_ret tt
  else
    txd_upd txd (fun t => tx_set_itm_td (itm_set_commit true (itm_td t)) t) ;;;
    txd_upd txd (tx_set_generic_commit_action_registered true).

(** [tmsystem_abort_transaction]: [_ITM_abortTransaction] does not return. *)
Definition tmsystem_abort_transaction {A} (txd : Z) (reason : txc_tx_abortreason_t) : M world A :=
  tmsystem_register_generic_undo_action txd ;;;
  txd_upd txd (tx_set_abort_reason reason) ;;;
  txd_upd txd (fun t => tx_set_forced_retries (u32 (forced_retries t + 1)) t) ;;;
  m_abort reason.

Definition tmsystem_get_xactstate (txd : Z) : M world txc_tx_xactstate_t :=
  do t <- txd_get txd ;; m_ret (itm_mode (itm_td t)).

Definition txc_tx_abort_transaction {A} (txd : Z) (reason : txc_tx_abortreason_t) : M world A :=
  tmsystem_abort_transaction txd reason.

(** A thread without a descriptor is not in a transaction. *)
Definition txc_tx_get_xactstate (txd : Z) : M world txc_tx_xactstate_t :=
  if bool_decide (txd <> 0) then tmsystem_get_xactstate txd
  else m_ret TXC_XACTSTATE_NONTRANSACTIONAL.

Definition txc_tx_get_tid (txd : Z) : M world Z :=
  if bool_decide (txd <> 0) then do t <- txd_get txd ;; m_ret (tid t) else m_ret 0.

Definition txc_tx_get_tid_pthread (txd : Z) : M world Z :=
  if bool_decide (txd <> 0) then do t <- txd_get txd ;; m_ret (tid_pthread t) else m_ret 0.

Definition txc_tx_get_forced_retries (txd : Z) : M world Z :=
  do t <- txd_get txd ;; m_ret (forced_retries t).

(** ** The failure manager ([core/fm.c]) *)

Definition TXC_FM_NO_RETRY : Z := 1.

Definition txc_fm_init (txd : Z) : M world unit :=
  txd_upd txd (tx_set_fm_abort false) ;;;
  txd_upd txd (tx_set_fm_error_result None) ;;;
  txd_upd txd (tx_set_fm_flags 0).

Definition txc_fm_register (txd : Z) (flags : Z) (error_result : option Z) : M world unit :=
  txd_upd txd (tx_set_fm_flags flags) ;;;
  txd_upd txd (tx_set_fm_error_result error_result).

Definition txc_fm_transaction_postbegin (txd : Z) : M world unit :=
  do t <- txd_get txd ;;
  if fm_abort t then txc_tx_abort_transaction txd TXC_ABORTREASON_USERABORT else m_ret tt.

Definition txc_fm_handle_commit_failure (txd : Z) (error_result : Z) : M world unit :=
  do t <- txd_get txd ;; store_result (fm_error_result t) error_result.

(** [if (txd->fm_flags && TXC_FM_NO_RETRY)]: any flag at all. *)
Definition txc_fm_handle_undo_failure (txd : Z) (error_result : Z) : M world unit :=
  (if bool_decide (error_result <> 0) then
     do t <- txd_get txd ;;
     store_result (fm_error_result t) error_result ;;;
     (if bool_decide (fm_flags t <> 0) && bool_decide (TXC_FM_NO_RETRY <> 0)
      then txd_upd txd (tx_set_fm_abort true) else m_ret tt)
   else m_ret tt) ;;;
  txd_upd txd (tx_set_fm_flags 0).

(** ** Registration of actions *)

Definition register_with (get : txc_tx_t -> action_list) (set : action_list -> txc_tx_t -> txc_tx_t)
    (txd : Z) (e : txc_tx_action_list_entry_t action) : M world Z :=
  do t <- txd_get txd ;;
  do ' (ret, la) <- m_deref (register_action (realloc_ok (u32 (la_size (get t) * 2))) e (get t)) ;;
  txd_upd txd (set la) ;;;
  m_ret ret.

Definition txc_tx_register_commit_action (txd : Z) (function : action) (error_result : option Z)
    (order : Z) : M world Z :=
  do ret <- register_with commit_action_list tx_set_commit_action_list txd
              (ActionEntry function error_result order) ;;
  if bool_decide (ret <> TXC_R_SUCCESS) then m_ret ret
  else tmsystem_register_generic_commit_action txd ;;; m_ret TXC_R_SUCCESS.

Definition txc_tx_register_undo_action (txd : Z) (function : action) (error_result : option Z)
    (order : Z) : M world Z :=
  do ret <- register_with undo_action_list tx_set_undo_action_list txd
              (ActionEntry function error_result order) ;;
  if bool_decide (ret <> TXC_R_SUCCESS) then m_ret ret
  else tmsystem_register_generic_undo_action txd ;;; m_ret TXC_R_SUCCESS.

(** ** Descriptors *)

(** The fields [txc_tx_init] resets. *)
Definition tx_init_fields (t : txc_tx_t) : txc_tx_t :=
  Tx (tid t) (tid_pthread t) false false false false false false TXC_ABORTREASON_TMCONFLICT
    (forced_retries t) (la_set_num_entries 0 (commit_action_list t))
    (la_set_num_entries 0 (undo_action_list t)) (sentinel_list t) (sentinel_list_preacquire t)
    (buffer_linear t) (tx_next t) (tx_prev t) (fm_flags t) (fm_error_result t) (fm_abort t) (itm_td t).

Definition linear_upd (txd : Z) (f : txc_buffer_linear_t -> txc_buffer_linear_t) : M world unit :=
  do t <- txd_get txd ;;
  in_buffermgr (do b <- linear_get (buffer_linear t) ;; linear_put (buffer_linear t) (f b)).

Definition txc_tx_init (txd : Z) : M world unit :=
  txd_upd txd tx_init_fields ;;;
  linear_upd txd txc_buffer_linear_init.

(** [txc_sentinel_list_init] of the two lists. *)
Definition sl_init (sl : txc_sentinel_list_t) : txc_sentinel_list_t :=
  SentinelList (sl_entries sl) 0 (sl_size sl).

Definition txmgr_lock : M world unit :=
  do w <- m_get ;;
  let m := w_txmgr w in
  if tm_mutex m then m_block
  else m_put (set_txmgr (TxMgr true (alloc_txd_num m) (alloc_txd_list_head m) (alloc_txd_list_tail m)
         (pool_txd m) (txds m)) w).

Definition txmgr_unlock : M world unit :=
  m_modify (fun w => let m := w_txmgr w in
    set_txmgr (TxMgr false (alloc_txd_num m) (alloc_txd_list_head m) (alloc_txd_list_tail m)
      (pool_txd m) (txds m)) w).

Definition txmgr_set_list (num head tail : Z) : M world unit :=
  m_modify (fun w => let m := w_txmgr w in
    set_txmgr (TxMgr (tm_mutex m) num head tail (pool_txd m) (txds m)) w).

(** Put a descriptor at the tail of the list: its [next] is set only when the
    list is empty. *)
Definition txd_list_append (txd : Z) : M world unit :=
  do w <- m_get ;;
  let m := w_txmgr w in
  (if bool_decide (alloc_txd_list_head m = 0) then
     txmgr_set_list (alloc_txd_num m) txd txd ;;;
     txd_upd txd (tx_set_tx_next 0) ;;;
     txd_upd txd (tx_set_tx_prev 0)
   else
     txd_upd (alloc_txd_list_tail m) (tx_set_tx_next txd) ;;;
     txd_upd txd (tx_set_tx_prev (alloc_txd_list_tail m)) ;;;
     txmgr_set_list (alloc_txd_num m) (alloc_txd_list_head m) txd) ;;;
  do w <- m_get ;;
  let m := w_txmgr w in
  txmgr_set_list (u32 (alloc_txd_num m + 1)) (alloc_txd_list_head m) (alloc_txd_list_tail m).

(** [txc_tx_create]: [self] is [pthread_self()], [itm_tid] the number the TM
    library gives the thread. *)
Definition txc_tx_create (self itm_tid : Z) : M world Z :=
  do r <- in_pool_txd (txc_pool_object_alloc true) ;;
  match r with
  | (c, o) =>
      if bool_decide (c <> TXC_R_SUCCESS) then m_exit else
      do txd <- m_deref o ;;
      txmgr_lock ;;;
      txd_list_append txd ;;;
      txmgr_unlock ;;;
      txd_upd txd (tx_set_tid_pthread (u32 self)) ;;;
      txd_upd txd (tx_set_forced_retries 0) ;;;
      txc_tx_init txd ;;;
      txd_upd txd (fun t => tx_set_sentinel_list (sl_init (sentinel_list t)) t) ;;;
      txd_upd txd (fun t => tx_set_sentinel_list_preacquire (sl_init (sentinel_list_preacquire t)) t) ;;;
      (* tmsystem_tx_init *)
      txd_upd txd (tx_set_itm_td (ItmTransaction TXC_XACTSTATE_NONTRANSACTIONAL false false)) ;;;
      txd_upd txd (tx_set_tid (u32 itm_tid)) ;;;
      txc_fm_init txd ;;;
      m_ret txd
  end.

(** Take a descriptor off the list. *)
Definition txd_list_remove (txd : Z) : M world unit :=
  do t <- txd_get txd ;;
  do w <- m_get ;;
  let m := w_txmgr w in
  txmgr_set_list (alloc_txd_num m)
    (if bool_decide (alloc_txd_list_head m = txd) then tx_next t else alloc_txd_list_head m)
    (if bool_decide (alloc_txd_list_tail m = txd) then tx_prev t else alloc_txd_list_tail m) ;;;
  m_when (bool_decide (tx_prev t <> 0)) (txd_upd (tx_prev t) (tx_set_tx_next (tx_next t))) ;;;
  m_when (bool_decide (tx_next t <> 0)) (txd_upd (tx_next t) (tx_set_tx_prev (tx_prev t))) ;;;
  do w <- m_get ;;
  let m := w_txmgr w in
  txmgr_set_list (u32 (alloc_txd_num m - 1)) (alloc_txd_list_head m) (alloc_txd_list_tail m).

Definition txc_tx_destroy (txd : Z) : M world Z :=
  txmgr_lock ;;;
  txd_list_remove txd ;;;
  txmgr_unlock ;;;
  in_pool_txd (txc_pool_object_free txd true) ;;;
  m_ret TXC_R_SUCCESS.

(** The loop of [txc_tx_exists]; [fuel] bounds the descriptors it visits. *)
Fixpoint txd_list_find (fuel : nat) (iter_txd txd : Z) : M world Z :=
  if bool_decide (iter_txd = 0) then m_ret TXC_R_NOTEXISTS
  else match fuel with
    | O => m_nofuel
    | S fuel' =>
        if bool_decide (iter_txd = txd) then m_ret TXC_R_SUCCESS
        else do t <- txd_get iter_txd ;; txd_list_find fuel' (tx_next t) txd
    end.

Definition txc_tx_exists (fuel : nat) (txd : Z) : M world Z :=
  txmgr_lock ;;;
  do w <- m_get ;;
  do r <- txd_list_find fuel (alloc_txd_list_head (w_txmgr w)) txd ;;
  txmgr_unlock ;;;
  m_ret r.

(** [tx_pre_outerbegin] and [txc_tx_pre_begin]: a nested begin changes nothing. *)
Definition tx_pre_outerbegin (txd : Z) : M world unit :=
  txc_tx_init txd ;;;
  txc_fm_init txd ;;;
  txd_upd txd (tx_set_forced_retries 0).

Definition txc_tx_pre_begin (txd : Z) : M world unit :=
  do x <- txc_tx_get_xactstate txd ;;
  if bool_decide (x = TXC_XACTSTATE_NONTRANSACTIONAL) then tx_pre_outerbegin txd else m_ret tt.
End tx.
