(* ===== verification/Sentinel.v ===== *)
(** * The sentinel manager ([core/sentinel.c])

    A sentinel is a revocable lock that isolates a kernel object until the
    transaction holding it completes: [sentinel_mutex] is the lock, [s_owner] the
    transaction holding it, [s_refcnt] the references to it, under
    [synch_mutex].  A transaction enlists every sentinel it tried to acquire;
    on completion it releases those it holds, and before a retry it also waits
    for those marked [ACQUIREONRETRY], in the order of their ids. *)

From S2P Require Import Prelude Dll Pool HashTable Buffer Actions World MemFs Tx.

Definition TXC_SENTINEL_ACQUIRED : Z := 1.
Definition TXC_SENTINEL_ACQUIREONRETRY : Z := 2.
Definition TXC_SENTINEL_NOOWNER : Z := 0.

Definition s_set_mutex b s := Sentinel b (synch_mutex s) (s_id s) (s_refcnt s) (s_owner s).
Definition s_set_synch b s := Sentinel (sentinel_mutex s) b (s_id s) (s_refcnt s) (s_owner s).
Definition s_set_id i s := Sentinel (sentinel_mutex s) (synch_mutex s) i (s_refcnt s) (s_owner s).
Definition s_set_refcnt r s := Sentinel (sentinel_mutex s) (synch_mutex s) (s_id s) r (s_owner s).
Definition s_set_owner o s := Sentinel (sentinel_mutex s) (synch_mutex s) (s_id s) (s_refcnt s) o.

Definition status_has (status flag : Z) : bool := bool_decide (Z.land status flag <> 0).

(** [(flags & ACQUIREONRETRY) > 0 ? ACQUIREONRETRY : 0] *)
Definition acquire_on_retry (flags : Z) : Z :=
  if bool_decide (Z.land flags TXC_SENTINEL_ACQUIREONRETRY > 0)
  then TXC_SENTINEL_ACQUIREONRETRY else 0.

(** ** Creation of the pool *)

(** The loop of [txc_sentinelmgr_create]: ids follow the order of the pool. *)
Definition sentinelmgr_init (objs : list Z) : gmap Z txc_sentinel_t :=
  list_to_map (imap (fun i a => (a, Sentinel false false (Z.of_nat i) 0 TXC_SENTINEL_NOOWNER)) objs).

Definition txc_sentinelmgr_create (m_mgr : option Z) (size : Z) (al : pool_allocs)
    : option (Z * option txc_sentinelmgr_t) :=
  match m_mgr with
  | None => Some (TXC_R_NOMEMORY, None)
  | Some _ =>
      r ← txc_pool_create (pa_pool al) (pa_list al) (pa_buf al) (pa_mutex al) size TXC_SENTINEL_NUM
            None tt;
      match r with
      | (_, Some p, _) =>
          match pool_for_each (length (obj_list p)) 0 p with
          | Ret objs p' => Some (TXC_R_SUCCESS, Some (SentinelMgr p' (sentinelmgr_init objs)))
          | _ => None
          end
      | (c, None, _) => Some (c, None)
      end
  end.

(** ** Lists of sentinels *)

Definition allocate_sentinel_list_entries (alloc_ok extend : bool) (la : txc_sentinel_list_t)
    : Z * txc_sentinel_list_t :=
  let size := if extend then u32 (sl_size la * 2) else sl_size la in
  if alloc_ok then
    (TXC_R_SUCCESS,
     SentinelList (if extend then Some (default [] (sl_entries la)) else Some []) (sl_num_entries la) size)
  else (TXC_R_NOMEMORY, SentinelList None (sl_num_entries la) size).

(** [txc_sentinel_list_create]: [m_list] is what [MALLOC] returns. *)
Definition txc_sentinel_list_create (m_list : option Z) (alloc_ok : bool)
    : Z * option txc_sentinel_list_t :=
  match m_list with
  | None => (TXC_R_NOMEMORY, None)
  | Some _ =>
      match allocate_sentinel_list_entries alloc_ok false (SentinelList None 0 TXC_SENTINEL_LIST_SIZE) with
      | (r, l) => if bool_decide (r <> TXC_R_SUCCESS) then (r, None) else (TXC_R_SUCCESS, Some l)
      end
  end.

Definition txc_sentinel_list_init (sl : txc_sentinel_list_t) : txc_sentinel_list_t := sl_init sl.

Definition sl_store (e : txc_sentinel_list_entry_t) (la : txc_sentinel_list_t)
    : option txc_sentinel_list_t :=
  es ← sl_entries la;
  let n := Z.to_nat (sl_num_entries la) in
  Some (SentinelList (Some (take n es ++ e :: drop (S n) es)) (u32 (sl_num_entries la + 1)) (sl_size la)).

(** [enlist_sentinel]; [None] is a write through a NULL array. *)
Definition enlist_sentinel (alloc_ok : bool) (sentinel status : Z) (la : txc_sentinel_list_t)
    : option (Z * txc_sentinel_list_t) :=
  if bool_decide (sl_num_entries la = sl_size la) then
    match allocate_sentinel_list_entries alloc_ok true la with
    | (ret, la') =>
        if bool_decide (ret <> TXC_R_SUCCESS) then Some (ret, la')
        else la'' ← sl_store (SentinelEntry sentinel status) la'; Some (TXC_R_SUCCESS, la'')
    end
  else la'' ← sl_store (SentinelEntry sentinel status) la; Some (TXC_R_SUCCESS, la'').

Definition sl_list (sl : txc_sentinel_list_t) : list txc_sentinel_list_entry_t :=
  take (Z.to_nat (sl_num_entries sl)) (default [] (sl_entries sl)).

(** *** Sorting by id

    One pass of [sentinel_list_sort] over the first [k + 1] entries: adjacent
    entries out of order are exchanged; the flag is [swapped]. *)
Fixpoint bubble_pass {A} (key : A -> Z) (k : nat) (l : list A) : list A * bool :=
  match k, l with
  | S k', x :: y :: l' =>
      if bool_decide (key x > key y) then
        let (r, _) := bubble_pass key k' (x :: l') in (y :: r, true)
      else
        let (r, b) := bubble_pass key k' (y :: l') in (x :: r, b)
  | _, _ => (l, false)
  end.

(** The [do ... while (swapped)] loop: [n] is the number of entries of the next
    pass; [fuel] bounds the passes. *)
Fixpoint bubble_sort {A} (key : A -> Z) (fuel n : nat) (l : list A) : option (list A) :=
  match fuel with
  | O => None
  | S fuel' =>
      match bubble_pass key (n - 1) l with
      | (l', swapped) => if swapped then bubble_sort key fuel' (n - 1) l' else Some l'
      end
  end.

Section sentinel.
Context {PF : Platform}.

(** The ids of the sentinels on a list, read once: the sort changes no sentinel. *)
Definition sentinel_list_sort (sl : txc_sentinel_list_t) : M world txc_sentinel_list_t :=
  do w <- m_get ;;
  let key e := default 0 (s_id <$> sentinels (w_sentinelmgr w) !! se_sentinel e) in
  let es := sl_list sl in
  do sorted <- m_deref (bubble_sort key (S (length es)) (length es) es) ;;
  m_ret (SentinelList (Some (sorted ++ drop (length es) (default [] (sl_entries sl))))
           (sl_num_entries sl) (sl_size sl)).

(** ** Sentinels *)

Definition txc_sentinel_create : M world Z :=
  do r <- in_pool_sentinel (txc_pool_object_alloc true) ;;
  match r with
  | (c, o) =>
      if bool_decide (c <> TXC_R_SUCCESS) then m_exit else
      do sentinel <- m_deref o ;;
      sentinel_upd sentinel (s_set_owner TXC_SENTINEL_NOOWNER) ;;;
      sentinel_upd sentinel (s_set_refcnt 1) ;;;
      m_ret sentinel
  end.

Definition sentinel_destroy (sentinel : Z) : M world unit :=
  in_pool_sentinel (txc_pool_object_free sentinel true).

Definition synch_lock (sentinel : Z) : M world unit :=
  do s <- sentinel_get sentinel ;;
  if synch_mutex s then m_block else sentinel_upd sentinel (s_set_synch true).
Definition synch_unlock (sentinel : Z) : M world unit := sentinel_upd sentinel (s_set_synch false).

Definition txc_sentinel_destroy (sentinel : Z) : M world unit :=
  synch_lock sentinel ;;; sentinel_destroy sentinel ;;; synch_unlock sentinel.

Definition sentinel_attach (sentinel : Z) : M world unit :=
  sentinel_upd sentinel (fun s => s_set_refcnt (s_refcnt s + 1) s).

Definition sentinel_detach (sentinel : Z) : M world Z :=
  sentinel_upd sentinel (fun s => s_set_refcnt (s_refcnt s - 1) s) ;;;
  do s <- sentinel_get sentinel ;;
  m_when (bool_decide (s_refcnt s = 0)) (sentinel_destroy sentinel) ;;;
  m_ret TXC_R_SUCCESS.

Definition txc_sentinel_detach (sentinel : Z) : M world Z :=
  synch_lock sentinel ;;;
  do ret <- sentinel_detach sentinel ;;
  synch_unlock sentinel ;;;
  m_ret ret.

Definition txc_sentinel_owner (sentinel : Z) : M world Z :=
  do s <- sentinel_get sentinel ;; m_ret (s_owner s).

(** [TXC_MUTEX_TRYLOCK] of [sentinel_mutex]: 0 when it was free. *)
Definition sentinel_trylock (sentinel : Z) : M world Z :=
  do s <- sentinel_get sentinel ;;
  if sentinel_mutex s then m_ret 16 (* EBUSY *)
  else sentinel_upd sentinel (s_set_mutex true) ;;; m_ret 0.

(** [do ret = TRYLOCK while (--num_spin_retries >= 0 && ret != 0)] *)
Fixpoint spin_trylock (fuel : nat) (num_spin_retries sentinel : Z) : M world Z :=
  match fuel with
  | O => m_nofuel
  | S fuel' =>
      do ret <- sentinel_trylock sentinel ;;
      let n := num_spin_retries - 1 in
      if bool_decide (n >= 0) && bool_decide (ret <> 0) then spin_trylock fuel' n sentinel
      else m_ret ret
  end.

(** [enlist_sentinel(txd->sentinel_list, ...)]; its result is not looked at. *)
Definition tx_enlist (txd sentinel status : Z) : M world unit :=
  do t <- txd_get txd ;;
  do ' (_, sl) <- m_deref (enlist_sentinel (realloc_ok (u32 (sl_size (sentinel_list t) * 2)))
                            sentinel status (sentinel_list t)) ;;
  txd_upd txd (tx_set_sentinel_list sl).

(** ** Lists of a transaction *)

(** [sentinel_list_acquire(txd, txd->sentinel_list_preacquire)]: may block. *)
Definition sentinel_acquire_entry (txd : Z) (e : txc_sentinel_list_entry_t) : M world unit :=
  do s <- sentinel_get (se_sentinel e) ;;
  if sentinel_mutex s then m_block else
  sentinel_upd (se_sentinel e) (s_set_mutex true) ;;;
  sentinel_upd (se_sentinel e) (s_set_owner txd) ;;;
  tx_enlist txd (se_sentinel e) (Z.lor TXC_SENTINEL_ACQUIRED TXC_SENTINEL_ACQUIREONRETRY).

Definition sentinel_list_acquire (txd : Z) : M world unit :=
  do t <- txd_get txd ;;
  m_iter (sentinel_acquire_entry txd) (sl_list (sentinel_list_preacquire t)).

(** One iteration of [sentinel_list_release]. *)
Definition sentinel_release_entry (transaction_completion : bool) (e : txc_sentinel_list_entry_t)
    : M world unit :=
  synch_lock (se_sentinel e) ;;;
  (if status_has (se_status e) TXC_SENTINEL_ACQUIRED then
     sentinel_upd (se_sentinel e) (s_set_owner TXC_SENTINEL_NOOWNER) ;;;
     sentinel_upd (se_sentinel e) (s_set_mutex false)
   else m_ret tt) ;;;
  (if transaction_completion then do _ <- sentinel_detach (se_sentinel e) ;; m_ret tt
   else if status_has (se_status e) TXC_SENTINEL_ACQUIREONRETRY then m_ret tt
   else do _ <- sentinel_detach (se_sentinel e) ;; m_ret tt) ;;;
  synch_unlock (se_sentinel e).

Definition sentinel_list_release (sl : txc_sentinel_list_t) (transaction_completion : bool)
    : M world unit :=
  m_iter (sentinel_release_entry transaction_completion) (sl_list sl).

(** The last lines of both completion routines. *)
Definition sentinelmgr_reset (txd : Z) : M world unit :=
  txd_upd txd (fun t => tx_set_sentinel_list (sl_init (sentinel_list t)) t) ;;;
  txd_upd txd (tx_set_sentinelmgr_undo_action_registered false) ;;;
  txd_upd txd (tx_set_sentinelmgr_commit_action_registered false).

Definition sentinelmgr_transaction_on_complete (txd : Z) : M world unit :=
  do t <- txd_get txd ;;
  sentinel_list_release (sentinel_list t) true ;;;
  sentinelmgr_reset txd.

(** Copy the sentinels to wait for to the preacquire list. *)
Definition preacquire_entry (txd : Z) (e : txc_sentinel_list_entry_t) : M world unit :=
  if status_has (se_status e) TXC_SENTINEL_ACQUIREONRETRY then
    do t <- txd_get txd ;;
    do ' (_, sl) <- m_deref (enlist_sentinel (realloc_ok (u32 (sl_size (sentinel_list_preacquire t) * 2)))
                              (se_sentinel e) 0 (sentinel_list_preacquire t)) ;;
    txd_upd txd (tx_set_sentinel_list_preacquire sl)
  else m_ret tt.

Definition collect_preacquire (txd : Z) : M world unit :=
  txd_upd txd (fun t => tx_set_sentinel_list_preacquire (sl_init (sentinel_list_preacquire t)) t) ;;;
  do t <- txd_get txd ;;
  m_iter (preacquire_entry txd) (sl_list (sentinel_list t)) ;;;
  do t <- txd_get txd ;;
  do sl <- sentinel_list_sort (sentinel_list_preacquire t) ;;
  txd_upd txd (tx_set_sentinel_list_preacquire sl).

(** [sentinelmgr_transaction_before_retry]: [backoff] only sleeps. The body of the function
    has an [#error] directive after the release, which stops every compiler, and comments
    that report a deadlock of this wait on Intel's Prototype 3.0 and a quick fix for it
    (the release with 1, dropping the references) that is commented out. What is here is
    the function without the directive. *)
Definition sentinelmgr_transaction_before_retry (txd : Z) : M world unit :=
  collect_preacquire txd ;;;
  do t <- txd_get txd ;;
  sentinel_list_release (sentinel_list t) false ;;;
  sentinelmgr_reset txd ;;;
  sentinel_list_acquire txd.

(** [backoff]: the microseconds slept. *)
Definition backoff (txd : Z) : M world Z :=
  do w <- m_get ;;
  let limit := sentinel_max_backoff_time (w_settings w) in
  if bool_decide (limit > 0) then
    do retries <- txc_tx_get_forced_retries txd ;;
    let wait_time := u32 (retries * 32) in
    m_ret (if bool_decide (wait_time < limit) then wait_time else limit)
  else m_ret 0.

(** The two actions; [*result] is always 0. *)
Definition sentinelmgr_commit (txd : Z) : M world Z :=
  sentinelmgr_transaction_on_complete txd ;;; m_ret 0.

Definition sentinelmgr_undo (txd : Z) : M world Z :=
  do t <- txd_get txd ;;
  match abort_reason t with
  | TXC_ABORTREASON_USERABORT => sentinelmgr_transaction_on_complete txd
  | TXC_ABORTREASON_TMCONFLICT | TXC_ABORTREASON_USERRETRY | TXC_ABORTREASON_INCONSISTENCY
  | TXC_ABORTREASON_BUSYSENTINEL | TXC_ABORTREASON_BUSYTXLOCK =>
      sentinelmgr_transaction_before_retry txd
  end ;;;
  m_ret 0.

Definition register_sentinelmgr_commit_action (txd : Z) : M world unit :=
  do t <- txd_get txd ;;
  if sentinelmgr_commit_action_registered t then m_ret tt
  else
    do _ <- txc_tx_register_commit_action txd (sentinelmgr_commit_action txd) None
              TXC_SENTINELMGR_COMMIT_ACTION_ORDER ;;
    txd_upd txd (tx_set_sentinelmgr_commit_action_registered true).

Definition register_sentinelmgr_undo_action (txd : Z) : M world unit :=
  do t <- txd_get txd ;;
  if sentinelmgr_undo_action_registered t then m_ret tt
  else
    do _ <- txc_tx_register_undo_action txd (sentinelmgr_undo_action txd) None
              TXC_SENTINELMGR_UNDO_ACTION_ORDER ;;
    txd_upd txd (tx_set_sentinelmgr_undo_action_registered true).

(** For the other files. *)
Definition txc_sentinel_register_sentinelmgr_commit_action (txd : Z) : M world unit := register_sentinelmgr_commit_action txd.
Definition txc_sentinel_register_sentinelmgr_undo_action (txd : Z) : M world unit := register_sentinelmgr_undo_action txd.

Definition txc_sentinel_transaction_postbegin (txd : Z) : M world unit :=
  do t <- txd_get txd ;;
  if bool_decide (sl_num_entries (sentinel_list t) <> 0) then
    register_sentinelmgr_commit_action txd ;;;
    register_sentinelmgr_undo_action txd
  else m_ret tt.

(** ** Acquisition *)

(** [synch_mutex] around [sentinel_attach]. *)
Definition attach_synch (sentinel : Z) : M world unit :=
  synch_lock sentinel ;;; sentinel_attach sentinel ;;; synch_unlock sentinel.

Definition txc_sentinel_enlist (txd sentinel flags : Z) : M world Z :=
  attach_synch sentinel ;;;
  tx_enlist txd sentinel (acquire_on_retry flags) ;;;
  m_ret TXC_R_SUCCESS.

Definition txc_sentinel_is_enlisted (txd sentinel : Z) : M world Z :=
  do t <- txd_get txd ;;
  m_ret (if bool_decide (sentinel ∈ (se_sentinel <$> sl_list (sentinel_list t)))
         then TXC_R_SUCCESS else TXC_R_FAILURE).

(** [txc_sentinel_tryacquire]: when the transaction already owns the sentinel,
    nothing is assigned to [result]. *)
Definition txc_sentinel_tryacquire (txd sentinel flags : Z) : M world Z :=
  do s <- sentinel_get sentinel ;;
  if bool_decide (s_owner s <> txd) then
    do x <- txc_tx_get_xactstate txd ;;
    match x with
    | TXC_XACTSTATE_NONTRANSACTIONAL => m_exit
    | TXC_XACTSTATE_TRANSACTIONAL_IRREVOCABLE => m_ret TXC_R_SUCCESS
    | TXC_XACTSTATE_TRANSACTIONAL_RETRYABLE =>
        register_sentinelmgr_undo_action txd ;;;
        register_sentinelmgr_commit_action txd ;;;
        do w <- m_get ;;
        let num_spin_retries := sentinel_max_spin_retries (w_settings w) in
        do ret <- spin_trylock (S (Z.to_nat num_spin_retries)) num_spin_retries sentinel ;;
        if bool_decide (ret = 0) then
          attach_synch sentinel ;;;
          sentinel_upd sentinel (s_set_owner txd) ;;;
          tx_enlist txd sentinel (Z.lor TXC_SENTINEL_ACQUIRED (acquire_on_retry flags)) ;;;
          m_ret TXC_R_SUCCESS
        else
          attach_synch sentinel ;;;
          tx_enlist txd sentinel (acquire_on_retry flags) ;;;
          m_ret TXC_R_BUSYSENTINEL
    end
  else m_ret uninit.
End sentinel.

(** ** The sort *)

Section bubble.
Context {A : Type} (key : A -> Z).
Implicit Types (a c l : list A).

Definition key_le (x y : A) : Prop := key x <= key y.

(** One pass over the entries [a] carries a largest one to their end; a pass
    that exchanges nothing found them sorted. *)
Lemma bubble_pass_spec k a c :
  length a = S k ->
  exists a' m b, bubble_pass key k (a ++ c) = ((a' ++ [m]) ++ c, b) /\ a' ++ [m] ≡ₚ a /\
    Forall (fun x => key_le x m) a' /\ (b = false -> a' ++ [m] = a /\ Sorted key_le a).
Proof.
  revert a. induction k as [|k IH]; intros a Hlen.
  - destruct a as [|x [|]]; try done. exists [], x, false.
    split; [by destruct c|]. split_and!; [done|done|]. intros _. split; [done|by repeat constructor].
  - destruct a as [|x [|y a]]; try done. simpl. case_bool_decide as Hxy.
    + destruct (IH (x :: a)) as (a' & m & b & E & Hp & Hm & _); [simpl in *; lia|].
      exists (y :: a'), m, true. simpl in E. rewrite E. split_and!; [done| | |done].
      * simpl. rewrite Hp. apply Permutation_swap.
      * constructor; [|done]. assert (key_le x m).
        { assert (x ∈ a' ++ [m]) as [Hx|Hx]%elem_of_app by (rewrite Hp; set_solver).
          - rewrite Forall_forall in Hm. by apply Hm.
          - apply list_elem_of_singleton in Hx as ->. unfold key_le. lia. }
        unfold key_le in *. lia.
    + destruct (IH (y :: a)) as (a' & m & b & E & Hp & Hm & Hs); [simpl in *; lia|].
      exists (x :: a'), m, b. simpl in E. rewrite E. split_and!; [done| | |].
      * simpl. by rewrite Hp.
      * constructor; [|done]. assert (key_le y m).
        { assert (y ∈ a' ++ [m]) as [Hx|Hx]%elem_of_app by (rewrite Hp; set_solver).
          - rewrite Forall_forall in Hm. by apply Hm.
          - apply list_elem_of_singleton in Hx as ->. unfold key_le. lia. }
        unfold key_le in *. lia.
      * intros Hb. destruct (Hs Hb) as [Heq Hsort]. split; [simpl; by rewrite Heq|].
        constructor; [done|]. constructor. unfold key_le. lia.
Qed.

(** [a] then [c], [c] sorted and above [a]. *)
Lemma bubble_sort_spec fuel a c :
  (length a < fuel)%nat -> StronglySorted key_le c ->
  Forall (fun x => Forall (key_le x) c) a ->
  exists l, bubble_sort key fuel (length a) (a ++ c) = Some l /\ l ≡ₚ a ++ c /\
    StronglySorted key_le l.
Proof.
  assert (Htr : Transitive key_le) by (intros x y z; unfold key_le; lia).
  revert a c. induction fuel as [|fuel IH]; intros a c Hf Hc Hac; [lia|].
  destruct a as [|x a0].
  { exists c. split_and!; [|done|done]. simpl. by destruct c. }
  remember (x :: a0) as a eqn:Ea.
  destruct (bubble_pass_spec (length a - 1) a c) as (a' & m & b & E & Hp & Hm & Hs); [subst; simpl; lia|].
  cbn [bubble_sort]. rewrite E. destruct b.
  - assert (Hmc : Forall (key_le m) c).
    { rewrite <- Hp in Hac. apply Forall_app in Hac as [_ Hac]. by inversion Hac. }
    rewrite <- app_assoc.
    assert (length a - 1 = length a')%nat as ->.
    { apply Permutation_length in Hp. rewrite length_app in Hp. simpl in Hp. lia. }
    destruct (IH a' ([m] ++ c)) as (l & El & Hl & Hsl).
    + apply Permutation_length in Hp. rewrite length_app in Hp. simpl in Hp. lia.
    + by constructor.
    + rewrite <- Hp in Hac. apply Forall_app in Hac as [Hac _].
      rewrite Forall_forall in Hac, Hm |- *. intros y Hy. constructor; [by apply Hm|by apply Hac].
    + exists l. split_and!; [done| |done]. rewrite Hl, app_assoc, Hp. done.
  - destruct (Hs eq_refl) as [Heq Hsort]. rewrite Heq. exists (a ++ c). split_and!; [done|done|].
    apply Sorted_StronglySorted in Hsort; [|done]. clear -Hsort Hc Hac.
    induction Hsort as [|y l Hl IHl Hy]; [done|]. inversion Hac; subst. simpl. constructor.
    + by apply IHl.
    + by apply Forall_app.
Qed.
End bubble.

(** A list whose array holds all its entries. *)
Definition sl_ok (sl : txc_sentinel_list_t) : Prop :=
  exists es, sl_entries sl = Some es /\ 0 <= sl_num_entries sl <= Z.of_nat (length es).

Section sentinel_properties.
Context {PF : Platform}.

(** The id of an entry's sentinel. *)
Definition entry_id (w : world) (e : txc_sentinel_list_entry_t) : Z :=
  default 0 (s_id <$> sentinels (w_sentinelmgr w) !! se_sentinel e).

(** The sort returns [l] in the same array. *)
Lemma sentinel_list_sort_run sl w :
  sl_ok sl ->
  exists l, l ≡ₚ sl_list sl /\ StronglySorted (key_le (entry_id w)) l /\
    let sl' := SentinelList (Some (l ++ drop (length (sl_list sl)) (default [] (sl_entries sl))))
      (sl_num_entries sl) (sl_size sl) in
    sentinel_list_sort sl w = Ret sl' w /\ sl_list sl' = l.
Proof.
  intros (es & He & Hn).
  destruct (bubble_sort_spec (entry_id w) (S (length (sl_list sl))) (sl_list sl) [])
    as (l & El & Hp & Hs).
  { lia. } { constructor. } { apply Forall_forall. constructor. }
  rewrite app_nil_r in El, Hp.
  assert (Hl : length l = Z.to_nat (sl_num_entries sl)).
  { rewrite Hp. unfold sl_list. rewrite He. simpl. rewrite length_take. lia. }
  exists l. split; [done|]. split; [done|]. cbv zeta. split.
  - unfold sentinel_list_sort. m_next. cbv zeta. unfold entry_id in El. by rewrite El.
  - unfold sl_list at 1. simpl. by rewrite <- Hl, take_app_length.
Qed.

(** C27: [sentinel_list_sort] ends and sorts the entries by the id of their
    sentinel: the list has the same entries, ascending, and nothing else changes.
    Waiting for sentinels in this order is what prevents deadlock between
    transactions that retry. *)
Theorem sentinel_list_sort_spec sl w :
  sl_ok sl ->
  exists sl', sentinel_list_sort sl w = Ret sl' w /\ sl_ok sl' /\
    sl_list sl' ≡ₚ sl_list sl /\ StronglySorted (key_le (entry_id w)) (sl_list sl').
Proof.
  intros Hok. destruct (sentinel_list_sort_run sl w Hok) as (l & Hp & Hs & E & Hl).
  eexists. split; [exact E|]. rewrite Hl. split_and!; [|done|done].
  destruct Hok as (es & He & Hn). eexists. split; [done|]. simpl.
  rewrite length_app, Hp. unfold sl_list. rewrite He. simpl. rewrite length_take. lia.
Qed.
End sentinel_properties.

(** Two sentinels of the in-memory world, on a list in descending order. *)
Definition list_2016_2000 : txc_sentinel_list_t :=
  SentinelList (Some [SentinelEntry 2016 0; SentinelEntry 2000 0]) 2 32.

Lemma sentinel_list_sort_spec_witness :
  exists sl', sentinel_list_sort list_2016_2000 (mem_world (mf_one_file [] 0) 2) =
      Ret sl' (mem_world (mf_one_file [] 0) 2) /\ sl_ok sl' /\
    sl_list sl' ≡ₚ sl_list list_2016_2000 /\
    StronglySorted (key_le (entry_id (mem_world (mf_one_file [] 0) 2))) (sl_list sl').
Proof.
  apply (sentinel_list_sort_spec list_2016_2000 (mem_world (mf_one_file [] 0) 2)).
  eexists. split; [reflexivity|]. simpl. lia.
Defined.
