(* ===== verification/Views.v ===== *)
(** * Views of the world

    Most operations touch a small part of the [world].  A view is the part a
    group of theorems is about; this file has the views, what the accessors of
    [World.v] do to them, and the operations of the transaction manager that
    leave them alone. *)

From S2P Require Import Prelude Dll Pool HashTable Buffer Actions World Tx Sentinel.

Section views.
Context {PF : Platform}.

(** The sentinels. *)
Definition sview (w : world) : gmap Z txc_sentinel_t := sentinels (w_sentinelmgr w).

(** The two sentinel lists of each transaction. *)
Definition lists_of (t : txc_tx_t) : txc_sentinel_list_t * txc_sentinel_list_t :=
  (sentinel_list t, sentinel_list_preacquire t).
Definition tview (w : world) (txd : Z) : option (txc_sentinel_list_t * txc_sentinel_list_t) :=
  lists_of <$> txds (w_txmgr w) !! txd.

(** Nothing about sentinels changes. *)
Definition same_locks (w w' : world) : Prop :=
  sview w' = sview w /\ forall u, tview w' u = tview w u.

#[global] Instance same_locks_preorder : PreOrder same_locks.
Proof.
  split; [done|]. intros w1 w2 w3 [H1 H2] [H3 H4]. split; [congruence|]. intros u. by rewrite H4.
Qed.

(** Only the lists of [txd] change. *)
Definition same_but (txd : Z) (w w' : world) : Prop :=
  sview w' = sview w /\ forall u, u <> txd -> tview w' u = tview w u.

#[global] Instance same_but_preorder txd : PreOrder (same_but txd).
Proof.
  split; [done|]. intros w1 w2 w3 [H1 H2] [H3 H4]. split; [congruence|]. intros u Hu.
  by rewrite H4, H2.
Qed.

Lemma same_locks_but txd w w' : same_locks w w' -> same_but txd w w'.
Proof. intros [H1 H2]. split; [done|]. intros u _. apply H2. Qed.

(** The execution mode of a thread. *)
Definition tx_mode (txd : Z) (w : world) : option txc_tx_xactstate_t :=
  if bool_decide (txd <> 0) then itm_mode ∘ itm_td <$> txds (w_txmgr w) !! txd
  else Some TXC_XACTSTATE_NONTRANSACTIONAL.

(** ** Accessors *)

Definition put_txd (a : Z) (t : txc_tx_t) (w : world) : world :=
  set_txmgr (set_txds (<[a := t]> (txds (w_txmgr w))) (w_txmgr w)) w.
Definition put_sentinel (a : Z) (s : txc_sentinel_t) (w : world) : world :=
  set_sentinelmgr (set_sentinels (<[a := s]> (sentinels (w_sentinelmgr w))) (w_sentinelmgr w)) w.

Lemma txd_get_run a t w : txds (w_txmgr w) !! a = Some t -> txd_get a w = Ret t w.
Proof. intros H. unfold txd_get. m_next. by rewrite H. Qed.

Lemma txd_upd_run a t f w : txds (w_txmgr w) !! a = Some t -> txd_upd a f w = Ret tt (put_txd a (f t) w).
Proof. intros H. unfold txd_upd. m_next by (by apply txd_get_run). done. Qed.

Lemma sentinel_get_run a s w : sview w !! a = Some s -> sentinel_get a w = Ret s w.
Proof. intros H. unfold sentinel_get. m_next. unfold sview in H. by rewrite H. Qed.

Lemma sentinel_upd_run a s f w : sview w !! a = Some s -> sentinel_upd a f w = Ret tt (put_sentinel a (f s) w).
Proof. intros H. unfold sentinel_upd. m_next by (by apply sentinel_get_run). done. Qed.

Lemma deref_inv {A} (o : option A) (w : world) a w' : m_deref o w = Ret a w' -> o = Some a /\ w' = w.
Proof. destruct o; [|done]. by intros [= -> ->]. Qed.

Lemma txd_get_inv a w t w' : txd_get a w = Ret t w' -> txds (w_txmgr w) !! a = Some t /\ w' = w.
Proof. unfold txd_get. intros H. m_inv H. injection Hm as <- <-. by apply deref_inv in H. Qed.

Lemma txd_upd_inv a f w u w' :
  txd_upd a f w = Ret u w' -> exists t, txds (w_txmgr w) !! a = Some t /\ w' = put_txd a (f t) w.
Proof.
  unfold txd_upd. intros H. m_inv H. apply txd_get_inv in Hm as [Hm ->]. injection H as _ <-. eauto.
Qed.

Lemma sentinel_get_inv a w s w' : sentinel_get a w = Ret s w' -> sview w !! a = Some s /\ w' = w.
Proof. unfold sentinel_get. intros H. m_inv H. injection Hm as <- <-. by apply deref_inv in H. Qed.

Lemma sentinel_upd_inv a f w u w' :
  sentinel_upd a f w = Ret u w' -> exists s, sview w !! a = Some s /\ w' = put_sentinel a (f s) w.
Proof.
  unfold sentinel_upd. intros H. m_inv H. apply sentinel_get_inv in Hm as [Hm ->].
  injection H as _ <-. eauto.
Qed.

Lemma tview_put_txd a t w u : tview (put_txd a t w) u = if decide (u = a) then Some (lists_of t) else tview w u.
Proof.
  unfold tview, put_txd; simpl. case_decide; [subst; by rewrite lookup_insert_eq|].
  by rewrite lookup_insert_ne.
Qed.

Lemma sview_put_txd a t w : sview (put_txd a t w) = sview w.
Proof. done. Qed.

Lemma sview_put_sentinel a s w : sview (put_sentinel a s w) = <[a := s]> (sview w).
Proof. done. Qed.

Lemma tview_put_sentinel a s w u : tview (put_sentinel a s w) u = tview w u.
Proof. done. Qed.

Lemma get_xactstate_run txd x w :
  tx_mode txd w = Some x -> txc_tx_get_xactstate txd w = Ret x w.
Proof.
  unfold tx_mode, txc_tx_get_xactstate. case_bool_decide; [|by intros [= <-]].
  intros (t & Ht & ->)%fmap_Some. unfold tmsystem_get_xactstate, txd_get.
  m_next by (m_next; by rewrite Ht). done.
Qed.

Lemma get_xactstate_inv txd w x w' :
  txc_tx_get_xactstate txd w = Ret x w' -> tx_mode txd w = Some x /\ w' = w.
Proof.
  unfold tx_mode, txc_tx_get_xactstate. case_bool_decide; [|by intros [= <- <-]].
  unfold tmsystem_get_xactstate. intros E. m_inv E. apply txd_get_inv in Hm as [Ht ->].
  injection E as <- <-. by rewrite Ht.
Qed.

(** ** What leaves the sentinels alone *)

Definition keeps_lists (f : txc_tx_t -> txc_tx_t) : Prop := forall t, lists_of (f t) = lists_of t.

Lemma txd_get_pres R a {HR : PreOrder R} : m_pres R (txd_get a).
Proof. unfold txd_get. m_pres_auto. Qed.

Lemma sentinel_get_pres R a {HR : PreOrder R} : m_pres R (sentinel_get a).
Proof. unfold sentinel_get. m_pres_auto. Qed.

Lemma koa_get_pres R a {HR : PreOrder R} : m_pres R (koa_get a).
Proof. unfold koa_get. m_pres_auto. Qed.

Lemma fd_get_pres R a {HR : PreOrder R} : m_pres R (fd_get a).
Proof. unfold fd_get. m_pres_auto. Qed.

(** An update of a descriptor relates the states its assignment relates. *)
Lemma txd_upd_pres (R : world -> world -> Prop) a f :
  (forall w t, txds (w_txmgr w) !! a = Some t -> R w (put_txd a (f t) w)) -> m_pres R (txd_upd a f).
Proof.
  intros H w. destruct (txds (w_txmgr w) !! a) as [t|] eqn:E.
  - rewrite (txd_upd_run _ _ _ _ E). by apply H.
  - unfold txd_upd, txd_get, m_bind. simpl. by rewrite E.
Qed.

Lemma txd_upd_same a f : keeps_lists f -> m_pres same_locks (txd_upd a f).
Proof.
  intros Hf. apply txd_upd_pres. intros w t Ht. split; [done|]. intros v. rewrite tview_put_txd.
  case_decide; [subst|done]. unfold tview. by rewrite Ht, Hf.
Qed.

Lemma txd_upd_but a f : m_pres (same_but a) (txd_upd a f).
Proof. apply txd_upd_pres. intros w t _. split; [done|]. intros v Hv. by rewrite tview_put_txd, decide_False. Qed.

Definition put_koa (a : Z) (x : txc_koa_t) (w : world) : world :=
  set_koamgr (set_koas (<[a := x]> (koas (w_koamgr w))) (w_koamgr w)) w.
Definition put_fd (fd : Z) (e : txc_fd2koa_t) (w : world) : world :=
  set_koamgr (set_fd_map (<[fd := e]> (fd_map (w_koamgr w))) (w_koamgr w)) w.

Lemma sentinel_upd_pres (R : world -> world -> Prop) a f :
  (forall w s, R w (put_sentinel a s w)) -> m_pres R (sentinel_upd a f).
Proof.
  intros H w. unfold sentinel_upd, sentinel_get, m_bind. simpl.
  destruct (sentinels (w_sentinelmgr w) !! a); [apply H|done].
Qed.

Lemma koa_upd_pres (R : world -> world -> Prop) a f :
  (forall w x, R w (put_koa a x w)) -> m_pres R (koa_upd a f).
Proof.
  intros H w. unfold koa_upd, koa_get, m_bind. simpl. destruct (koas (w_koamgr w) !! a); [apply H|done].
Qed.

Lemma fd_upd_pres (R : world -> world -> Prop) fd f :
  (forall w e, R w (put_fd fd e w)) -> m_pres R (fd_upd fd f).
Proof.
  intros H w. unfold fd_upd, fd_get, m_bind. simpl. destruct (fd_map (w_koamgr w) !! fd); [apply H|done].
Qed.

(** An operation on a part of the world. *)
Lemma zoom_pres (R : world -> world -> Prop) {T A} (get : world -> T) (set : T -> world -> world) (m : M T A) :
  (forall t w, R w (set t w)) -> m_pres R (m_zoom get set m).
Proof. intros Hs w. unfold m_zoom. destruct (m (get w)); try done; apply Hs. Qed.

Lemma libc_pres (R : world -> world -> Prop) {A} (c : syscall kstate A) :
  (forall e k w, R w (set_errno e (set_kernel k w))) -> m_pres R (libc c).
Proof. intros Hs w. unfold libc. destruct (c (w_kernel w)) as [[a e] k]. apply Hs. Qed.
End views.

#[export] Hint Resolve txd_upd_same txd_upd_but : xcalls.
#[export] Hint Extern 1 (m_pres _ (txd_get _)) => apply txd_get_pres; typeclasses eauto : xcalls.
#[export] Hint Extern 1 (m_pres _ (sentinel_get _)) => apply sentinel_get_pres; typeclasses eauto : xcalls.
#[export] Hint Extern 1 (m_pres _ (koa_get _)) => apply koa_get_pres; typeclasses eauto : xcalls.
#[export] Hint Extern 1 (m_pres _ (fd_get _)) => apply fd_get_pres; typeclasses eauto : xcalls.
#[export] Hint Extern 2 (keeps_lists _) => (intros ?; done) : xcalls.

Section quiet.
Context {PF : Platform}.

Lemma in_pool_sentinel_same {A} (m : M txc_pool_t A) : m_pres same_locks (in_pool_sentinel m).
Proof. by apply zoom_pres. Qed.

Lemma in_pool_txd_same {A} (m : M txc_pool_t A) : m_pres same_locks (in_pool_txd m).
Proof. by apply zoom_pres. Qed.

Lemma in_pool_koa_same {A} (m : M txc_pool_t A) : m_pres same_locks (in_pool_koa m).
Proof. by apply zoom_pres. Qed.

Lemma in_buffermgr_same {A} (m : M txc_buffermgr_t A) : m_pres same_locks (in_buffermgr m).
Proof. by apply zoom_pres. Qed.

Lemma in_alias_cache_same {A} (m : M txc_hash_table_t A) : m_pres same_locks (in_alias_cache m).
Proof. by apply zoom_pres. Qed.

Lemma libc_same {A} (c : syscall kstate A) : m_pres same_locks (libc c).
Proof. by apply libc_pres. Qed.

Lemma store_result_same r v : m_pres same_locks (store_result r v).
Proof. destruct r; [by apply m_pres_modify|by apply m_pres_ret; typeclasses eauto]. Qed.
End quiet.

#[export] Hint Resolve in_pool_sentinel_same in_pool_txd_same in_pool_koa_same in_buffermgr_same
  in_alias_cache_same libc_same store_result_same : xcalls.

Section tx_quiet.
Context {PF : Platform}.

Lemma register_commit_same txd f r o : m_pres same_locks (txc_tx_register_commit_action txd f r o).
Proof.
  unfold txc_tx_register_commit_action, register_with, tmsystem_register_generic_commit_action.
  m_pres_auto.
Qed.

Lemma register_undo_same txd f r o : m_pres same_locks (txc_tx_register_undo_action txd f r o).
Proof.
  unfold txc_tx_register_undo_action, register_with, tmsystem_register_generic_undo_action.
  m_pres_auto.
Qed.

Lemma get_xactstate_same txd : m_pres same_locks (txc_tx_get_xactstate txd).
Proof. unfold txc_tx_get_xactstate, tmsystem_get_xactstate. m_pres_auto. Qed.

Lemma fm_init_same txd : m_pres same_locks (txc_fm_init txd).
Proof. unfold txc_fm_init. m_pres_auto. Qed.

Lemma tx_init_same txd : m_pres same_locks (txc_tx_init txd).
Proof. unfold txc_tx_init, linear_upd. m_pres_auto. Qed.
End tx_quiet.

#[export] Hint Resolve register_commit_same register_undo_same get_xactstate_same fm_init_same
  tx_init_same : xcalls.

Section sentinelmgr_quiet.
Context {PF : Platform}.

Lemma register_sentinelmgr_commit_same txd : m_pres same_locks (register_sentinelmgr_commit_action txd).
Proof. unfold register_sentinelmgr_commit_action. m_pres_auto. Qed.

Lemma register_sentinelmgr_undo_same txd : m_pres same_locks (register_sentinelmgr_undo_action txd).
Proof. unfold register_sentinelmgr_undo_action. m_pres_auto. Qed.
End sentinelmgr_quiet.

#[export] Hint Resolve register_sentinelmgr_commit_same register_sentinelmgr_undo_same : xcalls.
