(* ===== verification/Locks.v ===== *)
(** * Operations of the sentinel manager, on the views

    For each operation that acquires, releases or waits for sentinels, what it
    does to the sentinels and to the lists of the transactions when it returns.
    [Protocol.v] builds on these. *)

From S2P Require Import Prelude Dll Pool HashTable Buffer Actions World Tx Sentinel Views.

(** ** Lists of sentinels *)

(** A list with room to double. *)
Definition sl_good (sl : txc_sentinel_list_t) : Prop :=
  exists es, sl_entries sl = Some es /\ 0 <= sl_num_entries sl <= Z.of_nat (length es) /\
    sl_num_entries sl <= sl_size sl /\ 0 < sl_size sl < 2 ^ 30.

Definition acquired (e : txc_sentinel_list_entry_t) : bool := status_has (se_status e) TXC_SENTINEL_ACQUIRED.
Definition on_retry (e : txc_sentinel_list_entry_t) : bool := status_has (se_status e) TXC_SENTINEL_ACQUIREONRETRY.

(** The sentinels of some entries. *)
Notation on_list := (fmap se_sentinel).

Lemma sl_good_length sl : sl_good sl -> Z.of_nat (length (sl_list sl)) = sl_num_entries sl.
Proof. intros (es & He & Hn & _). unfold sl_list. rewrite He. simpl. rewrite length_take. lia. Qed.

Lemma sl_good_init sl : sl_good sl -> sl_good (sl_init sl) /\ sl_list (sl_init sl) = [].
Proof. intros (es & He & Hn & Hs). split; [|done]. exists es. simpl. split; [done|lia]. Qed.

Lemma sl_store_good sl es e size :
  sl_entries sl = Some es -> 0 <= sl_num_entries sl <= Z.of_nat (length es) ->
  sl_num_entries sl < size -> 0 < size < 2 ^ 30 ->
  exists sl', sl_store e (SentinelList (Some es) (sl_num_entries sl) size) = Some sl' /\
    sl_good sl' /\ sl_list sl' = sl_list sl ++ [e].
Proof.
  intros He Hn Hlt Hs. eexists. split; [done|]. simpl. rewrite u32_small by lia.
  assert (Hlen : length (take (Z.to_nat (sl_num_entries sl)) es) = Z.to_nat (sl_num_entries sl))
    by (rewrite length_take; lia).
  split.
  - eexists. split; [done|]. simpl. rewrite length_app, Hlen. simpl. lia.
  - unfold sl_list; simpl. rewrite He. simpl.
    replace (Z.to_nat (sl_num_entries sl + 1)) with (Z.to_nat (sl_num_entries sl) + 1)%nat by lia.
    rewrite take_app, take_take, Hlen, Nat.min_r by lia.
    by replace (Z.to_nat (sl_num_entries sl) + 1 - Z.to_nat (sl_num_entries sl))%nat with 1%nat by lia.
Qed.

Lemma enlist_good sl a st :
  sl_good sl -> sl_num_entries sl < 2 ^ 29 ->
  exists sl', enlist_sentinel true a st sl = Some (TXC_R_SUCCESS, sl') /\ sl_good sl' /\
    sl_list sl' = sl_list sl ++ [SentinelEntry a st].
Proof.
  intros (es & He & Hn & Hle & Hs) Hlt. unfold enlist_sentinel. case_bool_decide as Hf.
  - unfold allocate_sentinel_list_entries. rewrite He, u32_small by lia.
    rewrite bool_decide_eq_false_2 by (intros X; by apply X).
    change (default [] (Some es)) with es.
    destruct (sl_store_good sl es (SentinelEntry a st) (sl_size sl * 2)) as (sl' & E & ?); [done|lia..|].
    rewrite E. by exists sl'.
  - destruct (sl_store_good sl es (SentinelEntry a st) (sl_size sl)) as (sl' & E & ?); [done|lia..|].
    destruct sl; simpl in *; subst. rewrite E. by exists sl'.
Qed.

(** ** The operations, on the views *)

Section operations.
Context {PF : Platform}.
Hypothesis realloc_grants : forall n, realloc_ok n = true.

Lemma tx_enlist_run txd a st w t :
  txds (w_txmgr w) !! txd = Some t -> sl_good (sentinel_list t) ->
  sl_num_entries (sentinel_list t) < 2 ^ 29 ->
  exists sl', tx_enlist txd a st w = Ret tt (put_txd txd (tx_set_sentinel_list sl' t) w) /\
    sl_good sl' /\ sl_list sl' = sl_list (sentinel_list t) ++ [SentinelEntry a st].
Proof.
  intros Ht Hg Hn. destruct (enlist_good _ a st Hg Hn) as (sl' & E & ? & ?). exists sl'.
  split; [|done]. unfold tx_enlist. m_next by (by apply txd_get_run). rewrite realloc_grants, E.
  m_next. cbv iota. by apply txd_upd_run.
Qed.

Lemma tview_inv w txd sl pre :
  tview w txd = Some (sl, pre) -> exists t, txds (w_txmgr w) !! txd = Some t /\
    sentinel_list t = sl /\ sentinel_list_preacquire t = pre.
Proof. unfold tview. intros (t & Ht & [= -> ->])%fmap_Some. eauto. Qed.

Lemma tview_at_put txd t w : tview (put_txd txd t w) txd = Some (lists_of t).
Proof. by rewrite tview_put_txd, decide_True. Qed.

Lemma put_txd_but txd t w : same_but txd w (put_txd txd t w).
Proof. split; [done|]. intros u Hu. by rewrite tview_put_txd, decide_False. Qed.

Lemma tx_enlist_view txd a st w x w' sl pre :
  tx_enlist txd a st w = Ret x w' -> tview w txd = Some (sl, pre) -> sl_good sl ->
  sl_num_entries sl < 2 ^ 29 ->
  same_but txd w w' /\ exists sl', tview w' txd = Some (sl', pre) /\ sl_good sl' /\
    sl_list sl' = sl_list sl ++ [SentinelEntry a st].
Proof.
  intros H (t & Ht & <- & <-)%tview_inv Hg Hn.
  destruct (tx_enlist_run txd a st w t Ht Hg Hn) as (sl' & E & Hg' & Hl).
  rewrite E in H. injection H as _ <-. split; [apply put_txd_but|].
  exists sl'. by rewrite tview_at_put.
Qed.

(** *** The locks of a sentinel *)

Lemma synch_lock_inv a w u w' :
  synch_lock a w = Ret u w' -> exists s, sview w !! a = Some s /\ synch_mutex s = false /\
    w' = put_sentinel a (s_set_synch true s) w.
Proof.
  unfold synch_lock. intros H. m_inv H. apply sentinel_get_inv in Hm as [Hs ->].
  destruct (synch_mutex x) eqn:E; [done|]. apply sentinel_upd_inv in H as (s' & Hs' & ->).
  rewrite Hs in Hs'. injection Hs' as <-. eauto.
Qed.

(** [put_sentinel] of a sentinel put before. *)
Lemma sentinel_upd_put a s f w u w' :
  sentinel_upd a f (put_sentinel a s w) = Ret u w' -> w' = put_sentinel a (f s) w.
Proof.
  intros (s' & Hs & ->)%sentinel_upd_inv. rewrite sview_put_sentinel, lookup_insert_eq in Hs.
  injection Hs as <-. unfold put_sentinel; simpl. unfold set_sentinelmgr, set_sentinels; simpl.
  by rewrite insert_insert_eq.
Qed.

Lemma attach_synch_inv a w u w' :
  attach_synch a w = Ret u w' -> exists s, sview w !! a = Some s /\ synch_mutex s = false /\
    sview w' = <[a := s_set_refcnt (s_refcnt s + 1) s]> (sview w) /\ forall v, tview w' v = tview w v.
Proof.
  unfold attach_synch. intros H. m_inv H. apply synch_lock_inv in Hm as (s & Hs & Hf & ->).
  m_inv H. apply sentinel_upd_put in Hm as ->. apply sentinel_upd_put in H as ->.
  exists s. destruct s; simpl in *; subst. split_and!; done.
Qed.

(** Spinning does not help: nobody releases the lock in the meantime. *)
Lemma spin_trylock_inv fuel n a w r w' :
  spin_trylock fuel n a w = Ret r w' ->
  exists s, sview w !! a = Some s /\
    ((r = 0 /\ sentinel_mutex s = false /\ w' = put_sentinel a (s_set_mutex true s) w) \/
     (r <> 0 /\ sentinel_mutex s = true /\ w' = w)).
Proof.
  revert n. induction fuel as [|fuel IH]; intros n H; [done|]. cbn [spin_trylock] in H.
  m_inv H. unfold sentinel_trylock in Hm. m_inv Hm. apply sentinel_get_inv in Hm0 as [Hs ->].
  destruct (sentinel_mutex x0) eqn:E.
  - injection Hm as <- <-. cbv zeta in H. destruct (_ && _); [by eapply IH|].
    injection H as <- <-. exists x0. split; [done|]. right. done.
  - m_inv Hm. apply sentinel_upd_inv in Hm0 as (s' & Hs' & ->). rewrite Hs in Hs'.
    injection Hs' as <-. injection Hm as <- <-. cbv zeta in H.
    rewrite (bool_decide_eq_false_2 (0 <> 0)), andb_false_r in H by lia.
    injection H as <- <-. exists x0. split; [done|]. by left.
Qed.

(** ** Acquisition *)

(** The entry [txd] enlists for [a]. *)
Definition enlisted (txd a st : Z) (sl pre : txc_sentinel_list_t) (w' : world) : Prop :=
  exists sl', tview w' txd = Some (sl', pre) /\ sl_good sl' /\ sl_list sl' = sl_list sl ++ [SentinelEntry a st].

(** What [txc_sentinel_tryacquire] does when it returns [c]. *)
Inductive tryacquire_result (txd a flags : Z) (sl pre : txc_sentinel_list_t) (s : txc_sentinel_t)
    (w : world) : Z -> world -> Prop :=
  | try_owned w' :
      s_owner s = txd -> same_locks w w' -> tryacquire_result txd a flags sl pre s w uninit w'
  | try_irrevocable w' :
      s_owner s <> txd -> tx_mode txd w = Some TXC_XACTSTATE_TRANSACTIONAL_IRREVOCABLE ->
      same_locks w w' -> tryacquire_result txd a flags sl pre s w TXC_R_SUCCESS w'
  | try_acquired w' :
      s_owner s <> txd -> sentinel_mutex s = false -> synch_mutex s = false ->
      sview w' = <[a := Sentinel true false (s_id s) (s_refcnt s + 1) txd]> (sview w) ->
      (forall u, u <> txd -> tview w' u = tview w u) ->
      enlisted txd a (Z.lor TXC_SENTINEL_ACQUIRED (acquire_on_retry flags)) sl pre w' ->
      tryacquire_result txd a flags sl pre s w TXC_R_SUCCESS w'
  | try_busy w' :
      s_owner s <> txd -> sentinel_mutex s = true -> synch_mutex s = false ->
      sview w' = <[a := s_set_refcnt (s_refcnt s + 1) s]> (sview w) ->
      (forall u, u <> txd -> tview w' u = tview w u) ->
      enlisted txd a (acquire_on_retry flags) sl pre w' ->
      tryacquire_result txd a flags sl pre s w TXC_R_BUSYSENTINEL w'.

Lemma tryacquire_retryable txd a flags w c w' sl pre s :
  (register_sentinelmgr_undo_action txd ;;;
   register_sentinelmgr_commit_action txd ;;;
   do w <- m_get ;;
   let num_spin_retries := sentinel_max_spin_retries (w_settings w) in
   do ret <- spin_trylock (S (Z.to_nat num_spin_retries)) num_spin_retries a ;;
   if bool_decide (ret = 0) then
     attach_synch a ;;;
     sentinel_upd a (s_set_owner txd) ;;;
     tx_enlist txd a (Z.lor TXC_SENTINEL_ACQUIRED (acquire_on_retry flags)) ;;;
     m_ret TXC_R_SUCCESS
   else
     attach_synch a ;;;
     tx_enlist txd a (acquire_on_retry flags) ;;;
     m_ret TXC_R_BUSYSENTINEL) w = Ret c w' ->
  tview w txd = Some (sl, pre) -> sl_good sl -> sl_num_entries sl < 2 ^ 29 ->
  sview w !! a = Some s -> s_owner s <> txd -> tryacquire_result txd a flags sl pre s w c w'.
Proof.
  intros H Ht Hg Hn Hs Ho. m_inv H. m_inv H.
  destruct (m_pres_run _ _ _ _ _ (register_sentinelmgr_undo_same _) Hm) as [V1 T1].
  destruct (m_pres_run _ _ _ _ _ (register_sentinelmgr_commit_same _) Hm0) as [V2 T2].
  assert (V : sview st0 = sview w) by congruence.
  assert (T : forall u, tview st0 u = tview w u) by (intros u; by rewrite T2, T1).
  clear V1 V2 T1 T2 Hm Hm0. m_inv H. injection Hm as <- <-. cbv zeta in H. m_inv H.
  apply spin_trylock_inv in Hm as (s' & Hs' & [(-> & Hf & ->)|(Hr & Hf & ->)]);
    rewrite V, Hs in Hs'; injection Hs' as <-.
  - rewrite bool_decide_eq_true_2 in H by done. m_inv H.
    apply attach_synch_inv in Hm as (s2 & Hs2 & Hsy & V3 & T3).
    rewrite sview_put_sentinel, lookup_insert_eq in Hs2. injection Hs2 as <-.
    m_inv H. apply sentinel_upd_inv in Hm as (s3 & Hs3 & ->).
    rewrite V3, lookup_insert_eq in Hs3. injection Hs3 as <-. m_inv H. injection H as <- <-.
    eapply tx_enlist_view in Hm as [[V4 T4] Hl]; [| |exact Hg|done].
    2: { rewrite tview_put_sentinel, T3, tview_put_sentinel, T. exact Ht. }
    eapply try_acquired; [done|done|done| | |done].
    + rewrite V4, sview_put_sentinel, V3, sview_put_sentinel, !insert_insert_eq, V.
      f_equal. destruct s; simpl in *; by subst.
    + intros u Hu. by rewrite T4, tview_put_sentinel, T3, tview_put_sentinel, T by done.
  - rewrite bool_decide_eq_false_2 in H by done. m_inv H.
    apply attach_synch_inv in Hm as (s2 & Hs2 & Hsy & V3 & T3).
    rewrite V, Hs in Hs2. injection Hs2 as <-. m_inv H. injection H as <- <-.
    eapply tx_enlist_view in Hm as [[V4 T4] Hl]; [| |exact Hg|done].
    2: { rewrite T3, T. exact Ht. }
    eapply try_busy; [done|done|done| | |done].
    + by rewrite V4, V3, V.
    + intros u Hu. by rewrite T4, T3, T by done.
Qed.

Lemma tryacquire_inv txd a flags w c w' sl pre :
  txc_sentinel_tryacquire txd a flags w = Ret c w' ->
  tview w txd = Some (sl, pre) -> sl_good sl -> sl_num_entries sl < 2 ^ 29 ->
  exists s, sview w !! a = Some s /\ tryacquire_result txd a flags sl pre s w c w'.
Proof.
  intros H Ht Hg Hn. unfold txc_sentinel_tryacquire in H. m_inv H.
  apply sentinel_get_inv in Hm as [Hs ->]. exists x. split; [done|].
  case_bool_decide as Ho; [|injection H as <- <-; apply try_owned; [lia|done]].
  m_inv H. pose proof (get_xactstate_inv _ _ _ _ Hm) as [Hmode ->]. destruct x0; [done| |].
  - by eapply tryacquire_retryable.
  - injection H as <- <-. by apply try_irrevocable.
Qed.

(** ** Release *)

(** What releasing an entry does to its sentinel. *)
Definition released (completion : bool) (e : txc_sentinel_list_entry_t) (s : txc_sentinel_t) : txc_sentinel_t :=
  Sentinel (if acquired e then false else sentinel_mutex s) false (s_id s)
    (if completion || negb (on_retry e) then s_refcnt s - 1 else s_refcnt s)
    (if acquired e then TXC_SENTINEL_NOOWNER else s_owner s).

(** [w'] is [w] with the sentinel [a] set to [s]. *)
Definition sentinel_put_to (a : Z) (s : txc_sentinel_t) (w w' : world) : Prop :=
  sview w' = <[a := s]> (sview w) /\ forall u, tview w' u = tview w u.

Lemma sentinel_upd_to a f s w x w0 w' :
  sentinel_put_to a s w0 w -> sentinel_upd a f w = Ret x w' -> sentinel_put_to a (f s) w0 w'.
Proof.
  intros [V T] (s' & Hs & ->)%sentinel_upd_inv. rewrite V, lookup_insert_eq in Hs.
  injection Hs as <-. split; [|done]. by rewrite sview_put_sentinel, V, insert_insert_eq.
Qed.

Lemma sentinel_detach_to a s w x w0 w' :
  sentinel_put_to a s w0 w -> sentinel_detach a w = Ret x w' ->
  sentinel_put_to a (s_set_refcnt (s_refcnt s - 1) s) w0 w'.
Proof.
  unfold sentinel_detach. intros HP H. m_inv H. eapply sentinel_upd_to in Hm; [|exact HP].
  m_inv H. apply sentinel_get_inv in Hm0 as [_ ->]. m_inv H. injection H as <- <-.
  assert (same_locks st st0) as [V T].
  { revert Hm0. unfold m_when, sentinel_destroy. destruct (bool_decide _).
    - intros E. eapply m_pres_run; [apply in_pool_sentinel_same|exact E].
    - by intros [= _ <-]. }
  destruct Hm as [V1 T1]. split; [by rewrite V, V1|]. intros u. by rewrite T, T1.
Qed.

Lemma release_entry_inv c e w x w' :
  sentinel_release_entry c e w = Ret x w' ->
  exists s, sview w !! se_sentinel e = Some s /\ synch_mutex s = false /\
    sentinel_put_to (se_sentinel e) (released c e s) w w'.
Proof.
  unfold sentinel_release_entry. intros H. m_inv H.
  apply synch_lock_inv in Hm as (s & Hs & Hf & ->). exists s. split; [done|]. split; [done|].
  assert (P0 : sentinel_put_to (se_sentinel e) (s_set_synch true s) w
    (put_sentinel (se_sentinel e) (s_set_synch true s) w)) by done.
  revert P0 H. generalize (put_sentinel (se_sentinel e) (s_set_synch true s) w). intros w1 P0 H.
  m_inv H.
  assert (P1 : sentinel_put_to (se_sentinel e)
    (Sentinel (if acquired e then false else sentinel_mutex s) true (s_id s) (s_refcnt s)
       (if acquired e then TXC_SENTINEL_NOOWNER else s_owner s)) w st).
  { revert Hm. unfold acquired. destruct (status_has (se_status e) TXC_SENTINEL_ACQUIRED).
    - intros H1. m_inv H1. eapply sentinel_upd_to in Hm; [|exact P0].
      by eapply sentinel_upd_to in H1; [|exact Hm].
    - intros [= _ <-]. by destruct s. }
  clear Hm P0. m_inv H.
  change (released c e s) with (s_set_synch false (Sentinel
    (if acquired e then false else sentinel_mutex s) true (s_id s)
    (if c || negb (on_retry e) then s_refcnt s - 1 else s_refcnt s)
    (if acquired e then TXC_SENTINEL_NOOWNER else s_owner s))).
  eapply sentinel_upd_to; [clear H|exact H].
  assert (Hd : forall y, (do _ <- sentinel_detach (se_sentinel e) ;; m_ret tt) st = Ret y st0 ->
    sentinel_put_to (se_sentinel e) (s_set_refcnt (s_refcnt s - 1)
      (Sentinel (if acquired e then false else sentinel_mutex s) true (s_id s) (s_refcnt s)
       (if acquired e then TXC_SENTINEL_NOOWNER else s_owner s))) w st0).
  { intros y Hy. m_inv Hy. injection Hy as _ <-. by eapply sentinel_detach_to in P1. }
  unfold on_retry. destruct c; [by eapply Hd|].
  destruct (status_has (se_status e) TXC_SENTINEL_ACQUIREONRETRY); [|by eapply Hd].
  by injection Hm as _ <-.
Qed.

(** The entries for one sentinel, and what releasing them all does to it. *)
Definition entries_for (a : Z) (l : list txc_sentinel_list_entry_t) : list txc_sentinel_list_entry_t :=
  filter (fun e => se_sentinel e = a) l.

Definition released_all (c : bool) (l : list txc_sentinel_list_entry_t) (s : txc_sentinel_t) : txc_sentinel_t :=
  foldl (fun s e => released c e s) s l.

Lemma released_all_eq c l s :
  released_all c l s =
  Sentinel (if existsb acquired l then false else sentinel_mutex s)
    (match l with [] => synch_mutex s | _ => false end) (s_id s)
    (s_refcnt s - Z.of_nat (length (filter (fun e => c || negb (on_retry e) = true) l)))
    (if existsb acquired l then TXC_SENTINEL_NOOWNER else s_owner s).
Proof.
  unfold released_all. revert s. induction l as [|e l IH]; intros s.
  - simpl. rewrite Z.sub_0_r. by destruct s.
  - cbn [foldl]. rewrite IH. rewrite filter_cons. simpl.
    destruct (acquired e), (existsb acquired l); simpl; f_equal;
      try (by destruct l); destruct (c || negb (on_retry e)); simpl; lia.
Qed.

Lemma release_list_inv c l w x w' :
  m_iter (sentinel_release_entry c) l w = Ret x w' ->
  (forall a, sview w' !! a = released_all c (entries_for a l) <$> sview w !! a) /\
  (forall u, tview w' u = tview w u) /\ (forall e, e ∈ l -> is_Some (sview w !! se_sentinel e)).
Proof.
  revert w. induction l as [|e l IH]; intros w H.
  - injection H as _ <-. split_and!; [|done|set_solver]. intros a. simpl. by destruct (sview w !! a).
  - cbn [m_iter] in H. m_inv H. apply release_entry_inv in Hm as (s & Hs & Hf & V & T).
    destruct (IH _ H) as (HV & HT & Hsome). split_and!.
    + intros a. rewrite HV, V. unfold entries_for. rewrite filter_cons.
      case_decide as Ha; [subst a|by rewrite lookup_insert_ne].
      by rewrite lookup_insert_eq, Hs.
    + intros u. by rewrite HT.
    + intros e' [->|He]%elem_of_cons; [by rewrite Hs|]. destruct (Hsome _ He) as [s' Hs'].
      rewrite V in Hs'. apply lookup_insert_Some in Hs' as [[<- _]|[_ Hs']]; by eexists.
Qed.

(** ** Retry *)

Lemma sl_upd_view txd f w x w' sl pre :
  tview w txd = Some (sl, pre) -> txd_upd txd f w = Ret x w' ->
  same_but txd w w' /\ exists t, lists_of t = (sl, pre) /\ tview w' txd = Some (lists_of (f t)).
Proof.
  intros (t & Ht & <- & <-)%tview_inv (t' & Ht' & ->)%txd_upd_inv. rewrite Ht in Ht'. injection Ht' as <-.
  split; [apply put_txd_but|]. exists t. by rewrite tview_at_put.
Qed.

(** The entries to wait for. *)
Definition to_wait (l : list txc_sentinel_list_entry_t) : list txc_sentinel_list_entry_t :=
  (fun e => SentinelEntry (se_sentinel e) 0) <$> filter (fun e => on_retry e = true) l.

Lemma preacquire_iter_inv txd l w x w' sl pre :
  m_iter (preacquire_entry txd) l w = Ret x w' ->
  tview w txd = Some (sl, pre) -> sl_good pre ->
  Z.of_nat (length (sl_list pre)) + Z.of_nat (length l) < 2 ^ 29 ->
  same_but txd w w' /\ exists pre', tview w' txd = Some (sl, pre') /\ sl_good pre' /\
    sl_list pre' = sl_list pre ++ to_wait l.
Proof.
  revert w pre. induction l as [|e l IH]; intros w pre H Ht Hg Hn.
  - injection H as _ <-. split; [done|]. exists pre. by rewrite app_nil_r.
  - cbn [m_iter] in H. m_inv H. simpl in Hn. unfold preacquire_entry in Hm. unfold to_wait. rewrite filter_cons.
    fold (on_retry e) in Hm.
    destruct (on_retry e) eqn:Er.
    + rewrite decide_True by done. m_inv Hm. apply txd_get_inv in Hm0 as [Ht0 ->].
      destruct (tview_inv _ _ _ _ Ht) as (t & Ht1 & <- & <-). rewrite Ht0 in Ht1. injection Ht1 as ->.
      pose proof (sl_good_length _ Hg) as Hlen.
      rewrite realloc_grants in Hm.
      destruct (enlist_good _ (se_sentinel e) 0 Hg) as (pre1 & E & Hg1 & Hl1); [lia|].
      rewrite E in Hm. m_inv Hm. injection Hm0 as <- <-. cbv iota in Hm.
      destruct (sl_upd_view _ _ _ _ _ _ _ Ht Hm) as (Hb & t' & Hlists & Ht').
      destruct (IH st pre1 H) as (Hb' & pre' & Hp' & Hg' & Hl').
      * rewrite Ht'. unfold lists_of; simpl. by injection Hlists as <- _.
      * done.
      * rewrite Hl1, length_app. simpl. lia.
      * split; [by etrans|]. exists pre'. split_and!; [done|done|].
        rewrite Hl', Hl1. simpl. by rewrite <- app_assoc.
    + rewrite decide_False by done. injection Hm as _ <-. apply IH; [done|done|done|lia].
Qed.

Lemma sl_good_ok sl : sl_good sl -> sl_ok sl.
Proof. intros (es & He & Hn & _). by exists es. Qed.

Lemma sorted_good sl l :
  sl_good sl -> l ≡ₚ sl_list sl ->
  sl_good (SentinelList (Some (l ++ drop (length (sl_list sl)) (default [] (sl_entries sl))))
    (sl_num_entries sl) (sl_size sl)).
Proof.
  intros Hg Hp. pose proof (sl_good_length _ Hg). destruct Hg as (es & He & Hn & Hle & Hs).
  eexists. split; [done|]. simpl. rewrite length_app, Hp. split; [lia|done].
Qed.

(** [collect_preacquire] leaves on the preacquire list the sentinels to wait for,
    ascending. *)
Lemma collect_preacquire_inv txd w x w' sl pre :
  collect_preacquire txd w = Ret x w' -> tview w txd = Some (sl, pre) -> sl_good sl -> sl_good pre ->
  sl_num_entries sl < 2 ^ 29 ->
  same_but txd w w' /\ exists pre', tview w' txd = Some (sl, pre') /\ sl_good pre' /\
    sl_list pre' ≡ₚ to_wait (sl_list sl) /\ StronglySorted (key_le (entry_id w)) (sl_list pre').
Proof.
  intros H Ht Hg Hgp Hn. unfold collect_preacquire in H. m_inv H.
  destruct (sl_upd_view _ _ _ _ _ _ _ Ht Hm) as (B1 & t1 & Hl1 & T1). clear Hm.
  destruct (sl_good_init _ Hgp) as [Hg1 Hnil].
  assert (T1' : tview st txd = Some (sl, sl_init pre)).
  { rewrite T1. unfold lists_of in *; simpl. by injection Hl1 as <- <-. }
  clear T1 Hl1 t1. m_inv H. apply txd_get_inv in Hm as [Ht1 ->].
  destruct (tview_inv _ _ _ _ T1') as (t & Ht1' & E1 & E2). rewrite Ht1 in Ht1'.
  injection Ht1' as ->. m_inv H. rewrite E1 in Hm.
  pose proof (sl_good_length _ Hg) as Hlen.
  apply preacquire_iter_inv with (sl := sl) (pre := sl_init pre) in Hm as (B2 & pre2 & T2 & Hg2 & Hl2);
    [|done|done|rewrite Hnil; simpl; lia].
  rewrite Hnil in Hl2. simpl in Hl2. m_inv H. apply txd_get_inv in Hm as [Ht2 ->].
  destruct (tview_inv _ _ _ _ T2) as (t' & Ht2' & E3 & E4). rewrite Ht2 in Ht2'.
  injection Ht2' as ->. m_inv H. rewrite E4 in Hm.
  destruct (sentinel_list_sort_run pre2 st0 (sl_good_ok _ Hg2)) as (l & Hp & Hs & E & Hl).
  rewrite E in Hm. injection Hm as <- <-.
  destruct (sl_upd_view _ _ _ _ _ _ _ T2 H) as (B3 & t3 & Hl3 & T3).
  split; [by do 2 (etrans; [done|])|]. eexists. split.
  { rewrite T3. unfold lists_of in *; simpl. by injection Hl3 as <- _. }
  split; [by apply sorted_good|]. rewrite Hl. split; [by rewrite Hp, Hl2|].
  assert (Hid : forall e, entry_id st0 e = entry_id w e).
  { intros e. unfold entry_id. destruct B1 as [V1 _], B2 as [V2 _]. unfold sview in V1, V2. by rewrite V2, V1. }
  clear -Hs Hid. induction Hs as [|e l Hs IH He]; constructor; [done|].
  eapply Forall_impl; [exact He|]. intros e'. unfold key_le. by rewrite !Hid.
Qed.

Lemma sentinelmgr_reset_inv txd w x w' sl pre :
  sentinelmgr_reset txd w = Ret x w' -> tview w txd = Some (sl, pre) ->
  same_but txd w w' /\ tview w' txd = Some (sl_init sl, pre).
Proof.
  intros H Ht. unfold sentinelmgr_reset in H. m_inv H.
  destruct (sl_upd_view _ _ _ _ _ _ _ Ht Hm) as (B1 & t1 & Hl1 & T1).
  assert (same_locks st w') as Hq.
  { eapply m_pres_run; [|exact H]. apply m_pres_bind; [typeclasses eauto|auto with xcalls|intros _; auto with xcalls]. }
  destruct Hq as [V2 T2]. split; [etrans; [done|]; by apply same_locks_but|].
  rewrite T2, T1. unfold lists_of in *; simpl. by injection Hl1 as <- <-.
Qed.

(** The part of [sentinelmgr_transaction_before_retry] before it waits. *)
Definition before_wait (txd : Z) : M world unit :=
  collect_preacquire txd ;;;
  do t <- txd_get txd ;;
  sentinel_list_release (sentinel_list t) false ;;;
  sentinelmgr_reset txd.

Lemma before_retry_split txd w :
  sentinelmgr_transaction_before_retry txd w = (before_wait txd ;;; sentinel_list_acquire txd) w.
Proof.
  unfold sentinelmgr_transaction_before_retry, before_wait, m_bind.
  destruct (collect_preacquire txd w) as [? w1| | | | |]; [|done..].
  destruct (txd_get txd w1) as [t w2| | | | |]; [|done..].
  by destruct (sentinel_list_release (sentinel_list t) false w2).
Qed.

Lemma before_wait_inv txd w x w' sl pre :
  before_wait txd w = Ret x w' -> tview w txd = Some (sl, pre) -> sl_good sl -> sl_good pre ->
  sl_num_entries sl < 2 ^ 29 ->
  (forall a, sview w' !! a = released_all false (entries_for a (sl_list sl)) <$> sview w !! a) /\
  (forall u, u <> txd -> tview w' u = tview w u) /\
  (forall e, e ∈ sl_list sl -> is_Some (sview w !! se_sentinel e)) /\
  exists pre', tview w' txd = Some (sl_init sl, pre') /\ sl_good pre' /\
    sl_list pre' ≡ₚ to_wait (sl_list sl) /\ StronglySorted (key_le (entry_id w)) (sl_list pre').
Proof.
  intros H Ht Hg Hgp Hn. unfold before_wait in H. m_inv H.
  eapply collect_preacquire_inv in Hm as ([V1 O1] & pre' & T1 & Hg' & Hl & Hs); [|done..].
  m_inv H. apply txd_get_inv in Hm as [Ht1 ->].
  destruct (tview_inv _ _ _ _ T1) as (t & Ht1' & E1 & E2). rewrite Ht1 in Ht1'. injection Ht1' as ->.
  rewrite E1 in H. m_inv H. apply release_list_inv in Hm as (V2 & T2 & Hsome).
  apply sentinelmgr_reset_inv with (sl := sl) (pre := pre') in H as [[V3 O3] T3]; [|by rewrite T2].
  split_and!.
  - intros a. by rewrite V3, V2, V1.
  - intros u Hu. by rewrite O3, T2, O1.
  - intros e He. rewrite <- V1. by apply Hsome.
  - by exists pre'.
Qed.

Lemma on_complete_inv txd w x w' sl pre :
  sentinelmgr_transaction_on_complete txd w = Ret x w' -> tview w txd = Some (sl, pre) ->
  (forall a, sview w' !! a = released_all true (entries_for a (sl_list sl)) <$> sview w !! a) /\
  (forall u, u <> txd -> tview w' u = tview w u) /\
  (forall e, e ∈ sl_list sl -> is_Some (sview w !! se_sentinel e)) /\
  tview w' txd = Some (sl_init sl, pre).
Proof.
  intros H Ht. unfold sentinelmgr_transaction_on_complete in H. m_inv H.
  apply txd_get_inv in Hm as [Ht1 ->]. destruct (tview_inv _ _ _ _ Ht) as (t & Ht1' & E1 & E2).
  rewrite Ht1 in Ht1'. injection Ht1' as ->. rewrite E1 in H. m_inv H.
  apply release_list_inv in Hm as (V2 & T2 & Hsome).
  apply sentinelmgr_reset_inv with (sl := sl) (pre := pre) in H as [[V3 O3] T3]; [|by rewrite T2].
  split_and!; [|intros u Hu; by rewrite O3, T2|done|done]. intros a. by rewrite V3, V2.
Qed.

(** *** Waiting for a sentinel *)

Lemma acquire_entry_run txd e w s sl pre :
  tview w txd = Some (sl, pre) -> sl_good sl -> sl_num_entries sl < 2 ^ 29 ->
  sview w !! se_sentinel e = Some s -> sentinel_mutex s = false ->
  exists w', sentinel_acquire_entry txd e w = Ret tt w' /\
    sview w' = <[se_sentinel e := Sentinel true (synch_mutex s) (s_id s) (s_refcnt s) txd]> (sview w) /\
    (forall u, u <> txd -> tview w' u = tview w u) /\
    enlisted txd (se_sentinel e) 3 sl pre w'.
Proof.
  intros Ht Hg Hn Hs Hf. destruct (tview_inv _ _ _ _ Ht) as (t & Htx & <- & <-).
  set (w1 := put_sentinel (se_sentinel e) (s_set_mutex true s) w).
  set (w2 := put_sentinel (se_sentinel e) (s_set_owner txd (s_set_mutex true s)) w1).
  destruct (tx_enlist_run txd (se_sentinel e) 3 w2 t Htx Hg Hn) as (sl' & E & Hg' & Hl).
  eexists. split.
  { unfold sentinel_acquire_entry. m_next by (by apply sentinel_get_run). rewrite Hf.
    m_next by (by apply sentinel_upd_run). fold w1.
    m_next by (apply sentinel_upd_run; unfold w1; by rewrite sview_put_sentinel, lookup_insert_eq).
    exact E. }
  split_and!.
  - unfold w2, w1. by rewrite sview_put_txd, !sview_put_sentinel, insert_insert_eq.
  - intros u Hu. by rewrite tview_put_txd, decide_False.
  - exists sl'. by rewrite tview_at_put.
Qed.

Lemma acquire_entry_inv txd e w x w' sl pre :
  sentinel_acquire_entry txd e w = Ret x w' ->
  tview w txd = Some (sl, pre) -> sl_good sl -> sl_num_entries sl < 2 ^ 29 ->
  exists s, sview w !! se_sentinel e = Some s /\ sentinel_mutex s = false /\
    sview w' = <[se_sentinel e := Sentinel true (synch_mutex s) (s_id s) (s_refcnt s) txd]> (sview w) /\
    (forall u, u <> txd -> tview w' u = tview w u) /\ enlisted txd (se_sentinel e) 3 sl pre w'.
Proof.
  intros H Ht Hg Hn. pose proof H as H0. unfold sentinel_acquire_entry in H0. m_inv H0.
  apply sentinel_get_inv in Hm as [Hs ->]. destruct (sentinel_mutex x0) eqn:Hf; [done|]. clear H0.
  destruct (acquire_entry_run txd e w x0 sl pre Ht Hg Hn Hs Hf) as (w1 & E & ?).
  rewrite E in H. injection H as _ <-. by exists x0.
Qed.

(** A sentinel that is held is waited for, whoever holds it: the sentinel the
    transaction has itself just acquired, too. *)
Lemma acquire_entry_block txd e w s :
  sview w !! se_sentinel e = Some s -> sentinel_mutex s = true -> sentinel_acquire_entry txd e w = Block.
Proof.
  intros Hs Hf. unfold sentinel_acquire_entry. m_next by (by apply sentinel_get_run). by rewrite Hf.
Qed.
End operations.
