(* ===== verification/Protocol.v ===== *)
(** * The sentinel protocol

    Transactions acquire sentinels without waiting, in any order; a transaction
    that fails to acquire one aborts, releases all it holds and then waits, in
    ascending order of ids, for those it is to retry with.  The file states the
    protocol as a step relation whose steps are the operations of [Sentinel.v],
    interleaved in any order between the transactions, and proves over its
    reachable states that a sentinel is held by one transaction at a time, that
    every held sentinel is on its owner's list, and that the waiting transactions
    never deadlock, with each other or with transactions that wait for memory, where the
    transactional memory has given up the isolation of a transaction before its undo
    actions run. The comment in [sentinelmgr_transaction_before_retry] reports that Intel's
    Prototype 3.0 may not do so, and that the wait then deadlocks; the last part of the
    file shows how. *)

From S2P Require Import Prelude Dll Pool HashTable Buffer Actions World MemFs Tx Sentinel Views Locks.

(** Where a transaction is: in its body, aborted on a busy sentinel, or waiting
    for the sentinels of some entries. *)
Inductive phase :=
  | Running
  | Aborting
  | Waiting (es : list txc_sentinel_list_entry_t).

Section protocol.
Context {PF : Platform}.
Hypothesis realloc_grants : forall n, realloc_ok n = true.

Definition config : Type := world * gmap Z phase.

Definition not_waiting (p : phase) : Prop := match p with Waiting _ => False | _ => True end.

(** One step of one transaction, or of anything that leaves sentinels alone. *)
Inductive pstep : config -> config -> Prop :=
  | step_try w th txd a flags c w' :
      th !! txd = Some Running -> txc_sentinel_tryacquire txd a flags w = Ret c w' ->
      pstep (w, th) (w', <[txd := if bool_decide (c = TXC_R_BUSYSENTINEL) then Aborting else Running]> th)
  | step_complete w th txd p w' :
      th !! txd = Some p -> not_waiting p -> sentinelmgr_transaction_on_complete txd w = Ret tt w' ->
      pstep (w, th) (w', <[txd := Running]> th)
  | step_retry w th txd p w' sl pre :
      th !! txd = Some p -> not_waiting p -> before_wait txd w = Ret tt w' ->
      tview w' txd = Some (sl, pre) ->
      pstep (w, th) (w', <[txd := Waiting (sl_list pre)]> th)
  | step_wait w th txd e es w' :
      th !! txd = Some (Waiting (e :: es)) -> sentinel_acquire_entry txd e w = Ret tt w' ->
      pstep (w, th) (w', <[txd := Waiting es]> th)
  | step_go w th txd :
      th !! txd = Some (Waiting []) -> pstep (w, th) (w, <[txd := Running]> th)
  | step_other w th w' : same_locks w w' -> pstep (w, th) (w', th).

(** ** The invariant *)

(** [a] is held according to a list. *)
Definition holds (sl : txc_sentinel_list_t) (a : Z) : Prop :=
  exists e, e ∈ sl_list sl /\ se_sentinel e = a /\ acquired e = true.

(** Ids below those of the entries [es]. *)
Definition below (w : world) (sl : txc_sentinel_list_t) (es : list txc_sentinel_list_entry_t) : Prop :=
  forall e e', e ∈ sl_list sl -> e' ∈ es -> entry_id w e < entry_id w e'.

Definition phase_inv (w : world) (sl : txc_sentinel_list_t) (p : phase) : Prop :=
  match p with
  | Running => Forall (fun e => acquired e = true) (sl_list sl)
  | Aborting => True
  | Waiting es =>
      Forall (fun e => acquired e = true) (sl_list sl) /\ below w sl es /\
      StronglySorted (fun e e' => entry_id w e < entry_id w e') es /\
      Forall (fun e => is_Some (sview w !! se_sentinel e)) es
  end.

Record tx_inv (w : world) (txd : Z) (p : phase) (sl pre : txc_sentinel_list_t) : Prop := {
  ti_view : tview w txd = Some (sl, pre);
  ti_good : sl_good sl;
  ti_good_pre : sl_good pre;
  ti_nodup : NoDup (on_list (sl_list sl));
  ti_dom : Forall (fun e => is_Some (sview w !! se_sentinel e)) (sl_list sl);
  ti_owner : forall a s, sview w !! a = Some s -> s_owner s = txd <-> holds sl a;
  ti_phase : phase_inv w sl p;
}.

Definition lock_ok (s : txc_sentinel_t) : Prop :=
  synch_mutex s = false /\ (sentinel_mutex s = true <-> s_owner s <> TXC_SENTINEL_NOOWNER).

Record pinv (c : config) : Prop := {
  pi_few : Z.of_nat (size (sview c.1)) < 2 ^ 29;
  pi_locks : forall a s, sview c.1 !! a = Some s -> lock_ok s /\
    (s_owner s = TXC_SENTINEL_NOOWNER \/ is_Some (c.2 !! s_owner s));
  pi_ids : forall a b s s', sview c.1 !! a = Some s -> sview c.1 !! b = Some s' -> s_id s = s_id s' -> a = b;
  pi_tx : forall txd p, c.2 !! txd = Some p -> txd <> 0 /\ exists sl pre, tx_inv c.1 txd p sl pre;
}.

(** ** Steps of one transaction *)

(** From [w] to [w'] only [txd] acquires and releases. *)
Definition lock_change (txd : Z) (s s' : txc_sentinel_t) : Prop :=
  s_id s' = s_id s /\ lock_ok s' /\
  (s_owner s' = s_owner s \/
   ((s_owner s = 0 \/ s_owner s = txd) /\ (s_owner s' = 0 \/ s_owner s' = txd))).

Definition locks_change (txd : Z) (w w' : world) : Prop :=
  (forall a, match sview w !! a, sview w' !! a with
   | Some s, Some s' => lock_change txd s s'
   | None, None => True
   | _, _ => False
   end) /\ forall u, u <> txd -> tview w' u = tview w u.

Lemma locks_change_some txd w w' a s :
  locks_change txd w w' -> sview w !! a = Some s -> exists s', sview w' !! a = Some s' /\ lock_change txd s s'.
Proof. intros [H _] Hs. specialize (H a). rewrite Hs in H. destruct (sview w' !! a); [eauto|done]. Qed.

Lemma locks_change_back txd w w' a s' :
  locks_change txd w w' -> sview w' !! a = Some s' -> exists s, sview w !! a = Some s /\ lock_change txd s s'.
Proof. intros [H _] Hs. specialize (H a). rewrite Hs in H. destruct (sview w !! a); [eauto|done]. Qed.

Lemma locks_change_dom txd w w' : locks_change txd w w' -> dom (sview w') = dom (sview w).
Proof.
  intros H. apply set_eq. intros a. rewrite !elem_of_dom. split; intros [s Hs].
  - destruct (locks_change_back _ _ _ _ _ H Hs) as (? & ? & _). by eexists.
  - destruct (locks_change_some _ _ _ _ _ H Hs) as (? & ? & _). by eexists.
Qed.

Lemma locks_change_is_some txd w w' a :
  locks_change txd w w' -> is_Some (sview w !! a) -> is_Some (sview w' !! a).
Proof. intros H [s Hs]. destruct (locks_change_some _ _ _ _ _ H Hs) as (? & ? & _). by eexists. Qed.

Lemma locks_change_id txd w w' e : locks_change txd w w' -> entry_id w' e = entry_id w e.
Proof.
  intros [H _]. specialize (H (se_sentinel e)). unfold entry_id. fold (sview w) (sview w').
  destruct (sview w !! _), (sview w' !! _); try done. simpl. by destruct H.
Qed.

Lemma below_ids w w' sl es :
  (forall e, entry_id w' e = entry_id w e) -> below w sl es -> below w' sl es.
Proof. intros H Hb e e' He He'. rewrite !H. by apply Hb. Qed.

Lemma sorted_ids w w' es :
  (forall e, entry_id w' e = entry_id w e) ->
  StronglySorted (fun e e' => entry_id w e < entry_id w e') es ->
  StronglySorted (fun e e' => entry_id w' e < entry_id w' e') es.
Proof.
  intros H Hs. induction Hs as [|e es Hs IH He]; constructor; [done|].
  eapply Forall_impl; [exact He|]. intros e'. by rewrite !H.
Qed.

(** A transaction does not notice the steps of the others. *)
Lemma tx_inv_frame txd u w w' p sl pre :
  u <> txd -> u <> 0 -> locks_change txd w w' -> tx_inv w u p sl pre -> tx_inv w' u p sl pre.
Proof.
  intros Hu H0 Hc [Hv Hg Hgp Hnd Hd Ho Hp].
  assert (Hids : forall e, entry_id w' e = entry_id w e) by (intros e; by eapply locks_change_id).
  assert (Hsome : forall l, Forall (fun e => is_Some (sview w !! se_sentinel e)) l ->
    Forall (fun e => is_Some (sview w' !! se_sentinel e)) l).
  { intros l Hl. eapply Forall_impl; [exact Hl|]. intros e. by eapply locks_change_is_some. }
  split; [|done|done|done| | |].
  - destruct Hc as [_ Hc]. by rewrite Hc.
  - by apply Hsome.
  - intros a s' Hs'. destruct (locks_change_back _ _ _ _ _ Hc Hs') as (s & Hs & _ & _ & Hown).
    rewrite <- (Ho a s Hs). intuition congruence.
  - destruct p as [| |es]; [done|done|]. destruct Hp as (H1 & H2 & H3 & H4).
    split_and!; [done|by eapply below_ids|by eapply sorted_ids|by apply Hsome].
Qed.

Lemma pinv_step w th txd p p' w' sl pre :
  pinv (w, th) -> th !! txd = Some p -> locks_change txd w w' -> tx_inv w' txd p' sl pre ->
  pinv (w', <[txd := p']> th).
Proof.
  intros [Hf Hl Hi Ht] Hp Hc Hti. simpl in *. split; simpl.
  - apply locks_change_dom in Hc. by rewrite <- size_dom, Hc, size_dom.
  - intros a s' Hs'. destruct (locks_change_back _ _ _ _ _ Hc Hs') as (s & Hs & _ & Hok & Hown).
    split; [done|]. destruct (Hl _ _ Hs) as [_ Ho].
    assert (Hth : is_Some (<[txd := p']> th !! s_owner s) \/ s_owner s = 0).
    { destruct Ho as [Ho|[q Ho]]; [by right|left].
      destruct (decide (txd = s_owner s)) as [<-|]; [by rewrite lookup_insert_eq|].
      rewrite lookup_insert_ne by done. by eexists. }
    destruct Hown as [-> | [_ [-> | ->]]]; [naive_solver|by left|].
    right. by rewrite lookup_insert_eq.
  - intros a b s1 s2 H1 H2 E.
    destruct (locks_change_back _ _ _ _ _ Hc H1) as (t1 & Ht1 & E1 & _).
    destruct (locks_change_back _ _ _ _ _ Hc H2) as (t2 & Ht2 & E2 & _).
    eapply Hi; [exact Ht1|exact Ht2|congruence].
  - intros u q Hq. destruct (decide (txd = u)) as [<-|Hne].
    + rewrite lookup_insert_eq in Hq. injection Hq as <-.
      split; [by destruct (Ht _ _ Hp)|]. by exists sl, pre.
    + rewrite lookup_insert_ne in Hq by done. destruct (Ht _ _ Hq) as (H0 & sl' & pre' & Hti').
      split; [done|]. exists sl', pre'. eapply tx_inv_frame; [by apply not_eq_sym|done|exact Hc|done].
Qed.

(** The number of entries is within the room of the lists. *)
Lemma few_entries w th txd p sl pre :
  pinv (w, th) -> tx_inv w txd p sl pre -> sl_num_entries sl < 2 ^ 29.
Proof.
  intros [Hf _ _ _] [_ Hg _ Hnd Hd _ _]. simpl in *. rewrite <- (sl_good_length _ Hg).
  assert (length (sl_list sl) <= size (sview w))%nat; [|lia].
  rewrite <- size_dom, <- (length_fmap se_sentinel), <- (size_list_to_set (C := gset Z)) by done.
  apply subseteq_size. intros a Ha. apply elem_of_list_to_set, list_elem_of_fmap in Ha as (e & -> & He).
  apply elem_of_dom. rewrite Forall_forall in Hd. by apply Hd.
Qed.

(** ** Each step preserves the invariant *)

Lemma same_locks_id w w' e : same_locks w w' -> entry_id w' e = entry_id w e.
Proof. intros [V _]. unfold entry_id. unfold sview in V. by rewrite V. Qed.

Lemma tx_inv_same w w' txd p sl pre : same_locks w w' -> tx_inv w txd p sl pre -> tx_inv w' txd p sl pre.
Proof.
  intros Hsl [Hv Hg Hgp Hnd Hd Ho Hp].
  assert (Hids : forall e, entry_id w' e = entry_id w e) by (intros e; by apply same_locks_id).
  destruct Hsl as [V T]. split; rewrite ?V, ?T; try done.
  destruct p as [| |es]; [done|done|]. destruct Hp as (H1 & H2 & H3 & H4). simpl. rewrite V.
  split_and!; [done|by eapply below_ids|by eapply sorted_ids|done].
Qed.

Lemma same_locks_change txd w w' :
  (forall a s, sview w !! a = Some s -> lock_ok s) -> same_locks w w' -> locks_change txd w w'.
Proof.
  intros Hok [V T]. split; [|auto]. intros a. rewrite V. destruct (sview w !! a) as [s|] eqn:E; [|done].
  split_and!; [done|by eapply Hok|by left].
Qed.

Lemma pinv_same w w' th : same_locks w w' -> pinv (w, th) -> pinv (w', th).
Proof.
  intros Hsl [Hf Hl Hi Ht]. pose proof Hsl as [V _]. split; simpl in *; rewrite ?V; try done.
  intros txd p Hp. destruct (Ht _ _ Hp) as (H0 & sl & pre & Hti). split; [done|].
  exists sl, pre. by eapply tx_inv_same.
Qed.

Lemma pinv_ok w th a s : pinv (w, th) -> sview w !! a = Some s -> lock_ok s.
Proof. intros [_ Hl _ _] Hs. by destruct (Hl _ _ Hs). Qed.

(** A sentinel changes and one entry is added. *)
Lemma locks_change_insert txd w w' a s s' :
  (forall a s, sview w !! a = Some s -> lock_ok s) -> sview w !! a = Some s ->
  sview w' = <[a := s']> (sview w) -> (forall u, u <> txd -> tview w' u = tview w u) ->
  lock_change txd s s' -> locks_change txd w w'.
Proof.
  intros Hok Hs V T Hc. split; [|done]. intros b. rewrite V. destruct (decide (a = b)) as [<-|Hne].
  - by rewrite Hs, lookup_insert_eq.
  - rewrite lookup_insert_ne by done. destruct (sview w !! b) as [t|] eqn:E; [|done].
    split_and!; [done|by eapply Hok|by left].
Qed.

Lemma holds_app sl sl' e a :
  sl_list sl' = sl_list sl ++ [e] ->
  holds sl' a <-> holds sl a \/ (se_sentinel e = a /\ acquired e = true).
Proof. intros Hl. unfold holds. rewrite Hl. set_solver. Qed.

Lemma tx_inv_add w w' txd p p' sl sl' pre a s s' st :
  tx_inv w txd p sl pre -> locks_change txd w w' ->
  sview w !! a = Some s -> sview w' = <[a := s']> (sview w) ->
  tview w' txd = Some (sl', pre) -> sl_good sl' -> sl_list sl' = sl_list sl ++ [SentinelEntry a st] ->
  Forall (fun e => acquired e = true) (sl_list sl) -> s_owner s <> txd ->
  (s_owner s' = txd <-> acquired (SentinelEntry a st) = true) ->
  phase_inv w' sl' p' -> tx_inv w' txd p' sl' pre.
Proof.
  intros [Hv Hg Hgp Hnd Hd Ho Hp] Hc Hs V Hv' Hg' Hl Hacq Hown Hown' Hp'.
  assert (Hna : ~ holds sl a) by (by rewrite <- (Ho a s Hs)).
  split; try done.
  - rewrite Hl, fmap_app. apply NoDup_app. split_and!; [done| |apply NoDup_singleton].
    intros b Hb ->%list_elem_of_singleton. apply list_elem_of_fmap in Hb as (e & He & Hin).
    apply Hna. exists e. split_and!; [done|by simpl in He|]. rewrite Forall_forall in Hacq. by apply Hacq.
  - rewrite Hl. apply Forall_app. split.
    + eapply Forall_impl; [exact Hd|]. intros e. by eapply locks_change_is_some.
    + constructor; [|constructor]. simpl. rewrite V, lookup_insert_eq. by eexists.
  - intros b t Ht. rewrite (holds_app _ _ _ b Hl). simpl. rewrite V in Ht.
    destruct (decide (a = b)) as [<-|Hne].
    + rewrite lookup_insert_eq in Ht. injection Ht as <-. rewrite Hown'. naive_solver.
    + rewrite lookup_insert_ne in Ht by done. rewrite (Ho b t Ht). naive_solver.
Qed.

Lemma on_retry_flag flags : acquire_on_retry flags = 0 \/ acquire_on_retry flags = 2.
Proof. unfold acquire_on_retry. case_bool_decide; [by right|by left]. Qed.

Lemma acquired_flag a flags :
  acquired (SentinelEntry a (Z.lor TXC_SENTINEL_ACQUIRED (acquire_on_retry flags))) = true /\
  acquired (SentinelEntry a (acquire_on_retry flags)) = false.
Proof. destruct (on_retry_flag flags) as [-> | ->]; done. Qed.

Lemma step_try_inv w th txd a flags c w' :
  pinv (w, th) -> th !! txd = Some Running -> txc_sentinel_tryacquire txd a flags w = Ret c w' ->
  pinv (w', <[txd := if bool_decide (c = TXC_R_BUSYSENTINEL) then Aborting else Running]> th).
Proof.
  intros Hi Hp H. pose proof (fun a s => pinv_ok w th a s Hi) as Hok.
  destruct (pi_tx _ Hi _ _ Hp) as (H0 & sl & pre & Hti).
  pose proof (few_entries _ _ _ _ _ _ Hi Hti) as Hn. pose proof Hti as [Hv Hg _ _ _ Ho Hacq]. simpl in *.
  destruct (tryacquire_inv realloc_grants _ _ _ _ _ _ _ _ H Hv Hg Hn) as (s & Hs & R).
  set (p' := if bool_decide (c = TXC_R_BUSYSENTINEL) then Aborting else Running).
  assert (Hsame : forall w1, same_locks w w1 -> pinv (w1, <[txd := p']> th)).
  { intros w1 Hsl. eapply pinv_step; [exact Hi|exact Hp|by apply same_locks_change|].
    apply (tx_inv_same w w1 _ _ sl pre Hsl). destruct Hti. split; try done. unfold p'. by case_bool_decide. }
  destruct (acquired_flag a flags) as [Ha1 Ha2].
  destruct R as [w' _ Hsl|w' _ _ Hsl|w' Hne Hf Hsy V T (sl' & Hv' & Hg' & Hl)|w' Hne Hf Hsy V T (sl' & Hv' & Hg' & Hl)].
  1, 2: by apply Hsame.
  - assert (Hc : locks_change txd w w').
    { eapply locks_change_insert; [done|done|done|done|]. split_and!; [done|done|].
      right. split; [left|by right]. destruct (Hok _ _ Hs) as [_ [_ Hb]].
      destruct (decide (s_owner s = 0)); [done|]. by rewrite Hb in Hf. }
    eapply pinv_step; [exact Hi|exact Hp|exact Hc|].
    eapply tx_inv_add; [exact Hti|exact Hc|exact Hs|exact V|exact Hv'|done|exact Hl|done|done|by rewrite Ha1|].
    simpl. rewrite Hl. apply Forall_app. by split; [|repeat constructor].
  - assert (Hc : locks_change txd w w').
    { eapply locks_change_insert; [done|done|done|done|]. destruct (Hok _ _ Hs).
      split_and!; [done|done|by left]. }
    eapply pinv_step; [exact Hi|exact Hp|exact Hc|].
    eapply tx_inv_add; [exact Hti|exact Hc|exact Hs|exact V|exact Hv'|done|exact Hl|done|done|by rewrite Ha2|done].
Qed.

Lemma existsb_holds sl a : existsb acquired (entries_for a (sl_list sl)) = true <-> holds sl a.
Proof.
  rewrite existsb_exists. unfold holds, entries_for. split.
  - intros (e & He & Ha). apply list_elem_of_In, list_elem_of_filter in He as [<- He]. by exists e.
  - intros (e & He & <- & Ha). exists e. split; [|done]. by apply list_elem_of_In, list_elem_of_filter.
Qed.

(** Releasing a transaction's list frees what it held and nothing else. *)
Lemma release_change c w w' th txd p sl pre :
  pinv (w, th) -> txd <> 0 -> tx_inv w txd p sl pre ->
  (forall a, sview w' !! a = released_all c (entries_for a (sl_list sl)) <$> sview w !! a) ->
  (forall u, u <> txd -> tview w' u = tview w u) ->
  locks_change txd w w' /\ forall a s', sview w' !! a = Some s' -> s_owner s' <> txd.
Proof.
  intros Hi H0 Hti V T.
  assert (Hone : forall a s, sview w !! a = Some s ->
    lock_change txd s (released_all c (entries_for a (sl_list sl)) s) /\
    s_owner (released_all c (entries_for a (sl_list sl)) s) <> txd).
  { intros a s Hs. destruct (pinv_ok _ _ _ _ Hi Hs) as [Hsy Hm]. pose proof (ti_owner _ _ _ _ _ Hti a s Hs) as Ho.
    rewrite released_all_eq. unfold lock_change, lock_ok, TXC_SENTINEL_NOOWNER in *; simpl.
    destruct (existsb acquired _) eqn:E.
    - apply existsb_holds, Ho in E. split_and!; [done| |done|right; naive_solver|done].
      by destruct (entries_for a _).
    - assert (s_owner s <> txd) by (intros X%Ho%existsb_holds; congruence).
      split_and!; [done| |exact Hm|by left|done]. by destruct (entries_for a _). }
  split; [split; [|done]|].
  - intros a. rewrite V. destruct (sview w !! a) as [s|] eqn:E; [|done]. simpl. by apply Hone.
  - intros a s' Hs'. rewrite V in Hs'. apply fmap_Some in Hs' as (s & Hs & ->). by apply Hone.
Qed.

(** A transaction that has released all it held. *)
Lemma tx_inv_released w w' txd p p' sl pre pre' :
  tx_inv w txd p sl pre -> (forall a s', sview w' !! a = Some s' -> s_owner s' <> txd) ->
  tview w' txd = Some (sl_init sl, pre') -> sl_good pre' -> phase_inv w' (sl_init sl) p' ->
  tx_inv w' txd p' (sl_init sl) pre'.
Proof.
  intros Hti Hno Hv' Hgp Hp'. destruct (sl_good_init sl (ti_good _ _ _ _ _ Hti)) as [Hg' Hnil].
  split; try done; try (rewrite Hnil; constructor).
  - intros a s' Hs'. unfold holds. rewrite Hnil. pose proof (Hno _ _ Hs'). set_solver.
Qed.

Lemma step_complete_inv w th txd p w' :
  pinv (w, th) -> th !! txd = Some p -> sentinelmgr_transaction_on_complete txd w = Ret tt w' ->
  pinv (w', <[txd := Running]> th).
Proof.
  intros Hi Hp H. destruct (pi_tx _ Hi _ _ Hp) as (H0 & sl & pre & Hti). simpl in *.
  destruct (on_complete_inv realloc_grants _ _ _ _ _ _ H (ti_view _ _ _ _ _ Hti)) as (V & T & _ & Hv').
  destruct (release_change true _ _ _ _ _ _ _ Hi H0 Hti V T) as [Hc Hno].
  eapply pinv_step; [exact Hi|exact Hp|exact Hc|].
  eapply tx_inv_released; [exact Hti|exact Hno|exact Hv'|by destruct Hti|].
  simpl. destruct (sl_good_init sl (ti_good _ _ _ _ _ Hti)) as [_ ->]. constructor.
Qed.

(** *** The list to wait for *)

Lemma strictly_sorted w es :
  (forall a b s s', sview w !! a = Some s -> sview w !! b = Some s' -> s_id s = s_id s' -> a = b) ->
  Forall (fun e => is_Some (sview w !! se_sentinel e)) es -> NoDup (on_list es) ->
  StronglySorted (key_le (entry_id w)) es ->
  StronglySorted (fun e e' => entry_id w e < entry_id w e') es.
Proof.
  intros Hids Hd Hnd Hs. induction Hs as [|e es Hs IH He]; [constructor|].
  inversion Hd as [|? ? [s Hse] Hd']; subst. inversion Hnd as [|? ? Hni Hnd']; subst. constructor; [by apply IH|].
  rewrite Forall_forall in He, Hd' |- *. intros e' He'. specialize (He _ He'). unfold key_le in He.
  destruct (Hd' _ He') as [s' Hs']. assert (entry_id w e <> entry_id w e'); [|lia]. intros E.
  unfold entry_id in E. fold (sview w) in E. rewrite Hse, Hs' in E. simpl in E.
  apply Hni. rewrite (Hids _ _ _ _ Hse Hs' E). by apply list_elem_of_fmap_2.
Qed.

Lemma to_wait_sublist l : on_list (to_wait l) `sublist_of` on_list l.
Proof.
  unfold to_wait. induction l as [|e l IH]; [done|]. rewrite filter_cons. case_decide; simpl.
  - by apply sublist_skip.
  - by apply sublist_cons.
Qed.

Lemma step_retry_inv w th txd p w' sl0 pre0 :
  pinv (w, th) -> th !! txd = Some p -> before_wait txd w = Ret tt w' ->
  tview w' txd = Some (sl0, pre0) -> pinv (w', <[txd := Waiting (sl_list pre0)]> th).
Proof.
  intros Hi Hp H Hv0. destruct (pi_tx _ Hi _ _ Hp) as (H0 & sl & pre & Hti). simpl in *.
  pose proof (few_entries _ _ _ _ _ _ Hi Hti) as Hn.
  destruct (before_wait_inv realloc_grants _ _ _ _ _ _ H (ti_view _ _ _ _ _ Hti) (ti_good _ _ _ _ _ Hti)
    (ti_good_pre _ _ _ _ _ Hti) Hn) as (V & T & _ & pre' & Hv' & Hg' & Hperm & Hsort).
  rewrite Hv' in Hv0. injection Hv0 as <- <-.
  destruct (release_change false _ _ _ _ _ _ _ Hi H0 Hti V T) as [Hc Hno].
  eapply pinv_step; [exact Hi|exact Hp|exact Hc|].
  eapply tx_inv_released; [exact Hti|exact Hno|exact Hv'|done|].
  destruct (sl_good_init sl (ti_good _ _ _ _ _ Hti)) as [_ Hnil]. simpl. rewrite Hnil.
  assert (Hids : forall e, entry_id w' e = entry_id w e) by (intros e; by eapply locks_change_id).
  assert (Hnd : NoDup (on_list (sl_list pre'))).
  { rewrite Hperm. eapply sublist_NoDup; [apply (ti_nodup _ _ _ _ _ Hti)|apply to_wait_sublist]. }
  assert (Hd : Forall (fun e => is_Some (sview w !! se_sentinel e)) (sl_list pre')).
  { rewrite Hperm. unfold to_wait. apply Forall_fmap, Forall_forall.
    intros e [_ He]%list_elem_of_filter. pose proof (ti_dom _ _ _ _ _ Hti) as Hd. rewrite Forall_forall in Hd.
    exact (Hd e He). }
  split_and!; [constructor|intros e e' He; set_solver| |].
  - eapply sorted_ids; [exact Hids|]. eapply strictly_sorted; [apply (pi_ids _ Hi)|done..].
  - eapply Forall_impl; [exact Hd|]. intros e. by eapply locks_change_is_some.
Qed.

Lemma step_wait_inv w th txd e es w' :
  pinv (w, th) -> th !! txd = Some (Waiting (e :: es)) -> sentinel_acquire_entry txd e w = Ret tt w' ->
  pinv (w', <[txd := Waiting es]> th).
Proof.
  intros Hi Hp H. pose proof (fun a s => pinv_ok w th a s Hi) as Hok.
  destruct (pi_tx _ Hi _ _ Hp) as (H0 & sl & pre & Hti). simpl in *.
  pose proof (few_entries _ _ _ _ _ _ Hi Hti) as Hn.
  destruct (acquire_entry_inv realloc_grants _ _ _ _ _ _ _ H (ti_view _ _ _ _ _ Hti) (ti_good _ _ _ _ _ Hti) Hn)
    as (s & Hs & Hf & V & T & sl' & Hv' & Hg' & Hl).
  destruct (Hok _ _ Hs) as [Hsy Hm].
  assert (Hfree : s_owner s = 0).
  { destruct (decide (s_owner s = 0)) as [|Hne]; [done|]. apply Hm in Hne. congruence. }
  assert (Hc : locks_change txd w w').
  { eapply locks_change_insert; [done|done|done|done|]. split; [done|]. split; [by split|].
    right. split; [by left|by right]. }
  eapply pinv_step; [exact Hi|exact Hp|exact Hc|].
  pose proof (ti_phase _ _ _ _ _ Hti) as (Hacq & Hbelow & Hsort & Hsome).
  assert (Hids : forall e, entry_id w' e = entry_id w e) by (intros e'; by eapply locks_change_id).
  apply StronglySorted_inv in Hsort as [Hsort Hfirst].
  eapply tx_inv_add; [exact Hti|exact Hc|exact Hs|exact V|exact Hv'|done|exact Hl|done|lia|done|].
  split_and!.
  - rewrite Hl. apply Forall_app. by split; [|repeat constructor].
  - apply below_ids with w; [done|]. intros e1 e2 He1 He2. rewrite Hl in He1.
    apply elem_of_app in He1 as [He1|He1%list_elem_of_singleton].
    + apply Hbelow; [done|by apply list_elem_of_further].
    + subst e1. rewrite Forall_forall in Hfirst. by apply (Hfirst e2).
  - by eapply sorted_ids.
  - inversion Hsome; subst. eapply Forall_impl; [eassumption|]. intros e'. by eapply locks_change_is_some.
Qed.

Lemma step_go_inv w th txd :
  pinv (w, th) -> th !! txd = Some (Waiting []) -> pinv (w, <[txd := Running]> th).
Proof.
  intros Hi Hp. pose proof (fun a s => pinv_ok w th a s Hi) as Hok.
  destruct (pi_tx _ Hi _ _ Hp) as (H0 & sl & pre & Hti). simpl in *.
  eapply pinv_step; [exact Hi|exact Hp|by apply same_locks_change|].
  pose proof (ti_phase _ _ _ _ _ Hti) as (Hacq & _). by destruct Hti.
Qed.

Lemma pstep_inv c c' : pstep c c' -> pinv c -> pinv c'.
Proof.
  intros [w th txd a flags r w' Hp H|w th txd p w' Hp _ H|w th txd p w' sl pre Hp _ H Hv|w th txd e es w' Hp H
    |w th txd Hp|w th w' H] Hi.
  - by eapply step_try_inv.
  - by eapply step_complete_inv.
  - by eapply step_retry_inv.
  - by eapply step_wait_inv.
  - by eapply step_go_inv.
  - by eapply pinv_same.
Qed.

Lemma psteps_inv c c' : rtc pstep c c' -> pinv c -> pinv c'.
Proof. induction 1 as [|c1 c2 c3 H _ IH]; [done|]. intros Hi. by eapply IH, pstep_inv. Qed.

(** ** Reachable states *)

(** No sentinel is held, and every transaction is running with an empty list. *)
Record pstart (w : world) (th : gmap Z phase) : Prop := {
  ps_few : Z.of_nat (size (sview w)) < 2 ^ 29;
  ps_free : forall a s, sview w !! a = Some s ->
    sentinel_mutex s = false /\ synch_mutex s = false /\ s_owner s = TXC_SENTINEL_NOOWNER;
  ps_ids : forall a b s s', sview w !! a = Some s -> sview w !! b = Some s' -> s_id s = s_id s' -> a = b;
  ps_tx : forall txd p, th !! txd = Some p -> txd <> 0 /\ p = Running /\
    exists sl pre, tview w txd = Some (sl, pre) /\ sl_good sl /\ sl_good pre /\ sl_num_entries sl = 0;
}.

Lemma pstart_inv w th : pstart w th -> pinv (w, th).
Proof.
  intros [Hf Hfree Hi Ht]. split; simpl; [done| |done|].
  - intros a s Hs. destruct (Hfree _ _ Hs) as (Hm & Hsy & Ho). split; [|by left].
    split; [done|]. rewrite Hm, Ho. done.
  - intros txd p Hp. destruct (Ht _ _ Hp) as (H0 & -> & sl & pre & Hv & Hg & Hgp & Hn).
    assert (Hnil : sl_list sl = []).
    { apply length_zero_iff_nil. pose proof (sl_good_length _ Hg). lia. }
    split; [done|]. exists sl, pre. split; simpl; rewrite ?Hnil; try done; try constructor.
    + intros E. destruct (Hfree _ _ H) as (_ & _ & Ho). rewrite Ho in E. by subst.
    + unfold holds. rewrite Hnil. set_solver.
Qed.

(** [txd] has [a] on its list as acquired. *)
Definition tx_holds (w : world) (txd a : Z) : Prop :=
  exists sl pre, tview w txd = Some (sl, pre) /\ holds sl a.

Lemma tx_holds_owner c txd p a s :
  pinv c -> c.2 !! txd = Some p -> sview c.1 !! a = Some s -> tx_holds c.1 txd a <-> s_owner s = txd.
Proof.
  intros Hi Hp Hs. destruct (pi_tx _ Hi _ _ Hp) as (_ & sl & pre & Hti).
  rewrite (ti_owner _ _ _ _ _ Hti a s Hs). unfold tx_holds. rewrite (ti_view _ _ _ _ _ Hti). split.
  - by intros (? & ? & [= <- <-] & ?).
  - intros H. by exists sl, pre.
Qed.

(** *** Waiting *)

(** [t] waits for a sentinel that [u] holds. *)
Definition waits_for (c : config) (t u : Z) : Prop :=
  exists e es s, c.2 !! t = Some (Waiting (e :: es)) /\ sview c.1 !! se_sentinel e = Some s /\
    sentinel_mutex s = true /\ s_owner s = u.

(** The id of the sentinel [t] waits for. *)
Definition next_id (c : config) (t : Z) : Z :=
  match c.2 !! t with Some (Waiting (e :: _)) => entry_id c.1 e | _ => 0 end.

Lemma waits_for_ids c t u v : pinv c -> waits_for c t u -> waits_for c u v -> next_id c t < next_id c u.
Proof.
  intros Hi (e & es & s & Ht & Hs & _ & Ho) (e' & es' & s' & Hu & _).
  unfold next_id. rewrite Ht, Hu. destruct (pi_tx _ Hi _ _ Hu) as (_ & sl & pre & Hti).
  destruct (ti_phase _ _ _ _ _ Hti) as (_ & Hb & _).
  apply (ti_owner _ _ _ _ _ Hti _ _ Hs) in Ho as (e1 & He1 & E & _).
  replace (entry_id c.1 e) with (entry_id c.1 e1) by (unfold entry_id; by rewrite E).
  apply Hb; [done|apply list_elem_of_here].
Qed.

Lemma waits_for_tc c t u :
  pinv c -> tc (waits_for c) t u -> (exists v, waits_for c u v) -> next_id c t < next_id c u.
Proof.
  intros Hi H. induction H as [t u H|t u v H H' IH]; intros [x Hx].
  - by eapply waits_for_ids.
  - assert (exists y, waits_for c u y) as [y Hy] by (inversion H'; eauto).
    pose proof (waits_for_ids _ _ _ _ Hi H Hy). specialize (IH (ex_intro _ _ Hx)). lia.
Qed.

(** *** Waiting for memory

    A transaction in its body can also wait for memory that another one has isolated:
    [tm_blocker t] is the one that [t] waits for, as the transactional memory has it. The
    code that waits for sentinels runs in an undo action, outside its reach. *)
Definition is_waiting (c : config) (t : Z) : Prop := exists es, c.2 !! t = Some (Waiting es).

Definition blocked_by (tm_blocker : Z -> option Z) (c : config) (t u : Z) : Prop :=
  waits_for c t u \/ (~ is_waiting c t /\ tm_blocker t = Some u).

(** A transaction that is undone isolates nothing any more while its actions run. *)
Definition isolation_released (tm_blocker : Z -> option Z) (c : config) : Prop :=
  forall t u, tm_blocker t = Some u -> ~ is_waiting c u.

Lemma blocked_waiting tm_blocker c t u :
  isolation_released tm_blocker c -> is_waiting c u -> blocked_by tm_blocker c t u -> waits_for c t u /\ is_waiting c t.
Proof.
  intros Hr Hu [H|[_ H]]; [|by apply Hr in H]. split; [done|]. destruct H as (e & es & s & Ht & _). by eexists.
Qed.

Lemma blocked_waiting_tc tm_blocker c t u :
  isolation_released tm_blocker c -> tc (blocked_by tm_blocker c) t u -> is_waiting c u -> tc (waits_for c) t u /\ is_waiting c t.
Proof.
  intros Hr H. induction H as [t u H|t u v H _ IH]; intros Hw.
  - destruct (blocked_waiting _ _ _ _ Hr Hw H). split; [by apply tc_once|done].
  - destruct (IH Hw) as [H1 Hu]. destruct (blocked_waiting _ _ _ _ Hr Hu H) as [H2 Ht]. split; [by eapply tc_l|done].
Qed.

(** Nothing keeps a transaction from going on. *)
Definition can_go_on (tm_blocker : Z -> option Z) (c : config) (u : Z) : Prop :=
  match c.2 !! u with
  | Some (Waiting []) => True
  | Some (Waiting (e :: _)) => exists w', sentinel_acquire_entry u e c.1 = Ret tt w'
  | _ => tm_blocker u = None
  end.

(** Where the waiting for memory leads. *)
Lemma memory_wait_ends tm_blocker c u :
  isolation_released tm_blocker c -> well_founded (fun u t => tm_blocker t = Some u) -> ~ is_waiting c u ->
  exists v, rtc (blocked_by tm_blocker c) u v /\ ~ is_waiting c v /\ tm_blocker v = None.
Proof.
  intros Hr Hwf. induction (Hwf u) as [u _ IH]. intros Hu. destruct (tm_blocker u) as [v|] eqn:E; [|by exists u].
  destruct (IH v eq_refl (Hr _ _ E)) as (x & Hx & ?). exists x. split; [|done]. eapply rtc_l; [|exact Hx]. by right.
Qed.

Lemma not_waiting_goes tm_blocker c v : ~ is_waiting c v -> tm_blocker v = None -> can_go_on tm_blocker c v.
Proof. intros Hv E. unfold can_go_on. destruct (c.2 !! v) as [[| |es]|] eqn:Ec; try done. exfalso. apply Hv. by exists es. Qed.

(** A free sentinel is to be had. *)
Lemma free_entry_run c u e es s :
  pinv c -> c.2 !! u = Some (Waiting (e :: es)) -> sview c.1 !! se_sentinel e = Some s -> sentinel_mutex s = false ->
  exists w', sentinel_acquire_entry u e c.1 = Ret tt w'.
Proof.
  intros Hi Hu Hs Hf. destruct c as [w th]. simpl in *. destruct (pi_tx _ Hi _ _ Hu) as (_ & sl & pre & Hti).
  pose proof (few_entries _ _ _ _ _ _ Hi Hti) as Hn.
  destruct (acquire_entry_run realloc_grants u e w s sl pre (ti_view _ _ _ _ _ Hti) (ti_good _ _ _ _ _ Hti) Hn Hs Hf) as (w' & E & _).
  by exists w'.
Qed.

(** A waiting transaction can take its next sentinel, or another one, that can go on or
    waits for a sentinel with a greater id, has it. *)
Lemma next_entry c u e es :
  pinv c -> c.2 !! u = Some (Waiting (e :: es)) ->
  (exists w', sentinel_acquire_entry u e c.1 = Ret tt w') \/
  exists o, waits_for c u o /\ forall e' es', c.2 !! o = Some (Waiting (e' :: es')) -> entry_id c.1 e < entry_id c.1 e'.
Proof.
  intros Hi Hu. destruct (pi_tx _ Hi _ _ Hu) as (_ & sl & pre & Hti).
  destruct (ti_phase _ _ _ _ _ Hti) as (_ & _ & _ & [[s Hs] _]%Forall_cons). destruct (sentinel_mutex s) eqn:Hf.
  - right. assert (waits_for c u (s_owner s)) as Hw by (by exists e, es, s). exists (s_owner s). split; [done|].
    intros e' es' Ho.
    destruct (pi_tx _ Hi _ _ Ho) as (_ & sl' & pre' & Hti'). destruct (ti_phase _ _ _ _ _ Hti') as (_ & Hb & _).
    destruct (proj1 (ti_owner _ _ _ _ _ Hti' _ _ Hs) eq_refl) as (e1 & He1 & E & _).
    replace (entry_id c.1 e) with (entry_id c.1 e1) by (unfold entry_id; by rewrite E).
    apply Hb; [done|apply list_elem_of_here].
  - left. by eapply free_entry_run.
Qed.

Lemma waiting_ends tm_blocker c B : pinv c -> (forall e, entry_id c.1 e <= B) ->
  isolation_released tm_blocker c -> well_founded (fun u t => tm_blocker t = Some u) ->
  forall n u e es, c.2 !! u = Some (Waiting (e :: es)) -> B - entry_id c.1 e <= Z.of_nat n ->
  exists v, rtc (blocked_by tm_blocker c) u v /\ can_go_on tm_blocker c v.
Proof.
  intros Hi HB Hr Hwf n. induction n as [|n IH]; intros u e es Hu Hn;
    (destruct (next_entry c u e es Hi Hu) as [Hgo|(o & Ho & Hlt)]; [exists u; split; [done|]; unfold can_go_on; by rewrite Hu|]);
    assert (blocked_by tm_blocker c u o) as Hb by (by left);
    (destruct (c.2 !! o) as [[| |[|e' es']]|] eqn:Eo;
      [destruct (memory_wait_ends tm_blocker c o Hr Hwf) as (v & Hv & ? & ?); [intros [? E]; congruence|]; exists v;
        split; [by eapply rtc_l|by apply not_waiting_goes]
      |destruct (memory_wait_ends tm_blocker c o Hr Hwf) as (v & Hv & ? & ?); [intros [? E]; congruence|]; exists v;
        split; [by eapply rtc_l|by apply not_waiting_goes]
      |exists o; split; [by apply rtc_once|unfold can_go_on; by rewrite Eo]
      |pose proof (Hlt _ _ eq_refl)
      |destruct (memory_wait_ends tm_blocker c o Hr Hwf) as (v & Hv & ? & ?); [intros [? E]; congruence|]; exists v;
        split; [by eapply rtc_l|by apply not_waiting_goes]]).
  - specialize (HB e'). lia.
  - destruct (IH o e' es' Eo) as (v & Hv & ?); [lia|]. exists v. split; [by eapply rtc_l|done].
Qed.

Lemma ids_bounded w : exists B, forall e, entry_id w e <= B.
Proof.
  exists (map_fold (fun _ s m => Z.max (s_id s) m) 0 (sview w)). intros e.
  unfold entry_id. fold (sview w). generalize (sview w). intros m. revert e.
  induction m as [|a s m Hn Hf IH] using map_first_key_ind; intros e.
  - by rewrite lookup_empty.
  - rewrite map_fold_insert_first_key by done. destruct (decide (se_sentinel e = a)) as [->|Hne].
    + rewrite lookup_insert_eq. simpl. lia.
    + rewrite lookup_insert_ne by done. specialize (IH e). lia.
Qed.
End protocol.

Section protocol_properties.
Context {PF : Platform}.
Hypothesis realloc_grants : forall n, realloc_ok n = true.

(** C13: isolation. In every reachable state, whatever the interleaving, the lock
    of a sentinel is taken exactly when some transaction has the sentinel on its
    list as acquired; that transaction is the recorded owner and is the only one,
    and [synch_mutex] is free between operations. *)
Theorem sentinel_mutual_exclusion w0 th0 c a s :
  pstart w0 th0 -> rtc pstep (w0, th0) c -> sview c.1 !! a = Some s ->
  (sentinel_mutex s = true <-> exists txd, is_Some (c.2 !! txd) /\ tx_holds c.1 txd a) /\
  (forall t u, is_Some (c.2 !! t) -> is_Some (c.2 !! u) ->
     tx_holds c.1 t a -> tx_holds c.1 u a -> t = u /\ s_owner s = t) /\
  synch_mutex s = false.
Proof.
  intros Hst Hr Hs. apply (pstart_inv realloc_grants) in Hst. apply (psteps_inv realloc_grants _ _ Hr) in Hst as Hi.
  destruct (pi_locks _ Hi _ _ Hs) as [[Hsy Hm] Ho]. split_and!; [| |done].
  - rewrite Hm. split.
    + intros Hne. destruct Ho as [Ho|[p Hp]]; [done|]. exists (s_owner s). split; [by eexists|].
      by apply (tx_holds_owner _ _ _ _ _ Hi Hp Hs).
    + intros (txd & [p Hp] & H). apply (tx_holds_owner _ _ _ _ _ Hi Hp Hs) in H. rewrite H.
      by destruct (pi_tx _ Hi _ _ Hp).
  - intros t u [p Hp] [q Hq] H1%(tx_holds_owner _ _ _ _ _ Hi Hp Hs) H2%(tx_holds_owner _ _ _ _ _ Hi Hq Hs).
    split; congruence.
Qed.

(** C14: The transactions that wait for sentinels before a retry never wait for each
    other in a circle, nor for themselves; and where the transactional memory has given
    up the isolation of a transaction before its undo actions run, as Intel STM 2.0 does,
    they are on no circle through transactions that wait for memory either. Where it
    keeps the isolation they can be: [isolation_held_deadlocks], and the comment in
    [sentinelmgr_transaction_before_retry] on Intel's Prototype 3.0. *)
Theorem no_circular_wait w0 th0 c tm_blocker t :
  pstart w0 th0 -> rtc pstep (w0, th0) c ->
  ~ tc (waits_for c) t t /\
  (isolation_released tm_blocker c -> is_waiting c t -> ~ tc (blocked_by tm_blocker c) t t).
Proof.
  intros Hst Hr. apply (pstart_inv realloc_grants) in Hst. apply (psteps_inv realloc_grants _ _ Hr) in Hst as Hi.
  assert (~ tc (waits_for c) t t) as Hno.
  { intros H. assert (exists v, waits_for c t v) by (inversion H; eauto). pose proof (waits_for_tc _ _ _ Hi H H0). lia. }
  split; [done|]. intros Hrel Hw H. apply Hno. by apply (blocked_waiting_tc tm_blocker).
Qed.

(** C15: Progress. Where the memory has given up the isolation of a transaction before
    its undo actions run, and the waits for memory themselves come to an end, every chain
    of waits, for sentinels and for memory, that starts at a transaction that waits for
    sentinels ends at a transaction that can go on: it is waiting and gets its
    next sentinel (acquiring it returns) or needs none any more, or it is not waiting
    and nothing keeps it. So when every transaction that holds a sentinel is waiting,
    one of those that wait gets its next. *)
Theorem waiting_makes_progress w0 th0 c tm_blocker t es :
  pstart w0 th0 -> rtc pstep (w0, th0) c -> c.2 !! t = Some (Waiting es) ->
  isolation_released tm_blocker c -> well_founded (fun u t => tm_blocker t = Some u) ->
  exists u, rtc (blocked_by tm_blocker c) t u /\ can_go_on tm_blocker c u /\
    ((forall a s, sview c.1 !! a = Some s -> s_owner s <> 0 -> is_waiting c (s_owner s)) -> is_waiting c u).
Proof.
  intros Hst Hr Ht Hrel Hwf. apply (pstart_inv realloc_grants) in Hst. apply (psteps_inv realloc_grants _ _ Hr) in Hst as Hi.
  destruct (ids_bounded c.1) as [B HB].
  assert (exists u, rtc (blocked_by tm_blocker c) t u /\ can_go_on tm_blocker c u) as (u & Hu & Hgo).
  { destruct es as [|e es]; [exists t; split; [done|]; unfold can_go_on; by rewrite Ht|].
    apply (waiting_ends realloc_grants tm_blocker c B Hi HB Hrel Hwf (Z.to_nat (B - entry_id c.1 e)) t e es Ht).
    specialize (HB e). lia. }
  exists u. split_and!; [done|done|]. intros Hall. assert (is_waiting c t) as Hw by by eexists.
  clear Ht Hgo. induction Hu as [|t o u Hto _ IH]; [done|]. apply IH. destruct Hto as [(e & es' & s & _ & Hs & Hm & <-)|[Hnw _]]; [|done].
  apply (Hall _ _ Hs). destruct (pi_locks _ Hi _ _ Hs) as [[_ [Hb _]] _]. by apply Hb.
Qed.
End protocol_properties.

(** *** A concrete run

    Two transactions, at 1000 and 1016, acquire the sentinels at 2000 and 2016 in
    opposite orders. The first aborts on 2016 and waits for both; it has got 2000
    when the second aborts on 2000, releases 2016 and waits too. *)

Definition enter_retryable (txd : Z) (w : world) : world :=
  set_txmgr (set_txds (alter (tx_set_itm_td
    (ItmTransaction TXC_XACTSTATE_TRANSACTIONAL_RETRYABLE false false)) txd
    (txds (w_txmgr w))) (w_txmgr w)) w.

Definition lists_at (txd : Z) (w : world) : txc_sentinel_list_t * txc_sentinel_list_t :=
  default (SentinelList None 0 0, SentinelList None 0 0) (tview w txd).

Lemma lists_at_some txd w :
  match tview w txd with Some _ => True | None => False end ->
  tview w txd = Some ((lists_at txd w).1, (lists_at txd w).2).
Proof. unfold lists_at. by destruct (tview w txd) as [[]|]. Qed.

Definition two0 : world :=
  enter_retryable 1000 (enter_retryable 1016 (mem_world (mf_one_file [] 0) 4)).
Definition two1 : world := after (txc_sentinel_tryacquire 1000 2000 2) two0.
Definition two2 : world := after (txc_sentinel_tryacquire 1016 2016 2) two1.
Definition two3 : world := after (txc_sentinel_tryacquire 1000 2016 2) two2.
Definition two4 : world := after (before_wait 1000) two3.
Definition two5 : world := after (sentinel_acquire_entry 1000 (SentinelEntry 2000 0)) two4.
Definition two6 : world := after (txc_sentinel_tryacquire 1016 2000 2) two5.
Definition two7 : world := after (before_wait 1016) two6.

Definition two_phases : gmap Z phase := {[1000 := Running; 1016 := Running]}.

Definition two_phases7 : gmap Z phase :=
  {[1000 := Waiting [SentinelEntry 2016 0];
    1016 := Waiting [SentinelEntry 2000 0; SentinelEntry 2016 0]]}.

Lemma two_start : pstart two0 two_phases.
Proof.
  split.
  - vm_compute. reflexivity.
  - assert (map_Forall (fun _ s => sentinel_mutex s = false /\ synch_mutex s = false /\
      s_owner s = TXC_SENTINEL_NOOWNER) (sview two0)) as H.
    { apply (bool_decide_unpack _). vm_compute. exact I. }
    exact H.
  - assert (map_Forall (fun a s => map_Forall (fun b s' => s_id s = s_id s' -> a = b) (sview two0)) (sview two0)) as H.
    { apply (bool_decide_unpack _). vm_compute. exact I. }
    intros a b s s' Ha Hb. by apply (H _ _ Ha _ _ Hb).
  - unfold two_phases. intros txd p [[<- <-]|[_ [<- <-]%lookup_singleton_Some]]%lookup_insert_Some;
      (split; [done|]; split; [done|]; eexists _, _; split; [vm_compute; reflexivity|];
       split_and!; [by eexists|by eexists|done]).
Qed.

Lemma two_run : rtc pstep (two0, two_phases) (two7, two_phases7).
Proof.
  eapply rtc_l; [apply (step_try two0 two_phases 1000 2000 2 TXC_R_SUCCESS two1); [run_eq|runs_to two1]|].
  eapply rtc_l; [apply (step_try two1 _ 1016 2016 2 TXC_R_SUCCESS two2); [run_eq|runs_to two2]|].
  eapply rtc_l; [apply (step_try two2 _ 1000 2016 2 TXC_R_BUSYSENTINEL two3); [run_eq|runs_to two3]|].
  eapply rtc_l; [apply (step_retry two3 _ 1000 Aborting two4 (lists_at 1000 two4).1 (lists_at 1000 two4).2);
    [run_eq|exact I|runs_to two4|apply lists_at_some; vm_compute; exact I]|].
  eapply rtc_l; [apply (step_wait two4 _ 1000 (SentinelEntry 2000 0) [SentinelEntry 2016 0] two5);
    [run_eq|runs_to two5]|].
  eapply rtc_l; [apply (step_try two5 _ 1016 2000 2 TXC_R_BUSYSENTINEL two6); [run_eq|runs_to two6]|].
  eapply rtc_l; [apply (step_retry two6 _ 1016 Aborting two7 (lists_at 1016 two7).1 (lists_at 1016 two7).2);
    [run_eq|exact I|runs_to two7|apply lists_at_some; vm_compute; exact I]|].
  match goal with |- rtc _ (_, ?th) _ => replace two_phases7 with th by run_eq end.
  apply rtc_refl.
Qed.

Definition two_sentinel : txc_sentinel_t := Sentinel true false 0 2 1000.

Lemma two_owners a s : sview two7 !! a = Some s -> s_owner s = 0 \/ s_owner s = 1000.
Proof.
  assert (map_Forall (fun _ s => s_owner s = 0 \/ s_owner s = 1000) (sview two7)) as H.
  { apply (bool_decide_unpack _). vm_compute. exact I. }
  intros Hs. exact (map_Forall_lookup_1 _ _ _ _ H Hs).
Qed.

Lemma sentinel_mutual_exclusion_witness :
  sview two7 !! 2000 = Some two_sentinel /\
  ((sentinel_mutex two_sentinel = true <->
      exists txd, is_Some (two_phases7 !! txd) /\ tx_holds two7 txd 2000) /\
   (forall t u, is_Some (two_phases7 !! t) -> is_Some (two_phases7 !! u) ->
      tx_holds two7 t 2000 -> tx_holds two7 u 2000 -> t = u /\ s_owner two_sentinel = t) /\
   synch_mutex two_sentinel = false).
Proof.
  split; [run_eq|].
  apply (sentinel_mutual_exclusion mem_grants two0 two_phases (two7, two_phases7) 2000 two_sentinel
    two_start two_run). vm_compute. reflexivity.
Defined.

(** The state in which the first waits for the second. *)
Definition two_phases5 : gmap Z phase := {[1000 := Waiting [SentinelEntry 2016 0]; 1016 := Running]}.

Lemma two_run5 : rtc pstep (two0, two_phases) (two5, two_phases5).
Proof.
  eapply rtc_l; [apply (step_try two0 two_phases 1000 2000 2 TXC_R_SUCCESS two1); [run_eq|runs_to two1]|].
  eapply rtc_l; [apply (step_try two1 _ 1016 2016 2 TXC_R_SUCCESS two2); [run_eq|runs_to two2]|].
  eapply rtc_l; [apply (step_try two2 _ 1000 2016 2 TXC_R_BUSYSENTINEL two3); [run_eq|runs_to two3]|].
  eapply rtc_l; [apply (step_retry two3 _ 1000 Aborting two4 (lists_at 1000 two4).1 (lists_at 1000 two4).2);
    [run_eq|exact I|runs_to two4|apply lists_at_some; vm_compute; exact I]|].
  eapply rtc_l; [apply (step_wait two4 _ 1000 (SentinelEntry 2000 0) [SentinelEntry 2016 0] two5);
    [run_eq|runs_to two5]|].
  match goal with |- rtc _ (_, ?th) _ => replace two_phases5 with th by run_eq end.
  apply rtc_refl.
Qed.

(** The second waits for memory of a third, which waits for nobody. *)
Definition third_blocks (t : Z) : option Z := if bool_decide (t = 1016) then Some 1032 else None.

Lemma third_waits t u : third_blocks t = Some u -> t = 1016 /\ u = 1032.
Proof. unfold third_blocks. case_bool_decide; [by intros [= <-]|done]. Qed.

Lemma third_released : isolation_released third_blocks (two5, two_phases5).
Proof.
  intros t u [_ ->]%third_waits [es E]. simpl in E. assert (two_phases5 !! 1032 = None) as E' by run_eq. congruence.
Qed.

Lemma third_ends : well_founded (fun u t => third_blocks t = Some u).
Proof.
  intros t. constructor. intros u [_ ->]%third_waits. constructor. intros v [? _]%third_waits. done.
Qed.

Lemma no_circular_wait_witness :
  blocked_by third_blocks (two5, two_phases5) 1000 1016 /\ blocked_by third_blocks (two5, two_phases5) 1016 1032 /\
  ~ tc (blocked_by third_blocks (two5, two_phases5)) 1000 1000.
Proof.
  split_and!.
  - left. exists (SentinelEntry 2016 0), [], (Sentinel true false 1 2 1016). split_and!; run_eq.
  - right. split; [|done]. intros [es E]. simpl in E. assert (two_phases5 !! 1016 = Some Running) as E' by run_eq. congruence.
  - apply (no_circular_wait mem_grants two0 two_phases (two5, two_phases5) third_blocks 1000 two_start two_run5 ).
    + exact third_released.
    + exists [SentinelEntry 2016 0]. run_eq.
Defined.

Lemma waiting_makes_progress_witness : exists u,
  rtc (blocked_by third_blocks (two5, two_phases5)) 1000 u /\ can_go_on third_blocks (two5, two_phases5) u.
Proof.
  destruct (waiting_makes_progress mem_grants two0 two_phases (two5, two_phases5) third_blocks 1000 [SentinelEntry 2016 0]
    two_start two_run5) as (u & Hu & Hgo & _); [run_eq|exact third_released|exact third_ends|by exists u].
Defined.

(** *** When isolation is held during undo actions

    The second waits for memory that the first, which is being undone and waits for the
    sentinel of the second, still isolates. *)
Theorem isolation_held_deadlocks :
  exists c tm_blocker, rtc pstep (two0, two_phases) c /\ is_waiting c 1000 /\ c.2 !! 1016 = Some Running /\
    ~ isolation_released tm_blocker c /\ tc (blocked_by tm_blocker c) 1000 1000.
Proof.
  exists (two5, two_phases5), (fun t => if bool_decide (t = 1016) then Some 1000 else None).
  assert (is_waiting (two5, two_phases5) 1000) as Hw by (exists [SentinelEntry 2016 0]; run_eq).
  assert (two_phases5 !! 1016 = Some Running) as H2 by run_eq.
  split_and!; [exact two_run5|exact Hw|exact H2|by intros H; apply (H 1016 1000)|].
  apply (tc_l _ 1000 1016); [|apply tc_once].
  - left. exists (SentinelEntry 2016 0), [], (Sentinel true false 1 2 1016). split_and!; run_eq.
  - right. split; [|done]. intros [es E]. simpl in E. congruence.
Qed.
