(* ===== verification/Koa.v ===== *)
(** * Kernel object abstractions ([core/koa.c])

    A KOA is the library's handle on a kernel object: it carries the sentinel
    that isolates the object, the file descriptors that refer to it
    ([fdref_fd], the first [fdref_refcnt] cells) and a reference count.
    [fd_map] maps a descriptor to its KOA, and the alias cache an inode, so
    that a file opened twice has one KOA and one sentinel. *)

From S2P Require Import Prelude Dll Pool HashTable Buffer Actions World Tx Sentinel.

Definition k_set_mutex b k := Koa b (koa_sentinel k) (fdref_fd k) (fdref_refcnt k)
  (koa_refcnt k) (koa_type k) (koa_word k).
Definition k_set_refcnt r k := Koa (koa_mutex k) (koa_sentinel k) (fdref_fd k) (fdref_refcnt k)
  r (koa_type k) (koa_word k).
Definition k_set_fdref l n k := Koa (koa_mutex k) (koa_sentinel k) l n
  (koa_refcnt k) (koa_type k) (koa_word k).
Definition k_set_word u k := Koa (koa_mutex k) (koa_sentinel k) (fdref_fd k) (fdref_refcnt k)
  (koa_refcnt k) (koa_type k) u.

(** [koa->fdref.fd[i] = fd]; outside the array it is undefined. *)
Definition fdref_set (l : list Z) (i fd : Z) : option (list Z) :=
  if bool_decide (0 <= i < Z.of_nat (length l)) then Some (<[Z.to_nat i := fd]> l) else None.

(** The first index of [fd] among the first [n] cells, the loop of [detach_fd]. *)
Definition fdref_index (l : list Z) (n fd : Z) : option Z :=
  Z.of_nat ∘ fst <$> list_find (fun x => x = fd) (take (Z.to_nat n) l).

Section koa.
Context {PF : Platform}.

(** ** Locks *)

Definition txc_koa_lock_alias_cache : M world unit :=
  do w <- m_get ;;
  if alias_mutex (w_koamgr w) then m_block
  else m_put (set_koamgr (set_alias_mutex true (w_koamgr w)) w).
Definition txc_koa_unlock_alias_cache : M world unit :=
  m_modify (fun w => set_koamgr (set_alias_mutex false (w_koamgr w)) w).

Definition txc_koa_lock_fd (fd : Z) : M world unit :=
  do e <- fd_get fd ;;
  if fd_mutex e then m_block else fd_upd fd (fun e => Fd2Koa true (fd_koa e)).
Definition txc_koa_unlock_fd (fd : Z) : M world unit :=
  fd_upd fd (fun e => Fd2Koa false (fd_koa e)).

Definition koa_lock (koa : Z) : M world unit :=
  do k <- koa_get koa ;; if koa_mutex k then m_block else koa_upd koa (k_set_mutex true).
Definition koa_unlock (koa : Z) : M world unit := koa_upd koa (k_set_mutex false).

(** The descriptors that refer to a KOA, in the order they are locked. *)
Definition koa_fds (k : txc_koa_t) : list Z := take (Z.to_nat (fdref_refcnt k)) (fdref_fd k).

Definition txc_koa_lock_fds_refby_koa (koa : Z) : M world unit :=
  do k <- koa_get koa ;; m_iter txc_koa_lock_fd (koa_fds k).
Definition txc_koa_unlock_fds_refby_koa (koa : Z) : M world unit :=
  do k <- koa_get koa ;; m_iter txc_koa_unlock_fd (koa_fds k).

(** ** The alias cache *)

Definition alias_cache_insert (koa : Z) : M world Z :=
  do k <- koa_get koa ;;
  in_alias_cache (txc_hash_table_add true (u32 (koa_word k)) koa).

Definition alias_cache_remove (koa : Z) : M world Z :=
  do k <- koa_get koa ;;
  do ' (ret, _) <- in_alias_cache (txc_hash_table_remove (u32 (koa_word k))) ;;
  m_ret ret.

(** The code and [*koap], written on success only. *)
Definition txc_koa_alias_cache_lookup_inode (inode_number : Z) : M world (Z * option Z) :=
  do ' (ret, v) <- in_alias_cache (txc_hash_table_lookup (u32 inode_number)) ;;
  if bool_decide (ret <> TXC_R_SUCCESS) then m_ret (TXC_R_NOTEXISTS, None)
  else m_ret (TXC_R_SUCCESS, v).

(** ** Creation and destruction *)

(** [txc_koa_create(koamgr, koap, type, args)]: [args] is the inode of a file. *)
Definition txc_koa_create (type args : Z) : M world Z :=
  do r <- in_pool_koa (txc_pool_object_alloc true) ;;
  match r with
  | (c, o) =>
      if bool_decide (c <> TXC_R_SUCCESS) then m_exit else
      do koa <- m_deref o ;;
      do sentinel <- txc_sentinel_create ;;
      koa_upd koa (fun k => Koa false sentinel (fdref_fd k) 0 0 type (koa_word k)) ;;;
      (if bool_decide (type = TXC_KOA_IS_FILE) then koa_upd koa (k_set_word args)
       else if bool_decide (type = TXC_KOA_IS_SOCK_DGRAM) || bool_decide (type = TXC_KOA_IS_PIPE_READ_END)
       then do b <- in_buffermgr txc_buffer_circular_create ;; koa_upd koa (k_set_word b)
       else m_ret tt) ;;;
      m_ret koa
  end.

Definition txc_koa_destroy (koa : Z) : M world unit :=
  do k <- koa_get koa ;;
  do _ <- txc_sentinel_detach (koa_sentinel k) ;;
  (if bool_decide (koa_type k = TXC_KOA_IS_SOCK_DGRAM) || bool_decide (koa_type k = TXC_KOA_IS_PIPE_READ_END)
   then in_buffermgr (txc_buffer_circular_destroy (koa_word k))
   else m_ret tt) ;;;
  in_pool_koa (txc_pool_object_free koa true).

(** ** References *)

(** [first_attach]: the KOA of a file enters the alias cache. *)
Definition koa_incref (koa : Z) : M world unit :=
  koa_upd koa (fun k => k_set_refcnt (koa_refcnt k + 1) k) ;;;
  do k <- koa_get koa ;;
  if bool_decide (koa_refcnt k = 1) && bool_decide (koa_type k = TXC_KOA_IS_FILE)
  then do _ <- alias_cache_insert koa ;; m_ret tt
  else m_ret tt.

(** [last_detach]: it leaves the cache and is destroyed. *)
Definition koa_decref (koa : Z) : M world unit :=
  koa_upd koa (fun k => k_set_refcnt (koa_refcnt k - 1) k) ;;;
  do k <- koa_get koa ;;
  if bool_decide (koa_refcnt k = 0) then
    (if bool_decide (koa_type k = TXC_KOA_IS_FILE)
     then do _ <- alias_cache_remove koa ;; m_ret tt else m_ret tt) ;;;
    txc_koa_destroy koa
  else m_ret tt.

Definition txc_koa_attach (koa : Z) : M world Z :=
  koa_lock koa ;;; koa_incref koa ;;; koa_unlock koa ;;; m_ret TXC_R_SUCCESS.

Definition txc_koa_detach (koa : Z) : M world Z :=
  koa_lock koa ;;; koa_decref koa ;;; koa_unlock koa ;;; m_ret TXC_R_SUCCESS.

Definition txc_koa_attach_fd (koa fd : Z) (lock : bool) : M world Z :=
  m_when lock (txc_koa_lock_fd fd) ;;;
  fd_upd fd (fun e => Fd2Koa (fd_mutex e) koa) ;;;
  koa_incref koa ;;;
  do k <- koa_get koa ;;
  if bool_decide (fdref_refcnt k >= TXC_MAX_NUM_FDREFS_PER_KOA) then m_exit else
  do l <- m_deref (fdref_set (fdref_fd k) (fdref_refcnt k) fd) ;;
  koa_upd koa (k_set_fdref l (fdref_refcnt k + 1)) ;;;
  m_when lock (txc_koa_unlock_fd fd) ;;;
  m_ret TXC_R_SUCCESS.

(** The cell the descriptor leaves is filled with [fd[refcnt]], the one after
    the last. *)
Definition txc_koa_detach_fd (koa fd : Z) (lock : bool) : M world Z :=
  do _ <- koa_get koa ;;
  m_when lock (txc_koa_lock_fd fd) ;;;
  do e <- fd_get fd ;;
  if bool_decide (fd_koa e = 0) then m_ret TXC_R_FAILURE else
  fd_upd fd (fun e => Fd2Koa (fd_mutex e) 0) ;;;
  do k <- koa_get koa ;;
  match fdref_index (fdref_fd k) (fdref_refcnt k) fd with
  | None => m_when lock (txc_koa_unlock_fd fd) ;;; m_ret TXC_R_FAILURE
  | Some index =>
      do last <- m_deref (arr_get (fdref_fd k) (fdref_refcnt k)) ;;
      do l <- m_deref (fdref_set (fdref_fd k) index last) ;;
      koa_upd koa (k_set_fdref l (fdref_refcnt k - 1)) ;;;
      koa_decref koa ;;;
      m_when lock (txc_koa_unlock_fd fd) ;;;
      m_ret TXC_R_SUCCESS
  end.

(** ** Look-ups *)

(** The code and [*koap]. *)
Definition txc_koa_lookup_fd2koa (fd : Z) : M world (Z * Z) :=
  do e <- fd_get fd ;;
  m_ret (if bool_decide (fd_koa e = 0) then TXC_R_FAILURE else TXC_R_SUCCESS, fd_koa e).

(** [*inode_number], 0 when [stat] fails. *)
Definition txc_koa_path2inode (path : string) : M world Z :=
  do ' (ret, ino) <- libc (sys_stat path) ;;
  m_ret (if bool_decide (ret = 0) then ino else 0).

Definition txc_koa_get_sentinel (koa : Z) : M world Z :=
  do k <- koa_get koa ;; m_ret (koa_sentinel k).

(** The cases of the switch fall through to one read of the union; for the
    other types nothing is assigned. *)
Definition txc_koa_get_buffer (koa : Z) : M world Z :=
  do k <- koa_get koa ;;
  m_ret (if bool_decide (koa_type k = TXC_KOA_IS_SOCK_DGRAM) ||
            bool_decide (koa_type k = TXC_KOA_IS_PIPE_READ_END)
         then koa_word k else uninit).

(** ** Creation of the manager *)

(** Attach one of the standard descriptors. *)
Definition koamgr_std (type fd : Z) : M world unit :=
  do koa <- txc_koa_create type 0 ;;
  do _ <- txc_koa_attach_fd koa fd false ;;
  m_ret tt.

(** [txc_koamgr_create], run in a world that has the other managers: [m_mgr] is
    what [MALLOC] returns, [ak] and [hash_ok] what the allocations of the pool and
    of the hash table do, [obj] the object of a pool cell as [calloc] leaves it. *)
Definition txc_koamgr_create (m_mgr : option Z) (ak : pool_allocs) (h_hp h_tbl : option Z)
    (size : Z) : M world Z :=
  match m_mgr with
  | None => m_ret TXC_R_NOMEMORY
  | Some _ =>
      do r <- m_deref (txc_pool_create (pa_pool ak) (pa_list ak) (pa_buf ak) (pa_mutex ak) size
                TXC_KOA_NUM None tt) ;;
      match r with
      | (c, None, _) => m_ret c
      | (_, Some p, _) =>
          match txc_hash_table_create h_hp h_tbl TXC_KOA_CACHE_HASHTBL_SIZE false with
          | (c, None) => m_ret c
          | (_, Some h) =>
              let cell := Koa false 0 (replicate (Z.to_nat TXC_MAX_NUM_FDREFS_PER_KOA) 0) 0 0 0 0 in
              let objs := list_to_map ((fun o => (po_buf o, cell)) <$> obj_list p) in
              let fds := list_to_map ((fun i => (i, Fd2Koa false 0)) <$> seqZ 0 TXC_KOA_MAP_SIZE) in
              m_modify (set_koamgr (KoaMgr false h fds p objs)) ;;;
              koamgr_std TXC_KOA_IS_PIPE_READ_END 0 ;;;
              koamgr_std TXC_KOA_IS_PIPE_WRITE_END 1 ;;;
              koamgr_std TXC_KOA_IS_PIPE_WRITE_END 2 ;;;
              m_ret TXC_R_SUCCESS
          end
      end
  end.
End koa.
