(* ===== verification/XFile.v ===== *)
(** * Calls on an open file ([xcalls/x_read.c], [x_write.c], [x_lseek.c],
      [x_fsync.c], [x_fdatasync.c])

    Reads, writes and seeks run at once inside a transaction, under the file's
    sentinel, and register a compensating action; [fsync] and [fdatasync] are
    deferred to commit.  Outside a transaction, and in an irrevocable one, the
    calls are the system calls.

    A call's body gives its result and [local_result]; [finish] is the [done]
    label. Counts are C [int]s. *)

From S2P Require Import Prelude Dll Pool HashTable Buffer Actions World Tx Sentinel Koa.

Definition TXC_WRITE_SEQ : Z := 1.
Definition TXC_WRITE_OVR_SAVE : Z := 2.
Definition TXC_WRITE_OVR_IGNORE : Z := 3.

Section xfile.
Context {PF : Platform}.

(** [done: if (result) *result = local_result; return ret;] *)
Definition finish {A} (result : option Z) (body : M world (A * Z)) : M world A :=
  do ' (ret, local_result) <- body ;;
  store_result result local_result ;;;
  m_ret ret.

Definition get_errno : M world Z := m_gets w_errno.

(** [txc_buffer_linear_malloc(txd->buffer_linear, size)] and [_free]. *)
Definition tx_linear_malloc (txd size : Z) : M world (option Z) :=
  do t <- txd_get txd ;;
  in_buffermgr (do b <- linear_get (buffer_linear t) ;;
    let '(p, b') := txc_buffer_linear_malloc (u32 size) b in
    linear_put (buffer_linear t) b' ;;; m_ret p).

Definition tx_linear_free (txd size : Z) : M world unit :=
  linear_upd txd (txc_buffer_linear_free (u32 size)).

(** Isolate the object behind [fd]: [None] is the EBADF exit, and a busy sentinel
    aborts the transaction. *)
Definition acquire_fd (txd fd flags : Z) : M world (option Z) :=
  txc_koa_lock_fd fd ;;;
  do ' (xret, koa) <- txc_koa_lookup_fd2koa fd ;;
  if bool_decide (xret = TXC_R_FAILURE) then
    txc_koa_unlock_fd fd ;;; m_ret None
  else
    do sentinel <- txc_koa_get_sentinel koa ;;
    do xret <- txc_sentinel_tryacquire txd sentinel flags ;;
    txc_koa_unlock_fd fd ;;;
    if bool_decide (xret = TXC_R_BUSYSENTINEL)
    then txc_tx_abort_transaction txd TXC_ABORTREASON_BUSYSENTINEL
    else m_ret (Some koa).

(** [if ((ret = call()) < 0) local_result = errno; else local_result = 0;] *)
Definition plain {A} (failed : A -> bool) (call : M world A) : M world (A * Z) :=
  do ret <- call ;;
  if failed ret then do e <- get_errno ;; m_ret (ret, e) else m_ret (ret, 0).

Definition neg (ret : Z) : bool := bool_decide (ret < 0).
Definition neg1 (r : Z * list byte) : bool := bool_decide (r.1 < 0).

(** ** [x_read] *)

Definition run_x_read_undo (fd nbyte : Z) : M world Z :=
  do r <- libc (sys_lseek fd (- nbyte) SEEK_CUR) ;;
  if neg r then get_errno else m_ret 0.

(** The transactional branch: the count and the bytes stored in [buf]. *)
Definition x_read_tx (txd fd nbyte : Z) (result : option Z) : M world ((Z * list byte) * Z) :=
  do acq <- acquire_fd txd fd TXC_SENTINEL_ACQUIREONRETRY ;;
  match acq with
  | None => m_ret ((-1, []), EBADF)
  | Some _ =>
      do args_undo <- tx_linear_malloc txd (sizeof sz_x_read_undo_args_t) ;;
      match args_undo with
      | None => m_ret ((-1, []), ENOMEM)
      | Some _ =>
          do ' (ret, data) <- libc (sys_read fd nbyte) ;;
          if neg ret then
            do e <- get_errno ;;
            tx_linear_free txd (sizeof sz_x_read_undo_args_t) ;;;
            m_ret ((ret, data), e)
          else
            do _ <- txc_tx_register_undo_action txd (x_read_undo fd ret) result
                      TXC_TX_REGULAR_UNDO_ACTION_ORDER ;;
            m_ret ((ret, data), 0)
      end
  end.

Definition x_read (txd fd nbyte : Z) (result : option Z) : M world (Z * list byte) :=
  do x <- txc_tx_get_xactstate txd ;;
  finish result
    match x with
    | TXC_XACTSTATE_TRANSACTIONAL_IRREVOCABLE | TXC_XACTSTATE_NONTRANSACTIONAL =>
        plain neg1 (libc (sys_read fd nbyte))
    | TXC_XACTSTATE_TRANSACTIONAL_RETRYABLE => x_read_tx txd fd nbyte result
    end.

(** ** [x_write_seq], [x_write_ovr_save], [x_write_ovr_ignore] *)

Definition run_x_write_seq_undo (fd nbyte_new : Z) : M world Z :=
  do offset <- libc (sys_lseek fd (- nbyte_new) SEEK_CUR) ;;
  if neg offset then get_errno
  else
    do r <- libc (sys_ftruncate fd offset) ;;
    if neg r then get_errno else m_ret 0.

Definition run_x_write_ovr_undo (fd : Z) (buf : option (list byte)) (nbyte_new nbyte_old : Z)
    : M world Z :=
  do offset <- libc (sys_lseek fd (- nbyte_new) SEEK_CUR) ;;
  if neg offset then get_errno
  else match buf with
    | None => m_ret 0
    | Some old =>
        do r <- (if bool_decide (nbyte_old < nbyte_new) then libc (sys_ftruncate fd offset)
                 else m_ret 0) ;;
        if neg r then get_errno
        else
          do r <- libc (sys_pwrite fd (take (Z.to_nat nbyte_old) old) offset) ;;
          if neg r then get_errno else m_ret 0
    end.

Definition x_write_seq_tx (txd fd : Z) (buf : list byte) (result : option Z) : M world (Z * Z) :=
  do args <- tx_linear_malloc txd (sizeof sz_x_write_undo_args_t) ;;
  match args with
  | None => m_ret (-1, ENOMEM)
  | Some _ =>
      do ret <- libc (sys_write fd buf) ;;
      if neg ret then
        do e <- get_errno ;;
        tx_linear_free txd (sizeof sz_x_write_undo_args_t) ;;;
        m_ret (ret, e)
      else
        do _ <- txc_tx_register_undo_action txd (x_write_seq_undo fd ret) result
                  TXC_TX_REGULAR_UNDO_ACTION_ORDER ;;
        m_ret (ret, 0)
  end.

(** Save what the write is about to overwrite: [inr] the old data, read into
    the linear buffer ([None] for the IGNORE variant), or [inl] the error exit. *)
Definition x_write_ovr_old (txd fd nbyte flags : Z)
    : M world ((Z * Z) + (option (list byte) * Z)) :=
  if bool_decide (flags = TXC_WRITE_OVR_SAVE) then
    do old_data <- tx_linear_malloc txd nbyte ;;
    match old_data with
    | None =>
        tx_linear_free txd (sizeof sz_x_write_undo_args_t) ;;;
        m_ret (inl (-1, ENOMEM))
    | Some _ =>
        do ' (ret, data) <- libc (sys_read fd nbyte) ;;
        if neg ret then
          do e <- get_errno ;;
          tx_linear_free txd nbyte ;;;
          tx_linear_free txd (sizeof sz_x_write_undo_args_t) ;;;
          m_ret (inl (ret, e))
        else m_ret (inr (Some data, ret))
    end
  else m_ret (inr (None, 0)).

Definition x_write_ovr_tx (txd fd : Z) (buf : list byte) (result : option Z) (flags : Z)
    : M world (Z * Z) :=
  let nbyte := Z.of_nat (length buf) in
  do args <- tx_linear_malloc txd (sizeof sz_x_write_undo_args_t) ;;
  match args with
  | None => m_ret (-1, ENOMEM)
  | Some _ =>
      do old <- x_write_ovr_old txd fd nbyte flags ;;
      match old with
      | inl r => m_ret r
      | inr (old_data, nbyte_old) =>
          (if bool_decide (nbyte_old > 0)
           then do _ <- libc (sys_lseek fd (- nbyte_old) SEEK_CUR) ;; m_ret tt
           else m_ret tt) ;;;
          do ret <- libc (sys_write fd buf) ;;
          if neg ret then
            do e <- get_errno ;;
            match old_data with Some _ => tx_linear_free txd nbyte | None => m_ret tt end ;;;
            tx_linear_free txd (sizeof sz_x_write_undo_args_t) ;;;
            m_ret (ret, e)
          else
            do _ <- txc_tx_register_undo_action txd (x_write_ovr_undo fd old_data ret nbyte_old) result
                      TXC_TX_REGULAR_UNDO_ACTION_ORDER ;;
            m_ret (ret, 0)
      end
  end.

Definition x_write (txd fd : Z) (buf : list byte) (result : option Z) (flags : Z) : M world Z :=
  do x <- txc_tx_get_xactstate txd ;;
  finish result
    match x with
    | TXC_XACTSTATE_TRANSACTIONAL_IRREVOCABLE | TXC_XACTSTATE_NONTRANSACTIONAL =>
        plain neg (libc (sys_write fd buf))
    | TXC_XACTSTATE_TRANSACTIONAL_RETRYABLE =>
        do acq <- acquire_fd txd fd TXC_SENTINEL_ACQUIREONRETRY ;;
        match acq with
        | None => m_ret (-1, EBADF)
        | Some _ =>
            if bool_decide (flags = TXC_WRITE_SEQ) then x_write_seq_tx txd fd buf result
            else if bool_decide (flags = TXC_WRITE_OVR_IGNORE) || bool_decide (flags = TXC_WRITE_OVR_SAVE)
            then x_write_ovr_tx txd fd buf result flags
            else m_exit
        end
    end.

Definition x_write_seq txd fd buf result := x_write txd fd buf result TXC_WRITE_SEQ.
Definition x_write_ovr_ignore txd fd buf result := x_write txd fd buf result TXC_WRITE_OVR_IGNORE.
Definition x_write_ovr_save txd fd buf result := x_write txd fd buf result TXC_WRITE_OVR_SAVE.
Definition x_write_ovr txd fd buf result := x_write txd fd buf result TXC_WRITE_OVR_SAVE.

(** ** [x_lseek] *)

Definition run_x_lseek_undo (fd old_position : Z) : M world Z :=
  do r <- libc (sys_lseek fd old_position SEEK_SET) ;;
  if neg r then get_errno else m_ret 0.

Definition x_lseek_tx (txd fd offset whence : Z) (result : option Z) : M world (Z * Z) :=
  do acq <- acquire_fd txd fd TXC_SENTINEL_ACQUIREONRETRY ;;
  match acq with
  | None => m_ret (-1, EBADF)
  | Some _ =>
      do args_undo <- tx_linear_malloc txd (sizeof sz_x_lseek_undo_args_t) ;;
      match args_undo with
      | None => m_ret (-1, ENOMEM)
      | Some _ =>
          do ' (ret, old_position) <-
            (if bool_decide (whence = SEEK_CUR) then
               do ret <- libc (sys_lseek fd offset whence) ;; m_ret (ret, ret - offset)
             else
               do old <- libc (sys_lseek fd 0 SEEK_CUR) ;;
               do ret <- libc (sys_lseek fd offset whence) ;; m_ret (ret, old)) ;;
          if neg ret then
            do e <- get_errno ;;
            tx_linear_free txd (sizeof sz_x_lseek_undo_args_t) ;;;
            m_ret (ret, e)
          else
            do _ <- txc_tx_register_undo_action txd (x_lseek_undo fd old_position) result
                      TXC_TX_REGULAR_UNDO_ACTION_ORDER ;;
            m_ret (ret, 0)
      end
  end.

Definition x_lseek (txd fd offset whence : Z) (result : option Z) : M world Z :=
  do x <- txc_tx_get_xactstate txd ;;
  finish result
    match x with
    | TXC_XACTSTATE_TRANSACTIONAL_IRREVOCABLE | TXC_XACTSTATE_NONTRANSACTIONAL =>
        plain neg (libc (sys_lseek fd offset whence))
    | TXC_XACTSTATE_TRANSACTIONAL_RETRYABLE => x_lseek_tx txd fd offset whence result
    end.

(** ** [x_fsync] and [x_fdatasync]

    The two files are the same but for the system call. *)

Definition run_x_fsync_commit (fd : Z) : M world Z :=
  do r <- libc (sys_fsync fd) ;; if neg r then get_errno else m_ret 0.
Definition run_x_fdatasync_commit (fd : Z) : M world Z :=
  do r <- libc (sys_fdatasync fd) ;; if neg r then get_errno else m_ret 0.

(** The descriptor is unlocked a second time after the registration. *)
Definition x_sync_tx (txd fildes size : Z) (commit : action) (result : option Z) : M world (Z * Z) :=
  do acq <- acquire_fd txd fildes TXC_SENTINEL_ACQUIREONRETRY ;;
  match acq with
  | None => m_ret (-1, EBADF)
  | Some _ =>
      do args_commit <- tx_linear_malloc txd size ;;
      match args_commit with
      | None => m_exit
      | Some _ =>
          do _ <- txc_tx_register_commit_action txd commit result TXC_TX_REGULAR_COMMIT_ACTION_ORDER ;;
          txc_koa_unlock_fd fildes ;;;
          m_ret (0, 0)
      end
  end.

Definition x_fsync (txd fildes : Z) (result : option Z) : M world Z :=
  do x <- txc_tx_get_xactstate txd ;;
  finish result
    match x with
    | TXC_XACTSTATE_TRANSACTIONAL_RETRYABLE =>
        x_sync_tx txd fildes (sizeof sz_x_fsync_commit_args_t) (x_fsync_commit fildes) result
    | TXC_XACTSTATE_TRANSACTIONAL_IRREVOCABLE | TXC_XACTSTATE_NONTRANSACTIONAL =>
        plain neg (libc (sys_fsync fildes))
    end.

Definition x_fdatasync (txd fildes : Z) (result : option Z) : M world Z :=
  do x <- txc_tx_get_xactstate txd ;;
  finish result
    match x with
    | TXC_XACTSTATE_TRANSACTIONAL_RETRYABLE =>
        x_sync_tx txd fildes (sizeof sz_x_fdatasync_commit_args_t) (x_fdatasync_commit fildes) result
    | TXC_XACTSTATE_TRANSACTIONAL_IRREVOCABLE | TXC_XACTSTATE_NONTRANSACTIONAL =>
        plain neg (libc (sys_fdatasync fildes))
    end.
End xfile.
