(* ===== verification/XDir.v ===== *)
(** * Calls on names and descriptors ([xcalls/x_open.c], [x_create.c],
      [x_unlink.c], [x_rename.c], [x_close.c], [x_dup.c])

    [open], [create], [dup] and [rename] run inside the transaction and register
    what undoes them; [close] and [unlink] are deferred.  The alias cache is
    locked around every operation that binds an inode to a KOA.

    [strcpy] into a path buffer of [TXC_MAX_LEN_PATHNAME] bytes is undefined for
    a longer path. *)

From S2P Require Import Prelude Dll Pool HashTable Buffer Actions World Tx Sentinel Koa XFile.

Definition O_RDWR : Z := 2.
Definition O_CREAT_flag : Z := 64.
Definition O_NOCTTY : Z := 256.
Definition O_TRUNC_flag : Z := 512.

Definition creation_flags : Z := Z.lor (Z.lor (Z.lor O_CREAT_flag O_NOCTTY) O_TRUNC_flag) O_RDWR.

Section xdir.
Context {PF : Platform}.

Definition strcpy_path (path : string) : M world string :=
  if bool_decide (Z.of_nat (String.length path) < TXC_MAX_LEN_PATHNAME) then m_ret path else m_undef.

(** The argument block of an action that must not fail to be allocated. *)
Definition malloc_or_exit (txd size : Z) : M world unit :=
  do p <- tx_linear_malloc txd size ;;
  match p with Some _ => m_ret tt | None => m_exit end.

(** Acquire the sentinel of a KOA this transaction has just created. *)
Definition acquire_new (txd koa : Z) : M world unit :=
  do sentinel <- txc_koa_get_sentinel koa ;;
  do xret <- txc_sentinel_tryacquire txd sentinel 0 ;;
  if bool_decide (xret <> TXC_R_SUCCESS) then m_exit else m_ret tt.

(** [if (call() < 0) local_result = errno;] from a [local_result] so far. *)
Definition or_errno (call : M world Z) (local : Z) : M world Z :=
  do r <- call ;; if neg r then get_errno else m_ret local.

(** ** [x_open] *)

Definition run_x_open_undo (fd koa : Z) : M world Z :=
  do _ <- koa_get koa ;;
  txc_koa_lock_alias_cache ;;;
  txc_koa_lock_fd fd ;;;
  do _ <- txc_koa_detach_fd koa fd false ;;
  do e <- or_errno (libc (sys_close fd)) 0 ;;
  txc_koa_unlock_fd fd ;;;
  txc_koa_unlock_alias_cache ;;;
  m_ret e.

(** Register the undo action of a descriptor just opened. *)
Definition register_open_undo (txd fildes koa : Z) (result : option Z) : M world unit :=
  malloc_or_exit txd (sizeof sz_x_open_undo_args_t) ;;;
  do _ <- txc_tx_register_undo_action txd (x_open_undo fildes koa) result TXC_KOA_CREATE_UNDO_ACTION_ORDER ;;
  m_ret tt.

(** The inode already has a KOA. *)
Definition x_open_alias (txd fildes koa : Z) (result : option Z) : M world (Z * Z) :=
  txc_koa_lock_fds_refby_koa koa ;;;
  txc_koa_lock_fd fildes ;;;
  do _ <- txc_koa_attach_fd koa fildes false ;;
  do sentinel <- txc_koa_get_sentinel koa ;;
  do xret <- txc_sentinel_tryacquire txd sentinel 0 ;;
  if bool_decide (xret = TXC_R_BUSYSENTINEL) then
    do _ <- libc (sys_close fildes) ;;
    do _ <- txc_koa_detach_fd koa fildes false ;;
    txc_koa_unlock_fd fildes ;;;
    txc_koa_unlock_fds_refby_koa koa ;;;
    txc_koa_unlock_alias_cache ;;;
    txc_tx_abort_transaction txd TXC_ABORTREASON_BUSYSENTINEL
  else
    register_open_undo txd fildes koa result ;;;
    txc_koa_unlock_fds_refby_koa koa ;;;
    txc_koa_unlock_alias_cache ;;;
    m_ret (fildes, 0).

(** The inode has no KOA yet. *)
Definition x_open_new (txd fildes inode : Z) (result : option Z) : M world (Z * Z) :=
  do koa <- txc_koa_create TXC_KOA_IS_FILE inode ;;
  txc_koa_lock_fd fildes ;;;
  do _ <- txc_koa_attach_fd koa fildes false ;;
  acquire_new txd koa ;;;
  register_open_undo txd fildes koa result ;;;
  txc_koa_unlock_fd fildes ;;;
  txc_koa_unlock_alias_cache ;;;
  m_ret (fildes, 0).

Definition x_open_tx (txd : Z) (pathname : string) (open_flags mode : Z) (result : option Z)
    : M world (Z * Z) :=
  txc_koa_lock_alias_cache ;;;
  do inode <- txc_koa_path2inode pathname ;;
  if bool_decide (inode = 0) then
    txc_koa_unlock_alias_cache ;;; m_ret (-1, EACCES)
  else
    do fildes <- libc (sys_open pathname open_flags mode) ;;
    if neg fildes then
      txc_koa_unlock_alias_cache ;;; do e <- get_errno ;; m_ret (fildes, e)
    else
      do ' (xret, koa) <- txc_koa_alias_cache_lookup_inode inode ;;
      if bool_decide (xret = TXC_R_SUCCESS) then
        do koa <- m_deref koa ;; x_open_alias txd fildes koa result
      else x_open_new txd fildes inode result.

Definition x_open_nontx (pathname : string) (open_flags mode : Z) : M world (Z * Z) :=
  txc_koa_lock_alias_cache ;;;
  do fildes <- libc (sys_open pathname open_flags mode) ;;
  if neg fildes then
    txc_koa_unlock_alias_cache ;;; do e <- get_errno ;; m_ret (fildes, e)
  else
    do inode <- txc_koa_path2inode pathname ;;
    do ' (xret, koa) <- txc_koa_alias_cache_lookup_inode inode ;;
    do koa <- (if bool_decide (xret <> TXC_R_SUCCESS) then txc_koa_create TXC_KOA_IS_FILE inode
               else m_deref koa) ;;
    txc_koa_lock_fd fildes ;;;
    do _ <- txc_koa_attach_fd koa fildes false ;;
    do _ <- txc_koa_get_sentinel koa ;;
    txc_koa_unlock_fd fildes ;;;
    txc_koa_unlock_alias_cache ;;;
    m_ret (fildes, 0).

Definition x_open (txd : Z) (pathname : string) (flags mode : Z) (result : option Z) : M world Z :=
  let open_flags := Z.lor O_RDWR flags in
  do x <- txc_tx_get_xactstate txd ;;
  finish result
    match x with
    | TXC_XACTSTATE_TRANSACTIONAL_RETRYABLE => x_open_tx txd pathname open_flags mode result
    | TXC_XACTSTATE_TRANSACTIONAL_IRREVOCABLE | TXC_XACTSTATE_NONTRANSACTIONAL =>
        x_open_nontx pathname open_flags mode
    end.

(** ** [x_create] *)

Definition run_x_create_case1_undo (fd koa : Z) (pathname : string) : M world Z :=
  do _ <- koa_get koa ;;
  txc_koa_lock_alias_cache ;;;
  do ret1 <- libc (sys_unlink pathname) ;;
  do e <- (if neg ret1 then get_errno else m_ret 0) ;;
  do _ <- txc_koa_detach_fd koa fd true ;;
  do ret2 <- libc (sys_close fd) ;;
  do e <- (if neg ret2 && bool_decide (ret1 = 0) then get_errno else m_ret e) ;;
  txc_koa_unlock_alias_cache ;;;
  m_ret e.

Definition run_x_create_case2_commit (temp_pathname : string) : M world Z :=
  or_errno (libc (sys_unlink temp_pathname)) 0.

Definition run_x_create_case2_undo (fd koa : Z) (temp_pathname original_pathname : string) : M world Z :=
  do _ <- koa_get koa ;;
  txc_koa_lock_alias_cache ;;;
  do ret1 <- libc (sys_unlink original_pathname) ;;
  do e <- (if neg ret1 then get_errno else m_ret 0) ;;
  do ret2 <- libc (sys_rename temp_pathname original_pathname) ;;
  do e <- (if neg ret2 && bool_decide (ret1 = 0) then get_errno else m_ret e) ;;
  do _ <- txc_koa_detach_fd koa fd true ;;
  do ret3 <- libc (sys_close fd) ;;
  do e <- (if neg ret3 && bool_decide (ret1 = 0) && bool_decide (ret2 = 0) then get_errno else m_ret e) ;;
  txc_koa_unlock_alias_cache ;;;
  m_ret e.

(** Give the file just created at [fildes] a KOA and acquire its sentinel. *)
Definition x_create_attach (txd fildes : Z) (pathname : string) : M world Z :=
  do inode <- txc_koa_path2inode pathname ;;
  do koa_new <- txc_koa_create TXC_KOA_IS_FILE inode ;;
  txc_koa_lock_fd fildes ;;;
  do _ <- txc_koa_attach_fd koa_new fildes false ;;
  acquire_new txd koa_new ;;;
  m_ret koa_new.

(** Case 1: the name is free. *)
Definition x_create_case1 (txd : Z) (pathname : string) (mode : Z) (result : option Z) : M world (Z * Z) :=
  do fildes <- libc (sys_open pathname creation_flags mode) ;;
  if neg fildes then
    txc_koa_unlock_alias_cache ;;; do e <- get_errno ;; m_ret (fildes, e)
  else
    do koa_new <- x_create_attach txd fildes pathname ;;
    malloc_or_exit txd (sizeof sz_x_create_case1_args_t) ;;;
    do p <- strcpy_path pathname ;;
    do _ <- txc_tx_register_undo_action txd (x_create_case1_undo fildes koa_new p) result
              TXC_KOA_CREATE_UNDO_ACTION_ORDER ;;
    txc_koa_unlock_fd fildes ;;;
    txc_koa_unlock_alias_cache ;;;
    m_ret (fildes, 0).

(** Isolate the file the name refers to, when it has a KOA. *)
Definition x_create_isolate_old (txd inode : Z) : M world unit :=
  do ' (xret, koa_old) <- txc_koa_alias_cache_lookup_inode inode ;;
  if bool_decide (xret = TXC_R_SUCCESS) then
    do koa_old <- m_deref koa_old ;;
    txc_koa_lock_fds_refby_koa koa_old ;;;
    do sentinel <- txc_koa_get_sentinel koa_old ;;
    do xret <- txc_sentinel_tryacquire txd sentinel 0 ;;
    if bool_decide (xret = TXC_R_BUSYSENTINEL) then
      txc_koa_unlock_fds_refby_koa koa_old ;;;
      txc_koa_unlock_alias_cache ;;;
      txc_tx_abort_transaction txd TXC_ABORTREASON_BUSYSENTINEL
    else txc_koa_unlock_fds_refby_koa koa_old
  else m_ret tt.

(** Case 2: the name is taken; its file is moved out of the way. *)
Definition x_create_case2 (txd inode : Z) (pathname : string) (mode : Z) (result : option Z)
    : M world (Z * Z) :=
  x_create_isolate_old txd inode ;;;
  do temp <- libc (sys_mktemp "/tmp/libtxc.tmp.XXXXXX"%string) ;;
  do _ <- libc (sys_rename pathname temp) ;;
  do fildes <- libc (sys_open pathname creation_flags mode) ;;
  if neg fildes then
    do _ <- libc (sys_rename temp pathname) ;;
    txc_koa_unlock_alias_cache ;;; do e <- get_errno ;; m_ret (fildes, e)
  else
    do koa_new <- x_create_attach txd fildes pathname ;;
    malloc_or_exit txd (sizeof sz_x_create_case2_args_t) ;;;
    do t <- strcpy_path temp ;;
    do p <- strcpy_path pathname ;;
    do _ <- txc_tx_register_commit_action txd (x_create_case2_commit fildes koa_new t p) result
              TXC_KOA_CREATE_COMMIT_ACTION_ORDER ;;
    do _ <- txc_tx_register_undo_action txd (x_create_case2_undo fildes koa_new t p) result
              TXC_KOA_CREATE_UNDO_ACTION_ORDER ;;
    txc_koa_unlock_fd fildes ;;;
    txc_koa_unlock_alias_cache ;;;
    m_ret (fildes, 0).

(** Outside a transaction; the failed [open] leaves the alias cache locked. *)
Definition x_create_nontx (pathname : string) (mode : Z) : M world (Z * Z) :=
  txc_koa_lock_alias_cache ;;;
  do fildes <- libc (sys_open pathname creation_flags mode) ;;
  if neg fildes then do e <- get_errno ;; m_ret (fildes, e)
  else
    do inode <- txc_koa_path2inode pathname ;;
    do koa_new <- txc_koa_create TXC_KOA_IS_FILE inode ;;
    txc_koa_lock_fd fildes ;;;
    do _ <- txc_koa_attach_fd koa_new fildes false ;;
    do _ <- txc_koa_get_sentinel koa_new ;;
    txc_koa_unlock_fd fildes ;;;
    txc_koa_unlock_alias_cache ;;;
    m_ret (fildes, 0).

Definition x_create (txd : Z) (pathname : string) (mode : Z) (result : option Z) : M world Z :=
  do x <- txc_tx_get_xactstate txd ;;
  finish result
    match x with
    | TXC_XACTSTATE_TRANSACTIONAL_RETRYABLE =>
        txc_koa_lock_alias_cache ;;;
        do inode <- txc_koa_path2inode pathname ;;
        if bool_decide (inode = 0) then x_create_case1 txd pathname mode result
        else x_create_case2 txd inode pathname mode result
    | TXC_XACTSTATE_TRANSACTIONAL_IRREVOCABLE | TXC_XACTSTATE_NONTRANSACTIONAL =>
        x_create_nontx pathname mode
    end.

(** ** [x_unlink] *)

Definition run_x_unlink_commit (koa : Z) (pathname : string) : M world Z :=
  do _ <- koa_get koa ;;
  txc_koa_lock_alias_cache ;;;
  txc_koa_lock_fds_refby_koa koa ;;;
  do xret <- txc_koa_detach koa ;;
  do e <- (if bool_decide (xret = TXC_R_SUCCESS) then or_errno (libc (sys_unlink pathname)) 0
           else m_ret EBADF) ;;
  txc_koa_unlock_fds_refby_koa koa ;;;
  txc_koa_unlock_alias_cache ;;;
  m_ret e.

(** Reference the KOA of a file that has one, and acquire its sentinel. *)
Definition attach_known (txd koa flags : Z) : M world unit :=
  txc_koa_lock_fds_refby_koa koa ;;;
  do _ <- txc_koa_attach koa ;;
  do sentinel <- txc_koa_get_sentinel koa ;;
  do xret <- txc_sentinel_tryacquire txd sentinel flags ;;
  if bool_decide (xret = TXC_R_BUSYSENTINEL) then
    do _ <- txc_koa_detach koa ;;
    txc_koa_unlock_fds_refby_koa koa ;;;
    txc_koa_unlock_alias_cache ;;;
    txc_tx_abort_transaction txd TXC_ABORTREASON_BUSYSENTINEL
  else txc_koa_unlock_fds_refby_koa koa.

(** Reference the KOA of an inode, made when it has none. *)
Definition attach_inode (txd inode flags : Z) : M world Z :=
  do ' (xret, koa) <- txc_koa_alias_cache_lookup_inode inode ;;
  if bool_decide (xret = TXC_R_SUCCESS) then
    do koa <- m_deref koa ;;
    attach_known txd koa flags ;;; m_ret koa
  else
    do koa <- txc_koa_create TXC_KOA_IS_FILE inode ;;
    do _ <- txc_koa_attach koa ;;
    acquire_new txd koa ;;;
    m_ret koa.

Definition x_unlink_tx (txd : Z) (pathname : string) (result : option Z) : M world (Z * Z) :=
  txc_koa_lock_alias_cache ;;;
  do inode <- txc_koa_path2inode pathname ;;
  if bool_decide (inode = 0) then
    txc_koa_unlock_alias_cache ;;; m_ret (-1, EACCES)
  else
    do koa <- attach_inode txd inode TXC_SENTINEL_ACQUIREONRETRY ;;
    malloc_or_exit txd (sizeof sz_x_unlink_commit_args_t) ;;;
    do p <- strcpy_path pathname ;;
    do _ <- txc_tx_register_commit_action txd (x_unlink_commit koa p) result
              TXC_KOA_DESTROY_COMMIT_ACTION_ORDER ;;
    txc_koa_unlock_alias_cache ;;;
    m_ret (0, 0).

(** Outside a transaction the result is 0 even when the call fails. *)
Definition x_unlink (txd : Z) (pathname : string) (result : option Z) : M world Z :=
  do x <- txc_tx_get_xactstate txd ;;
  finish result
    match x with
    | TXC_XACTSTATE_TRANSACTIONAL_RETRYABLE => x_unlink_tx txd pathname result
    | TXC_XACTSTATE_TRANSACTIONAL_IRREVOCABLE | TXC_XACTSTATE_NONTRANSACTIONAL =>
        do e <- or_errno (libc (sys_unlink pathname)) 0 ;; m_ret (0, e)
    end.

(** ** [x_rename] *)

Definition rename_lock (oldpath_koa newpath_koa : Z) (valid : bool) : M world unit :=
  txc_koa_lock_alias_cache ;;;
  txc_koa_lock_fds_refby_koa oldpath_koa ;;;
  m_when valid (txc_koa_lock_fds_refby_koa newpath_koa).

Definition rename_detach (oldpath_koa newpath_koa : Z) (valid : bool) : M world unit :=
  do _ <- txc_koa_detach oldpath_koa ;;
  if valid then do _ <- txc_koa_detach newpath_koa ;; m_ret tt else m_ret tt.

Definition rename_unlock (oldpath_koa newpath_koa : Z) (valid : bool) : M world unit :=
  m_when valid (txc_koa_unlock_fds_refby_koa newpath_koa) ;;;
  txc_koa_unlock_fds_refby_koa oldpath_koa ;;;
  txc_koa_unlock_alias_cache.

Definition run_x_rename_commit (oldpath_koa newpath_koa : Z) (valid : bool) (oldpath : string) : M world Z :=
  do _ <- koa_get oldpath_koa ;;
  rename_lock oldpath_koa newpath_koa valid ;;;
  rename_detach oldpath_koa newpath_koa valid ;;;
  do e <- or_errno (libc (sys_unlink oldpath)) 0 ;;
  rename_unlock oldpath_koa newpath_koa valid ;;;
  m_ret e.

Definition run_x_rename_undo (oldpath_koa newpath_koa : Z) (valid : bool) (newpath temppath : string)
    : M world Z :=
  do _ <- koa_get oldpath_koa ;;
  rename_lock oldpath_koa newpath_koa valid ;;;
  rename_detach oldpath_koa newpath_koa valid ;;;
  do e <- or_errno (libc (sys_unlink newpath)) 0 ;;
  do e <- (if valid then or_errno (libc (sys_rename temppath newpath)) e else m_ret e) ;;
  rename_unlock oldpath_koa newpath_koa valid ;;;
  m_ret e.

(** The file at the new name, if any, is referenced and moved out of the way:
    its KOA, whether it is valid, and the temporary name ([None] while the array
    is uninitialised). *)
Definition x_rename_newpath (txd : Z) (newpath : string) : M world (Z * bool * option string) :=
  do newpath_inode <- txc_koa_path2inode newpath ;;
  if bool_decide (newpath_inode = 0) then m_ret (uninit, false, None)
  else
    do newpath_koa <- attach_inode txd newpath_inode 0 ;;
    do temppath <- libc (sys_mktemp "/tmp/libtxc.tmp.XXXXXX"%string) ;;
    do _ <- libc (sys_rename newpath temppath) ;;
    m_ret (newpath_koa, true, Some temppath).

(** [strcpy] from the uninitialised array copies unspecified bytes: the model
    takes them to be the empty string, which nothing reads while the KOA is not
    valid. *)
Definition x_rename_tx (txd : Z) (oldpath newpath : string) (result : option Z) : M world (Z * Z) :=
  txc_koa_lock_alias_cache ;;;
  do oldpath_inode <- txc_koa_path2inode oldpath ;;
  if bool_decide (oldpath_inode = 0) then
    txc_koa_unlock_alias_cache ;;; m_ret (-1, ENOENT)
  else
    do oldpath_koa <- attach_inode txd oldpath_inode TXC_SENTINEL_ACQUIREONRETRY ;;
    do ' (newpath_koa, valid, temppath) <- x_rename_newpath txd newpath ;;
    do _ <- libc (sys_link oldpath newpath) ;;
    malloc_or_exit txd (sizeof sz_x_rename_args_t) ;;;
    do t <- strcpy_path (default ""%string temppath) ;;
    do n <- strcpy_path newpath ;;
    do o <- strcpy_path oldpath ;;
    do _ <- txc_tx_register_commit_action txd (x_rename_commit oldpath_koa newpath_koa valid o n t) result
              TXC_KOA_CREATE_COMMIT_ACTION_ORDER ;;
    do _ <- txc_tx_register_undo_action txd (x_rename_undo oldpath_koa newpath_koa valid o n t) result
              TXC_KOA_CREATE_UNDO_ACTION_ORDER ;;
    txc_koa_unlock_alias_cache ;;;
    m_ret (0, 0).

Definition x_rename (txd : Z) (oldpath newpath : string) (result : option Z) : M world Z :=
  do x <- txc_tx_get_xactstate txd ;;
  finish result
    match x with
    | TXC_XACTSTATE_TRANSACTIONAL_RETRYABLE => x_rename_tx txd oldpath newpath result
    | TXC_XACTSTATE_TRANSACTIONAL_IRREVOCABLE | TXC_XACTSTATE_NONTRANSACTIONAL =>
        do e <- or_errno (libc (sys_rename oldpath newpath)) 0 ;; m_ret (0, e)
    end.

(** ** [x_close] *)

Definition run_x_close_commit (fd koa : Z) : M world Z :=
  do _ <- koa_get koa ;;
  txc_koa_lock_alias_cache ;;;
  txc_koa_lock_fd fd ;;;
  do xret <- txc_koa_detach_fd koa fd false ;;
  do e <- (if bool_decide (xret = TXC_R_SUCCESS) then or_errno (libc (sys_close fd)) 0
           else m_ret EBADF) ;;
  txc_koa_unlock_fd fd ;;;
  txc_koa_unlock_alias_cache ;;;
  m_ret e.

(** The descriptor is unlocked a second time after the registration. *)
Definition x_close_tx (txd fildes : Z) (result : option Z) : M world (Z * Z) :=
  do acq <- acquire_fd txd fildes TXC_SENTINEL_ACQUIREONRETRY ;;
  match acq with
  | None => m_ret (-1, EBADF)
  | Some koa =>
      malloc_or_exit txd (sizeof sz_x_close_commit_args_t) ;;;
      do _ <- txc_tx_register_commit_action txd (x_close_commit fildes koa) result
                TXC_KOA_DESTROY_COMMIT_ACTION_ORDER ;;
      txc_koa_unlock_fd fildes ;;;
      m_ret (0, 0)
  end.

(** Outside a transaction a descriptor without a KOA is dereferenced. *)
Definition x_close_nontx (fildes : Z) : M world (Z * Z) :=
  txc_koa_lock_alias_cache ;;;
  do ret <- libc (sys_close fildes) ;;
  if neg ret then
    txc_koa_unlock_alias_cache ;;; do e <- get_errno ;; m_ret (ret, e)
  else
    do ' (_, koa) <- txc_koa_lookup_fd2koa fildes ;;
    do _ <- txc_koa_detach_fd koa fildes true ;;
    txc_koa_unlock_alias_cache ;;;
    m_ret (0, 0).

Definition x_close (txd fildes : Z) (result : option Z) : M world Z :=
  do x <- txc_tx_get_xactstate txd ;;
  finish result
    match x with
    | TXC_XACTSTATE_TRANSACTIONAL_RETRYABLE => x_close_tx txd fildes result
    | TXC_XACTSTATE_TRANSACTIONAL_IRREVOCABLE | TXC_XACTSTATE_NONTRANSACTIONAL => x_close_nontx fildes
    end.

(** ** [x_dup] *)

Definition run_x_dup_undo (fd koa : Z) : M world Z :=
  do _ <- koa_get koa ;;
  txc_koa_lock_fd fd ;;;
  do _ <- txc_koa_detach_fd koa fd false ;;
  do e <- or_errno (libc (sys_close fd)) 0 ;;
  txc_koa_unlock_fd fd ;;;
  m_ret e.

(** The part after the KOA's descriptors are locked. *)
Definition x_dup_locked (txd oldfd koa : Z) (result : option Z) : M world (Z * Z) :=
  do sentinel <- txc_koa_get_sentinel koa ;;
  do xret <- txc_sentinel_tryacquire txd sentinel TXC_SENTINEL_ACQUIREONRETRY ;;
  if bool_decide (xret = TXC_R_BUSYSENTINEL) then
    txc_koa_unlock_fds_refby_koa koa ;;;
    txc_tx_abort_transaction txd TXC_ABORTREASON_BUSYSENTINEL
  else
    do fildes <- libc (sys_dup oldfd) ;;
    if neg fildes then
      txc_koa_unlock_fds_refby_koa koa ;;; do e <- get_errno ;; m_ret (fildes, e)
    else
      do args_undo <- tx_linear_malloc txd (sizeof sz_x_dup_undo_args_t) ;;
      match args_undo with
      | None =>
          do _ <- libc (sys_close fildes) ;;
          txc_koa_unlock_fds_refby_koa koa ;;;
          m_ret (-1, ENOMEM)
      | Some _ =>
          do _ <- txc_koa_attach_fd koa fildes false ;;
          txc_koa_unlock_fds_refby_koa koa ;;;
          do _ <- txc_tx_register_undo_action txd (x_dup_undo fildes koa) result
                    TXC_TX_REGULAR_UNDO_ACTION_ORDER ;;
          m_ret (fildes, 0)
      end.

(** The EBADF exits keep the locks taken so far. *)
Definition x_dup_tx (txd oldfd : Z) (result : option Z) : M world (Z * Z) :=
  txc_koa_lock_fd oldfd ;;;
  do ' (xret, koa) <- txc_koa_lookup_fd2koa oldfd ;;
  if bool_decide (xret = TXC_R_FAILURE) then m_ret (-1, EBADF)
  else
    txc_koa_unlock_fd oldfd ;;;
    txc_koa_lock_fds_refby_koa koa ;;;
    do ' (xret, koa2) <- txc_koa_lookup_fd2koa oldfd ;;
    if bool_decide (xret = TXC_R_FAILURE) || bool_decide (koa <> koa2) then m_ret (-1, EBADF)
    else x_dup_locked txd oldfd koa result.

(** Outside a transaction: a failed [dup] returns at once, and [local_result]
    is not assigned when it succeeds. *)
Definition x_dup_nontx (oldfd : Z) (result : option Z) : M world Z :=
  do ' (xret, koa) <- txc_koa_lookup_fd2koa oldfd ;;
  if bool_decide (xret = TXC_R_FAILURE) then finish result (m_ret (-1, EBADF))
  else
    do fildes <- libc (sys_dup oldfd) ;;
    if neg fildes then m_ret fildes
    else
      txc_koa_lock_fds_refby_koa koa ;;;
      do _ <- txc_koa_attach_fd koa fildes false ;;
      txc_koa_unlock_fds_refby_koa koa ;;;
      finish result (m_ret (fildes, uninit)).

Definition x_dup (txd oldfd : Z) (result : option Z) : M world Z :=
  do x <- txc_tx_get_xactstate txd ;;
  match x with
  | TXC_XACTSTATE_TRANSACTIONAL_RETRYABLE => finish result (x_dup_tx txd oldfd result)
  | TXC_XACTSTATE_TRANSACTIONAL_IRREVOCABLE | TXC_XACTSTATE_NONTRANSACTIONAL => x_dup_nontx oldfd result
  end.
End xdir.
