(* ===== verification/XPipe.v ===== *)
(** * Pipes ([xcalls/x_pipe.c], [x_read_pipe.c], [x_write_pipe.c],
      [x_printf.c])

    A write to a pipe is deferred: its bytes are copied to the transaction's
    linear buffer and written at commit.  A read consumes data the kernel cannot
    take back, so what a transaction reads stays in the circular buffer of the
    pipe's KOA until the transaction commits: an abort only forgets the
    speculative bounds, and the retry reads the same bytes from the buffer. *)

From S2P Require Import Prelude Dll Pool HashTable Buffer Actions World Tx Sentinel Koa XFile XDir.

Definition cb_set_state st b := CircularBuffer (cb_buf b) (cb_data b) (cb_size_max b)
  (primary_head b) (primary_tail b) (secondary_head b) (secondary_tail b)
  (speculative_primary_head b) (speculative_primary_tail b)
  (speculative_secondary_head b) (speculative_secondary_tail b) st.
Definition cb_set_primary h t b := CircularBuffer (cb_buf b) (cb_data b) (cb_size_max b)
  h t (secondary_head b) (secondary_tail b)
  (speculative_primary_head b) (speculative_primary_tail b)
  (speculative_secondary_head b) (speculative_secondary_tail b) (cb_state b).
Definition cb_set_secondary h t b := CircularBuffer (cb_buf b) (cb_data b) (cb_size_max b)
  (primary_head b) (primary_tail b) h t
  (speculative_primary_head b) (speculative_primary_tail b)
  (speculative_secondary_head b) (speculative_secondary_tail b) (cb_state b).
Definition cb_set_speculative ph pt sh st b := CircularBuffer (cb_buf b) (cb_data b) (cb_size_max b)
  (primary_head b) (primary_tail b) (secondary_head b) (secondary_tail b)
  ph pt sh st (cb_state b).
Definition cb_set_data d b := CircularBuffer (cb_buf b) d (cb_size_max b)
  (primary_head b) (primary_tail b) (secondary_head b) (secondary_tail b)
  (speculative_primary_head b) (speculative_primary_tail b)
  (speculative_secondary_head b) (speculative_secondary_tail b) (cb_state b).

(** ** The circular buffer *)

(** The body of [x_read_pipe_undo]. *)
Definition circular_undo (b : txc_buffer_circular_t) : txc_buffer_circular_t :=
  cb_set_state TXC_BUFFER_STATE_NON_SPECULATIVE b.

(** The body of [x_read_pipe_commit]. *)
Definition circular_commit (b : txc_buffer_circular_t) : txc_buffer_circular_t :=
  cb_set_state TXC_BUFFER_STATE_NON_SPECULATIVE
    (if bool_decide (speculative_primary_tail b <> speculative_primary_head b) then
       cb_set_primary (speculative_primary_head b) (speculative_primary_tail b) b
     else if bool_decide (speculative_secondary_tail b <> speculative_secondary_head b) then
       cb_set_secondary 0 0
         (cb_set_primary (speculative_secondary_head b) (speculative_secondary_tail b) b)
     else cb_set_secondary 0 0 (cb_set_primary 0 0 b)).

(** Start of a speculative read. *)
Definition circular_begin (b : txc_buffer_circular_t) : txc_buffer_circular_t :=
  cb_set_state TXC_BUFFER_STATE_SPECULATIVE
    (cb_set_speculative (primary_head b) (primary_tail b) (secondary_head b) (secondary_tail b) b).

(** Take [nbyte] bytes from the speculative queues: the index they are at
    ([hdr_base_index]), or nothing when both queues are empty. *)
Definition circular_spec_take (nbyte : Z) (b : txc_buffer_circular_t)
    : option (Z * txc_buffer_circular_t) :=
  if bool_decide (speculative_primary_tail b <> speculative_primary_head b) then
    Some (speculative_primary_head b,
      cb_set_speculative (u32 (speculative_primary_head b + nbyte)) (speculative_primary_tail b)
        (speculative_secondary_head b) (speculative_secondary_tail b) b)
  else if bool_decide (speculative_secondary_tail b <> speculative_secondary_head b) then
    Some (speculative_secondary_head b,
      cb_set_speculative (speculative_primary_head b) (speculative_primary_tail b)
        (u32 (speculative_secondary_head b + nbyte)) (speculative_secondary_tail b) b)
  else None.

(** Take [nbyte] bytes outside a transaction: when the primary queue is empty
    the secondary one becomes the primary. *)
Definition circular_take (nbyte : Z) (b : txc_buffer_circular_t)
    : option (Z * txc_buffer_circular_t) :=
  if bool_decide (primary_tail b <> primary_head b) then
    Some (primary_head b, cb_set_primary (u32 (primary_head b + nbyte)) (primary_tail b) b)
  else if bool_decide (secondary_tail b <> secondary_head b) then
    Some (secondary_head b,
      cb_set_secondary 0 0 (cb_set_primary (u32 (secondary_head b + nbyte)) (secondary_tail b) b))
  else None.

(** Where there is space for [needed] bytes: the index, and whether it is in the
    primary queue. The differences are [unsigned int]s. *)
Definition circular_space (needed : Z) (b : txc_buffer_circular_t) : option (Z * bool) :=
  if bool_decide (primary_tail b < u32 (cb_size_max b - needed)) then Some (primary_tail b, true)
  else if bool_decide (secondary_tail b < u32 (primary_head b + 1 - needed))
  then Some (secondary_tail b, false)
  else None.

(** Advance the tail of the queue the bytes went to. *)
Definition circular_advance (in_primary : bool) (n : Z) (b : txc_buffer_circular_t)
    : txc_buffer_circular_t :=
  if in_primary then cb_set_primary (primary_head b) (u32 (primary_tail b + n)) b
  else cb_set_secondary (secondary_head b) (u32 (secondary_tail b + n)) b.

(** The kernel stores bytes at [&buf[at]]: past the end it is undefined. *)
Fixpoint data_store (d : gmap Z byte) (i : Z) (bs : list byte) : gmap Z byte :=
  match bs with
  | [] => d
  | x :: bs' => data_store (<[i := x]> d) (i + 1) bs'
  end.

Definition circular_store (i : Z) (bs : list byte) (b : txc_buffer_circular_t)
    : option txc_buffer_circular_t :=
  if bool_decide (i + Z.of_nat (length bs) <= cb_size_max b)
  then Some (cb_set_data (data_store (cb_data b) i bs) b) else None.

(** [memcpy(buf, &buffer->buf[i], n)]; the buffer was [calloc]ed. *)
Definition data_load (d : gmap Z byte) (i n : Z) : list byte :=
  (fun j => default Byte.x00 (d !! j)) <$> seqZ i n.

Definition circular_load (i n : Z) (b : txc_buffer_circular_t) : option (list byte) :=
  if bool_decide (0 <= i) && bool_decide (i + n <= cb_size_max b)
  then Some (data_load (cb_data b) i n) else None.

Section xpipe.
Context {PF : Platform}.

(** ** [x_pipe] *)

Definition lock_two (fd0 fd1 : Z) : M world unit :=
  if bool_decide (fd0 < fd1) then txc_koa_lock_fd fd0 ;;; txc_koa_lock_fd fd1
  else txc_koa_lock_fd fd1 ;;; txc_koa_lock_fd fd0.

Definition run_x_pipe_undo (fd0 fd1 koa0 koa1 : Z) : M world Z :=
  do _ <- koa_get koa0 ;;
  lock_two fd0 fd1 ;;;
  do _ <- txc_koa_detach_fd koa0 fd0 false ;;
  do _ <- txc_koa_detach_fd koa1 fd1 false ;;
  do e <- or_errno (libc (sys_close fd0)) 0 ;;
  do e <- or_errno (libc (sys_close fd1)) e ;;
  txc_koa_unlock_fd fd0 ;;;
  txc_koa_unlock_fd fd1 ;;;
  m_ret e.

(** Make the two KOAs and bind the descriptors to them, locked. *)
Definition x_pipe_attach (fd0 fd1 : Z) : M world (Z * Z) :=
  do koa0 <- txc_koa_create TXC_KOA_IS_PIPE_READ_END 0 ;;
  do koa1 <- txc_koa_create TXC_KOA_IS_PIPE_WRITE_END 0 ;;
  lock_two fd0 fd1 ;;;
  do _ <- txc_koa_attach_fd koa0 fd0 false ;;
  do _ <- txc_koa_attach_fd koa1 fd1 false ;;
  m_ret (koa0, koa1).

Definition x_pipe_tx (txd : Z) (result : option Z) : M world ((Z * (Z * Z)) * Z) :=
  do ' (ret, (fd0, fd1)) <- libc sys_pipe ;;
  if neg ret then do e <- get_errno ;; m_ret ((ret, (fd0, fd1)), e)
  else
    do ' (koa0, koa1) <- x_pipe_attach fd0 fd1 ;;
    acquire_new txd koa0 ;;;
    acquire_new txd koa1 ;;;
    malloc_or_exit txd (sizeof sz_x_pipe_undo_args_t) ;;;
    do _ <- txc_tx_register_undo_action txd (x_pipe_undo fd0 fd1 koa0 koa1) result
              TXC_KOA_CREATE_UNDO_ACTION_ORDER ;;
    txc_koa_unlock_fd fd0 ;;;
    txc_koa_unlock_fd fd1 ;;;
    m_ret ((0, (fd0, fd1)), 0).

Definition x_pipe_nontx : M world ((Z * (Z * Z)) * Z) :=
  do ' (ret, (fd0, fd1)) <- libc sys_pipe ;;
  if neg ret then do e <- get_errno ;; m_ret ((ret, (fd0, fd1)), e)
  else
    do _ <- x_pipe_attach fd0 fd1 ;;
    txc_koa_unlock_fd fd0 ;;;
    txc_koa_unlock_fd fd1 ;;;
    m_ret ((0, (fd0, fd1)), 0).

Definition x_pipe (txd : Z) (result : option Z) : M world (Z * (Z * Z)) :=
  do x <- txc_tx_get_xactstate txd ;;
  finish result
    match x with
    | TXC_XACTSTATE_TRANSACTIONAL_RETRYABLE => x_pipe_tx txd result
    | TXC_XACTSTATE_TRANSACTIONAL_IRREVOCABLE | TXC_XACTSTATE_NONTRANSACTIONAL => x_pipe_nontx
    end.

(** ** [x_read_pipe] *)

Definition circular_upd (a : Z) (f : txc_buffer_circular_t -> txc_buffer_circular_t) : M world unit :=
  in_buffermgr (do b <- circular_get a ;; circular_put a (f b)).

Definition run_x_read_pipe_undo (buffer : Z) : M world Z :=
  circular_upd buffer circular_undo ;;; m_ret 0.
Definition run_x_read_pipe_commit (buffer : Z) : M world Z :=
  circular_upd buffer circular_commit ;;; m_ret 0.

(** [memcpy(buf, &buffer->buf[hdr_base_index], nbyte); local_result = 0;] *)
Definition read_pipe_copy (buffer hdr_base_index nbyte ret : Z) : M world ((Z * list byte) * Z) :=
  do b <- in_buffermgr (circular_get buffer) ;;
  do bs <- m_deref (circular_load hdr_base_index nbyte b) ;;
  m_ret ((ret, bs), 0).

(** Not in a transaction. [ret] is not assigned when the bytes come from the
    buffer. *)
Definition read_pipe_plain (fd buffer nbyte : Z) : M world ((Z * list byte) * Z) :=
  do b <- in_buffermgr (circular_get buffer) ;;
  match circular_take nbyte b with
  | Some (hdr_base_index, b') =>
      in_buffermgr (circular_put buffer b') ;;;
      read_pipe_copy buffer hdr_base_index nbyte uninit
  | None =>
      do r <- libc (sys_read fd nbyte) ;;
      do e <- get_errno ;;
      m_ret (r, e)
  end.

(** Open the speculation of the buffer: false when the argument block cannot be
    allocated. *)
Definition read_pipe_begin (txd koa buffer : Z) (result : option Z) : M world bool :=
  do b <- in_buffermgr (circular_get buffer) ;;
  if bool_decide (cb_state b = TXC_BUFFER_STATE_NON_SPECULATIVE) then
    do args <- tx_linear_malloc txd (sizeof sz_x_read_pipe_args_t) ;;
    match args with
    | None => m_ret false
    | Some _ =>
        circular_upd buffer circular_begin ;;;
        do _ <- txc_tx_register_commit_action txd (x_read_pipe_commit koa buffer) result
                  TXC_TX_REGULAR_COMMIT_ACTION_ORDER ;;
        do _ <- txc_tx_register_undo_action txd (x_read_pipe_undo koa buffer) result
                  TXC_TX_REGULAR_UNDO_ACTION_ORDER ;;
        m_ret true
    end
  else m_ret true.

(** Read from the kernel into the buffer. *)
Definition read_pipe_fill (fd buffer nbyte : Z) : M world ((Z * list byte) * Z) :=
  do b <- in_buffermgr (circular_get buffer) ;;
  match circular_space nbyte b with
  | None => m_ret ((-1, []), ENOMEM)
  | Some (hdr_base_index, in_primary) =>
      do ' (ret, bs) <- libc (sys_read fd nbyte) ;;
      do b' <- m_deref (circular_store hdr_base_index bs b) ;;
      in_buffermgr (circular_put buffer
        (if bool_decide (ret > 0) then circular_advance in_primary ret b' else b')) ;;;
      read_pipe_copy buffer hdr_base_index nbyte ret
  end.

Definition read_pipe_speculative (txd koa fd buffer nbyte : Z) (result : option Z)
    : M world ((Z * list byte) * Z) :=
  do ok <- read_pipe_begin txd koa buffer result ;;
  if negb ok then m_ret ((-1, []), ENOMEM)
  else
    do b <- in_buffermgr (circular_get buffer) ;;
    match circular_spec_take nbyte b with
    | Some (hdr_base_index, b') =>
        in_buffermgr (circular_put buffer b') ;;;
        read_pipe_copy buffer hdr_base_index nbyte nbyte
    | None => read_pipe_fill fd buffer nbyte
    end.

(** [__txc_read_pipe] *)
Definition __txc_read_pipe (txd : Z) (speculative_read : bool) (fd nbyte : Z) (result : option Z)
    : M world (Z * list byte) :=
  finish result
    (txc_koa_lock_fd fd ;;;
     do ' (xret, koa) <- txc_koa_lookup_fd2koa fd ;;
     if bool_decide (xret = TXC_R_FAILURE) then
       txc_koa_unlock_fd fd ;;; m_ret ((-1, []), EBADF)
     else
       do buffer <- txc_koa_get_buffer koa ;;
       if negb speculative_read then
         txc_koa_unlock_fd fd ;;; read_pipe_plain fd buffer nbyte
       else
         do sentinel <- txc_koa_get_sentinel koa ;;
         do xret <- txc_sentinel_tryacquire txd sentinel TXC_SENTINEL_ACQUIREONRETRY ;;
         txc_koa_unlock_fd fd ;;;
         if bool_decide (xret = TXC_R_BUSYSENTINEL)
         then txc_tx_abort_transaction txd TXC_ABORTREASON_BUSYSENTINEL
         else read_pipe_speculative txd koa fd buffer nbyte result).

Definition x_read_pipe (txd fd nbyte : Z) (result : option Z) : M world (Z * list byte) :=
  do x <- txc_tx_get_xactstate txd ;;
  match x with
  | TXC_XACTSTATE_TRANSACTIONAL_IRREVOCABLE | TXC_XACTSTATE_NONTRANSACTIONAL =>
      __txc_read_pipe txd false fd nbyte result
  | TXC_XACTSTATE_TRANSACTIONAL_RETRYABLE => __txc_read_pipe txd true fd nbyte result
  end.

(** ** [x_write_pipe] *)

Definition run_x_write_pipe_commit (fd : Z) (buf : list byte) : M world Z :=
  or_errno (libc (sys_write fd buf)) 0.

Definition x_write_pipe_tx (txd fd : Z) (buf : list byte) (result : option Z) : M world (Z * Z) :=
  let nbyte := Z.of_nat (length buf) in
  do acq <- acquire_fd txd fd TXC_SENTINEL_ACQUIREONRETRY ;;
  match acq with
  | None => m_ret (-1, EBADF)
  | Some _ =>
      do args <- tx_linear_malloc txd (sizeof sz_x_write_commit_args_t) ;;
      match args with
      | None => m_ret (-1, ENOMEM)
      | Some _ =>
          do deferred_data <- tx_linear_malloc txd nbyte ;;
          match deferred_data with
          | None =>
              tx_linear_free txd (sizeof sz_x_write_commit_args_t) ;;;
              m_ret (-1, ENOMEM)
          | Some _ =>
              do _ <- txc_tx_register_commit_action txd (x_write_pipe_commit fd buf nbyte) result
                        TXC_TX_REGULAR_COMMIT_ACTION_ORDER ;;
              m_ret (nbyte, 0)
          end
      end
  end.

Definition x_write_pipe (txd fd : Z) (buf : list byte) (result : option Z) : M world Z :=
  do x <- txc_tx_get_xactstate txd ;;
  finish result
    match x with
    | TXC_XACTSTATE_TRANSACTIONAL_IRREVOCABLE | TXC_XACTSTATE_NONTRANSACTIONAL =>
        plain neg (libc (sys_write fd buf))
    | TXC_XACTSTATE_TRANSACTIONAL_RETRYABLE => x_write_pipe_tx txd fd buf result
    end.

(** [x_printf]: the formatted text, at most 512 bytes with its NUL, goes to
    descriptor 1. *)
Definition x_printf (txd : Z) (text : list byte) : M world Z :=
  if bool_decide (Z.of_nat (length text) < 512) then x_write_pipe txd 1 text None else m_undef.
End xpipe.
