(* ===== verification/XSock.v ===== *)
(** * Sockets ([xcalls/x_socket.c], [x_sendmsg.c], [x_recvmsg.c])

    A message sent in a transaction is deferred: its header, its array of
    [iovec]s and its control message are copied to the transaction's log. A
    message received stays, with a header, in the circular buffer of the socket's
    KOA until the transaction commits, like the bytes read from a pipe. *)

From S2P Require Import Prelude Dll Pool HashTable Buffer Actions World Tx Sentinel Koa XFile XDir XPipe.

Definition SOCK_STREAM : Z := 1.
Definition SOCK_DGRAM : Z := 2.
Definition EINVAL : Z := 22.

Definition TXC_DGRAM_MAX_SIZE : Z := 1024 * 64.
Definition TXC_CONTROLMSG_MAX_SIZE : Z := 1024 * 2.

(** ** Headers in the buffer *)

(** [struct txc_socket_msghdr_s] *)
Record txc_socket_msghdr_t := SocketMsghdr {
  sm_name : list byte;
  sm_namelen : Z;
  sm_iov_base : Z;
  sm_iov_len : Z;
  sm_control : Z;
  sm_controllen : Z;
  sm_flags : Z;
}.

(** On IA-32: a [sockaddr_in] of 16 bytes and six words. *)
Definition SOCKADDR_SIZE : Z := 16.
Definition MSGHDR_SIZE : Z := 40.

Definition byte_of_Z (z : Z) : byte := default Byte.x00 (Byte.of_N (Z.to_N (z mod 256))).
Definition Z_of_byte (b : byte) : Z := Z.of_N (Byte.to_N b).

(** A word in memory, lowest byte first. *)
Definition le32 (z : Z) : list byte :=
  [byte_of_Z z; byte_of_Z (Z.shiftr z 8); byte_of_Z (Z.shiftr z 16); byte_of_Z (Z.shiftr z 24)].
Definition of_le32 (bs : list byte) : Z :=
  foldr (fun b z => Z_of_byte b + 256 * z) 0 bs.

Definition encode_msghdr (h : txc_socket_msghdr_t) : list byte :=
  sm_name h ++ le32 (sm_namelen h) ++ le32 (sm_iov_base h) ++ le32 (sm_iov_len h) ++
  le32 (sm_control h) ++ le32 (sm_controllen h) ++ le32 (sm_flags h).

Definition word_at (i : nat) (bs : list byte) : Z := of_le32 (take 4 (drop (16 + 4 * i) bs)).
Definition decode_msghdr (bs : list byte) : txc_socket_msghdr_t :=
  SocketMsghdr (take 16 bs) (word_at 0 bs) (word_at 1 bs) (word_at 2 bs) (word_at 3 bs) (word_at 4 bs)
    (word_at 5 bs).

(** The header at an index of the buffer, and its store. *)
Definition msghdr_at (i : Z) (b : txc_buffer_circular_t) : option txc_socket_msghdr_t :=
  decode_msghdr <$> circular_load i MSGHDR_SIZE b.
Definition msghdr_put (i : Z) (h : txc_socket_msghdr_t) (b : txc_buffer_circular_t)
    : option txc_buffer_circular_t := circular_store i (encode_msghdr h) b.

(** [len]: the bytes a message takes. *)
Definition msg_len (h : txc_socket_msghdr_t) : Z := MSGHDR_SIZE + sm_iov_len h + sm_controllen h.

(** The pointer arithmetic on [temp_buffer_msghdr] counts headers. *)
Definition iov_base_offset : Z := MSGHDR_SIZE * MSGHDR_SIZE.
Definition control_offset : Z := MSGHDR_SIZE * (MSGHDR_SIZE + TXC_DGRAM_MAX_SIZE).

(** Bytes at a pointer into the buffer. *)
Definition ptr_load (p n : Z) (b : txc_buffer_circular_t) : option (list byte) :=
  circular_load (p - cb_buf b) n b.
Definition ptr_store (p : Z) (bs : list byte) (b : txc_buffer_circular_t) : option txc_buffer_circular_t :=
  if bool_decide (0 <= p - cb_buf b) then circular_store (p - cb_buf b) bs b else None.

(** ** The message an application gets *)

Inductive app_msg :=
  | NoMessage
  | FromKernel (r : received)
  | FromBuffer (name : list byte) (namelen : Z) (chunks : list (list byte)) (flags controllen : Z)
      (control : list byte).

(** The bytes for each of the application's [iovec]s, from [msg_iov_base + s]. *)
Fixpoint iov_chunks (iov_lens : list Z) (p : Z) (b : txc_buffer_circular_t) : option (list (list byte)) :=
  match iov_lens with
  | [] => Some []
  | n :: ns => c ← ptr_load p n b; cs ← iov_chunks ns (p + n) b; Some (c :: cs)
  end.

(** "Copy data from the buffer back to the application buffer": the result is the
    sum of the application's lengths. *)
Definition msg_copy (iov_lens : list Z) (i : Z) (b : txc_buffer_circular_t) : option (Z * app_msg) :=
  h ← msghdr_at i b;
  chunks ← iov_chunks iov_lens (sm_iov_base h) b;
  control ← ptr_load (sm_control h) (sm_controllen h) b;
  Some (foldr Z.add 0 iov_lens,
        FromBuffer (sm_name h) (sm_namelen h) chunks (sm_flags h) (sm_controllen h) control).

(** Take a message outside a transaction. *)
Definition msg_take (b : txc_buffer_circular_t) : option (option (Z * txc_buffer_circular_t)) :=
  if bool_decide (primary_tail b <> primary_head b) then
    h ← msghdr_at (primary_head b) b; Some (circular_take (msg_len h) b)
  else if bool_decide (secondary_tail b <> secondary_head b) then
    h ← msghdr_at (secondary_head b) b; Some (circular_take (msg_len h) b)
  else Some None.

Section xsock.
Context {PF : Platform}.

(** Take one in a transaction: for the secondary queue [len] was not assigned. *)
Definition msg_spec_take (b : txc_buffer_circular_t) : option (option (Z * txc_buffer_circular_t)) :=
  if bool_decide (speculative_primary_tail b <> speculative_primary_head b) then
    h ← msghdr_at (speculative_primary_head b) b; Some (circular_spec_take (msg_len h) b)
  else Some (circular_spec_take uninit b).

(** ** [x_socket] *)

Definition run_x_socket_undo (fd koa : Z) : M world Z :=
  do _ <- koa_get koa ;;
  txc_koa_lock_fd fd ;;;
  do _ <- txc_koa_detach_fd koa fd false ;;
  do e <- or_errno (libc (sys_close fd)) 0 ;;
  txc_koa_unlock_fd fd ;;;
  m_ret e.

Definition x_socket_tx (txd domain type protocol koa_type : Z) (result : option Z) : M world (Z * Z) :=
  do fildes <- libc (sys_socket domain type protocol) ;;
  if neg fildes then do e <- get_errno ;; m_ret (fildes, e)
  else
    do koa <- txc_koa_create koa_type 0 ;;
    txc_koa_lock_fd fildes ;;;
    do _ <- txc_koa_attach_fd koa fildes false ;;
    acquire_new txd koa ;;;
    malloc_or_exit txd (sizeof sz_x_socket_undo_args_t) ;;;
    do _ <- txc_tx_register_undo_action txd (x_socket_undo fildes koa) result
              TXC_KOA_CREATE_UNDO_ACTION_ORDER ;;
    txc_koa_unlock_fd fildes ;;;
    m_ret (fildes, 0).

Definition x_socket_nontx (domain type protocol koa_type : Z) : M world (Z * Z) :=
  do fildes <- libc (sys_socket domain type protocol) ;;
  if neg fildes then do e <- get_errno ;; m_ret (fildes, e)
  else
    do koa <- txc_koa_create koa_type 0 ;;
    txc_koa_lock_fd fildes ;;;
    do _ <- txc_koa_attach_fd koa fildes false ;;
    txc_koa_unlock_fd fildes ;;;
    m_ret (fildes, 0).

(** For another [type], [koa_type] was not assigned. *)
Definition x_socket (txd domain type protocol : Z) (result : option Z) : M world Z :=
  if bool_decide (type = SOCK_STREAM) then finish result (m_ret (-1, EINVAL))
  else
    let koa_type := if bool_decide (type = SOCK_DGRAM) then TXC_KOA_IS_SOCK_DGRAM else uninit in
    do x <- txc_tx_get_xactstate txd ;;
    finish result
      match x with
      | TXC_XACTSTATE_TRANSACTIONAL_RETRYABLE => x_socket_tx txd domain type protocol koa_type result
      | TXC_XACTSTATE_TRANSACTIONAL_IRREVOCABLE | TXC_XACTSTATE_NONTRANSACTIONAL =>
          x_socket_nontx domain type protocol koa_type
      end.

(** ** [x_sendmsg] *)

Definition run_x_sendmsg_commit (fd : Z) (msg : msghdr) (flags : Z) : M world Z :=
  or_errno (libc (sys_sendmsg fd msg flags)) 0.

(** The copy: [msg_iovlen] bytes of the array, at [iov], and the control message
    after them. The kernel reads [msg_iovlen] elements. *)
Definition deferred_msg (iov : Z) (m : msghdr) : msghdr :=
  let kept := take (Z.to_nat (mh_iovlen m)) (mh_iov m) ++ mh_control m in
  let size := mh_iovlen m * sizeof sz_iovec in
  let rest := size - Z.of_nat (length kept) in
  MsgHdr (mh_name m) (mh_namelen m)
    (take (Z.to_nat size) (kept ++ log_stale (iov + Z.of_nat (length kept)) rest)) (mh_iovlen m)
    (mh_control m) (mh_flags m).

(** [ret] is not assigned on success. *)
Definition x_sendmsg_tx (txd fd : Z) (m : msghdr) (flags : Z) (result : option Z) : M world (Z * Z) :=
  do acq <- acquire_fd txd fd TXC_SENTINEL_ACQUIREONRETRY ;;
  match acq with
  | None => m_ret (-1, EBADF)
  | Some _ =>
      do args_commit <- tx_linear_malloc txd (sizeof sz_x_sendmsg_commit_args_t) ;;
      match args_commit with
      | None => m_ret (-1, ENOMEM)
      | Some _ =>
          do msg_iov <- tx_linear_malloc txd (mh_iovlen m) ;;
          match msg_iov with
          | None =>
              tx_linear_free txd (sizeof sz_x_sendmsg_commit_args_t) ;;;
              m_ret (-1, ENOMEM)
          | Some iov =>
              do msg_control <- tx_linear_malloc txd (Z.of_nat (length (mh_control m))) ;;
              match msg_control with
              | None =>
                  tx_linear_free txd (mh_iovlen m) ;;;
                  tx_linear_free txd (sizeof sz_x_sendmsg_commit_args_t) ;;;
                  m_ret (-1, ENOMEM)
              | Some _ =>
                  do _ <- txc_tx_register_commit_action txd
                            (x_sendmsg_commit fd (deferred_msg iov m) flags) result
                            TXC_TX_REGULAR_COMMIT_ACTION_ORDER ;;
                  m_ret (uninit, 0)
              end
          end
      end
  end.

Definition x_sendmsg (txd fd : Z) (m : msghdr) (flags : Z) (result : option Z) : M world Z :=
  do x <- txc_tx_get_xactstate txd ;;
  finish result
    match x with
    | TXC_XACTSTATE_TRANSACTIONAL_IRREVOCABLE | TXC_XACTSTATE_NONTRANSACTIONAL =>
        plain neg (libc (sys_sendmsg fd m flags))
    | TXC_XACTSTATE_TRANSACTIONAL_RETRYABLE => x_sendmsg_tx txd fd m flags result
    end.

(** ** [x_recvmsg] *)

Definition run_x_recvmsg_undo (buffer : Z) : M world Z := circular_upd buffer circular_undo ;;; m_ret 0.
Definition run_x_recvmsg_commit (buffer : Z) : M world Z := circular_upd buffer circular_commit ;;; m_ret 0.

(** The copy to the application, with [local_result = 0]. *)
Definition recvmsg_copy (buffer : Z) (iov_lens : list Z) (i : Z) : M world ((Z * app_msg) * Z) :=
  do b <- in_buffermgr (circular_get buffer) ;;
  do r <- m_deref (msg_copy iov_lens i b) ;;
  m_ret (r, 0).

(** Outside a transaction. *)
Definition recvmsg_plain (fd buffer : Z) (iov_lens : list Z) (msg_controllen flags : Z)
    : M world ((Z * app_msg) * Z) :=
  do b <- in_buffermgr (circular_get buffer) ;;
  do t <- m_deref (msg_take b) ;;
  match t with
  | Some (i, b') =>
      in_buffermgr (circular_put buffer b') ;;;
      recvmsg_copy buffer iov_lens i
  | None =>
      do ' (ret, r) <- libc (sys_recvmsg fd (foldr Z.add 0 iov_lens) msg_controllen flags) ;;
      do e <- get_errno ;;
      m_ret ((ret, FromKernel r), e)
  end.

Definition recvmsg_begin (txd koa buffer : Z) (result : option Z) : M world bool :=
  do b <- in_buffermgr (circular_get buffer) ;;
  if bool_decide (cb_state b = TXC_BUFFER_STATE_NON_SPECULATIVE) then
    do args <- tx_linear_malloc txd (sizeof sz_x_recvmsg_commit_undo_args_t) ;;
    match args with
    | None => m_ret false
    | Some _ =>
        circular_upd buffer circular_begin ;;;
        do _ <- txc_tx_register_commit_action txd (x_recvmsg_commit koa buffer) result
                  TXC_TX_REGULAR_COMMIT_ACTION_ORDER ;;
        do _ <- txc_tx_register_undo_action txd (x_recvmsg_undo koa buffer) result
                  TXC_TX_REGULAR_UNDO_ACTION_ORDER ;;
        m_ret true
    end
  else m_ret true.

(** The header before the call: the two pointers are set. *)
Definition msghdr_prepare (i : Z) (b : txc_buffer_circular_t) : option txc_buffer_circular_t :=
  h ← msghdr_at i b;
  let at_ := cb_buf b + i in
  msghdr_put i (SocketMsghdr (sm_name h) (sm_namelen h) (at_ + iov_base_offset) (sm_iov_len h)
    (at_ + control_offset) (sm_controllen h) (sm_flags h)) b.

(** What the kernel stores: the address, the data and the control message. *)
Definition kernel_store (i : Z) (r : received) (b : txc_buffer_circular_t) : option txc_buffer_circular_t :=
  h ← msghdr_at i b;
  b1 ← circular_store i (take (Z.to_nat SOCKADDR_SIZE) (rc_name r)) b;
  b2 ← ptr_store (sm_iov_base h) (rc_data r) b1;
  ptr_store (sm_control h) (rc_control r) b2.

(** A message of [ret] bytes has come: complete its header, advance the tail of
    its queue, and move the control message behind the data. *)
Definition msghdr_complete (i ret : Z) (in_primary : bool) (r : received) (b : txc_buffer_circular_t)
    : option txc_buffer_circular_t :=
  h ← msghdr_at i b;
  let h := SocketMsghdr (sm_name h) (rc_namelen r) (sm_iov_base h) ret (sm_control h)
             (Z.of_nat (length (rc_control r))) (rc_flags r) in
  b1 ← msghdr_put i h b;
  let b2 := circular_advance in_primary (msg_len h) b1 in
  if bool_decide (sm_controllen h > 0) then
    c ← ptr_load (sm_control h) (sm_controllen h) b2;
    ptr_store (sm_iov_base h + ret) c b2
  else Some b2.

(** Receive from the kernel into the buffer. What [recvmsg] returned is lost. *)
Definition recvmsg_fill (fd buffer : Z) (iov_lens : list Z) (flags : Z) : M world ((Z * app_msg) * Z) :=
  do b <- in_buffermgr (circular_get buffer) ;;
  match circular_space (MSGHDR_SIZE + TXC_DGRAM_MAX_SIZE + TXC_CONTROLMSG_MAX_SIZE) b with
  | None => m_ret ((-1, NoMessage), ENOMEM)
  | Some (i, in_primary) =>
      do b1 <- m_deref (msghdr_prepare i b) ;;
      do ' (ret, r) <- libc (sys_recvmsg fd TXC_DGRAM_MAX_SIZE TXC_CONTROLMSG_MAX_SIZE flags) ;;
      do b2 <- m_deref (if bool_decide (ret >= 0) then kernel_store i r b1 else Some b1) ;;
      do b3 <- m_deref (if bool_decide (ret > 0) then msghdr_complete i ret in_primary r b2 else Some b2) ;;
      in_buffermgr (circular_put buffer b3) ;;;
      recvmsg_copy buffer iov_lens i
  end.

Definition recvmsg_speculative (txd koa fd buffer : Z) (iov_lens : list Z) (flags : Z) (result : option Z)
    : M world ((Z * app_msg) * Z) :=
  do ok <- recvmsg_begin txd koa buffer result ;;
  if negb ok then m_ret ((-1, NoMessage), ENOMEM)
  else
    do b <- in_buffermgr (circular_get buffer) ;;
    do t <- m_deref (msg_spec_take b) ;;
    match t with
    | Some (i, b') =>
        in_buffermgr (circular_put buffer b') ;;;
        recvmsg_copy buffer iov_lens i
    | None => recvmsg_fill fd buffer iov_lens flags
    end.

(** [__txc_recvmsg]: the application's message has [iovec]s of these lengths and
    room for [msg_controllen] bytes of control message. *)
Definition __txc_recvmsg (txd : Z) (speculative_read : bool) (fd : Z) (iov_lens : list Z)
    (msg_controllen flags : Z) (result : option Z) : M world (Z * app_msg) :=
  finish result
    (txc_koa_lock_fd fd ;;;
     do ' (xret, koa) <- txc_koa_lookup_fd2koa fd ;;
     if bool_decide (xret = TXC_R_FAILURE) then
       txc_koa_unlock_fd fd ;;; m_ret ((-1, NoMessage), EBADF)
     else
       do buffer <- txc_koa_get_buffer koa ;;
       if negb speculative_read then
         txc_koa_unlock_fd fd ;;; recvmsg_plain fd buffer iov_lens msg_controllen flags
       else
         do sentinel <- txc_koa_get_sentinel koa ;;
         do xret <- txc_sentinel_tryacquire txd sentinel TXC_SENTINEL_ACQUIREONRETRY ;;
         txc_koa_unlock_fd fd ;;;
         if bool_decide (xret = TXC_R_BUSYSENTINEL)
         then txc_tx_abort_transaction txd TXC_ABORTREASON_BUSYSENTINEL
         else recvmsg_speculative txd koa fd buffer iov_lens flags result).

Definition x_recvmsg (txd s : Z) (iov_lens : list Z) (msg_controllen flags : Z) (result : option Z)
    : M world (Z * app_msg) :=
  do x <- txc_tx_get_xactstate txd ;;
  match x with
  | TXC_XACTSTATE_TRANSACTIONAL_IRREVOCABLE | TXC_XACTSTATE_NONTRANSACTIONAL =>
      __txc_recvmsg txd false s iov_lens msg_controllen flags result
  | TXC_XACTSTATE_TRANSACTIONAL_RETRYABLE => __txc_recvmsg txd true s iov_lens msg_controllen flags result
  end.
End xsock.
