(* ===== verification/XThread.v ===== *)
(** * Threads and mutexes ([xcalls/x_pthread_create.c],
      [x_pthread_mutex_init.c], [x_pthread_mutex_lock.c],
      [x_pthread_mutex_unlock.c])

    A thread made in a transaction starts at once, but waits on the lock of its
    control block until the transaction ends: the commit action opens the lock,
    the undo action clears the start routine and opens the lock.  A mutex is
    locked at once with [trylock], and unlocked by the undo action; an unlock is
    deferred to commit. *)

From S2P Require Import Prelude Dll Pool HashTable Buffer Actions World Tx Sentinel Koa XFile XDir.

Section xthread.
Context {PF : Platform}.

(** ** [x_pthread_create] *)

Definition block_get (b : Z) : M world x_pthread_create_control_block_t :=
  do w <- m_get ;; m_deref (w_blocks w !! b).
Definition block_put (b : Z) (cb : x_pthread_create_control_block_t) : M world unit :=
  m_modify (fun w => set_blocks (<[b := cb]> (w_blocks w)) w).

Definition run_x_pthread_create_commit (control_block : Z) : M world Z :=
  do cb <- block_get control_block ;;
  block_put control_block (ControlBlock false (start cb) (cb_arg cb)) ;;;
  m_ret 0.

Definition run_x_pthread_create_undo (control_block : Z) : M world Z :=
  do cb <- block_get control_block ;;
  block_put control_block (ControlBlock false None (cb_arg cb)) ;;;
  m_ret 0.

(** The child: the call it makes, if any. It frees the block. *)
Definition x_pthread_create_start_indirection (control_block : Z) : M world (option (Z * Z)) :=
  do cb <- block_get control_block ;;
  let myarg := cb_arg cb in
  if start_lock cb then m_block else
  block_put control_block (ControlBlock true (start cb) (cb_arg cb)) ;;;
  do cb <- block_get control_block ;;
  m_modify (fun w => set_blocks (delete control_block (w_blocks w)) w) ;;;
  match start cb with
  | Some start_routine => m_ret (Some (start_routine, myarg))
  | None => m_ret None
  end.

(** [control_block] is what [MALLOC] returns; it is written unchecked. What
    [pthread_create] returns is not looked at in a transaction. *)
Definition x_pthread_create_tx (txd : Z) (control_block : option Z) (start_routine arg : Z)
    (result : option Z) : M world (Z * Z) :=
  do b <- m_deref control_block ;;
  block_put b (ControlBlock true (Some start_routine) arg) ;;;
  do _ <- libc (pthread_create indirection_ptr b) ;;
  do _ <- txc_tx_register_commit_action txd (x_pthread_create_commit b) result
            TXC_TX_REGULAR_COMMIT_ACTION_ORDER ;;
  do _ <- txc_tx_register_undo_action txd (x_pthread_create_undo b) result
            TXC_TX_REGULAR_UNDO_ACTION_ORDER ;;
  m_ret (0, 0).

(** [if ((ret = call()) != 0) local_result = ret;] *)
Definition code (call : M world Z) : M world (Z * Z) := do ret <- call ;; m_ret (ret, ret).

Definition x_pthread_create (txd : Z) (control_block : option Z) (start_routine arg : Z)
    (result : option Z) : M world Z :=
  do x <- txc_tx_get_xactstate txd ;;
  finish result
    match x with
    | TXC_XACTSTATE_TRANSACTIONAL_RETRYABLE =>
        x_pthread_create_tx txd control_block start_routine arg result
    | TXC_XACTSTATE_TRANSACTIONAL_IRREVOCABLE | TXC_XACTSTATE_NONTRANSACTIONAL =>
        code (libc (pthread_create start_routine arg))
    end.

(** ** Mutexes *)

Definition x_pthread_mutex_init (txd mutex : Z) (result : option Z) : M world Z :=
  do _ <- txc_tx_get_xactstate txd ;;
  finish result (code (libc (pthread_mutex_init mutex))).

(** A lock that is held makes the thread wait. *)
Definition mutex_lock (mutex : Z) : M world Z := fun w =>
  match pthread_mutex_lock mutex (w_kernel w) with
  | Some (ret, k) => Ret ret (set_kernel k w)
  | None => Block
  end.

Definition run_x_pthread_mutex_lock_undo (mutex : Z) : M world Z := libc (pthread_mutex_unlock mutex).

Definition x_pthread_mutex_lock_tx (txd mutex : Z) (result : option Z) : M world (Z * Z) :=
  malloc_or_exit txd (sizeof sz_x_undo_args_t) ;;;
  do ret <- libc (pthread_mutex_trylock mutex) ;;
  if bool_decide (ret <> 0) then txc_tx_abort_transaction txd TXC_ABORTREASON_BUSYTXLOCK
  else
    do _ <- txc_tx_register_undo_action txd (x_pthread_mutex_lock_undo mutex) result
              TXC_TX_REGULAR_UNDO_ACTION_ORDER ;;
    m_ret (ret, 0).

Definition x_pthread_mutex_lock (txd mutex : Z) (result : option Z) : M world Z :=
  do x <- txc_tx_get_xactstate txd ;;
  finish result
    match x with
    | TXC_XACTSTATE_TRANSACTIONAL_RETRYABLE => x_pthread_mutex_lock_tx txd mutex result
    | TXC_XACTSTATE_TRANSACTIONAL_IRREVOCABLE | TXC_XACTSTATE_NONTRANSACTIONAL => code (mutex_lock mutex)
    end.

Definition run_x_pthread_mutex_unlock_commit (mutex : Z) : M world Z := libc (pthread_mutex_unlock mutex).

Definition x_pthread_mutex_unlock_tx (txd mutex : Z) (result : option Z) : M world (Z * Z) :=
  malloc_or_exit txd (sizeof sz_x_commit_args_t) ;;;
  do _ <- txc_tx_register_commit_action txd (x_pthread_mutex_unlock_commit mutex) result
            TXC_TX_REGULAR_COMMIT_ACTION_ORDER ;;
  m_ret (0, 0).

Definition x_pthread_mutex_unlock (txd mutex : Z) (result : option Z) : M world Z :=
  do x <- txc_tx_get_xactstate txd ;;
  finish result
    match x with
    | TXC_XACTSTATE_TRANSACTIONAL_RETRYABLE => x_pthread_mutex_unlock_tx txd mutex result
    | TXC_XACTSTATE_TRANSACTIONAL_IRREVOCABLE | TXC_XACTSTATE_NONTRANSACTIONAL =>
        code (libc (pthread_mutex_unlock mutex))
    end.
End xthread.
