(* ===== verification/System.v ===== *)
(** * Running transactions ([core/tx.c], [core/interface.c], [inc/txc/txc.h])

    [run_action] runs a registered function on its arguments; the two generic
    actions run the lists; [xact_begin], [xact_commit] and [xact_abort] are the
    sequences of calls a transaction's begin, commit and abort make, with what
    the TM library does in between: it runs the generic callback registered with
    the transaction, and after an abort other than a user abort it restarts the
    transaction at the begin. *)

From S2P Require Import Prelude Dll Pool HashTable Buffer Actions World Tx Sentinel Koa XFile XDir XPipe XSock XThread.

Section system.
Context {PF : Platform}.

Definition run_action (a : action) : M world Z :=
  match a with
  | sentinelmgr_commit_action txd => sentinelmgr_commit txd
  | sentinelmgr_undo_action txd => sentinelmgr_undo txd
  | x_read_undo fd nbyte => run_x_read_undo fd nbyte
  | x_write_seq_undo fd nbyte_new => run_x_write_seq_undo fd nbyte_new
  | x_write_ovr_undo fd buf nbyte_new nbyte_old => run_x_write_ovr_undo fd buf nbyte_new nbyte_old
  | x_lseek_undo fd old_position => run_x_lseek_undo fd old_position
  | x_fsync_commit fd => run_x_fsync_commit fd
  | x_fdatasync_commit fd => run_x_fdatasync_commit fd
  | x_close_commit fd koa => run_x_close_commit fd koa
  | x_open_undo fd koa => run_x_open_undo fd koa
  | x_create_case1_undo fd koa p => run_x_create_case1_undo fd koa p
  | x_create_case2_commit _ _ temp _ => run_x_create_case2_commit temp
  | x_create_case2_undo fd koa temp p => run_x_create_case2_undo fd koa temp p
  | x_dup_undo fd koa => run_x_dup_undo fd koa
  | x_unlink_commit koa p => run_x_unlink_commit koa p
  | x_rename_commit ok nk valid o n t => run_x_rename_commit ok nk valid o
  | x_rename_undo ok nk valid o n t => run_x_rename_undo ok nk valid n t
  | x_pipe_undo fd0 fd1 koa0 koa1 => run_x_pipe_undo fd0 fd1 koa0 koa1
  | x_read_pipe_commit _ buffer => run_x_read_pipe_commit buffer
  | x_read_pipe_undo _ buffer => run_x_read_pipe_undo buffer
  | x_write_pipe_commit fd buf _ => run_x_write_pipe_commit fd buf
  | x_socket_undo fd koa => run_x_socket_undo fd koa
  | x_sendmsg_commit fd msg flags => run_x_sendmsg_commit fd msg flags
  | x_recvmsg_commit _ buffer => run_x_recvmsg_commit buffer
  | x_recvmsg_undo _ buffer => run_x_recvmsg_undo buffer
  | x_pthread_create_commit b => run_x_pthread_create_commit b
  | x_pthread_create_undo b => run_x_pthread_create_undo b
  | x_pthread_mutex_lock_undo m => run_x_pthread_mutex_lock_undo m
  | x_pthread_mutex_unlock_commit m => run_x_pthread_mutex_unlock_commit m
  | app_action f a => libc (app_run f a)
  end.

(** ** The generic actions ([core/tx.c]) *)

Definition tx_generic_undo_action (txd : Z) : M world unit :=
  do t <- txd_get txd ;;
  do first_error_result <- exec_undo_actions run_action store_int (undo_action_list t) ;;
  txc_tx_init txd ;;;
  txc_fm_handle_undo_failure txd first_error_result.

Definition tx_generic_commit_action (txd : Z) : M world unit :=
  do t <- txd_get txd ;;
  do first_error_result <- exec_commit_actions run_action store_int (commit_action_list t) ;;
  txc_tx_init txd ;;;
  txd_upd txd (tx_set_forced_retries 0) ;;;
  txc_fm_handle_commit_failure txd first_error_result.

(** ** Begin, commit and abort *)

Definition txc_tx_post_begin (txd : Z) : M world unit :=
  txc_sentinel_transaction_postbegin txd ;;;
  txc_fm_transaction_postbegin txd.

(** The TM library enters a transaction with no callback registered. *)
Definition itm_enter (txd : Z) : M world unit :=
  txd_upd txd (tx_set_itm_td (ItmTransaction TXC_XACTSTATE_TRANSACTIONAL_RETRYABLE false false)).

Definition itm_leave (txd : Z) : M world unit :=
  txd_upd txd (tx_set_itm_td (ItmTransaction TXC_XACTSTATE_NONTRANSACTIONAL false false)).

(** [XACT_BEGIN] of an outermost transaction. *)
Definition xact_begin (txd : Z) : M world unit :=
  txc_tx_pre_begin txd ;;; itm_enter txd ;;; txc_tx_post_begin txd.

(** [XACT_END]: the TM library commits and runs the commit callback. *)
Definition xact_commit (txd : Z) : M world unit :=
  do t <- txd_get txd ;;
  (if itm_commit_registered (itm_td t) then tx_generic_commit_action txd else m_ret tt) ;;;
  itm_leave txd.

(** After [_ITM_abortTransaction]: the TM library rolls back, runs the undo
    callback and, unless the application aborted, restarts the transaction. *)
Definition xact_rollback (txd : Z) (reason : txc_tx_abortreason_t) : M world unit :=
  do t <- txd_get txd ;;
  (if itm_undo_registered (itm_td t) then tx_generic_undo_action txd else m_ret tt) ;;;
  if bool_decide (reason = TXC_ABORTREASON_USERABORT) then itm_leave txd
  else itm_enter txd ;;; txc_tx_post_begin txd.

(** Run the body of a transaction; when it aborts, roll back once. *)
Definition xact_attempt {A} (txd : Z) (body : M world A) : M world (option A) := fun w =>
  match body w with
  | Ret a w' => Ret (Some a) w'
  | Abort r w' => (xact_rollback txd r ;;; m_ret None) w'
  | Exit w' => Exit w'
  | Block => Block
  | Undef => Undef
  | NoFuel => NoFuel
  end.

(** ** The application's entry points ([core/interface.c]) *)

Definition _TXC_transaction_abort {A} (txc_l_txd : Z) (reason : txc_tx_abortreason_t) : M world A :=
  txc_tx_abort_transaction txc_l_txd reason.

Definition _TXC_get_xactstate (txc_l_txd : Z) : M world txc_tx_xactstate_t :=
  txc_tx_get_xactstate txc_l_txd.

Definition _TXC_transaction_pre_begin (txc_l_txd : Z) : M world unit := txc_tx_pre_begin txc_l_txd.
Definition _TXC_transaction_post_begin (txc_l_txd : Z) : M world unit := txc_tx_post_begin txc_l_txd.

Definition _TXC_fm_register (txc_l_txd flags : Z) (err : option Z) : M world unit :=
  txc_fm_register txc_l_txd flags err.

Definition _TXC_register_commit_action (txc_l_txd function args : Z) (error_result : option Z) : M world Z :=
  txc_tx_register_commit_action txc_l_txd (app_action function args) error_result
    TXC_TX_REGULAR_COMMIT_ACTION_ORDER.

Definition _TXC_register_undo_action (txc_l_txd function args : Z) (error_result : option Z) : M world Z :=
  txc_tx_register_undo_action txc_l_txd (app_action function args) error_result
    TXC_TX_REGULAR_UNDO_ACTION_ORDER.

(** [_TXC_thread_init]: the thread's descriptor. *)
Definition _TXC_thread_init (self itm_tid : Z) : M world Z := txc_tx_create self itm_tid.

(** ** Creation of the transaction manager *)

(** One iteration of the loop of [txc_txmgr_create]: the lists and the linear
    buffer of the descriptor at [txd]; [lists_ok] is whether [MALLOC] grants the
    lists, which is not looked at before they are written. *)
Definition txmgr_init_txd (lists_ok : bool) (txd : Z) : M world unit :=
  match txc_sentinel_list_create (if lists_ok then Some 0 else None) lists_ok with
  | (_, Some sl) =>
      txd_upd txd (tx_set_sentinel_list sl) ;;;
      txd_upd txd (tx_set_sentinel_list_preacquire sl) ;;;
      let la := (allocate_action_list_entries lists_ok false (ActionList None 0 TXC_ACTION_LIST_SIZE)).2 in
      txd_upd txd (tx_set_commit_action_list la) ;;;
      txd_upd txd (tx_set_undo_action_list la) ;;;
      do b <- in_buffermgr txc_buffer_linear_create ;;
      txd_upd txd (tx_set_buffer_linear b)
  | (_, None) => m_undef
  end.

(** A descriptor as [calloc] leaves it. *)
Definition zero_txd : txc_tx_t :=
  Tx 0 0 false false false false false false TXC_ABORTREASON_TMCONFLICT 0
    (ActionList None 0 0) (ActionList None 0 0) (SentinelList None 0 0) (SentinelList None 0 0)
    0 0 0 0 None false (ItmTransaction TXC_XACTSTATE_NONTRANSACTIONAL false false).

Definition txc_txmgr_create (m_mgr : option Z) (at_ : pool_allocs) (size : Z) (lists_ok : bool)
    : M world Z :=
  match m_mgr with
  | None => m_ret TXC_R_NOMEMORY
  | Some _ =>
      do r <- m_deref (txc_pool_create (pa_pool at_) (pa_list at_) (pa_buf at_) (pa_mutex at_) size
                TXC_MAX_NUM_THREADS None tt) ;;
      match r with
      | (c, None, _) => m_ret c
      | (_, Some p, _) =>
          match pool_for_each (length (obj_list p)) 0 p with
          | Ret objs p' =>
              m_modify (set_txmgr (TxMgr false 0 0 0 p' (list_to_map ((fun a => (a, zero_txd)) <$> objs)))) ;;;
              m_iter (txmgr_init_txd lists_ok) objs ;;;
              m_ret TXC_R_SUCCESS
          | _ => m_undef
          end
      end
  end.
End system.
