(* ===== verification/Modes.v ===== *)
(** * Execution modes and missing descriptors

    What the calls on a descriptor do outside a transaction, and what they do in
    a transaction on a descriptor the library does not know. *)

From S2P Require Import Prelude Dll Pool HashTable Buffer Actions World MemFs Tx Sentinel Views Koa XFile XDir XPipe.

Section modes.
Context {PF : Platform}.

(** [*result = v;] *)
Definition with_result (result : option Z) (v : Z) (w : world) : world :=
  match result with Some p => store_int p v w | None => w end.

(** The world after a system call. *)
Definition after_call (e : option Z) (k : kstate) (w : world) : world :=
  set_errno (default (w_errno w) e) (set_kernel k w).

Lemma store_result_run result v w : store_result result v w = Ret tt (with_result result v w).
Proof. by destruct result. Qed.

Lemma libc_run {A} (c : syscall kstate A) w a e k :
  c (w_kernel w) = (a, e, k) -> libc c w = Ret a (after_call e k w).
Proof. intros E. unfold libc. by rewrite E. Qed.

(** A call that only makes the system call and reports [errno]. *)
Lemma plain_run {A} (failed : A -> bool) (c : syscall kstate A) w a e k :
  c (w_kernel w) = (a, e, k) ->
  plain failed (libc c) w =
    Ret (a, if failed a then default (w_errno w) e else 0) (after_call e k w).
Proof.
  intros E. unfold plain. m_next by (by apply libc_run). by destruct (failed a).
Qed.

Lemma finish_run {A} result (body : M world (A * Z)) w a v w' :
  body w = Ret (a, v) w' -> finish result body w = Ret a (with_result result v w').
Proof.
  intros E. unfold finish. m_next by exact E. cbv iota. m_next by apply store_result_run. done.
Qed.

(** What a call that is only the system call [c] does: [c], then [*result] is 0,
    or [errno] when the call failed. *)
Definition is_plain_call {A} (failed : A -> bool) (c : syscall kstate A) (result : option Z)
    (w : world) (m : M world A) : Prop :=
  match c (w_kernel w) with
  | (a, e, k) => m w = Ret a
      (with_result result (if failed a then default (w_errno w) e else 0) (after_call e k w))
  end.

Lemma plain_call_run {A} (failed : A -> bool) (c : syscall kstate A) result w :
  is_plain_call failed c result w (finish result (plain failed (libc c))).
Proof.
  unfold is_plain_call. destruct (c (w_kernel w)) as [[a e] k] eqn:E.
  by apply finish_run, plain_run.
Qed.

Lemma plain_call_bind {A B} (failed : A -> bool) (c : syscall kstate A) result w
    (m : M world B) b (f : B -> M world A) :
  m w = Ret b w -> is_plain_call failed c result w (f b) ->
  is_plain_call failed c result w (m_bind m f).
Proof.
  unfold is_plain_call. intros E. destruct (c (w_kernel w)) as [[a e] k].
  intros H. by rewrite (m_bind_run _ _ _ _ _ E).
Qed.

(** Outside a transaction, and in an irrevocable one, reads, writes, seeks and syncs are
    the system calls: one call, its result, [*result] set to 0 or to its [errno], no
    sentinel, no KOA and no action list touched. [Outside] is about programs, and about the
    calls that open and close. *)
Theorem plain_calls txd fd n off whence buf result w x :
  tx_mode txd w = Some x -> x <> TXC_XACTSTATE_TRANSACTIONAL_RETRYABLE ->
  is_plain_call neg1 (sys_read fd n) result w (x_read txd fd n result) /\
  is_plain_call neg (sys_write fd buf) result w (x_write_seq txd fd buf result) /\
  is_plain_call neg (sys_write fd buf) result w (x_write_ovr_save txd fd buf result) /\
  is_plain_call neg (sys_write fd buf) result w (x_write_ovr_ignore txd fd buf result) /\
  is_plain_call neg (sys_lseek fd off whence) result w (x_lseek txd fd off whence result) /\
  is_plain_call neg (sys_fsync fd) result w (x_fsync txd fd result) /\
  is_plain_call neg (sys_fdatasync fd) result w (x_fdatasync txd fd result) /\
  is_plain_call neg (sys_write fd buf) result w (x_write_pipe txd fd buf result).
Proof.
  intros Hm%get_xactstate_run Hx.
  split_and!; (eapply plain_call_bind; [exact Hm|]; destruct x; try done; apply plain_call_run).
Qed.

(** *** A descriptor without a KOA *)

Lemma fd_lock_run fd koa w :
  fd_map (w_koamgr w) !! fd = Some (Fd2Koa false koa) ->
  txc_koa_lock_fd fd w =
    Ret tt (set_koamgr (set_fd_map (<[fd := Fd2Koa true koa]> (fd_map (w_koamgr w))) (w_koamgr w)) w).
Proof.
  intros H. unfold txc_koa_lock_fd, fd_upd, fd_get.
  m_next by (m_next; by rewrite H). cbn [fd_mutex]. m_next by (m_next; by rewrite H). done.
Qed.

Lemma fd_unlock_locked fd koa w :
  fd_map (w_koamgr w) !! fd = Some (Fd2Koa false koa) ->
  txc_koa_unlock_fd fd
    (set_koamgr (set_fd_map (<[fd := Fd2Koa true koa]> (fd_map (w_koamgr w))) (w_koamgr w)) w) = Ret tt w.
Proof.
  intros H. unfold txc_koa_unlock_fd, fd_upd, fd_get.
  m_next by (m_next; simpl; by rewrite lookup_insert_eq). unfold m_modify. f_equal.
  destruct w as [? ? ? ? ? [] ? ?]; simpl in *. unfold set_koamgr, set_fd_map; simpl.
  by rewrite insert_insert_eq, insert_id.
Qed.

Lemma lookup_fd_locked fd koa w b :
  fd_map (w_koamgr w) !! fd = Some (Fd2Koa b koa) ->
  txc_koa_lookup_fd2koa fd w =
    Ret (if bool_decide (koa = 0) then TXC_R_FAILURE else TXC_R_SUCCESS, koa) w.
Proof. intros H. unfold txc_koa_lookup_fd2koa, fd_get. m_next by (m_next; by rewrite H). done. Qed.

Lemma acquire_fd_ebadf txd fd flags w :
  fd_map (w_koamgr w) !! fd = Some (Fd2Koa false 0) -> acquire_fd txd fd flags w = Ret None w.
Proof.
  intros H. unfold acquire_fd. m_next by (by apply fd_lock_run).
  m_next by (apply (lookup_fd_locked fd 0 _ true); simpl; by rewrite lookup_insert_eq).
  cbv iota. rewrite !bool_decide_eq_true_2 by done. m_next by (by apply fd_unlock_locked). done.
Qed.

(** C40: In a retryable transaction reads, writes, seeks, syncs, [x_close] and the calls
    on pipes, on a descriptor that has no KOA, return -1 and store [EBADF] in [*result],
    make no system call, and leave the world as it was otherwise, with the descriptor
    unlocked. In particular they do not set [errno], which the comments on the calls
    promise for a failure that is reported at once. [x_dup] is different
    ([x_dup_ebadf_keeps_lock]). *)
Theorem ebadf_calls txd fd n off whence buf result w :
  tx_mode txd w = Some TXC_XACTSTATE_TRANSACTIONAL_RETRYABLE ->
  fd_map (w_koamgr w) !! fd = Some (Fd2Koa false 0) ->
  x_read txd fd n result w = Ret (-1, []) (with_result result EBADF w) /\
  x_write_seq txd fd buf result w = Ret (-1) (with_result result EBADF w) /\
  x_write_ovr_save txd fd buf result w = Ret (-1) (with_result result EBADF w) /\
  x_write_ovr_ignore txd fd buf result w = Ret (-1) (with_result result EBADF w) /\
  x_lseek txd fd off whence result w = Ret (-1) (with_result result EBADF w) /\
  x_fsync txd fd result w = Ret (-1) (with_result result EBADF w) /\
  x_fdatasync txd fd result w = Ret (-1) (with_result result EBADF w) /\
  x_close txd fd result w = Ret (-1) (with_result result EBADF w) /\
  x_read_pipe txd fd n result w = Ret (-1, []) (with_result result EBADF w) /\
  x_write_pipe txd fd buf result w = Ret (-1) (with_result result EBADF w).
Proof.
  intros Hm%get_xactstate_run Hfd.
  pose proof (fun flags => acquire_fd_ebadf txd fd flags w Hfd) as Ha.
  split_and!;
    unfold x_read, x_write_seq, x_write_ovr_save, x_write_ovr_ignore, x_write, x_lseek, x_fsync,
      x_fdatasync, x_close, x_read_pipe, x_write_pipe;
    m_next by exact Hm; cbv iota; try (apply finish_run;
      unfold x_read_tx, x_lseek_tx, x_sync_tx, x_close_tx, x_write_pipe_tx;
      m_next by apply Ha; done).
  apply finish_run. m_next by (by apply fd_lock_run).
  m_next by (apply (lookup_fd_locked fd 0 _ true); simpl; by rewrite lookup_insert_eq).
  cbv iota. rewrite !bool_decide_eq_true_2 by done. m_next by (by apply fd_unlock_locked). done.
Qed.

(** [x_dup] of such a descriptor returns -1 and [EBADF] like the others,
    but leaves the descriptor locked, so that the next operation of any thread on
    that descriptor waits forever. *)
Theorem x_dup_ebadf_keeps_lock txd fd n result w :
  tx_mode txd w = Some TXC_XACTSTATE_TRANSACTIONAL_RETRYABLE ->
  fd_map (w_koamgr w) !! fd = Some (Fd2Koa false 0) ->
  exists w', x_dup txd fd result w = Ret (-1) w' /\
    fd_map (w_koamgr w') !! fd = Some (Fd2Koa true 0) /\
    x_read txd fd n result w' = Block /\ txc_koa_lock_fd fd w' = Block.
Proof.
  intros Hm Hfd. pose proof (get_xactstate_run _ _ _ Hm) as Hx.
  assert (Hlk : forall w', fd_map (w_koamgr w') !! fd = Some (Fd2Koa true 0) ->
    txc_koa_lock_fd fd w' = Block).
  { intros w' H. unfold txc_koa_lock_fd, fd_get. by m_next by (m_next; by rewrite H). }
  eexists. split_and!.
  - unfold x_dup. m_next by exact Hx. apply finish_run. unfold x_dup_tx.
    m_next by (by apply fd_lock_run).
    m_next by (apply (lookup_fd_locked fd 0 _ true); simpl; by rewrite lookup_insert_eq).
    cbv iota. rewrite !bool_decide_eq_true_2 by done. done.
  - destruct result; simpl; by rewrite lookup_insert_eq.
  - unfold x_read. m_next by (apply get_xactstate_run; by destruct result).
    unfold finish, x_read_tx, acquire_fd, m_bind. rewrite Hlk; [done|].
    destruct result; simpl; by rewrite lookup_insert_eq.
  - apply Hlk. destruct result; simpl; by rewrite lookup_insert_eq.
Qed.
End modes.

(** *** Concrete instances *)

(** A thread with a descriptor, outside and inside a transaction, over one file
    the library does not know. *)
Definition world_out : world := mem_world (mf_one_file [Byte.x61; Byte.x62] 0) 4.

Definition world_in : world :=
  set_txmgr (set_txds (alter (tx_set_itm_td
    (ItmTransaction TXC_XACTSTATE_TRANSACTIONAL_RETRYABLE false false)) 1000
    (txds (w_txmgr world_out))) (w_txmgr world_out)) world_out.

Lemma plain_calls_witness :
  is_plain_call neg1 (sys_read 0 1) (Some 7) world_out (x_read 1000 0 1 (Some 7)) /\
  is_plain_call neg (sys_write 0 [Byte.x63]) (Some 7) world_out (x_write_seq 1000 0 [Byte.x63] (Some 7)) /\
  is_plain_call neg (sys_write 0 [Byte.x63]) (Some 7) world_out (x_write_ovr_save 1000 0 [Byte.x63] (Some 7)) /\
  is_plain_call neg (sys_write 0 [Byte.x63]) (Some 7) world_out (x_write_ovr_ignore 1000 0 [Byte.x63] (Some 7)) /\
  is_plain_call neg (sys_lseek 0 1 0) (Some 7) world_out (x_lseek 1000 0 1 0 (Some 7)) /\
  is_plain_call neg (sys_fsync 0) (Some 7) world_out (x_fsync 1000 0 (Some 7)) /\
  is_plain_call neg (sys_fdatasync 0) (Some 7) world_out (x_fdatasync 1000 0 (Some 7)) /\
  is_plain_call neg (sys_write 0 [Byte.x63]) (Some 7) world_out (x_write_pipe 1000 0 [Byte.x63] (Some 7)).
Proof.
  apply (plain_calls 1000 0 1 1 0 [Byte.x63] (Some 7) world_out TXC_XACTSTATE_NONTRANSACTIONAL);
    [run_eq|discriminate].
Defined.

Lemma ebadf_calls_witness :
  x_read 1000 0 1 (Some 7) world_in = Ret (-1, []) (with_result (Some 7) EBADF world_in) /\
  x_write_seq 1000 0 [] (Some 7) world_in = Ret (-1) (with_result (Some 7) EBADF world_in) /\
  x_write_ovr_save 1000 0 [] (Some 7) world_in = Ret (-1) (with_result (Some 7) EBADF world_in) /\
  x_write_ovr_ignore 1000 0 [] (Some 7) world_in = Ret (-1) (with_result (Some 7) EBADF world_in) /\
  x_lseek 1000 0 1 0 (Some 7) world_in = Ret (-1) (with_result (Some 7) EBADF world_in) /\
  x_fsync 1000 0 (Some 7) world_in = Ret (-1) (with_result (Some 7) EBADF world_in) /\
  x_fdatasync 1000 0 (Some 7) world_in = Ret (-1) (with_result (Some 7) EBADF world_in) /\
  x_close 1000 0 (Some 7) world_in = Ret (-1) (with_result (Some 7) EBADF world_in) /\
  x_read_pipe 1000 0 1 (Some 7) world_in = Ret (-1, []) (with_result (Some 7) EBADF world_in) /\
  x_write_pipe 1000 0 [] (Some 7) world_in = Ret (-1) (with_result (Some 7) EBADF world_in).
Proof. apply (ebadf_calls 1000 0 1 1 0 [] (Some 7) world_in); run_eq. Defined.

Lemma x_dup_ebadf_keeps_lock_witness :
  exists w', x_dup 1000 0 (Some 7) world_in = Ret (-1) w' /\
    fd_map (w_koamgr w') !! 0 = Some (Fd2Koa true 0) /\
    x_read 1000 0 1 (Some 7) w' = Block /\ txc_koa_lock_fd 0 w' = Block.
Proof. apply (x_dup_ebadf_keeps_lock 1000 0 1 (Some 7) world_in); run_eq. Defined.
