(* ===== verification/Frames.v ===== *)
(** * Frames: the registered actions and the kernel

    Facts that most operations keep: what a transaction has registered to
    compensate ([UndoSide]) or to do at commit ([CommitSide]), and whatever the
    transaction and sentinel managers do not see, such as the kernel ([Quiet]).
    The two lists are handled by the same code, so the lemmas are about either
    side; the properties of [Undo.v] and [Deferred.v] are built on them. *)

From S2P Require Import Prelude Dll Pool HashTable Buffer Actions World Tx Sentinel Views Koa XFile XDir XPipe System.

(** ** The two sides *)

Inductive side := UndoSide | CommitSide.

#[export] Instance side_eq_dec : EqDecision side.
Proof. solve_decision. Defined.

Definition side_list (sd : side) (t : txc_tx_t) : action_list :=
  match sd with UndoSide => undo_action_list t | CommitSide => commit_action_list t end.
Definition side_set (sd : side) : action_list -> txc_tx_t -> txc_tx_t :=
  match sd with UndoSide => tx_set_undo_action_list | CommitSide => tx_set_commit_action_list end.
(** Is the callback registered, for the library and for the TM library? *)
Definition side_generic (sd : side) (t : txc_tx_t) : bool :=
  match sd with UndoSide => generic_undo_action_registered t | CommitSide => generic_commit_action_registered t end.
Definition side_itm (sd : side) (t : txc_tx_t) : bool :=
  match sd with UndoSide => itm_undo_registered (itm_td t) | CommitSide => itm_commit_registered (itm_td t) end.

Section sides.
Context {PF : Platform} (sd : side).

Definition side_callback (a : Z) : M world unit :=
  match sd with
  | UndoSide => tmsystem_register_generic_undo_action a
  | CommitSide => tmsystem_register_generic_commit_action a
  end.
Definition side_register (a : Z) (f : action) (r : option Z) (o : Z) : M world Z :=
  match sd with
  | UndoSide => txc_tx_register_undo_action a f r o
  | CommitSide => txc_tx_register_commit_action a f r o
  end.

(** The list and the mode of a transaction. *)
Definition aview (txd : Z) (w : world) : option (action_list * txc_tx_xactstate_t) :=
  (fun t => (side_list sd t, itm_mode (itm_td t))) <$> txds (w_txmgr w) !! txd.

(** The TM library will run the callback when there is something to run. *)
Definition ready_tx (t : txc_tx_t) : Prop :=
  (side_generic sd t = true -> side_itm sd t = true) /\
  (0 < num_entries (side_list sd t) -> side_generic sd t = true).
Definition ready (txd : Z) (w : world) : Prop := forall t, txds (w_txmgr w) !! txd = Some t -> ready_tx t.

(** Neither the kernel nor the list of [txd] changes. *)
Definition same_side (txd : Z) (w w' : world) : Prop :=
  w_kernel w' = w_kernel w /\ aview txd w' = aview txd w /\ (ready txd w -> ready txd w').

#[global] Instance same_side_preorder txd : PreOrder (same_side txd).
Proof.
  split; [done|]. intros w1 w2 w3 (H1 & H2 & H3) (H4 & H5 & H6). split_and!; [congruence..|auto].
Qed.

(** What [ready_tx] and [aview] look at. *)
Definition side_fields (t : txc_tx_t) := (side_list sd t, itm_mode (itm_td t), side_generic sd t, side_itm sd t).
Definition keeps_side (f : txc_tx_t -> txc_tx_t) : Prop := forall t, side_fields (f t) = side_fields t.

Lemma aview_put_txd txd a t w :
  aview txd (put_txd a t w) =
  if decide (a = txd) then Some (side_list sd t, itm_mode (itm_td t)) else aview txd w.
Proof.
  unfold aview, put_txd; simpl. case_decide; [subst; by rewrite lookup_insert_eq|].
  by rewrite lookup_insert_ne.
Qed.

Lemma ready_put_txd txd a t w : (a = txd -> ready_tx t) -> ready txd w -> ready txd (put_txd a t w).
Proof.
  intros Ht Hw t'. simpl. destruct (decide (a = txd)) as [->|Hne].
  - rewrite lookup_insert_eq. intros [= <-]. by apply Ht.
  - rewrite lookup_insert_ne by done. apply Hw.
Qed.

Lemma txd_upd_side txd a f : keeps_side f -> m_pres (same_side txd) (txd_upd a f).
Proof.
  intros Hf. apply txd_upd_pres. intros w t Ht. pose proof (Hf t) as E. unfold side_fields in E.
  injection E as E1 E2 E3 E4. split_and!; [done|rewrite aview_put_txd|].
  - case_decide; [subst|done]. unfold aview. rewrite Ht. simpl. by rewrite E1, E2.
  - intros Hr. apply ready_put_txd; [|done]. intros ->. specialize (Hr _ Ht). unfold ready_tx in *.
    by rewrite E1, E3, E4.
Qed.

Lemma sentinel_upd_side txd a f : m_pres (same_side txd) (sentinel_upd a f).
Proof. by apply sentinel_upd_pres. Qed.

Lemma koa_upd_side txd a f : m_pres (same_side txd) (koa_upd a f).
Proof. by apply koa_upd_pres. Qed.

Lemma fd_upd_side txd fd f : m_pres (same_side txd) (fd_upd fd f).
Proof. by apply fd_upd_pres. Qed.

Lemma in_pool_sentinel_side txd {A} (m : M txc_pool_t A) : m_pres (same_side txd) (in_pool_sentinel m).
Proof. by apply zoom_pres. Qed.

Lemma in_buffermgr_side txd {A} (m : M txc_buffermgr_t A) : m_pres (same_side txd) (in_buffermgr m).
Proof. by apply zoom_pres. Qed.

Lemma store_result_side txd r v : m_pres (same_side txd) (store_result r v).
Proof. destruct r; [by apply m_pres_modify|apply m_pres_ret; typeclasses eauto]. Qed.

(** The callback: registered afterwards, and linked to the TM library's. *)
Lemma side_callback_run a t w :
  txds (w_txmgr w) !! a = Some t -> exists t', side_callback a w = Ret tt (put_txd a t' w) /\
    side_list sd t' = side_list sd t /\ itm_mode (itm_td t') = itm_mode (itm_td t) /\
    side_generic sd t' = true /\
    ((side_generic sd t = true -> side_itm sd t = true) -> side_itm sd t' = true).
Proof.
  intros Ht. assert (Hid : put_txd a t w = w).
  { unfold put_txd. rewrite insert_id by done. by destruct w as [? ? [] ? ? ? ? ?]. }
  unfold side_callback, tmsystem_register_generic_undo_action, tmsystem_register_generic_commit_action.
  destruct sd; rewrite (m_bind_run _ _ _ _ _ (txd_get_run _ _ _ Ht)); simpl.
  - destruct (generic_undo_action_registered t) eqn:Hg; [exists t; rewrite Hid; split_and!; auto|].
    eexists. split; [rewrite (m_bind_run _ _ _ _ _ (txd_upd_run _ _ _ _ Ht)); cbv beta;
      erewrite txd_upd_run by apply lookup_insert_eq; unfold put_txd; simpl; by rewrite insert_insert_eq|done].
  - destruct (generic_commit_action_registered t) eqn:Hg; [exists t; rewrite Hid; split_and!; auto|].
    eexists. split; [rewrite (m_bind_run _ _ _ _ _ (txd_upd_run _ _ _ _ Ht)); cbv beta;
      erewrite txd_upd_run by apply lookup_insert_eq; unfold put_txd; simpl; by rewrite insert_insert_eq|done].
Qed.

Lemma side_callback_side txd a : m_pres (same_side txd) (side_callback a).
Proof.
  intros w. destruct (txds (w_txmgr w) !! a) as [t|] eqn:Ht.
  - destruct (side_callback_run a t w Ht) as (t' & -> & Hl & Hmd & Hg & Hi). split_and!; [done| |].
    + rewrite aview_put_txd. case_decide; [subst|done]. unfold aview. rewrite Ht, Hl, Hmd. done.
    + intros Hr. apply ready_put_txd; [|done]. intros ->. split; [|done]. intros _. apply Hi, (Hr _ Ht).
  - unfold side_callback, tmsystem_register_generic_undo_action, tmsystem_register_generic_commit_action,
      txd_get, m_bind. simpl. by destruct sd; rewrite Ht.
Qed.

Lemma aview_inv txd w la md :
  aview txd w = Some (la, md) -> exists t, txds (w_txmgr w) !! txd = Some t /\ side_list sd t = la /\
    itm_mode (itm_td t) = md.
Proof. unfold aview. intros (t & Ht & [= -> ->])%fmap_Some. eauto. Qed.

Lemma aview_mode txd w la x :
  txd <> 0 -> aview txd w = Some (la, x) -> txc_tx_get_xactstate txd w = Ret x w.
Proof.
  intros H0 (t & Ht & _ & Hmd)%aview_inv. apply get_xactstate_run. unfold tx_mode.
  rewrite bool_decide_eq_true_2 by done. rewrite Ht. simpl. by rewrite Hmd.
Qed.
End sides.

#[export] Hint Resolve txd_upd_side sentinel_upd_side koa_upd_side fd_upd_side in_pool_sentinel_side
  in_buffermgr_side store_result_side : xcalls.
#[export] Hint Extern 2 (keeps_side _ _) => (intros ?; done) : xcalls.

Section side_quiet.
Context {PF : Platform} (sd : side).

Lemma generic_undo_side txd a : m_pres (same_side sd txd) (tmsystem_register_generic_undo_action a).
Proof.
  destruct sd; [apply (side_callback_side UndoSide)|].
  unfold tmsystem_register_generic_undo_action. m_pres_auto.
Qed.

Lemma generic_commit_side txd a : m_pres (same_side sd txd) (tmsystem_register_generic_commit_action a).
Proof.
  destruct sd; [|apply (side_callback_side CommitSide)].
  unfold tmsystem_register_generic_commit_action. m_pres_auto.
Qed.

Lemma get_xactstate_side txd a : m_pres (same_side sd txd) (txc_tx_get_xactstate a).
Proof. unfold txc_tx_get_xactstate, tmsystem_get_xactstate. m_pres_auto. Qed.

Lemma tx_enlist_side txd a s st : m_pres (same_side sd txd) (tx_enlist a s st).
Proof. unfold tx_enlist. destruct sd; m_pres_auto. Qed.

Lemma attach_synch_side txd s : m_pres (same_side sd txd) (attach_synch s).
Proof. unfold attach_synch, synch_lock, synch_unlock, sentinel_attach. m_pres_auto. Qed.

Lemma spin_trylock_side txd fuel n s : m_pres (same_side sd txd) (spin_trylock fuel n s).
Proof.
  revert n. induction fuel as [|fuel IH]; intros n; cbn [spin_trylock]; [done|].
  unfold sentinel_trylock. m_pres_auto.
Qed.

Lemma lock_fd_side txd fd : m_pres (same_side sd txd) (txc_koa_lock_fd fd).
Proof. unfold txc_koa_lock_fd. m_pres_auto. Qed.

Lemma unlock_fd_side txd fd : m_pres (same_side sd txd) (txc_koa_unlock_fd fd).
Proof. unfold txc_koa_unlock_fd. m_pres_auto. Qed.

Lemma linear_malloc_side txd a n : m_pres (same_side sd txd) (tx_linear_malloc a n).
Proof. unfold tx_linear_malloc. m_pres_auto. Qed.

Lemma linear_free_side txd a n : m_pres (same_side sd txd) (tx_linear_free a n).
Proof. unfold tx_linear_free, linear_upd. m_pres_auto. Qed.

Lemma get_errno_side txd : m_pres (same_side sd txd) get_errno.
Proof. unfold get_errno. m_pres_auto. Qed.
End side_quiet.

#[export] Hint Resolve generic_undo_side generic_commit_side get_xactstate_side tx_enlist_side
  attach_synch_side spin_trylock_side lock_fd_side unlock_fd_side linear_malloc_side linear_free_side
  get_errno_side : xcalls.

Section side_more.
Context {PF : Platform}.

Lemma register_commit_undo sd txd a f r o :
  sd = UndoSide -> m_pres (same_side sd txd) (txc_tx_register_commit_action a f r o).
Proof. intros ->. unfold txc_tx_register_commit_action, register_with. m_pres_auto. Qed.

Lemma register_undo_commit sd txd a f r o :
  sd = CommitSide -> m_pres (same_side sd txd) (txc_tx_register_undo_action a f r o).
Proof. intros ->. unfold txc_tx_register_undo_action, register_with. m_pres_auto. Qed.

Lemma abort_side sd txd a {A} r : m_pres (same_side sd txd) (txc_tx_abort_transaction (A := A) a r).
Proof.
  unfold txc_tx_abort_transaction, tmsystem_abort_transaction.
  pose proof (generic_undo_side sd txd a). destruct sd; m_pres_auto.
Qed.
End side_more.

#[export] Hint Resolve register_commit_undo register_undo_commit abort_side : xcalls.

(** ** What the managers do by themselves

    A relation is quiet when it does not see the transactions' descriptors, the
    sentinels, the linear buffers, the [int]s of the application and the locks of
    the descriptor map. The operations of the transaction manager and of the
    sentinel manager keep every quiet relation. *)

Section quiet.
Context {PF : Platform}.

Class Quiet (R : world -> world -> Prop) : Prop := {
  quiet_preorder :: PreOrder R;
  quiet_txd w a t : R w (put_txd a t w);
  quiet_sentinelmgr w s : R w (set_sentinelmgr s w);
  quiet_linears w l : R w (set_buffermgr (set_linears l (w_buffermgr w)) w);
  quiet_int w p v : R w (store_int p v w);
  quiet_fd_mutex w fd e b : fd_map (w_koamgr w) !! fd = Some e -> R w (put_fd fd (Fd2Koa b (fd_koa e)) w);
}.

Context (R : world -> world -> Prop) {HR : Quiet R}.

Lemma txd_upd_quiet a f : m_pres R (txd_upd a f).
Proof. apply txd_upd_pres. intros w t _. apply quiet_txd. Qed.

Lemma sentinel_upd_quiet a f : m_pres R (sentinel_upd a f).
Proof. apply sentinel_upd_pres. intros w s. apply quiet_sentinelmgr. Qed.

Lemma in_pool_sentinel_quiet {A} (m : M txc_pool_t A) : m_pres R (in_pool_sentinel m).
Proof. apply zoom_pres. intros t w. apply quiet_sentinelmgr. Qed.

Lemma store_result_quiet r v : m_pres R (store_result r v).
Proof. destruct r; [apply m_pres_modify; intros w; apply quiet_int|apply m_pres_ret; typeclasses eauto]. Qed.

Lemma linear_upd_quiet a f : m_pres R (linear_upd a f).
Proof.
  unfold linear_upd. apply m_pres_bind; [typeclasses eauto|apply txd_get_pres; typeclasses eauto|intros t w].
  unfold in_buffermgr, m_zoom, linear_get, linear_put, m_bind. simpl.
  destruct (linears (w_buffermgr w) !! buffer_linear t); [apply quiet_linears|done].
Qed.

Lemma linear_malloc_quiet a n : m_pres R (tx_linear_malloc a n).
Proof.
  unfold tx_linear_malloc. apply m_pres_bind; [typeclasses eauto|apply txd_get_pres; typeclasses eauto|intros t w].
  unfold in_buffermgr, m_zoom, linear_get, linear_put, m_bind. simpl.
  destruct (linears (w_buffermgr w) !! buffer_linear t) as [b|]; [|done]. simpl.
  destruct (txc_buffer_linear_malloc (u32 n) b). apply quiet_linears.
Qed.

Lemma fd_mutex_quiet fd b : m_pres R (fd_upd fd (fun e => Fd2Koa b (fd_koa e))).
Proof.
  intros w. unfold fd_upd, fd_get, m_bind. simpl. destruct (fd_map (w_koamgr w) !! fd) eqn:E; [|done].
  by apply quiet_fd_mutex.
Qed.
End quiet.

#[export] Hint Extern 1 (m_pres _ (txd_upd _ _)) => apply txd_upd_quiet; typeclasses eauto : xcalls.
#[export] Hint Extern 1 (m_pres _ (sentinel_upd _ _)) => apply sentinel_upd_quiet; typeclasses eauto : xcalls.
#[export] Hint Extern 1 (m_pres _ (in_pool_sentinel _)) => apply in_pool_sentinel_quiet; typeclasses eauto : xcalls.
#[export] Hint Extern 1 (m_pres _ (store_result _ _)) => apply store_result_quiet; typeclasses eauto : xcalls.
#[export] Hint Extern 1 (m_pres _ (linear_upd _ _)) => apply linear_upd_quiet; typeclasses eauto : xcalls.
#[export] Hint Extern 1 (m_pres _ (tx_linear_malloc _ _)) => apply linear_malloc_quiet; typeclasses eauto : xcalls.
#[export] Hint Extern 1 (m_pres _ (fd_upd _ (fun e => Fd2Koa _ (fd_koa e)))) => apply fd_mutex_quiet; typeclasses eauto : xcalls.

Section managers_quiet.
Context {PF : Platform} (R : world -> world -> Prop) {HR : Quiet R}.

Lemma release_entry_quiet c e : m_pres R (sentinel_release_entry c e).
Proof. unfold sentinel_release_entry, synch_lock, synch_unlock, sentinel_detach, sentinel_destroy. m_pres_auto. Qed.

Lemma reset_quiet a : m_pres R (sentinelmgr_reset a).
Proof. unfold sentinelmgr_reset. m_pres_auto. Qed.

Lemma on_complete_quiet a : m_pres R (sentinelmgr_transaction_on_complete a).
Proof.
  pose proof release_entry_quiet. pose proof reset_quiet.
  unfold sentinelmgr_transaction_on_complete, sentinel_list_release. m_pres_auto.
Qed.

Lemma get_xactstate_quiet a : m_pres R (txc_tx_get_xactstate a).
Proof. unfold txc_tx_get_xactstate, tmsystem_get_xactstate. m_pres_auto. Qed.

Lemma tx_enlist_quiet a s st : m_pres R (tx_enlist a s st).
Proof. unfold tx_enlist. m_pres_auto. Qed.

Lemma before_retry_quiet a : m_pres R (sentinelmgr_transaction_before_retry a).
Proof.
  pose proof release_entry_quiet. pose proof reset_quiet. pose proof tx_enlist_quiet.
  unfold sentinelmgr_transaction_before_retry, collect_preacquire, preacquire_entry, sentinel_list_sort,
    sentinel_list_release, sentinel_list_acquire, sentinel_acquire_entry. m_pres_auto.
Qed.

Lemma sentinelmgr_undo_quiet a : m_pres R (sentinelmgr_undo a).
Proof.
  pose proof on_complete_quiet. pose proof before_retry_quiet. unfold sentinelmgr_undo. m_pres_auto.
Qed.

Lemma sentinelmgr_commit_quiet a : m_pres R (sentinelmgr_commit a).
Proof. pose proof on_complete_quiet. unfold sentinelmgr_commit. m_pres_auto. Qed.

Lemma register_undo_quiet a f r o : m_pres R (txc_tx_register_undo_action a f r o).
Proof.
  unfold txc_tx_register_undo_action, register_with, tmsystem_register_generic_undo_action. m_pres_auto.
Qed.

Lemma register_commit_quiet a f r o : m_pres R (txc_tx_register_commit_action a f r o).
Proof.
  unfold txc_tx_register_commit_action, register_with, tmsystem_register_generic_commit_action. m_pres_auto.
Qed.

Lemma register_sentinelmgr_quiet a :
  m_pres R (register_sentinelmgr_undo_action a) /\ m_pres R (register_sentinelmgr_commit_action a).
Proof.
  pose proof register_undo_quiet. pose proof register_commit_quiet.
  unfold register_sentinelmgr_undo_action, register_sentinelmgr_commit_action. split; m_pres_auto.
Qed.

Lemma abort_quiet a {A} r : m_pres R (txc_tx_abort_transaction (A := A) a r).
Proof.
  unfold txc_tx_abort_transaction, tmsystem_abort_transaction, tmsystem_register_generic_undo_action. m_pres_auto.
Qed.

Lemma spin_trylock_quiet fuel n s : m_pres R (spin_trylock fuel n s).
Proof.
  revert n. induction fuel as [|fuel IH]; intros n; cbn [spin_trylock]; [done|].
  unfold sentinel_trylock. m_pres_auto.
Qed.

Lemma tryacquire_quiet a s flags : m_pres R (txc_sentinel_tryacquire a s flags).
Proof.
  destruct (register_sentinelmgr_quiet a) as [H1 H2]. pose proof spin_trylock_quiet. pose proof get_xactstate_quiet.
  pose proof tx_enlist_quiet.
  unfold txc_sentinel_tryacquire, attach_synch, synch_lock, synch_unlock, sentinel_attach. m_pres_auto.
Qed.

Lemma lock_fd_quiet fd : m_pres R (txc_koa_lock_fd fd).
Proof. unfold txc_koa_lock_fd. m_pres_auto. Qed.

Lemma unlock_fd_quiet fd : m_pres R (txc_koa_unlock_fd fd).
Proof. unfold txc_koa_unlock_fd. m_pres_auto. Qed.

Lemma tx_init_quiet a : m_pres R (txc_tx_init a).
Proof. unfold txc_tx_init. m_pres_auto. Qed.

Lemma post_begin_quiet a : m_pres R (txc_tx_post_begin a).
Proof.
  destruct (register_sentinelmgr_quiet a) as [H1 H2]. pose proof abort_quiet.
  unfold txc_tx_post_begin, txc_sentinel_transaction_postbegin, txc_fm_transaction_postbegin. m_pres_auto.
Qed.

Lemma handle_undo_failure_quiet a e : m_pres R (txc_fm_handle_undo_failure a e).
Proof. unfold txc_fm_handle_undo_failure. m_pres_auto. Qed.

Lemma handle_commit_failure_quiet a e : m_pres R (txc_fm_handle_commit_failure a e).
Proof. unfold txc_fm_handle_commit_failure. m_pres_auto. Qed.
End managers_quiet.

#[export] Hint Extern 1 (m_pres _ (txc_tx_get_xactstate _)) => apply get_xactstate_quiet; typeclasses eauto : xcalls.
#[export] Hint Extern 1 (m_pres _ (sentinelmgr_undo _)) => apply sentinelmgr_undo_quiet; typeclasses eauto : xcalls.
#[export] Hint Extern 1 (m_pres _ (sentinelmgr_commit _)) => apply sentinelmgr_commit_quiet; typeclasses eauto : xcalls.
#[export] Hint Extern 1 (m_pres _ (txc_tx_register_undo_action _ _ _ _)) => apply register_undo_quiet; typeclasses eauto : xcalls.
#[export] Hint Extern 1 (m_pres _ (txc_tx_register_commit_action _ _ _ _)) => apply register_commit_quiet; typeclasses eauto : xcalls.
#[export] Hint Extern 1 (m_pres _ (txc_tx_abort_transaction _ _)) => apply abort_quiet; typeclasses eauto : xcalls.
#[export] Hint Extern 1 (m_pres _ (txc_sentinel_tryacquire _ _ _)) => apply tryacquire_quiet; typeclasses eauto : xcalls.
#[export] Hint Extern 1 (m_pres _ (txc_koa_lock_fd _)) => apply lock_fd_quiet; typeclasses eauto : xcalls.
#[export] Hint Extern 1 (m_pres _ (txc_koa_unlock_fd _)) => apply unlock_fd_quiet; typeclasses eauto : xcalls.
#[export] Hint Extern 1 (m_pres _ (txc_tx_init _)) => apply tx_init_quiet; typeclasses eauto : xcalls.
#[export] Hint Extern 1 (m_pres _ (txc_tx_post_begin _)) => apply post_begin_quiet; typeclasses eauto : xcalls.
#[export] Hint Extern 1 (m_pres _ (txc_fm_handle_undo_failure _ _)) => apply handle_undo_failure_quiet; typeclasses eauto : xcalls.
#[export] Hint Extern 1 (m_pres _ (txc_fm_handle_commit_failure _ _)) => apply handle_commit_failure_quiet; typeclasses eauto : xcalls.

(** The kernel is one such thing. *)
Section same_kernel.
Context {PF : Platform}.

Definition same_kernel (w w' : world) : Prop := w_kernel w' = w_kernel w.

#[global] Instance same_kernel_quiet : Quiet same_kernel.
Proof.
  split; try done. split; [done|]. intros w1 w2 w3 H1 H2. unfold same_kernel in *. congruence.
Qed.
End same_kernel.

(** ** What a transaction has registered *)

(** The sentinel manager's own action of a side. *)
Definition sentinel_action (sd : side) (u : Z) : action :=
  match sd with UndoSide => sentinelmgr_undo_action u | CommitSide => sentinelmgr_commit_action u end.
Definition sentinel_entry (sd : side) (e : txc_tx_action_list_entry_t action) : Prop :=
  order e = 2 /\ exists u, function e = sentinel_action sd u.

Section registered.
Context {PF : Platform} (realloc_grants : forall n, realloc_ok n = true) (sd : side) (txd : Z).
Notation entry := (txc_tx_action_list_entry_t action).

(** A retryable transaction over the kernel [k] has registered the actions [l] of
    order 0, in this order, and otherwise only the sentinel manager's: at most [n]
    in all. *)
Record registered (k : kstate) (l : list entry) (n : Z) (w : world) : Prop := {
  reg_list : exists la, aview sd txd w = Some (la, TXC_XACTSTATE_TRANSACTIONAL_RETRYABLE) /\ la_good n la /\
    Forall (fun e => order e = 0 \/ sentinel_entry sd e) (la_actions la) /\
    filter (fun e => order e = 0) (la_actions la) = l;
  reg_kernel : w_kernel w = k;
  reg_ready : ready sd txd w;
}.

(** Where a transaction stops when it aborts. *)
Definition stopped (k : kstate) (l : list entry) (w : world) : Prop := exists n, registered k l n w.

Lemma registered_same k l n w w' : registered k l n w -> same_side sd txd w w' -> registered k l n w'.
Proof. intros [Hl Hk Hr] (Hk' & Ha & Hr'). split; [by rewrite Ha|by rewrite Hk'|by apply Hr']. Qed.

Lemma registered_mono k l n m w : registered k l n w -> n <= m -> registered k l m w.
Proof.
  intros [(la & Ha & Hg & Ho & Hl) Hk Hr] Hn. split; [|done..]. exists la.
  split_and!; [done|by eapply la_good_mono|done|done].
Qed.

(** A system call changes the kernel and [errno] only. *)
Lemma registered_call k k' l n w w' :
  registered k l n w -> w_txmgr w' = w_txmgr w -> w_kernel w' = k' -> registered k' l n w'.
Proof.
  intros [Hl _ Hr] Ht Hk. split; [unfold aview; by rewrite Ht|done|unfold ready; by rewrite Ht].
Qed.

Lemma registered_mode k l n w :
  txd <> 0 -> registered k l n w -> txc_tx_get_xactstate txd w = Ret TXC_XACTSTATE_TRANSACTIONAL_RETRYABLE w.
Proof. intros H0 [(la & Ha & _) _ _]. by eapply aview_mode. Qed.

(** From [registered k l n] to [registered k l n'], or stop. *)
Definition reg_hoare {A} (n n' : Z) (m : M world A) : Prop :=
  forall k l, m_hoare (registered k l n) m (fun _ => registered k l n') (stopped k l).

Lemma reg_quiet {A} (m : M world A) n : m_pres (same_side sd txd) m -> reg_hoare n n m.
Proof.
  intros Hm k l. eapply m_hoare_conseq; [apply (m_hoare_pres (same_side sd txd)); [exact Hm|]|done|done|].
  - intros w w'. by apply registered_same.
  - intros w Hw. by exists n.
Qed.

Lemma reg_bind {A B} (m : M world A) (f : A -> M world B) n1 n2 n3 :
  reg_hoare n1 n2 m -> (forall a, reg_hoare n2 n3 (f a)) -> reg_hoare n1 n3 (m_bind m f).
Proof. intros Hm Hf k l. eapply m_hoare_bind; [apply Hm|]. intros a. apply Hf. Qed.

Lemma reg_weaken {A} (m : M world A) n n' : n <= n' -> reg_hoare n n m -> reg_hoare n n' m.
Proof.
  intros Hn H k l. eapply m_hoare_conseq; [apply H|done| |done]. intros ? w Hw.
  eapply registered_mono; [exact Hw|done].
Qed.

Lemma reg_ret {A} (a : A) n : reg_hoare n n (m_ret a).
Proof. intros k l. by apply m_hoare_ret. Qed.

Lemma reg_retryable {A} (f : txc_tx_xactstate_t -> M world A) n n' :
  txd <> 0 -> reg_hoare n n' (f TXC_XACTSTATE_TRANSACTIONAL_RETRYABLE) ->
  reg_hoare n n' (do x <- txc_tx_get_xactstate txd ;; f x).
Proof.
  intros H0 Hf k l w Hw. rewrite (m_bind_run _ _ _ _ _ (registered_mode _ _ _ _ H0 Hw)). by apply Hf.
Qed.

Lemma reg_finish {A} (result : option Z) (body : M world (A * Z)) n n' :
  reg_hoare n n' body -> reg_hoare n n' (finish result body).
Proof. intros Hb. unfold finish. eapply reg_bind; [exact Hb|intros [a e]]. apply reg_quiet. m_pres_auto. Qed.

(** Registering an action appends it. *)
Lemma register_run a r o w la md n :
  aview sd txd w = Some (la, md) -> la_good n la -> n < 2 ^ 29 -> ready sd txd w ->
  exists w' la', side_register sd txd a r o w = Ret TXC_R_SUCCESS w' /\
    w_kernel w' = w_kernel w /\ aview sd txd w' = Some (la', md) /\ la_good (n + 1) la' /\
    la_actions la' = la_actions la ++ [ActionEntry a r o] /\ ready sd txd w'.
Proof.
  intros (t & Ht & <- & <-)%aview_inv Hg Hn Hready.
  destruct (register_good n _ (ActionEntry a r o) Hg Hn) as (la' & E & Hg' & Hl).
  assert (Hreg : register_with (side_list sd) (side_set sd) txd (ActionEntry a r o) w =
    Ret TXC_R_SUCCESS (put_txd txd (side_set sd la' t) w)).
  { unfold register_with. m_next by (by apply txd_get_run). rewrite realloc_grants, E. m_next. cbv iota.
    m_next by (by apply txd_upd_run). done. }
  set (w1 := put_txd txd (side_set sd la' t) w).
  destruct (side_callback_run sd txd (side_set sd la' t) w1) as (t' & Hgen & Hla & Hmd & Hgt & Hit);
    [apply lookup_insert_eq|].
  exists (put_txd txd t' w1), la'. split_and!; [|done| |done|done|].
  - destruct sd; simpl; unfold txc_tx_register_undo_action, txc_tx_register_commit_action; m_next by exact Hreg;
      (rewrite bool_decide_eq_false_2 by (intros X; by apply X)); fold w1; m_next by exact Hgen; done.
  - rewrite aview_put_txd, decide_True by done. rewrite Hla, Hmd. by destruct sd.
  - intros t2. simpl. rewrite lookup_insert_eq. intros [= <-]. split; [|done]. intros _.
    apply Hit. destruct (Hready _ Ht) as [Hr _]. by destruct sd.
Qed.

(** An action of order 0. *)
Lemma register_regular a r k l n w :
  n < 2 ^ 29 -> registered k l n w -> exists w', side_register sd txd a r 0 w = Ret TXC_R_SUCCESS w' /\
    registered k (l ++ [ActionEntry a r 0]) (n + 1) w'.
Proof.
  intros Hn [(la & Ha & Hg & Ho & Hl) Hk Hrd].
  destruct (register_run a r 0 w la _ n Ha Hg Hn Hrd) as (w' & la' & E & Hk' & Ha' & Hg' & Hl' & Hrd').
  exists w'. split; [exact E|]. split; [|congruence|done]. exists la'. split_and!; [done|done| |].
  - rewrite Hl'. apply Forall_app. split; [done|]. repeat constructor.
  - by rewrite Hl', filter_app, Hl, filter_cons_True, filter_nil by done.
Qed.

(** The sentinel manager's. *)
Lemma register_sentinel a k l n w :
  n < 2 ^ 29 -> registered k l n w -> (exists u, a = sentinel_action sd u) ->
  exists w', side_register sd txd a None 2 w = Ret TXC_R_SUCCESS w' /\ registered k l (n + 1) w'.
Proof.
  intros Hn [(la & Ha & Hg & Ho & Hl) Hk Hrd] Hu.
  destruct (register_run a None 2 w la _ n Ha Hg Hn Hrd) as (w' & la' & E & Hk' & Ha' & Hg' & Hl' & Hrd').
  exists w'. split; [exact E|]. split; [|congruence|done]. exists la'. split_and!; [done|done| |].
  - rewrite Hl'. apply Forall_app. split; [done|]. constructor; [|constructor]. by right.
  - rewrite Hl', filter_app, Hl, filter_cons_False by done. by rewrite app_nil_r.
Qed.

Lemma register_sentinelmgr_reg n :
  n < 2 ^ 29 ->
  reg_hoare n (n + 1) (match sd with UndoSide => register_sentinelmgr_undo_action txd
                       | CommitSide => register_sentinelmgr_commit_action txd end).
Proof.
  intros Hn k l w Hw. pose proof (fun u => register_sentinel (sentinel_action sd u) k l n w Hn Hw ltac:(by exists u)) as Hr.
  destruct Hw as [(la & Ha & Hrest) Hk Hrd]. destruct (aview_inv _ _ _ _ _ Ha) as (t & Ht & _).
  unfold register_sentinelmgr_undo_action, register_sentinelmgr_commit_action,
    TXC_SENTINELMGR_UNDO_ACTION_ORDER, TXC_SENTINELMGR_COMMIT_ACTION_ORDER.
  assert (Hmono : registered k l (n + 1) w).
  { eapply registered_mono; [split; [by exists la|done..]|lia]. }
  destruct (Hr txd) as (w1 & E & Hw1). destruct sd; rewrite (m_bind_run _ _ _ _ _ (txd_get_run _ _ _ Ht)).
  - destruct (sentinelmgr_undo_action_registered t); [exact Hmono|]. simpl in E.
    rewrite (m_bind_run _ _ _ _ _ E). eapply reg_quiet; [|exact Hw1]. auto with xcalls.
  - destruct (sentinelmgr_commit_action_registered t); [exact Hmono|]. simpl in E.
    rewrite (m_bind_run _ _ _ _ _ E). eapply reg_quiet; [|exact Hw1]. auto with xcalls.
Qed.

(** *** Acquiring what a call works on *)

Lemma tryacquire_reg sentinel flags n :
  n < 2 ^ 29 -> reg_hoare n (n + 1) (txc_sentinel_tryacquire txd sentinel flags).
Proof.
  intros Hn. unfold txc_sentinel_tryacquire. eapply reg_bind; [apply reg_quiet; m_pres_auto|intros s].
  case_bool_decide; [|apply reg_weaken; [lia|apply reg_ret]].
  eapply reg_bind; [apply reg_quiet; m_pres_auto|intros []]; [done| |apply reg_weaken; [lia|apply reg_ret]].
  pose proof (register_sentinelmgr_reg n Hn) as Hs. destruct sd eqn:Hsd.
  - eapply reg_bind; [exact Hs|intros _]. apply reg_quiet. unfold register_sentinelmgr_commit_action. m_pres_auto.
  - eapply reg_bind; [apply reg_quiet; unfold register_sentinelmgr_undo_action; m_pres_auto|intros _].
    eapply reg_bind; [exact Hs|intros _]. apply reg_quiet. m_pres_auto.
Qed.

Lemma acquire_fd_reg fd flags n : n < 2 ^ 29 -> reg_hoare n (n + 1) (acquire_fd txd fd flags).
Proof.
  intros Hn. unfold acquire_fd. eapply reg_bind; [apply reg_quiet; m_pres_auto|intros _].
  eapply reg_bind; [apply reg_quiet; unfold txc_koa_lookup_fd2koa; m_pres_auto|intros [xret koa]].
  case_bool_decide; [apply reg_weaken; [lia|apply reg_quiet; m_pres_auto]|].
  eapply reg_bind; [apply reg_quiet; unfold txc_koa_get_sentinel; m_pres_auto|intros s].
  eapply reg_bind; [by apply tryacquire_reg|intros c]. apply reg_quiet. m_pres_auto.
Qed.

(** *** Beginning *)

(** A thread between transactions. *)
Definition tx_idle (w : world) : Prop := txd <> 0 /\ exists t es, txds (w_txmgr w) !! txd = Some t /\
  itm_mode (itm_td t) = TXC_XACTSTATE_NONTRANSACTIONAL /\
  entries (side_list sd t) = Some es /\ 0 < la_size (side_list sd t) < 2 ^ 30.

Definition idle_at (w : world) : bool :=
  match txds (w_txmgr w) !! txd with
  | Some t =>
      bool_decide (itm_mode (itm_td t) = TXC_XACTSTATE_NONTRANSACTIONAL) &&
      match entries (side_list sd t) with Some _ => true | None => false end &&
      bool_decide (0 < la_size (side_list sd t) < 2 ^ 30)
  | None => false
  end.

Lemma idle_at_idle w : txd <> 0 -> idle_at w = true -> tx_idle w.
Proof.
  unfold idle_at. intros H0 H. split; [done|]. destruct (txds (w_txmgr w) !! txd) as [t|]; [|done].
  apply andb_prop in H as [[H1 H2]%andb_prop H3]. apply bool_decide_eq_true_1 in H1, H3.
  destruct (entries (side_list sd t)) as [es|] eqn:He; [|done]. by exists t, es.
Qed.

(** The kernel and the fields of [txd] stay. *)
Definition same_fields w w' : Prop :=
  same_kernel w w' /\ side_fields sd <$> txds (w_txmgr w') !! txd = side_fields sd <$> txds (w_txmgr w) !! txd.

#[global] Instance same_fields_preorder : PreOrder same_fields.
Proof. split; [done|]. intros w1 w2 w3 [H1 H2] [H3 H4]. split; [by etrans|congruence]. Qed.

Lemma txd_upd_fields a f : keeps_side sd f -> m_pres same_fields (txd_upd a f).
Proof.
  intros Hf. apply txd_upd_pres. intros w t Ht. split; [done|]. simpl. destruct (decide (a = txd)) as [->|].
  - by rewrite lookup_insert_eq, Ht; simpl; rewrite Hf.
  - by rewrite lookup_insert_ne.
Qed.

Lemma in_buffermgr_fields {A} (m : M txc_buffermgr_t A) : m_pres same_fields (in_buffermgr m).
Proof. by apply zoom_pres. Qed.

Lemma sentinel_upd_fields a f : m_pres same_fields (sentinel_upd a f).
Proof. by apply sentinel_upd_pres. Qed.

Lemma in_pool_sentinel_fields {A} (m : M txc_pool_t A) : m_pres same_fields (in_pool_sentinel m).
Proof. by apply zoom_pres. Qed.

Lemma store_result_fields r v : m_pres same_fields (store_result r v).
Proof. destruct r; [by apply m_pres_modify|apply m_pres_ret; typeclasses eauto]. Qed.

#[local] Hint Resolve txd_upd_fields in_buffermgr_fields sentinel_upd_fields in_pool_sentinel_fields
  store_result_fields : xcalls.

(** The sentinel manager's part of [txc_tx_post_begin] registers its action when
    the restarted transaction holds sentinels. *)
Lemma post_begin_reg n : n < 2 ^ 29 -> reg_hoare n (n + 1) (txc_tx_post_begin txd).
Proof.
  intros Hn. unfold txc_tx_post_begin. apply (reg_bind _ _ _ (n + 1)).
  - unfold txc_sentinel_transaction_postbegin. eapply reg_bind; [apply reg_quiet; m_pres_auto|intros t].
    case_bool_decide; [|apply reg_weaken; [lia|apply reg_ret]].
    pose proof (register_sentinelmgr_reg n Hn) as Hs. destruct sd eqn:Hsd.
    + eapply reg_bind; [apply reg_quiet; unfold register_sentinelmgr_commit_action; m_pres_auto|intros ?]. exact Hs.
    + eapply reg_bind; [exact Hs|intros ?]. apply reg_quiet. unfold register_sentinelmgr_undo_action. m_pres_auto.
  - intros ?. apply reg_quiet. unfold txc_fm_transaction_postbegin. m_pres_auto.
Qed.

(** Entering a transaction whose list is empty and whose callback is not
    registered. *)
Lemma enter_reg t es w w0 :
  txds (w_txmgr w) !! txd = Some t -> side_generic sd t = false ->
  side_list sd t = ActionList (Some es) 0 (la_size (side_list sd t)) -> 0 < la_size (side_list sd t) < 2 ^ 30 ->
  (itm_enter txd ;;; txc_tx_post_begin txd) w = Ret tt w0 -> registered (w_kernel w) [] 1 w0.
Proof.
  intros Ht Hg Hl Hsz E. unfold itm_enter in E. rewrite (m_bind_run _ _ _ _ _ (txd_upd_run _ _ _ _ Ht)) in E.
  assert (registered (w_kernel w) [] 0 (put_txd txd (tx_set_itm_td
    (ItmTransaction TXC_XACTSTATE_TRANSACTIONAL_RETRYABLE false false) t) w)) as Hb.
  { split; [|done|].
    - exists (side_list sd t). rewrite aview_put_txd, decide_True by done. destruct sd.
      all: split_and!; [done| |simpl in *; rewrite Hl; constructor|simpl in *; by rewrite Hl].
      all: exists es; simpl in *; rewrite Hl; simpl; split_and!; [done|lia..].
    - intros t2. simpl. rewrite lookup_insert_eq. intros [= <-]. unfold ready_tx. destruct sd; simpl in *.
      all: rewrite Hg, Hl; simpl; split; [done|lia]. }
  pose proof (post_begin_reg 0 ltac:(lia) _ _ _ Hb) as Hh. by rewrite E in Hh.
Qed.

(** What [txc_tx_init] and the operations around it leave. *)
Lemma init_enter_reg {A} t es (p : M world A) a w w1 w0 :
  txds (w_txmgr w) !! txd = Some t -> entries (side_list sd t) = Some es -> 0 < la_size (side_list sd t) < 2 ^ 30 ->
  m_pres same_fields p ->
  (txd_upd txd tx_init_fields ;;; p) w = Ret a w1 -> (itm_enter txd ;;; txc_tx_post_begin txd) w1 = Ret tt w0 ->
  registered (w_kernel w) [] 1 w0.
Proof.
  intros Ht He Hsz Hp Hm E. rewrite (m_bind_run _ _ _ _ _ (txd_upd_run _ _ _ _ Ht)) in Hm.
  destruct (m_pres_run _ _ _ _ _ Hp Hm) as [Hk Hf]. simpl in Hf. rewrite lookup_insert_eq in Hf.
  apply fmap_Some in Hf as (t1 & Ht1 & Hf). injection Hf as Hl _ Hg _.
  assert (w_kernel w1 = w_kernel w) as <- by apply Hk. eapply (enter_reg t1 es); [exact Ht1| | | |exact E].
  - rewrite <- Hg. by destruct sd.
  - rewrite <- Hl. destruct sd; simpl in *; unfold la_set_num_entries; by rewrite He.
  - rewrite <- Hl. by destruct sd.
Qed.

Lemma begin_reg w w0 : tx_idle w -> xact_begin txd w = Ret tt w0 -> registered (w_kernel w) [] 1 w0.
Proof.
  intros (H0 & t & es & Ht & Hmd & He & Hsz) E. unfold xact_begin in E. m_inv E. unfold txc_tx_pre_begin in Hm.
  rewrite (m_bind_run _ _ _ _ _ (get_xactstate_run txd TXC_XACTSTATE_NONTRANSACTIONAL w
    ltac:(unfold tx_mode; rewrite bool_decide_eq_true_2 by done; rewrite Ht; simpl; by rewrite Hmd))) in Hm.
  rewrite bool_decide_eq_true_2 in Hm by done. unfold tx_pre_outerbegin, txc_tx_init in Hm. rewrite m_bind_assoc in Hm.
  eapply (init_enter_reg t es _ _ w); [done..| |exact Hm|exact E]. unfold linear_upd, txc_fm_init. m_pres_auto.
Qed.

(** *** Running the list *)

(** The actions that are left after order 0 are the sentinel manager's. *)
Lemma sentinel_actions_quiet R {HR : Quiet R} l first :
  Forall (sentinel_entry sd) l -> m_pres R (exec_seq run_action store_int l first).
Proof.
  intros Hl. revert first. induction Hl as [|e l (_ & u & Hu) Hl IH]; intros first; cbn [exec_seq].
  - apply m_pres_ret. typeclasses eauto.
  - apply m_pres_bind; [typeclasses eauto| |done]. unfold exec_entry. rewrite Hu.
    apply m_pres_bind; [typeclasses eauto|destruct sd; simpl; auto with xcalls|intros r].
    apply m_pres_bind; [typeclasses eauto| |intros ?; apply m_pres_ret; typeclasses eauto].
    destruct (error_result e); [apply m_pres_modify; intros w; apply quiet_int|apply m_pres_ret; typeclasses eauto].
Qed.

Definition side_exec : action_list -> M world Z :=
  match sd with
  | UndoSide => exec_undo_actions run_action store_int
  | CommitSide => exec_commit_actions run_action store_int
  end.
Definition side_order {A} (l : list A) : list A := match sd with UndoSide => reverse l | CommitSide => l end.

(** The regular actions run first, and then only the sentinel manager's. *)
Lemma side_exec_split k l n w :
  registered k l n w ->
  exists la l', aview sd txd w = Some (la, TXC_XACTSTATE_TRANSACTIONAL_RETRYABLE) /\
    Forall (sentinel_entry sd) l' /\ side_exec la w =
      (do first <- exec_seq run_action store_int (side_order l) 0 ;; exec_seq run_action store_int l' first) w.
Proof.
  intros [(la & Ha & Hg & Ho & Hl) Hk _].
  assert (exists l', Forall (fun e => e ∈ la_actions la /\ 1 <= order e) l' /\ side_exec la w =
    (do first <- exec_seq run_action store_int (side_order l) 0 ;; exec_seq run_action store_int l' first) w)
    as (l' & Hl' & E).
  { subst l. assert (Forall (fun e => 0 <= order e) (la_actions la)) as Hpos.
    { eapply Forall_impl; [exact Ho|]. intros e [->|[-> _]]; done. }
    unfold side_exec, side_order. destruct sd; [by apply exec_undo_split|by apply exec_commit_split]. }
  exists la, l'. split_and!; [done| |done].
  eapply Forall_impl; [exact Hl'|]. intros e [He H1]. rewrite Forall_forall in Ho.
  destruct (Ho e He) as [|]; [lia|done].
Qed.

Lemma side_exec_run k l n w first w1 :
  registered k l n w -> exec_seq run_action store_int (side_order l) 0 w = Ret first w1 ->
  exists la l', aview sd txd w = Some (la, TXC_XACTSTATE_TRANSACTIONAL_RETRYABLE) /\
    Forall (sentinel_entry sd) l' /\ side_exec la w = exec_seq run_action store_int l' first w1.
Proof.
  intros Hreg Hrun. destruct (side_exec_split k l n w Hreg) as (la & l' & Ha & Hl & E). exists la, l'.
  split_and!; [done|done|]. rewrite E. apply (m_bind_run _ _ _ _ _ Hrun).
Qed.
End registered.

#[export] Hint Resolve txd_upd_fields in_buffermgr_fields sentinel_upd_fields in_pool_sentinel_fields
  store_result_fields : xcalls.

Section completion.
Context {PF : Platform} (R : world -> world -> Prop) {HR : Quiet R} (txd : Z).

Lemma begin_quiet : m_pres R (xact_begin txd).
Proof. unfold xact_begin, txc_tx_pre_begin, tx_pre_outerbegin, itm_enter, txc_fm_init. m_pres_auto. Qed.

(** When the callback is not registered there is nothing to run. *)
Lemma unregistered_empty sd k l n w t :
  registered sd txd k l n w -> txds (w_txmgr w) !! txd = Some t -> side_itm sd t = false -> l = [].
Proof.
  intros [(la & Ha & (es & He & Hne & _) & Ho & Hl) Hk Hr] Ht Hi. destruct (aview_inv _ _ _ _ _ Ha) as (t' & Ht' & Hla & _).
  assert (t' = t) as -> by congruence. destruct (Hr _ Ht) as [Hr1 Hr2].
  assert (num_entries la = 0) as H0.
  { destruct (decide (num_entries la = 0)); [done|]. rewrite Hr1 in Hi; [done|]. apply Hr2. rewrite Hla. lia. }
  subst l. unfold la_actions. by rewrite H0, take_0.
Qed.

(** What an aborted transaction leaves is what its regular undo actions leave,
    last registered first, but for what a quiet relation does not see. *)
Lemma rollback_ran k l n w r w' :
  registered UndoSide txd k l n w -> xact_rollback txd r w = Ret tt w' ->
  exists first w1, exec_seq run_action store_int (reverse l) 0 w = Ret first w1 /\ R w1 w'.
Proof.
  intros Hreg E. destruct (side_exec_split UndoSide txd k l n w Hreg) as (la & l' & Ha & Hl' & Hex).
  destruct (aview_inv _ _ _ _ _ Ha) as (t & Ht & Hla & _). simpl in Hla, Hex. unfold xact_rollback in E.
  rewrite (m_bind_run _ _ _ _ _ (txd_get_run _ _ _ Ht)) in E. m_inv E.
  assert (exists first w1, exec_seq run_action store_int (reverse l) 0 w = Ret first w1 /\ R w1 st) as (first & w1 & Hrun & HR1).
  { destruct (itm_undo_registered (itm_td t)) eqn:Hi.
    - unfold tx_generic_undo_action in Hm. rewrite (m_bind_run _ _ _ _ _ (txd_get_run _ _ _ Ht)), Hla in Hm.
      m_inv Hm. rewrite Hex in Hm0. m_inv Hm0. exists x1, st1. split; [done|]. transitivity st0.
      + eapply m_pres_run; [|exact Hm0]. by apply (sentinel_actions_quiet UndoSide).
      + eapply m_pres_run; [|exact Hm]. m_pres_auto.
    - injection Hm as _ <-. assert (l = []) as -> by (by eapply (unregistered_empty UndoSide)).
      by exists 0, w. }
  exists first, w1. split; [done|]. etrans; [exact HR1|]. eapply m_pres_run; [|exact E]. unfold itm_leave, itm_enter. m_pres_auto.
Qed.

Lemma rollback_quiet k l n w first w1 r w' :
  registered UndoSide txd k l n w -> exec_seq run_action store_int (reverse l) 0 w = Ret first w1 ->
  xact_rollback txd r w = Ret tt w' -> R w1 w'.
Proof.
  intros Hreg Hrun E. destruct (rollback_ran k l n w r w' Hreg E) as (first' & w1' & Hrun' & HR'). congruence.
Qed.

(** What a commit leaves is what its regular commit actions leave, first
    registered first. *)
Lemma commit_ran k l n w w' :
  registered CommitSide txd k l n w -> xact_commit txd w = Ret tt w' ->
  exists first w1, exec_seq run_action store_int l 0 w = Ret first w1 /\ R w1 w'.
Proof.
  intros Hreg E. destruct (side_exec_split CommitSide txd k l n w Hreg) as (la & l' & Ha & Hl' & Hex).
  destruct (aview_inv _ _ _ _ _ Ha) as (t & Ht & Hla & _). simpl in Hla, Hex. unfold xact_commit in E.
  rewrite (m_bind_run _ _ _ _ _ (txd_get_run _ _ _ Ht)) in E. m_inv E.
  assert (exists first w1, exec_seq run_action store_int l 0 w = Ret first w1 /\ R w1 st) as (first & w1 & Hrun & HR1).
  { destruct (itm_commit_registered (itm_td t)) eqn:Hi.
    - unfold tx_generic_commit_action in Hm. rewrite (m_bind_run _ _ _ _ _ (txd_get_run _ _ _ Ht)), Hla in Hm.
      m_inv Hm. rewrite Hex in Hm0. m_inv Hm0. exists x1, st1. split; [done|]. transitivity st0.
      + eapply m_pres_run; [|exact Hm0]. by apply (sentinel_actions_quiet CommitSide).
      + eapply m_pres_run; [|exact Hm]. m_pres_auto.
    - injection Hm as _ <-. assert (l = []) as -> by (by eapply (unregistered_empty CommitSide)).
      by exists 0, w. }
  exists first, w1. split; [done|]. etrans; [exact HR1|]. eapply m_pres_run; [|exact E]. unfold itm_leave. m_pres_auto.
Qed.

Lemma commit_quiet k l n w first w1 w' :
  registered CommitSide txd k l n w -> exec_seq run_action store_int l 0 w = Ret first w1 ->
  xact_commit txd w = Ret tt w' -> R w1 w'.
Proof.
  intros Hreg Hrun E. destruct (commit_ran k l n w w' Hreg E) as (first' & w1' & Hrun' & HR'). congruence.
Qed.
End completion.

(** ** Restarting *)

Section restart.
Context {PF : Platform} (realloc_grants : forall n, realloc_ok n = true) (txd : Z).

(** The sentinel manager's actions change no list of actions. *)
Lemma sentinelmgr_undo_fields sd a : m_pres (same_fields sd txd) (sentinelmgr_undo a).
Proof.
  unfold sentinelmgr_undo, sentinelmgr_transaction_on_complete, sentinelmgr_transaction_before_retry,
    collect_preacquire, preacquire_entry, sentinel_list_sort, sentinel_list_release, sentinel_list_acquire,
    sentinel_acquire_entry, tx_enlist, sentinelmgr_reset, sentinel_release_entry, synch_lock, synch_unlock,
    sentinel_detach, sentinel_destroy. destruct sd; m_pres_auto.
Qed.

Lemma sentinel_actions_fields sd l first :
  Forall (sentinel_entry UndoSide) l -> m_pres (same_fields sd txd) (exec_seq run_action store_int l first).
Proof.
  intros Hl. revert first. induction Hl as [|e l (_ & u & Hu) Hl IH]; intros first; cbn [exec_seq].
  - apply m_pres_ret. typeclasses eauto.
  - apply m_pres_bind; [typeclasses eauto| |done]. unfold exec_entry. rewrite Hu.
    apply m_pres_bind; [typeclasses eauto|apply sentinelmgr_undo_fields|intros r].
    apply m_pres_bind; [typeclasses eauto| |intros ?; apply m_pres_ret; typeclasses eauto].
    destruct (error_result e); [by apply m_pres_modify|apply m_pres_ret; typeclasses eauto].
Qed.

(** The actions of the TM library's callback are run: what a transaction that aborts by
    itself leaves. *)
Definition armed (w : world) : Prop := forall t, txds (w_txmgr w) !! txd = Some t -> itm_undo_registered (itm_td t) = true.

Lemma abort_armed {A} r w r' w' :
  ready UndoSide txd w -> txc_tx_abort_transaction (A := A) txd r w = Abort r' w' -> armed w'.
Proof.
  intros Hrd E. unfold txc_tx_abort_transaction, tmsystem_abort_transaction in E. intros t' Ht'.
  destruct (txds (w_txmgr w) !! txd) as [t|] eqn:Ht.
  - destruct (side_callback_run UndoSide txd t w Ht) as (t1 & E1 & _ & _ & _ & Hitm). simpl in E1, Hitm.
    rewrite (m_bind_run _ _ _ _ _ E1) in E. erewrite m_bind_run in E by apply txd_upd_run, lookup_insert_eq.
    erewrite m_bind_run in E by apply txd_upd_run, lookup_insert_eq. injection E as _ <-. simpl in Ht'.
    rewrite lookup_insert_eq in Ht'. injection Ht' as <-. apply Hitm. by destruct (Hrd _ Ht).
  - exfalso. revert E. unfold tmsystem_register_generic_undo_action, txd_get, m_bind, m_get. by rewrite Ht.
Qed.

(** When the library's undo callback runs it empties both lists. *)
Lemma restart_other sd k l n w first w1 r w' t es :
  registered UndoSide txd k l n w -> exec_seq run_action store_int (reverse l) 0 w = Ret first w1 ->
  w_txmgr w1 = w_txmgr w -> r <> TXC_ABORTREASON_USERABORT -> armed w ->
  txds (w_txmgr w) !! txd = Some t -> entries (side_list sd t) = Some es -> 0 < la_size (side_list sd t) < 2 ^ 30 ->
  xact_rollback txd r w = Ret tt w' -> registered sd txd (w_kernel w') [] 1 w'.
Proof.
  intros Hreg Hrun Htx Hr Harm Ht He Hsz E.
  destruct (side_exec_run UndoSide txd k l n w first w1 Hreg Hrun) as (la & l' & Ha & Hl' & Hex).
  destruct (aview_inv _ _ _ _ _ Ha) as (t0 & Ht0 & Hla & _). assert (t0 = t) as -> by congruence. simpl in Hla, Hex. subst la.
  unfold xact_rollback in E. rewrite (m_bind_run _ _ _ _ _ (txd_get_run _ _ _ Ht)), (Harm _ Ht) in E.
  rewrite (bool_decide_eq_false_2 (r = _)) in E by done.
  unfold tx_generic_undo_action in E. rewrite m_bind_assoc, (m_bind_run _ _ _ _ _ (txd_get_run _ _ _ Ht)) in E.
  m_inv E. m_inv Hm. rewrite Hex in Hm0.
  pose proof (m_pres_run _ _ _ _ _ (sentinel_actions_fields sd l' first Hl') Hm0) as [_ Hf]. rewrite Htx, Ht in Hf. simpl in Hf.
  apply fmap_Some in Hf as (t2 & Ht2 & Hf). injection Hf as Hl2 _ _ _. unfold txc_tx_init in Hm. rewrite m_bind_assoc in Hm.
  eassert (registered sd txd _ [] 1 w') as Hw'.
  { eapply (init_enter_reg realloc_grants sd txd t2 es); [exact Ht2|by rewrite <- Hl2..| |exact Hm|exact E].
    unfold linear_upd, txc_fm_handle_undo_failure. m_pres_auto. }
  by rewrite (reg_kernel _ _ _ _ _ _ Hw').
Qed.

(** The transaction is entered again with nothing registered but the sentinel
    manager's action, when its regular undo actions leave the descriptors alone. *)
Lemma restart_reg k l n w first w1 r w' :
  registered UndoSide txd k l n w -> exec_seq run_action store_int (reverse l) 0 w = Ret first w1 ->
  w_txmgr w1 = w_txmgr w -> r <> TXC_ABORTREASON_USERABORT ->
  xact_rollback txd r w = Ret tt w' -> registered UndoSide txd (w_kernel w') [] 1 w'.
Proof.
  intros Hreg Hrun Htx Hr E.
  destruct (side_exec_run UndoSide txd k l n w first w1 Hreg Hrun) as (la & l' & Ha & Hl' & Hex).
  destruct (aview_inv _ _ _ _ _ Ha) as (t & Ht & Hla & _). simpl in Hla, Hex.
  pose proof Hreg as [(la' & Ha' & (es & He & Hne & _ & _ & Hsz) & _) _ Hrd]. simpl in He.
  assert (la' = la) as -> by congruence. rewrite <- Hla in *. clear Ha Ha' Hla.
  destruct (itm_undo_registered (itm_td t)) eqn:Hi.
  - eapply (restart_other UndoSide k l n w first w1 r w' t es); try done. intros t' Ht'. congruence.
  - unfold xact_rollback in E. rewrite (m_bind_run _ _ _ _ _ (txd_get_run _ _ _ Ht)), Hi in E.
    rewrite (bool_decide_eq_false_2 (r = _)) in E by done. unfold m_ret at 1 in E. unfold m_bind at 1 in E.
    destruct (Hrd _ Ht) as [Hr1 Hr2]. simpl in Hr1, Hr2.
    assert (generic_undo_action_registered t = false) as Hg.
    { destruct (generic_undo_action_registered t); [|done]. rewrite Hr1 in Hi; done. }
    assert (num_entries (undo_action_list t) = 0) as H0.
    { destruct (decide (num_entries (undo_action_list t) = 0)); [done|]. rewrite Hr2 in Hg; [done|lia]. }
    assert (registered UndoSide txd (w_kernel w) [] 1 w') as Hw'.
    { eapply (enter_reg realloc_grants UndoSide txd t es); [done|done| |done|exact E].
      simpl. destruct (undo_action_list t). simpl in *. by subst. }
    by rewrite (reg_kernel _ _ _ _ _ _ Hw').
Qed.
End restart.
