(* ===== verification/Undo.v ===== *)
(** * Aborting restores the file

    What the compensating actions of [XFile.v] are for: a transaction that read,
    sought, appended to and overwrote a regular file, and then aborts, leaves the
    file's contents and the descriptor's offset as they were when it began.

    [RegularFile] is what the kernel promises about one descriptor: the contents
    of its file and its offset, and what the calls do to them. *)

From S2P Require Import Prelude Dll Pool HashTable Buffer Actions World MemFs Tx Sentinel Views Koa XFile XDir XPipe System Frames.

(** ** The kernel's promise *)

(** [n] bytes from an offset, and a file with bytes overwritten from an offset
    at most at its end. *)
Definition slice (b : list byte) (o n : Z) : list byte := take (Z.to_nat n) (drop (Z.to_nat o) b).
Definition overwrite (b : list byte) (o : Z) (d : list byte) : list byte :=
  take (Z.to_nat o) b ++ d ++ drop (Z.to_nat o + length d) b.

(** Where [lseek] goes. *)
Definition lseek_target (b : list byte) (o off whence : Z) : option Z :=
  let t := if bool_decide (whence = SEEK_SET) then Some off
           else if bool_decide (whence = SEEK_CUR) then Some (o + off)
           else if bool_decide (whence = SEEK_END) then Some (Z.of_nat (length b) + off)
           else None in
  match t with Some p => if bool_decide (0 <= p) then Some p else None | None => None end.

(** A state and the result of a call, without its [errno]. *)
Definition call_result {K A} (c : syscall K A) (k : K) : A * K := let '(a, _, k') := c k in (a, k').

Class RegularFile `{PF : Platform} (fd : Z) := {
  fview : kstate -> option (list byte * Z);
  fview_offset k b o : fview k = Some (b, o) -> 0 <= o;
  fview_read k b o n : fview k = Some (b, o) -> 0 <= n ->
    let '((ret, data), k') := call_result (sys_read fd n) k in
    (ret < 0 /\ fview k' = Some (b, o)) \/
    (data = slice b o n /\ ret = Z.of_nat (length data) /\ fview k' = Some (b, o + ret));
  fview_write k b o d : fview k = Some (b, o) -> o <= Z.of_nat (length b) ->
    let '(ret, k') := call_result (sys_write fd d) k in
    (ret < 0 /\ fview k' = Some (b, o)) \/
    (0 <= ret <= Z.of_nat (length d) /\ fview k' = Some (overwrite b o (take (Z.to_nat ret) d), o + ret));
  fview_lseek k b o off whence : fview k = Some (b, o) ->
    let '(ret, k') := call_result (sys_lseek fd off whence) k in
    match lseek_target b o off whence with
    | Some p => ret = p /\ fview k' = Some (b, p)
    | None => ret < 0 /\ fview k' = Some (b, o)
    end;
  fview_ftruncate k b o len : fview k = Some (b, o) -> 0 <= len <= Z.of_nat (length b) ->
    let '(ret, k') := call_result (sys_ftruncate fd len) k in
    ret = 0 /\ fview k' = Some (take (Z.to_nat len) b, o);
  fview_pwrite k b o d off : fview k = Some (b, o) -> 0 <= off <= Z.of_nat (length b) ->
    let '(ret, k') := call_result (sys_pwrite fd d off) k in
    ret = Z.of_nat (length d) /\ fview k' = Some (overwrite b off d, o);
}.

(** ** What the calls of the kernel do to the view *)

Section calls.
Context {PF : Platform}.

(** A system call changes the kernel and [errno] only. *)
Lemma libc_call {A} (c : syscall kstate A) w a k :
  call_result c (w_kernel w) = (a, k) ->
  exists w', libc c w = Ret a w' /\ w_kernel w' = k /\ w_txmgr w' = w_txmgr w.
Proof.
  unfold call_result, libc. destruct (c (w_kernel w)) as [[a' e] k']. intros [= <- <-]. by eexists.
Qed.

Lemma length_slice b o n : 0 <= n -> Z.of_nat (length (slice b o n)) <= n.
Proof. intros. unfold slice. rewrite length_take. lia. Qed.

Lemma overwrite_end b d : overwrite b (Z.of_nat (length b)) d = b ++ d.
Proof.
  unfold overwrite. rewrite Nat2Z.id, take_ge, drop_ge by lia. by rewrite app_nil_r.
Qed.

Lemma take_overwrite b o d : 0 <= o <= Z.of_nat (length b) -> take (Z.to_nat o) (overwrite b o d) = take (Z.to_nat o) b.
Proof. intros. unfold overwrite. rewrite take_app_le, take_take by (rewrite length_take; lia). f_equal. lia. Qed.

Lemma length_overwrite b o d :
  0 <= o <= Z.of_nat (length b) -> Z.of_nat (length (overwrite b o d)) = Z.max (Z.of_nat (length b)) (o + Z.of_nat (length d)).
Proof. intros. unfold overwrite. rewrite !length_app, length_take, length_drop. lia. Qed.

(** The two ways [x_write_ovr_undo] puts the old bytes back. *)
Lemma overwrite_back_short b o n d old :
  0 <= o <= Z.of_nat (length b) -> 0 <= n -> old = slice b o n -> Z.of_nat (length old) < n ->
  overwrite (take (Z.to_nat o) (overwrite b o d)) o old = b.
Proof.
  intros Ho Hn -> Hlt. rewrite take_overwrite by done. unfold overwrite.
  rewrite take_take, Nat.min_id. rewrite (drop_ge (take _ _)) by (rewrite length_take; lia).
  rewrite app_nil_r. unfold slice in *. rewrite length_take, length_drop in Hlt.
  rewrite (take_ge (drop _ _)) by (rewrite length_drop; lia). apply take_drop.
Qed.

Lemma overwrite_back_long b o n d old :
  0 <= o <= Z.of_nat (length b) -> 0 <= n -> old = slice b o n -> Z.of_nat (length d) <= Z.of_nat (length old) ->
  overwrite (overwrite b o d) o old = b.
Proof.
  intros Ho Hn -> Hle. unfold overwrite at 1. rewrite take_overwrite by done. unfold slice in *.
  rewrite length_take, length_drop in Hle.
  assert (E : drop (Z.to_nat o + length (take (Z.to_nat n) (drop (Z.to_nat o) b))) (overwrite b o d) =
    drop (length (take (Z.to_nat n) (drop (Z.to_nat o) b))) (drop (Z.to_nat o) b)).
  { unfold overwrite. rewrite length_take, length_drop.
    rewrite drop_app_ge by (rewrite length_take; lia). rewrite length_take.
    rewrite drop_app_ge by lia. rewrite !drop_drop. f_equal. lia. }
  rewrite E. transitivity (take (Z.to_nat o) b ++ drop (Z.to_nat o) b); [f_equal|apply take_drop].
  rewrite length_take, length_drop.
  destruct (decide (Z.to_nat n <= length b - Z.to_nat o)%nat).
  - rewrite Nat.min_l by lia. apply take_drop.
  - rewrite Nat.min_r by lia. rewrite take_ge, (drop_ge _ (length b - _)) by (rewrite length_drop; lia).
    apply app_nil_r.
Qed.
End calls.

(** ** The invariant of the transaction's body *)

Section undo.
Context {PF : Platform} (realloc_grants : forall n, realloc_ok n = true).
Context (fd : Z) {RF : RegularFile fd} (txd : Z).
Implicit Types (v orig : list byte * Z) (w : world).

Definition fv w : option (list byte * Z) := fview (w_kernel w).

(** The action [a] takes the view [v'] back to [v] and leaves the descriptors alone. *)
Definition act_takes (a : action) v' v : Prop :=
  forall w, fv w = Some v' -> exists r w', run_action a w = Ret r w' /\ fv w' = Some v /\ w_txmgr w' = w_txmgr w.

(** Running [l] from any state with the view [v] ends with [orig]. *)
Definition undoes (l : list (txc_tx_action_list_entry_t action)) v orig : Prop :=
  forall first w, fv w = Some v ->
    exists r w', exec_seq run_action store_int l first w = Ret r w' /\ fv w' = Some orig /\ w_txmgr w' = w_txmgr w.

Lemma undoes_nil v : undoes [] v v.
Proof. intros first w Hw. by exists first, w. Qed.

Lemma undoes_cons e l v v' orig : act_takes (function e) v' v -> undoes l v orig -> undoes (e :: l) v' orig.
Proof.
  intros Ha Hl first w Hw. destruct (Ha w Hw) as (r & w1 & Hr & Hw1 & Ht1).
  set (w2 := match error_result e with Some p => store_int p r w1 | None => w1 end).
  destruct (Hl (if bool_decide (first = 0) then r else first) w2) as (r' & w' & Hrun & Hw' & Ht').
  { unfold w2. by destruct (error_result e). }
  exists r', w'. split_and!; [|done|rewrite Ht', <- Ht1; unfold w2; by destruct (error_result e)]. cbn [exec_seq]. rewrite <- Hrun. apply m_bind_run.
  unfold exec_entry. m_next by exact Hr. unfold w2. by destruct (error_result e).
Qed.

(** The body so far: a retryable transaction whose compensating actions take the
    file from [v], its view now, back to [orig]. *)
Definition body_inv orig (n : Z) v w : Prop := exists k l,
  registered UndoSide txd k l n w /\ fview k = Some v /\ undoes (reverse l) v orig.

(** Where an aborted body stops. *)
Definition body_stop orig w : Prop := exists n v, body_inv orig n v w.

Lemma bi_view orig n v w : body_inv orig n v w -> fv w = Some v.
Proof. intros (k & l & [_ Hk _] & Hv & _). unfold fv. by rewrite Hk. Qed.

Lemma body_inv_same orig n v w w' : body_inv orig n v w -> same_side UndoSide txd w w' -> body_inv orig n v w'.
Proof. intros (k & l & Hr & Hv) Hs. exists k, l. split; [by eapply registered_same|done]. Qed.

Lemma body_inv_mono orig n m v w : body_inv orig n v w -> n <= m -> body_inv orig m v w.
Proof. intros (k & l & Hr & Hv) Hn. exists k, l. split; [by eapply registered_mono|done]. Qed.

(** An operation that leaves the kernel alone and registers, if anything, the
    sentinel manager's action. *)
Lemma body_reg {A} (m : M world A) orig n n' v :
  reg_hoare UndoSide txd n n' m ->
  m_hoare (body_inv orig n v) m (fun _ => body_inv orig n' v) (body_stop orig).
Proof.
  intros Hm w (k & l & Hr & Hv). specialize (Hm k l w Hr). destruct (m w) as [a w'|r w'| | | |]; try done.
  - by exists k, l.
  - destruct Hm as [n2 Hm]. by exists n2, v, k, l.
Qed.

Lemma body_quiet {A} (m : M world A) orig n v :
  m_pres (same_side UndoSide txd) m -> m_hoare (body_inv orig n v) m (fun _ => body_inv orig n v) (body_stop orig).
Proof. intros Hm. by apply body_reg, reg_quiet. Qed.

(** *** A call and its registration

    The kernel has changed from the view [v] to [v'] and [e] takes it back. *)

Ltac quiet_step := eapply m_hoare_bind; [apply body_quiet; m_pres_auto|intros ?].

Lemma body_done {A} (a : A) orig n v : m_hoare (body_inv orig n v) (m_ret a) (fun _ => body_inv orig n v) (body_stop orig).
Proof. by apply m_hoare_ret. Qed.

Lemma acquire_fd_body flags orig n v :
  n < 2 ^ 29 ->
  m_hoare (body_inv orig n v) (acquire_fd txd fd flags) (fun _ => body_inv orig (n + 1) v) (body_stop orig).
Proof. intros Hn. by apply body_reg, acquire_fd_reg. Qed.

(** A call that failed changed nothing. *)
Lemma body_inv_call orig n v w w' :
  body_inv orig n v w -> w_txmgr w' = w_txmgr w -> fv w' = Some v -> body_inv orig n v w'.
Proof.
  intros (k & l & Hr & _ & Hu) Ht Hv. exists (w_kernel w'), l. split; [|done]. by eapply registered_call.
Qed.

Definition body_after orig n w : Prop := exists v, body_inv orig n v w.

Lemma body_after_intro {A} orig n m (p : M world A) v :
  m_hoare (body_inv orig n v) p (fun _ => body_inv orig n v) (body_stop orig) -> n <= m ->
  m_hoare (body_inv orig n v) p (fun _ => body_after orig m) (body_stop orig).
Proof.
  intros H Hn. eapply m_hoare_conseq; [exact H|done| |done]. intros ? w Hw. exists v. eapply body_inv_mono; [exact Hw|lia].
Qed.

(** The end of a call: [*result]. *)
Lemma finish_body {A} result (body : M world (A * Z)) orig n m v :
  m_hoare (body_inv orig n v) body (fun _ => body_after orig m) (body_stop orig) ->
  m_hoare (body_inv orig n v) (finish result body) (fun _ => body_after orig m) (body_stop orig).
Proof.
  intros H. unfold finish. eapply m_hoare_bind; [exact H|]. intros [a e]. 
  assert (m_pres (same_side UndoSide txd) (store_result result e ;;; m_ret a)) as Hp by m_pres_auto.
  intros w [v' Hw]. specialize (Hp w). destruct ((store_result result e ;;; m_ret a) w) as [b w'|b w'| | | |]; try done.
  - exists v'. by eapply body_inv_same.
  - exists m, v'. by eapply body_inv_same.
Qed.

(** The mode of a transaction is read and is retryable. *)
Lemma retryable_body {A} (f : txc_tx_xactstate_t -> M world A) Q orig n v :
  txd <> 0 -> m_hoare (body_inv orig n v) (f TXC_XACTSTATE_TRANSACTIONAL_RETRYABLE) Q (body_stop orig) ->
  m_hoare (body_inv orig n v) (do x <- txc_tx_get_xactstate txd ;; f x) Q (body_stop orig).
Proof.
  intros H0 Hf w Hw. pose proof Hw as (k & l & Hr & _).
  rewrite (m_bind_run _ _ _ _ _ (registered_mode _ _ _ _ _ _ H0 Hr)). by apply Hf.
Qed.

(** *** The compensating actions *)

Lemma neg_false r : 0 <= r -> neg r = false.
Proof. intros. unfold neg. by rewrite bool_decide_eq_false_2 by lia. Qed.

Lemma neg_true r : r < 0 -> neg r = true.
Proof. intros. unfold neg. by rewrite bool_decide_eq_true_2. Qed.

(** [lseek] to a place that exists. *)
Lemma lseek_run b o off whence p w :
  fv w = Some (b, o) -> lseek_target b o off whence = Some p ->
  exists w', libc (sys_lseek fd off whence) w = Ret p w' /\ fv w' = Some (b, p) /\
    w_txmgr w' = w_txmgr w.
Proof.
  intros Hv Ht. pose proof (fview_lseek (w_kernel w) b o off whence Hv) as Hl.
  destruct (call_result (sys_lseek fd off whence) (w_kernel w)) as [ret k] eqn:E. rewrite Ht in Hl.
  destruct Hl as [-> Hk]. destruct (libc_call _ _ _ _ E) as (w' & Hr & Hk' & Hu). exists w'.
  split_and!; [done|unfold fv; by rewrite Hk'|done].
Qed.

Lemma target_back b o d : 0 <= o -> 0 <= d -> lseek_target b (o + d) (- d) SEEK_CUR = Some o.
Proof.
  intros. unfold lseek_target. rewrite bool_decide_eq_false_2, bool_decide_eq_true_2 by done.
  rewrite bool_decide_eq_true_2 by lia. f_equal. lia.
Qed.

Lemma target_set b o p : 0 <= p -> lseek_target b o p SEEK_SET = Some p.
Proof. intros. unfold lseek_target. by rewrite !bool_decide_eq_true_2. Qed.

Lemma read_undo_takes b o d : 0 <= o -> 0 <= d -> act_takes (x_read_undo fd d) (b, o + d) (b, o).
Proof.
  intros Ho Hd w Hv. destruct (lseek_run b (o + d) (- d) SEEK_CUR o w Hv (target_back b o d Ho Hd)) as (w' & E & Hv' & Ht').
  exists 0, w'. split; [|done]. simpl. unfold run_x_read_undo. m_next by exact E. by rewrite neg_false.
Qed.

Lemma lseek_undo_takes b b' o p : 0 <= o -> b' = b -> act_takes (x_lseek_undo fd o) (b', p) (b, o).
Proof.
  intros Ho -> w Hv. destruct (lseek_run b p o SEEK_SET o w Hv (target_set b p o Ho)) as (w' & E & Hv' & Ht').
  exists 0, w'. split; [|done]. simpl. unfold run_x_lseek_undo. m_next by exact E. by rewrite neg_false.
Qed.

Lemma ftruncate_run b o len w :
  fv w = Some (b, o) -> 0 <= len <= Z.of_nat (length b) ->
  exists w', libc (sys_ftruncate fd len) w = Ret 0 w' /\ fv w' = Some (take (Z.to_nat len) b, o) /\ w_txmgr w' = w_txmgr w.
Proof.
  intros Hv Hlen. pose proof (fview_ftruncate (w_kernel w) b o len Hv Hlen) as Hl.
  destruct (call_result (sys_ftruncate fd len) (w_kernel w)) as [ret k] eqn:E. destruct Hl as [-> Hk].
  destruct (libc_call _ _ _ _ E) as (w' & Hr & Hk' & Hu). exists w'. split_and!; [done|unfold fv; by rewrite Hk'|done].
Qed.

Lemma pwrite_run b o d off w :
  fv w = Some (b, o) -> 0 <= off <= Z.of_nat (length b) ->
  exists w', libc (sys_pwrite fd d off) w = Ret (Z.of_nat (length d)) w' /\ fv w' = Some (overwrite b off d, o) /\
    w_txmgr w' = w_txmgr w.
Proof.
  intros Hv Hoff. pose proof (fview_pwrite (w_kernel w) b o d off Hv Hoff) as Hl.
  destruct (call_result (sys_pwrite fd d off) (w_kernel w)) as [ret k] eqn:E. destruct Hl as [-> Hk].
  destruct (libc_call _ _ _ _ E) as (w' & Hr & Hk' & Hu). exists w'. split_and!; [done|unfold fv; by rewrite Hk'|done].
Qed.

(** An append: cut the file where it ended. *)
Lemma write_seq_undo_takes b d :
  act_takes (x_write_seq_undo fd (Z.of_nat (length d))) (b ++ d, Z.of_nat (length b) + Z.of_nat (length d))
    (b, Z.of_nat (length b)).
Proof.
  intros w Hv.
  destruct (lseek_run (b ++ d) _ (- Z.of_nat (length d)) SEEK_CUR (Z.of_nat (length b)) w Hv) as (w1 & E1 & Hv1 & Ht1).
  { apply target_back; lia. }
  destruct (ftruncate_run _ _ (Z.of_nat (length b)) w1 Hv1) as (w2 & E2 & Hv2 & Ht2).
  { rewrite length_app. lia. }
  exists 0, w2. split; [|split; [|congruence]].
  - simpl. unfold run_x_write_seq_undo. m_next by exact E1. rewrite neg_false by lia.
    m_next by exact E2. by rewrite neg_false.
  - by rewrite Hv2, Nat2Z.id, take_app_length.
Qed.

(** An overwrite of [d] where [old] was saved. *)
Lemma write_ovr_undo_takes b o n d old :
  0 <= o <= Z.of_nat (length b) -> 0 <= n -> old = slice b o n -> Z.of_nat (length d) <= n ->
  act_takes (x_write_ovr_undo fd (Some old) (Z.of_nat (length d)) (Z.of_nat (length old)))
    (overwrite b o d, o + Z.of_nat (length d)) (b, o).
Proof.
  intros Ho Hn Hold Hd w Hv.
  destruct (lseek_run (overwrite b o d) _ (- Z.of_nat (length d)) SEEK_CUR o w Hv) as (w1 & E1 & Hv1 & Ht1).
  { apply target_back; lia. }
  simpl. unfold run_x_write_ovr_undo.
  pose proof (length_overwrite b o d Ho) as Hlen.
  destruct (decide (Z.of_nat (length old) < Z.of_nat (length d))) as [Hlt|Hge].
  - destruct (ftruncate_run _ _ o w1 Hv1) as (w2 & E2 & Hv2 & Ht2); [lia|].
    destruct (pwrite_run _ _ (take (Z.to_nat (Z.of_nat (length old))) old) o w2 Hv2) as (w3 & E3 & Hv3 & Ht3).
    { rewrite length_take. lia. }
    exists 0, w3. split; [|split; [|congruence]].
    + m_next by exact E1. rewrite neg_false by lia. rewrite bool_decide_eq_true_2 by done.
      m_next by exact E2. rewrite neg_false by lia. m_next by exact E3. by rewrite neg_false by lia.
    + rewrite Hv3, Nat2Z.id, firstn_all. do 2 f_equal. eapply overwrite_back_short; [done|exact Hn|done|lia].
  - destruct (pwrite_run _ _ (take (Z.to_nat (Z.of_nat (length old))) old) o w1 Hv1) as (w3 & E3 & Hv3 & Ht3); [lia|].
    exists 0, w3. split; [|split; [|congruence]].
    + m_next by exact E1. rewrite neg_false by lia. rewrite bool_decide_eq_false_2 by done.
      m_next. rewrite neg_false by lia. m_next by exact E3. by rewrite neg_false by lia.
    + rewrite Hv3, Nat2Z.id, firstn_all. do 2 f_equal. eapply overwrite_back_long; [done|exact Hn|done|lia].
Qed.

(** *** The calls *)

(** The error exit of a call that failed without effect. *)
Lemma fail_body {A} (p : M world A) orig n m v w w1 :
  body_inv orig n v w -> w_txmgr w1 = w_txmgr w -> fv w1 = Some v -> n <= m ->
  m_pres (same_side UndoSide txd) p ->
  match p w1 with Ret _ w' => body_after orig m w' | Abort _ w' => body_stop orig w' | _ => True end.
Proof.
  intros Hw Hu Hv Hn Hp. assert (Hw1 : body_inv orig n v w1) by (by eapply body_inv_call).
  revert w1 Hu Hv Hw1. intros w1 _ _ Hw1. revert w1 Hw1. by apply body_after_intro; [apply body_quiet|].
Qed.

(** The success exit. *)
Lemma success_body {A} orig n m v v' e r (a : A) w w1 :
  body_inv orig n v w -> w_txmgr w1 = w_txmgr w -> fv w1 = Some v' -> n + 1 <= m -> m < 2 ^ 29 ->
  act_takes e v' v ->
  match (do _ <- txc_tx_register_undo_action txd e r TXC_TX_REGULAR_UNDO_ACTION_ORDER ;; m_ret a) w1 with
  | Ret _ w' => body_after orig m w' | Abort _ w' => body_stop orig w' | _ => True end.
Proof.
  intros (k & l & Hr & _ & Hun) Ht Hv Hn Hm He.
  destruct (register_regular realloc_grants UndoSide txd e r (w_kernel w1) l n w1) as (w2 & E & Hw2); [lia|by eapply registered_call|].
  simpl in E. unfold TXC_TX_REGULAR_UNDO_ACTION_ORDER. rewrite (m_bind_run _ _ _ _ _ E).
  exists v', (w_kernel w1), (l ++ [ActionEntry e r 0]). split; [eapply registered_mono; [exact Hw2|lia]|]. split; [done|].
  rewrite reverse_snoc. by eapply undoes_cons.
Qed.

Lemma x_read_body nbyte result orig n v :
  txd <> 0 -> 0 <= nbyte -> n + 2 < 2 ^ 29 ->
  m_hoare (body_inv orig n v) (x_read txd fd nbyte result) (fun _ => body_after orig (n + 2)) (body_stop orig).
Proof.
  intros H0 Hnb Hn. unfold x_read. apply retryable_body; [done|]. apply finish_body. unfold x_read_tx.
  eapply m_hoare_bind; [apply acquire_fd_body; lia|intros [koa|]]; [|apply body_after_intro; [apply body_done|lia]].
  eapply m_hoare_bind; [apply body_quiet; m_pres_auto|intros [p|]];
    [|apply body_after_intro; [apply body_done|lia]].
  intros w Hw. destruct v as [b o]. pose proof (bi_view _ _ _ _ Hw) as Hv.
  pose proof (fview_read (w_kernel w) b o nbyte Hv Hnb) as Hr.
  destruct (call_result (sys_read fd nbyte) (w_kernel w)) as [[ret data] k] eqn:E.
  destruct (libc_call _ _ _ _ E) as (w1 & Hr1 & Hk1 & Hu1). rewrite (m_bind_run _ _ _ _ _ Hr1).
  destruct Hr as [[Hneg Hv1]|(Hd & Hret & Hv1)]; rewrite <- Hk1 in Hv1.
  - rewrite neg_true by done. eapply fail_body; [exact Hw|exact Hu1|exact Hv1|lia|]. m_pres_auto.
  - rewrite neg_false by lia. eapply success_body; [exact Hw|exact Hu1|exact Hv1|lia|lia|].
    apply read_undo_takes; [by eapply fview_offset|lia].
Qed.

Lemma lseek_result b o off whence w :
  fv w = Some (b, o) -> exists ret w',
    libc (sys_lseek fd off whence) w = Ret ret w' /\ w_txmgr w' = w_txmgr w /\
    match lseek_target b o off whence with
    | Some p => ret = p /\ fv w' = Some (b, p)
    | None => ret < 0 /\ fv w' = Some (b, o)
    end.
Proof.
  intros Hv. pose proof (fview_lseek (w_kernel w) b o off whence Hv) as Hl.
  destruct (call_result (sys_lseek fd off whence) (w_kernel w)) as [ret k] eqn:E.
  destruct (libc_call _ _ _ _ E) as (w' & Hr & Hk & Hu). exists ret, w'. split_and!; [done|done|].
  unfold fv. by rewrite Hk.
Qed.

Lemma target_nonneg b o off whence p : lseek_target b o off whence = Some p -> 0 <= p.
Proof.
  unfold lseek_target. repeat case_bool_decide; intros [= <-]; done.
Qed.

Lemma x_lseek_body offset whence result orig n v :
  txd <> 0 -> n + 2 < 2 ^ 29 ->
  m_hoare (body_inv orig n v) (x_lseek txd fd offset whence result) (fun _ => body_after orig (n + 2)) (body_stop orig).
Proof.
  intros H0 Hn. unfold x_lseek. apply retryable_body; [done|]. apply finish_body. unfold x_lseek_tx.
  eapply m_hoare_bind; [apply acquire_fd_body; lia|intros [koa|]]; [|apply body_after_intro; [apply body_done|lia]].
  eapply m_hoare_bind; [apply body_quiet; m_pres_auto|intros [p|]]; [|apply body_after_intro; [apply body_done|lia]].
  intros w Hw. destruct v as [b o]. pose proof (bi_view _ _ _ _ Hw) as Hv.
  pose proof (fview_offset _ _ _ Hv) as Ho.
  assert (exists ret w1, (if bool_decide (whence = SEEK_CUR) then
      do ret <- libc (sys_lseek fd offset whence) ;; m_ret (ret, ret - offset)
    else do old <- libc (sys_lseek fd 0 SEEK_CUR) ;;
      do ret <- libc (sys_lseek fd offset whence) ;; m_ret (ret, old)) w =
      Ret (ret, if bool_decide (whence = SEEK_CUR) then ret - offset else o) w1 /\
      w_txmgr w1 = w_txmgr w /\
      match lseek_target b o offset whence with
      | Some p => ret = p /\ fv w1 = Some (b, p)
      | None => ret < 0 /\ fv w1 = Some (b, o)
      end) as (ret & w1 & E & Hu & Ht).
  { case_bool_decide as Hc.
    - destruct (lseek_result b o offset whence w Hv) as (ret & w1 & E & Hu & Ht). exists ret, w1.
      split_and!; [by rewrite (m_bind_run _ _ _ _ _ E)|done|done].
    - destruct (lseek_run b o 0 SEEK_CUR o w Hv) as (w1 & E1 & Hv1 & Hu1).
      { replace o with (o + 0) at 1 by lia. by apply (target_back b o 0). }
      destruct (lseek_result b o offset whence w1 Hv1) as (ret & w2 & E2 & Hu2 & Ht). exists ret, w2.
      split_and!; [by rewrite (m_bind_run _ _ _ _ _ E1), (m_bind_run _ _ _ _ _ E2)|by rewrite Hu2|done]. }
  rewrite (m_bind_run _ _ _ _ _ E). cbv iota.
  destruct (lseek_target b o offset whence) as [q|] eqn:Htg; destruct Ht as [Hret Hv1].
  - subst ret. pose proof (target_nonneg _ _ _ _ _ Htg). rewrite neg_false by done.
    eapply success_body; [exact Hw|exact Hu|exact Hv1|lia|lia|].
    case_bool_decide as Hc; [|by apply lseek_undo_takes].
    replace (q - offset) with o; [by apply lseek_undo_takes|].
    unfold lseek_target in Htg. subst whence. rewrite bool_decide_eq_false_2, bool_decide_eq_true_2 in Htg by done.
    case_bool_decide; simplify_eq; lia.
  - rewrite neg_true by done. eapply fail_body; [exact Hw|exact Hu|exact Hv1|lia|]. m_pres_auto.
Qed.


(** What a write leaves, at an offset in the file. *)
Lemma write_result b o d w :
  fv w = Some (b, o) -> o <= Z.of_nat (length b) -> exists ret w',
    libc (sys_write fd d) w = Ret ret w' /\ w_txmgr w' = w_txmgr w /\
    ((ret < 0 /\ fv w' = Some (b, o)) \/
     exists d', ret = Z.of_nat (length d') /\ (length d' <= length d)%nat /\
       fv w' = Some (overwrite b o d', o + ret)).
Proof.
  intros Hv Ho. pose proof (fview_write (w_kernel w) b o d Hv Ho) as Hl.
  destruct (call_result (sys_write fd d) (w_kernel w)) as [ret k] eqn:E.
  destruct (libc_call _ _ _ _ E) as (w' & Hr & Hk & Hu). exists ret, w'. split_and!; [done|done|].
  unfold fv. rewrite Hk. destruct Hl as [Hl|[Hret Hv']]; [by left|right].
  exists (take (Z.to_nat ret) d). rewrite length_take. split_and!; [lia|lia|done].
Qed.

(** [x_write] of one of its variants, on the file. *)
Lemma x_write_body flags buf result orig n m v :
  txd <> 0 -> n + 2 < 2 ^ 29 ->
  m_hoare (body_inv orig (n + 1) v)
    (if bool_decide (flags = TXC_WRITE_SEQ) then x_write_seq_tx txd fd buf result
     else if bool_decide (flags = TXC_WRITE_OVR_IGNORE) || bool_decide (flags = TXC_WRITE_OVR_SAVE)
     then x_write_ovr_tx txd fd buf result flags else m_exit)
    (fun _ => body_after orig m) (body_stop orig) -> n + 1 <= m ->
  m_hoare (body_inv orig n v) (x_write txd fd buf result flags) (fun _ => body_after orig m) (body_stop orig).
Proof.
  intros H0 Hn H Hm. unfold x_write. apply retryable_body; [done|]. apply finish_body.
  eapply m_hoare_bind; [apply acquire_fd_body; lia|intros [koa|]]; [exact H|].
  apply body_after_intro; [apply body_done|lia].
Qed.

(** An append at the end of the file. *)
Lemma x_write_seq_body buf result orig n b o :
  txd <> 0 -> n + 2 < 2 ^ 29 -> o = Z.of_nat (length b) ->
  m_hoare (body_inv orig n (b, o)) (x_write_seq txd fd buf result)
    (fun _ => body_after orig (n + 2)) (body_stop orig).
Proof.
  intros H0 Hn Ho. apply x_write_body; [done|done| |lia]. simpl. unfold x_write_seq_tx.
  eapply m_hoare_bind; [apply body_quiet; m_pres_auto|intros [p|]]; [|apply body_after_intro; [apply body_done|lia]].
  intros w Hw. pose proof (bi_view _ _ _ _ Hw) as Hv.
  destruct (write_result b o buf w Hv) as (ret & w1 & E & Hu & Hr); [lia|].
  rewrite (m_bind_run _ _ _ _ _ E). destruct Hr as [[Hneg Hv1]|(d & Hret & Hd & Hv1)].
  - rewrite neg_true by done. eapply fail_body; [exact Hw|exact Hu|exact Hv1|lia|]. m_pres_auto.
  - rewrite neg_false by lia. eapply success_body; [exact Hw|exact Hu|exact Hv1|lia|lia|].
    subst ret o. rewrite overwrite_end. apply write_seq_undo_takes.
Qed.

(** Reading back what is about to be overwritten leaves the offset, after the
    [lseek] that follows, where it was. *)
Lemma save_result b o nbyte w (Hnb : 0 <= nbyte) :
  fv w = Some (b, o) -> exists r w',
    libc (sys_read fd nbyte) w = Ret r w' /\ w_txmgr w' = w_txmgr w /\
    ((r.1 < 0 /\ fv w' = Some (b, o)) \/
     (r.2 = slice b o nbyte /\ r.1 = Z.of_nat (length r.2) /\ exists w2,
        (if bool_decide (r.1 > 0)
         then do _ <- libc (sys_lseek fd (- r.1) SEEK_CUR) ;; m_ret tt else m_ret tt) w' = Ret tt w2 /\
        w_txmgr w2 = w_txmgr w /\ fv w2 = Some (b, o))).
Proof.
  intros Hv. pose proof (fview_read (w_kernel w) b o nbyte Hv Hnb) as Hl.
  pose proof (fview_offset _ _ _ Hv) as Ho.
  destruct (call_result (sys_read fd nbyte) (w_kernel w)) as [[ret data] k] eqn:E.
  destruct (libc_call _ _ _ _ E) as (w' & Hr & Hk & Hu). exists (ret, data), w'. split_and!; [done|done|].
  unfold fv at 1. rewrite Hk. destruct Hl as [Hl|(Hd & Hret & Hv')]; [by left|right].
  split_and!; [done|done|]. simpl. case_bool_decide as Hpos.
  - rewrite <- Hk in Hv'.
    destruct (lseek_run b (o + ret) (- ret) SEEK_CUR o w' Hv') as (w2 & E2 & Hv2 & Hu2); [apply target_back; lia|].
    exists w2. split_and!; [by rewrite (m_bind_run _ _ _ _ _ E2)|by rewrite Hu2|done].
  - exists w'. split_and!; [done|done|]. unfold fv. rewrite Hk, Hv'. do 2 f_equal. lia.
Qed.

(** An overwrite inside the file, saving the old bytes. *)
Lemma x_write_ovr_save_body buf result orig n b o :
  txd <> 0 -> n + 2 < 2 ^ 29 -> o <= Z.of_nat (length b) ->
  m_hoare (body_inv orig n (b, o)) (x_write_ovr_save txd fd buf result)
    (fun _ => body_after orig (n + 2)) (body_stop orig).
Proof.
  intros H0 Hn Ho. apply x_write_body; [done|done| |lia]. simpl. unfold x_write_ovr_tx. cbv zeta.
  eapply m_hoare_bind; [apply body_quiet; m_pres_auto|intros [p|]]; [|apply body_after_intro; [apply body_done|lia]].
  unfold x_write_ovr_old. rewrite bool_decide_eq_true_2 by done. apply m_hoare_assoc.
  eapply m_hoare_bind; [apply body_quiet; m_pres_auto|intros [old_data|]];
    [|apply m_hoare_assoc; eapply body_after_intro; [quiet_step; apply body_done|lia]].
  intros w Hw. pose proof (bi_view _ _ _ _ Hw) as Hv. pose proof (fview_offset _ _ _ Hv) as Hpos.
  destruct (save_result b o (Z.of_nat (length buf)) w (Nat2Z.is_nonneg _) Hv) as ([ret data] & w1 & E1 & Hu1 & Hs).
  rewrite m_bind_assoc, (m_bind_run _ _ _ _ _ E1). cbv iota. simpl in Hs.
  destruct Hs as [[Hneg Hv1]|(Hd & Hret & w2 & E2 & Hu2 & Hv2)].
  - rewrite neg_true by done.
    match goal with |- match ?r with _ => _ end => replace r with ((do e <- get_errno ;;
      tx_linear_free txd (Z.of_nat (length buf)) ;;;
      tx_linear_free txd (sizeof sz_x_write_undo_args_t) ;;; m_ret (ret, e)) w1) end.
    + eapply fail_body; [exact Hw|exact Hu1|exact Hv1|lia|]. m_pres_auto.
    + rewrite !m_bind_assoc. unfold m_bind, m_ret. by repeat case_match; simplify_eq.
  - rewrite neg_false by lia. unfold m_ret at 1, m_bind at 1. cbv beta iota. rewrite (m_bind_run _ _ _ _ _ E2).
    destruct (write_result b o buf w2 Hv2 Ho) as (r & w3 & E3 & Hu3 & Hr).
    rewrite (m_bind_run _ _ _ _ _ E3).
    assert (Hu : w_txmgr w3 = w_txmgr w) by congruence.
    destruct Hr as [[Hneg Hv3]|(d & Hr & Hdl & Hv3)].
    + rewrite neg_true by done. eapply fail_body; [exact Hw|exact Hu|exact Hv3|lia|]. m_pres_auto.
    + rewrite neg_false by lia. eapply success_body; [exact Hw|exact Hu|exact Hv3|lia|lia|].
      subst r ret. eapply write_ovr_undo_takes; [lia| |exact Hd|lia]. lia.
Qed.

(** *** Rolling back *)

(** The compensating actions of an aborted body run to their end, and put the
    file back. *)
Lemma undo_actions_restore orig w :
  body_stop orig w -> exists la l w1 first,
    aview UndoSide txd w = Some (la, TXC_XACTSTATE_TRANSACTIONAL_RETRYABLE) /\
    fv w1 = Some orig /\ Forall (sentinel_entry UndoSide) l /\
    exec_undo_actions run_action store_int la w = exec_seq run_action store_int l first w1.
Proof.
  intros (n & v & k & l0 & Hr & Hv & Hun). rewrite <- (reg_kernel _ _ _ _ _ _ Hr) in Hv.
  destruct (Hun 0 w Hv) as (first & w1 & Hrun & Hv1 & _).
  destruct (side_exec_run UndoSide txd k l0 n w first w1 Hr Hrun) as (la & l & Ha & Hl & E).
  by exists la, l, w1, first.
Qed.

Lemma rollback_restores orig r w w' :
  body_stop orig w -> xact_rollback txd r w = Ret tt w' -> fv w' = Some orig.
Proof.
  intros (n & v & k & l0 & Hr & Hv & Hun) E. rewrite <- (reg_kernel _ _ _ _ _ _ Hr) in Hv.
  destruct (Hun 0 w Hv) as (first & w1 & Hrun & Hv1 & _).
  pose proof (rollback_quiet same_kernel txd _ _ _ _ _ _ _ _ Hr Hrun E) as Hk. rewrite <- Hv1. unfold fv. by rewrite Hk.
Qed.

(** *** A transaction on the file *)

(** The calls a body makes, and where their compensation is right: an append is
    at the end of the file, an overwrite inside it. *)
Inductive fop :=
  | FRead (nbyte : Z) (result : option Z)
  | FLseek (offset whence : Z) (result : option Z)
  | FWriteSeq (buf : list byte) (result : option Z)
  | FWriteOvrSave (buf : list byte) (result : option Z).

Definition run_fop (op : fop) : M world unit :=
  match op with
  | FRead nbyte result => do _ <- x_read txd fd nbyte result ;; m_ret tt
  | FLseek offset whence result => do _ <- x_lseek txd fd offset whence result ;; m_ret tt
  | FWriteSeq buf result => do _ <- x_write_seq txd fd buf result ;; m_ret tt
  | FWriteOvrSave buf result => do _ <- x_write_ovr_save txd fd buf result ;; m_ret tt
  end.

Definition fop_ok (op : fop) (v : list byte * Z) : Prop :=
  match op with
  | FRead nbyte _ => 0 <= nbyte
  | FLseek _ _ _ => True
  | FWriteSeq _ _ => v.2 = Z.of_nat (length v.1)
  | FWriteOvrSave _ _ => v.2 <= Z.of_nat (length v.1)
  end.

(** Every call is made where it is right. *)
Fixpoint fops_ok (ops : list fop) (w : world) : Prop :=
  match ops with
  | [] => True
  | op :: ops' => (forall v, fv w = Some v -> fop_ok op v) /\
      forall w', run_fop op w = Ret tt w' -> fops_ok ops' w'
  end.

Lemma fop_body op orig n v :
  txd <> 0 -> fop_ok op v -> n + 2 < 2 ^ 29 ->
  m_hoare (body_inv orig n v) (run_fop op) (fun _ => body_after orig (n + 2)) (body_stop orig).
Proof.
  intros H0 Hok Hn. destruct v as [b o], op; simpl in *;
    (apply (m_hoare_bind _ _ _ (fun _ => body_after orig (n + 2))); [|intros ?; by apply m_hoare_ret]).
  - by apply x_read_body.
  - by apply x_lseek_body.
  - by apply x_write_seq_body.
  - by apply x_write_ovr_save_body.
Qed.

Lemma fops_body ops orig n v w :
  txd <> 0 -> fops_ok ops w -> n + 2 * Z.of_nat (length ops) < 2 ^ 29 -> body_inv orig n v w ->
  match m_iter run_fop ops w with
  | Ret _ w' => body_after orig (n + 2 * Z.of_nat (length ops)) w'
  | Abort _ w' => body_stop orig w'
  | _ => True
  end.
Proof.
  intros H0. revert n v w. induction ops as [|op ops IH]; intros n v w Hok Hn Hw; simpl in *.
  - exists v. eapply body_inv_mono; [done|lia].
  - destruct Hok as [Hop Hok].
    pose proof (fop_body op orig n v H0 (Hop v (bi_view _ _ _ _ Hw)) ltac:(lia) w Hw) as Hh. unfold m_bind.
    destruct (run_fop op w) as [[] w1|r w1| | | |] eqn:E; try done. destruct Hh as [v1 Hw1].
    specialize (IH (n + 2) v1 w1 (Hok _ eq_refl) ltac:(lia) Hw1).
    destruct (m_iter run_fop ops w1); try done. destruct IH as [v2 IH]. exists v2.
    eapply body_inv_mono; [exact IH|lia].
Qed.

Lemma begin_body orig w w0 :
  tx_idle UndoSide txd w -> fv w = Some orig -> xact_begin txd w = Ret tt w0 -> body_inv orig 1 orig w0.
Proof.
  intros Hi Hv E. exists (w_kernel w), []. split_and!; [by eapply begin_reg|done|apply undoes_nil].
Qed.
End undo.

(** ** The property *)

(** C1: Take a thread between transactions, and a descriptor of a regular file
    with contents and offset [orig]. It begins a transaction, makes any sequence
    of [x_read], [x_lseek], [x_write_seq] at the end of the file and
    [x_write_ovr_save] inside it, with any results of the system calls, and then
    aborts, on its own or because the file's sentinel was busy. Then the
    compensating actions run to their end and leave the file's contents and
    offset at [orig], with only actions of the sentinel manager still to run;
    and when the rollback returns, the contents and the offset are [orig]. *)
Theorem undo_restores_file `{PF : Platform} (realloc_grants : forall n, realloc_ok n = true) fd
    `{!RegularFile fd} txd ops orig reason r w w0 w1 :
  tx_idle UndoSide txd w -> fview (w_kernel w) = Some orig -> xact_begin txd w = Ret tt w0 ->
  fops_ok fd txd ops w0 -> Z.of_nat (length ops) < 2 ^ 27 ->
  (m_iter (run_fop fd txd) ops ;;; txc_tx_abort_transaction (A := unit) txd reason) w0 = Abort r w1 ->
  (exists t l first w2, txds (w_txmgr w1) !! txd = Some t /\
    exec_undo_actions run_action store_int (undo_action_list t) w1 = exec_seq run_action store_int l first w2 /\
    Forall (sentinel_entry UndoSide) l /\ fview (w_kernel w2) = Some orig) /\
  (forall w2, xact_rollback txd r w1 = Ret tt w2 -> fview (w_kernel w2) = Some orig).
Proof.
  intros Hidle Hv Hb Hok Hlen E.
  assert (body_stop fd txd orig w1) as Hs.
  { pose proof (begin_body realloc_grants fd txd orig w w0 Hidle Hv Hb) as Hb0.
    pose proof (fops_body realloc_grants fd txd ops orig 1 orig w0 (proj1 Hidle) Hok ltac:(lia) Hb0) as Hh.
    unfold m_bind in E. destruct (m_iter _ _ w0) as [[] w3|r3 w3| | | |]; try done.
    - destruct Hh as [v Hh]. pose proof (abort_side UndoSide txd txd (A := unit) reason w3) as Ha. rewrite E in Ha.
      eexists _, v. by eapply body_inv_same.
    - by injection E as <- <-. }
  split.
  - destruct (undo_actions_restore fd txd orig w1 Hs) as (la & l & w2 & first & Hu & Hv2 & Hl & Hrun).
    destruct (aview_inv _ _ _ _ _ Hu) as (t & Ht & <- & _). by exists t, l, first, w2.
  - intros w2. by apply rollback_restores.
Qed.

(** ** The in-memory kernel keeps the promise *)

Definition mf_view (fd : Z) (k : memfs) : option (list byte * Z) :=
  match mf_lookup fd k with
  | Some (o, OFile i off) =>
      match mf_files k !! i with
      | Some b => if bool_decide (0 <= off) then Some (b, off) else None
      | None => None
      end
  | _ => None
  end.

Lemma mf_view_inv fd k b o :
  mf_view fd k = Some (b, o) -> exists od i, mf_fds k !! fd = Some od /\ mf_ofds k !! od = Some (OFile i o) /\
    mf_files k !! i = Some b /\ 0 <= o.
Proof.
  unfold mf_view, mf_lookup. destruct (mf_fds k !! fd) as [od|] eqn:E1; [simpl|done].
  destruct (mf_ofds k !! od) as [[i off|p|p|p]|] eqn:E2; simpl; try done.
  destruct (mf_files k !! i) as [b'|] eqn:E3; [|done]. case_bool_decide; [|done]. intros [= <- <-]. eauto 10.
Qed.

Lemma mf_view_intro fd k od i b o :
  mf_fds k !! fd = Some od -> mf_ofds k !! od = Some (OFile i o) -> mf_files k !! i = Some b -> 0 <= o ->
  mf_view fd k = Some (b, o).
Proof.
  intros H1 H2 H3 H4. unfold mf_view, mf_lookup. rewrite H1. simpl. rewrite H2. simpl. rewrite H3.
  by rewrite bool_decide_eq_true_2.
Qed.

Lemma mf_lookup_file fd k od i o :
  mf_fds k !! fd = Some od -> mf_ofds k !! od = Some (OFile i o) -> mf_lookup fd k = Some (od, OFile i o).
Proof. intros H1 H2. unfold mf_lookup. rewrite H1. simpl. by rewrite H2. Qed.

Lemma mf_overwrite_in b o d :
  0 <= o <= Z.of_nat (length b) -> mf_overwrite b o d = overwrite b o d.
Proof.
  intros Ho. unfold mf_overwrite, overwrite. replace (Z.to_nat o - length b)%nat with 0%nat by lia.
  by rewrite app_nil_r.
Qed.

(** Read the bytes of the inode. *)
Ltac mf_file H :=
  match goal with |- context [default [] ?x] => let E := fresh in assert (x = _) as E by exact H; rewrite E; clear E end.

Lemma mf_truncate_in b len :
  0 <= len <= Z.of_nat (length b) ->
  take (Z.to_nat len) (b ++ replicate (Z.to_nat len - length b) Byte.x00) = take (Z.to_nat len) b.
Proof. intros H. replace (Z.to_nat len - length b)%nat with 0%nat by lia. by rewrite app_nil_r. Qed.

Ltac mf_solve := eapply mf_view_intro; simpl; rewrite ?lookup_insert_eq; try done; try lia.

#[export] Program Instance mem_regular_file fd : RegularFile (PF := mem_platform) fd := {| fview := mf_view fd |}.
Next Obligation. intros fd k b o (od & i & _ & _ & _ & Ho)%mf_view_inv. done. Qed.
Next Obligation.
  intros fd k b o n (od & i & H1 & H2 & H3 & Ho)%mf_view_inv Hn. simpl. unfold call_result, mf_read.
  rewrite (mf_lookup_file _ _ _ _ _ H1 H2). simpl. repeat mf_file H3. simpl. right. split_and!; [done|done|]. mf_solve.
Qed.
Next Obligation.
  intros fd k b o d (od & i & H1 & H2 & H3 & Ho)%mf_view_inv Hl. simpl. unfold call_result, mf_write.
  rewrite (mf_lookup_file _ _ _ _ _ H1 H2). simpl. repeat mf_file H3. simpl. right. split; [lia|].
  rewrite Nat2Z.id, firstn_all, mf_overwrite_in by lia. mf_solve.
Qed.
Next Obligation.
  intros fd k b o off whence Hv. destruct (mf_view_inv _ _ _ _ Hv) as (od & i & H1 & H2 & H3 & Ho). simpl.
  unfold call_result, mf_lseek, lseek_target. rewrite (mf_lookup_file _ _ _ _ _ H1 H2). simpl. repeat mf_file H3. simpl.
  repeat case_bool_decide; simpl; try lia; (split; [lia|]); try done; mf_solve.
Qed.
Next Obligation.
  intros fd k b o len (od & i & H1 & H2 & H3 & Ho)%mf_view_inv Hl. simpl. unfold call_result, mf_ftruncate.
  rewrite (mf_lookup_file _ _ _ _ _ H1 H2). simpl. repeat mf_file H3. simpl. split; [done|].
  mf_solve. f_equal. by apply mf_truncate_in.
Qed.
Next Obligation.
  intros fd k b o d off (od & i & H1 & H2 & H3 & Ho)%mf_view_inv Hl. simpl. unfold call_result, mf_pwrite.
  rewrite (mf_lookup_file _ _ _ _ _ H1 H2). simpl. repeat mf_file H3. simpl. split; [done|].
  rewrite mf_overwrite_in by lia. mf_solve.
Qed.

(** *** A concrete transaction

    The file [f] with the bytes [abcd], opened before the transaction, which
    reads a byte, overwrites the next three and two more, appends, seeks, and
    aborts. *)

Definition w_file0 : world := mem_world (mf_one_file [Byte.x61; Byte.x62; Byte.x63; Byte.x64] 0) 4.
Definition w_file1 : world := after (x_open 1000 "f" 0 0 None) w_file0.
Definition w_file2 : world := after (xact_begin 1000) w_file1.
Definition file_ops : list fop :=
  [FRead 1 (Some 7); FWriteOvrSave [Byte.x31; Byte.x32; Byte.x33; Byte.x34; Byte.x35] None;
   FWriteSeq [Byte.x36; Byte.x37] None; FLseek 2 SEEK_SET None].
Definition file_body : M world unit :=
  m_iter (run_fop 1 1000) file_ops ;;; txc_tx_abort_transaction (A := unit) 1000 TXC_ABORTREASON_USERABORT.
Definition w_file3 : world := after file_body w_file2.
Definition w_file4 : world := after (xact_rollback 1000 TXC_ABORTREASON_USERABORT) w_file3.

Lemma fops_ok_cons `{PF : Platform} fd `{!RegularFile fd} txd op ops v w w' :
  fview (w_kernel w) = Some v -> fop_ok op v -> run_fop fd txd op w = Ret tt w' -> fops_ok fd txd ops w' ->
  fops_ok fd txd (op :: ops) w.
Proof.
  intros Hv Hop Hr Hok. split.
  - intros v'. unfold fv. rewrite Hv. by intros [= <-].
  - intros w2. rewrite Hr. by intros [= <-].
Qed.

Definition w_op1 : world := after (run_fop 1 1000 (FRead 1 (Some 7))) w_file2.
Definition w_op2 : world :=
  after (run_fop 1 1000 (FWriteOvrSave [Byte.x31; Byte.x32; Byte.x33; Byte.x34; Byte.x35] None)) w_op1.
Definition w_op3 : world := after (run_fop 1 1000 (FWriteSeq [Byte.x36; Byte.x37] None)) w_op2.
Definition w_op4 : world := after (run_fop 1 1000 (FLseek 2 SEEK_SET None)) w_op3.

Lemma file_ops_ok : fops_ok 1 1000 file_ops w_file2.
Proof.
  apply (fops_ok_cons 1 1000 _ _ ([Byte.x61; Byte.x62; Byte.x63; Byte.x64], 0) _ w_op1); [run_eq|simpl; lia|runs_to w_op1|].
  apply (fops_ok_cons 1 1000 _ _ ([Byte.x61; Byte.x62; Byte.x63; Byte.x64], 1) _ w_op2); [run_eq|simpl; lia|runs_to w_op2|].
  apply (fops_ok_cons 1 1000 _ _ ([Byte.x61; Byte.x31; Byte.x32; Byte.x33; Byte.x34; Byte.x35], 6) _ w_op3);
    [run_eq|simpl; lia|runs_to w_op3|].
  apply (fops_ok_cons 1 1000 _ _ ([Byte.x61; Byte.x31; Byte.x32; Byte.x33; Byte.x34; Byte.x35; Byte.x36; Byte.x37], 8)
    _ w_op4); [run_eq|exact I|runs_to w_op4|exact I].
Qed.

Lemma file_idle : tx_idle UndoSide 1000 w_file1.
Proof. apply idle_at_idle; [done|run_eq]. Qed.

Lemma undo_restores_file_witness :
  file_body w_file2 = Abort TXC_ABORTREASON_USERABORT w_file3 /\
  xact_rollback 1000 TXC_ABORTREASON_USERABORT w_file3 = Ret tt w_file4 /\
  mf_view 1 (w_kernel w_file3) = Some ([Byte.x61; Byte.x31; Byte.x32; Byte.x33; Byte.x34; Byte.x35; Byte.x36; Byte.x37], 2) /\
  mf_view 1 (w_kernel w_file4) = Some ([Byte.x61; Byte.x62; Byte.x63; Byte.x64], 0).
Proof.
  assert (xact_rollback 1000 TXC_ABORTREASON_USERABORT w_file3 = Ret tt w_file4) as Hr by runs_to w_file4.
  assert (file_body w_file2 = Abort TXC_ABORTREASON_USERABORT w_file3) as Hb by runs_to w_file3.
  split; [exact Hb|]. split; [exact Hr|]. split; [run_eq|].
  refine (proj2 (undo_restores_file mem_grants 1 1000 file_ops _ TXC_ABORTREASON_USERABORT
    TXC_ABORTREASON_USERABORT w_file1 w_file2 w_file3 file_idle _ _ file_ops_ok _ Hb) w_file4 Hr).
  - run_eq.
  - runs_to w_file2.
  - simpl. lia.
Defined.
