(* ===== verification/Deferred.v ===== *)
(** * Deferred calls take effect at commit, in order

    A write to a pipe, an [fsync] and an [fdatasync] inside a transaction change
    nothing in the kernel when they are called: each registers a commit action.
    When the transaction commits, the system calls are made once each, in the
    order of the calls; when it aborts, none is made. *)

From S2P Require Import Prelude Dll Pool HashTable Buffer Actions World MemFs Tx Sentinel Views Koa XFile XDir XPipe System Frames.

Section deferred.
Context {PF : Platform}.

Inductive dop :=
  | DWrite (fd : Z) (buf : list byte) (result : option Z)
  | DFsync (fd : Z) (result : option Z)
  | DFdatasync (fd : Z) (result : option Z).

Definition run_dop (txd : Z) (op : dop) : M world Z :=
  match op with
  | DWrite fd buf result => x_write_pipe txd fd buf result
  | DFsync fd result => x_fsync txd fd result
  | DFdatasync fd result => x_fdatasync txd fd result
  end.

(** What the call asks for: the system call it defers, and how it is kept. *)
Definition dop_call (op : dop) : syscall kstate Z :=
  match op with
  | DWrite fd buf _ => sys_write fd buf
  | DFsync fd _ => sys_fsync fd
  | DFdatasync fd _ => sys_fdatasync fd
  end.
Definition dop_entry (op : dop) : txc_tx_action_list_entry_t action :=
  match op with
  | DWrite fd buf r => ActionEntry (x_write_pipe_commit fd buf (Z.of_nat (length buf))) r 0
  | DFsync fd r => ActionEntry (x_fsync_commit fd) r 0
  | DFdatasync fd r => ActionEntry (x_fdatasync_commit fd) r 0
  end.

(** The body of a transaction that makes these calls; it keeps those that were
    reported to succeed. *)
Fixpoint run_dops (txd : Z) (ops : list dop) : M world (list dop) :=
  match ops with
  | [] => m_ret []
  | op :: ops' =>
      do ret <- run_dop txd op ;;
      do acc <- run_dops txd ops' ;;
      m_ret (if bool_decide (ret = -1) then acc else op :: acc)
  end.

(** The kernel after the system calls of [acc], in this order. *)
Definition kernel_after (acc : list dop) (k : kstate) : kstate :=
  foldl (fun k op => (dop_call op k).2) k acc.
End deferred.

Section deferred_body.
Context {PF : Platform} (realloc_grants : forall n, realloc_ok n = true) (txd : Z).
Notation registered := (registered CommitSide txd).

(** Where the body stops when it aborts. *)
Definition halted (k : kstate) (w : world) : Prop := exists l n, registered k l n w.

Lemma reg_halted {A} (m : M world A) k l n n' :
  reg_hoare CommitSide txd n n' m -> m_hoare (registered k l n) m (fun _ => registered k l n') (halted k).
Proof. intros Hm. eapply m_hoare_conseq; [apply Hm|done|done|]. intros w [n2 Hw]. by exists l, n2. Qed.

Lemma quiet_halted {A} (m : M world A) k l n :
  m_pres (same_side CommitSide txd) m -> m_hoare (registered k l n) m (fun _ => registered k l n) (halted k).
Proof. intros Hm. by apply reg_halted, reg_quiet. Qed.

(** After a call: its action is on the list when it was accepted. *)
Definition accepted (k : kstate) l n (op : dop) (ret : Z) (w : world) : Prop :=
  registered k (l ++ if bool_decide (ret = -1) then [] else [dop_entry op]) n w.

Lemma rejected k l n op w : registered k l n w -> accepted k l n op (-1) w.
Proof. intros H. unfold accepted. by rewrite bool_decide_eq_true_2, app_nil_r. Qed.

(** The end of a call keeps what is registered. *)
Lemma finish_deferred {A} (result : option Z) (body : M world (A * Z)) P (Q : A -> world -> Prop) k :
  (forall a w w', Q a w -> same_side CommitSide txd w w' -> Q a w') ->
  m_hoare P body (fun r => Q r.1) (halted k) -> m_hoare P (finish result body) Q (halted k).
Proof.
  intros HQ Hb. unfold finish. eapply m_hoare_bind; [exact Hb|]. intros [a e] w Hw. simpl in Hw.
  assert (m_pres (same_side CommitSide txd) (store_result result e ;;; m_ret a)) as Hp by m_pres_auto.
  specialize (Hp w). unfold m_bind in *.
  assert (exists w', store_result result e w = Ret tt w') as [w' E] by (destruct result; by eexists).
  rewrite E in *. by eapply HQ.
Qed.

(** Registering the action of an accepted call, before [p]. *)
Lemma register_accepted {A} op f r k l n (p : M world A) ret Q :
  n < 2 ^ 29 -> dop_entry op = ActionEntry f r 0 -> ret <> -1 ->
  m_hoare (accepted k l (n + 1) op ret) p Q (halted k) ->
  m_hoare (registered k l n) (do _ <- txc_tx_register_commit_action txd f r TXC_TX_REGULAR_COMMIT_ACTION_ORDER ;; p)
    Q (halted k).
Proof.
  intros Hn He Hret Hp w Hw. destruct (register_regular realloc_grants CommitSide txd f r k l n w Hn Hw) as (w1 & E & Hw1).
  simpl in E. unfold TXC_TX_REGULAR_COMMIT_ACTION_ORDER. rewrite (m_bind_run _ _ _ _ _ E). apply Hp.
  unfold accepted. rewrite bool_decide_eq_false_2 by done. by rewrite He.
Qed.

Lemma retryable_deferred {A} (f : txc_tx_xactstate_t -> M world A) Q E k l n :
  txd <> 0 -> m_hoare (registered k l n) (f TXC_XACTSTATE_TRANSACTIONAL_RETRYABLE) Q E ->
  m_hoare (registered k l n) (do x <- txc_tx_get_xactstate txd ;; f x) Q E.
Proof.
  intros H0 Hf w Hw. rewrite (m_bind_run _ _ _ _ _ (registered_mode _ _ _ _ _ _ H0 Hw)). by apply Hf.
Qed.

Lemma accepted_same k l n op a w w' : accepted k l n op a w -> same_side CommitSide txd w w' -> accepted k l n op a w'.
Proof. apply registered_same. Qed.

(** A call that did not get to its registration. *)
Lemma rejected_hoare k l n m op (e : Z) : n <= m ->
  m_hoare (registered k l n) (m_ret (-1, e)) (fun r => accepted k l m op r.1) (halted k).
Proof. intros Hn. apply m_hoare_ret. intros w Hw. apply rejected. by eapply registered_mono. Qed.

Lemma write_deferred fd buf r k l n :
  txd <> 0 -> n + 2 < 2 ^ 29 ->
  m_hoare (registered k l n) (x_write_pipe txd fd buf r) (accepted k l (n + 2) (DWrite fd buf r)) (halted k).
Proof.
  intros H0 Hn. unfold x_write_pipe. apply retryable_deferred; [done|].
  eapply finish_deferred; [by intros; eapply accepted_same|]. unfold x_write_pipe_tx. cbv zeta.
  eapply m_hoare_bind; [apply reg_halted, (acquire_fd_reg realloc_grants); lia|intros [koa|]]; [|apply rejected_hoare; lia].
  eapply m_hoare_bind; [apply quiet_halted; m_pres_auto|intros [a|]]; [|apply rejected_hoare; lia].
  eapply m_hoare_bind; [apply quiet_halted; m_pres_auto|intros [d|]].
  - eapply (register_accepted (DWrite fd buf r) _ _ _ _ _ _ (Z.of_nat (length buf))); [lia|done|lia|].
    apply m_hoare_ret. intros w. simpl. by replace (n + 1 + 1) with (n + 2) by lia.
  - eapply m_hoare_bind; [apply quiet_halted; m_pres_auto|intros ?]. apply rejected_hoare. lia.
Qed.

Lemma sync_deferred fd size commit r op k l n :
  n + 2 < 2 ^ 29 -> dop_entry op = ActionEntry commit r 0 ->
  m_hoare (registered k l n) (x_sync_tx txd fd size commit r) (fun x => accepted k l (n + 2) op x.1) (halted k).
Proof.
  intros Hn He. unfold x_sync_tx.
  eapply m_hoare_bind; [apply reg_halted, (acquire_fd_reg realloc_grants); lia|intros [koa|]]; [|apply rejected_hoare; lia].
  eapply m_hoare_bind; [apply quiet_halted; m_pres_auto|intros [a|]]; [|done].
  eapply (register_accepted op _ _ _ _ _ _ 0); [lia|done|lia|].
  eapply (m_hoare_bind _ _ _ (fun _ => accepted k l (n + 2) op 0)); [|intros _; by apply m_hoare_ret].
  replace (n + 1 + 1) with (n + 2) by lia. unfold accepted.
  apply quiet_halted. m_pres_auto.
Qed.

Lemma dop_deferred op k l n :
  txd <> 0 -> n + 2 < 2 ^ 29 ->
  m_hoare (registered k l n) (run_dop txd op) (accepted k l (n + 2) op) (halted k).
Proof.
  intros H0 Hn. destruct op as [fd buf r|fd r|fd r]; cbn [run_dop]; [by apply write_deferred| |].
  all: unfold x_fsync, x_fdatasync; apply retryable_deferred; [done|];
    (eapply finish_deferred; [by intros; eapply accepted_same|]); by apply sync_deferred.
Qed.

(** The body: the kernel stays, and the accepted calls are on the list. *)
Lemma dops_deferred ops k l n :
  txd <> 0 -> n + 2 * Z.of_nat (length ops) < 2 ^ 29 ->
  m_hoare (registered k l n) (run_dops txd ops)
    (fun acc => registered k (l ++ (dop_entry <$> acc)) (n + 2 * Z.of_nat (length ops)))
    (halted k).
Proof.
  intros H0. revert l n. induction ops as [|op ops IH]; intros l n Hn; simpl in *.
  - apply m_hoare_ret. intros w Hw. rewrite app_nil_r. eapply registered_mono; [exact Hw|lia].
  - eapply m_hoare_bind.
    { apply dop_deferred; [done|lia]. }
    intros ret. eapply m_hoare_bind.
    { apply (IH (l ++ if bool_decide (ret = -1) then [] else [dop_entry op]) (n + 2)). lia. }
    intros acc. apply m_hoare_ret. intros w Hw. eapply registered_mono with (n := n + 2 + 2 * Z.of_nat (length ops)); [|lia].
    case_bool_decide; simpl; [by rewrite app_nil_r in Hw|by rewrite <- app_assoc in Hw].
Qed.

(** The commit actions make the system calls. *)
Lemma or_errno_run (c : syscall kstate Z) w :
  exists r w1, or_errno (libc c) 0 w = Ret r w1 /\ w_kernel w1 = (c (w_kernel w)).2.
Proof.
  unfold or_errno, libc, get_errno, m_bind. destruct (c (w_kernel w)) as [[a e] k'].
  destruct (neg a); eexists _, _; (split; [reflexivity|done]).
Qed.

Lemma exec_deferred acc first w :
  exists first' w', exec_seq run_action store_int (dop_entry <$> acc) first w = Ret first' w' /\
    w_kernel w' = kernel_after acc (w_kernel w).
Proof.
  revert first w. induction acc as [|op acc IH]; intros first w; simpl; [by exists first, w|].
  assert (exists r w1, run_action (function (dop_entry op)) w = Ret r w1 /\
    w_kernel w1 = (dop_call op (w_kernel w)).2) as (r & w1 & E & Hk).
  { destruct op as [fd buf r|fd r|fd r]; apply or_errno_run. }
  set (w2 := match error_result (dop_entry op) with Some p => store_int p r w1 | None => w1 end).
  destruct (IH (if bool_decide (first = 0) then r else first) w2) as (f' & w' & Hrun & Hk').
  exists f', w'. split.
  - rewrite <- Hrun. apply m_bind_run. unfold exec_entry. m_next by exact E. unfold w2.
    by destruct (error_result (dop_entry op)).
  - rewrite Hk'. unfold w2. rewrite <- Hk. by destruct (error_result (dop_entry op)).
Qed.
End deferred_body.

Section deferred_undo.
Context {PF : Platform} (realloc_grants : forall n, realloc_ok n = true) (txd : Z).

(** The calls register nothing to compensate but the sentinel manager's action. *)
Lemma dop_undo op n : txd <> 0 -> n + 1 < 2 ^ 29 -> reg_hoare UndoSide txd n (n + 1) (run_dop txd op).
Proof.
  intros H0 Hn. destruct op as [fd buf r|fd r|fd r]; cbn [run_dop]; unfold x_write_pipe, x_fsync, x_fdatasync.
  all: apply reg_retryable; [done|]; apply reg_finish; unfold x_write_pipe_tx, x_sync_tx; cbv zeta.
  all: eapply reg_bind; [apply (acquire_fd_reg realloc_grants); lia|intros ?]; apply reg_quiet; m_pres_auto.
Qed.

Lemma dops_undo ops n :
  txd <> 0 -> n + Z.of_nat (length ops) < 2 ^ 29 ->
  reg_hoare UndoSide txd n (n + Z.of_nat (length ops)) (run_dops txd ops).
Proof.
  intros H0. revert n. induction ops as [|op ops IH]; intros n Hn; simpl in *.
  - apply reg_weaken; [lia|apply reg_ret].
  - eapply reg_bind; [apply dop_undo; [done|lia]|intros ret].
    eapply reg_bind; [apply IH; lia|intros acc].
    replace (n + 1 + Z.of_nat (length ops)) with (n + Z.of_nat (S (length ops))) by lia. apply reg_ret.
Qed.
End deferred_undo.

(** ** The properties *)

(** C3: A thread begins a transaction and makes any sequence of [x_write_pipe],
    [x_fsync] and [x_fdatasync]. When the calls return, the kernel is as it was at
    the begin: nothing has been written or synchronised. At the commit the commit
    actions make the system calls of the accepted calls (those that did not
    return -1), each once and in the order of the calls, before the sentinel
    manager's action releases the sentinels; and the kernel after the commit is
    the one these system calls leave. *)
Theorem deferred_until_commit `{PF : Platform} (realloc_grants : forall n, realloc_ok n = true) txd ops acc w w0 w1 :
  tx_idle CommitSide txd w -> xact_begin txd w = Ret tt w0 -> Z.of_nat (length ops) < 2 ^ 27 ->
  run_dops txd ops w0 = Ret acc w1 ->
  w_kernel w1 = w_kernel w /\
  (exists t l first w2, txds (w_txmgr w1) !! txd = Some t /\
    exec_commit_actions run_action store_int (commit_action_list t) w1 = exec_seq run_action store_int l first w2 /\
    Forall (sentinel_entry CommitSide) l /\ w_kernel w2 = kernel_after acc (w_kernel w)) /\
  (forall w2, xact_commit txd w1 = Ret tt w2 -> w_kernel w2 = kernel_after acc (w_kernel w)).
Proof.
  intros Hidle Hb Hlen E. pose proof (begin_reg realloc_grants CommitSide txd w w0 Hidle Hb) as Hw0.
  pose proof (dops_deferred realloc_grants txd ops _ _ 1 (proj1 Hidle) ltac:(lia) w0 Hw0) as Hw1.
  rewrite E in Hw1. simpl in Hw1. pose proof (reg_kernel _ _ _ _ _ _ Hw1) as Hk.
  destruct (exec_deferred acc 0 w1) as (first & w3 & Hrun & Hk3). rewrite Hk in Hk3. split_and!; [done| |].
  - destruct (side_exec_run CommitSide txd _ _ _ _ _ _ Hw1 Hrun) as (la & l & Ha & Hl & Hex).
    destruct (aview_inv _ _ _ _ _ Ha) as (t & Ht & Hla & _). exists t, l, first, w3.
    simpl in Hla. rewrite Hla. by split_and!.
  - intros w2 Hc. rewrite (commit_quiet same_kernel txd _ _ _ _ _ _ _ Hw1 Hrun Hc). done.
Qed.

(** C4: When such a transaction aborts instead, during a call (its sentinel was
    busy) or after the last, the kernel is as it was at the begin, and it still is
    when the rollback returns: the deferred calls are dropped. *)
Theorem deferred_dropped_on_abort `{PF : Platform} (realloc_grants : forall n, realloc_ok n = true)
    txd ops reason r w w0 w1 :
  tx_idle UndoSide txd w -> xact_begin txd w = Ret tt w0 -> Z.of_nat (length ops) < 2 ^ 27 ->
  (run_dops txd ops ;;; txc_tx_abort_transaction (A := unit) txd reason) w0 = Abort r w1 ->
  w_kernel w1 = w_kernel w /\
  (forall w2, xact_rollback txd r w1 = Ret tt w2 -> w_kernel w2 = w_kernel w).
Proof.
  intros Hidle Hb Hlen E. pose proof (begin_reg realloc_grants UndoSide txd w w0 Hidle Hb) as Hw0.
  assert (stopped UndoSide txd (w_kernel w) [] w1) as [n Hw1].
  { pose proof (dops_undo realloc_grants txd ops 1 (proj1 Hidle) ltac:(lia) _ _ w0 Hw0) as Hh. unfold m_bind in E.
    destruct (run_dops txd ops w0) as [acc w3|r3 w3| | | |]; try done.
    - pose proof (abort_side UndoSide txd txd (A := unit) reason w3) as Ha. rewrite E in Ha.
      eexists. by eapply registered_same.
    - by injection E as <- <-. }
  split; [by destruct Hw1|]. intros w2 Hr.
  rewrite (rollback_quiet same_kernel txd _ [] _ _ 0 w1 _ _ Hw1 ltac:(done) Hr). by destruct Hw1.
Qed.

(** *** A concrete transaction

    A pipe, made before the transaction, which writes to it twice; once it
    commits, and once it aborts. *)

Definition w_pipe0 : world := mem_world (mf_one_file [Byte.x61] 0) 4.
Definition w_pipe1 : world := after (x_pipe 1000 None) w_pipe0.
Definition w_pipe2 : world := after (xact_begin 1000) w_pipe1.
Definition pipe_ops : list dop :=
  [DWrite 2 [Byte.x61; Byte.x62] (Some 7); DWrite 9 [Byte.x63] None; DWrite 2 [Byte.x64] None].
Definition pipe_accepted : list dop := [DWrite 2 [Byte.x61; Byte.x62] (Some 7); DWrite 2 [Byte.x64] None].
Definition w_pipe3 : world := after (run_dops 1000 pipe_ops) w_pipe2.
Definition w_pipe4 : world := after (xact_commit 1000) w_pipe3.

Lemma deferred_until_commit_witness :
  run_dops 1000 pipe_ops w_pipe2 = Ret pipe_accepted w_pipe3 /\
  w_kernel w_pipe3 = w_kernel w_pipe1 /\
  xact_commit 1000 w_pipe3 = Ret tt w_pipe4 /\
  w_kernel w_pipe4 = kernel_after pipe_accepted (w_kernel w_pipe1) /\
  mf_pipes (kernel_after pipe_accepted (w_kernel w_pipe1)) !! 100 = Some [Byte.x61; Byte.x62; Byte.x64].
Proof.
  assert (run_dops 1000 pipe_ops w_pipe2 = Ret pipe_accepted w_pipe3) as Hr by runs_to w_pipe3.
  assert (xact_commit 1000 w_pipe3 = Ret tt w_pipe4) as Hc by runs_to w_pipe4.
  destruct (deferred_until_commit mem_grants 1000 pipe_ops pipe_accepted w_pipe1 w_pipe2 w_pipe3) as (H1 & _ & H2).
  - apply idle_at_idle; [done|run_eq].
  - runs_to w_pipe2.
  - simpl. lia.
  - exact Hr.
  - split; [exact Hr|]. split; [exact H1|]. split; [exact Hc|]. split; [exact (H2 w_pipe4 Hc)|run_eq].
Defined.

Definition pipe_body : M world unit :=
  run_dops 1000 pipe_ops ;;; txc_tx_abort_transaction (A := unit) 1000 TXC_ABORTREASON_USERABORT.
Definition w_pipe5 : world := after pipe_body w_pipe2.
Definition w_pipe6 : world := after (xact_rollback 1000 TXC_ABORTREASON_USERABORT) w_pipe5.

Lemma deferred_dropped_on_abort_witness :
  pipe_body w_pipe2 = Abort TXC_ABORTREASON_USERABORT w_pipe5 /\
  xact_rollback 1000 TXC_ABORTREASON_USERABORT w_pipe5 = Ret tt w_pipe6 /\
  w_kernel w_pipe6 = w_kernel w_pipe1.
Proof.
  assert (pipe_body w_pipe2 = Abort TXC_ABORTREASON_USERABORT w_pipe5) as Hb by runs_to w_pipe5.
  assert (xact_rollback 1000 TXC_ABORTREASON_USERABORT w_pipe5 = Ret tt w_pipe6) as Hr by runs_to w_pipe6.
  destruct (deferred_dropped_on_abort mem_grants 1000 pipe_ops TXC_ABORTREASON_USERABORT
    TXC_ABORTREASON_USERABORT w_pipe1 w_pipe2 w_pipe5) as (_ & H2).
  - apply idle_at_idle; [done|run_eq].
  - runs_to w_pipe2.
  - simpl. lia.
  - exact Hb.
  - split; [exact Hb|]. split; [exact Hr|]. exact (H2 w_pipe6 Hr).
Defined.
