(* ===== verification/Threads.v ===== *)
(** * Mutexes and threads in transactions

    What the calls of [XThread.v] guarantee: an abort gives back the mutexes the
    transaction locked and only those, a commit does its unlocks, and a thread
    made in a transaction runs its routine exactly when the transaction commits.

    [PthreadMutexes] is what POSIX promises about the mutexes: the set of the held
    ones, and what the calls do to it. *)

From S2P Require Import Prelude Dll Pool HashTable Buffer Actions World MemFs Tx Sentinel Views Koa XFile XDir XPipe XSock XThread System Frames.

Class PthreadMutexes `{PF : Platform} := {
  held : kstate -> gset Z;
  held_trylock m k :
    let '(ret, _, k') := pthread_mutex_trylock m k in
    (m ∈ held k -> ret <> 0 /\ held k' = held k) /\
    (m ∉ held k -> ret = 0 /\ held k' = {[m]} ∪ held k);
  held_unlock m k : let '(_, _, k') := pthread_mutex_unlock m k in held k' = held k ∖ {[m]};
}.

Section mutexes.
Context {PF : Platform} (realloc_grants : forall n, realloc_ok n = true) {MX : PthreadMutexes} (txd : Z).
Implicit Types (h orig : gset Z) (w : world) (ms : list Z).

Definition wheld w : gset Z := held (w_kernel w).

(** Unlocking the mutexes of a list. *)
Definition unlocks ms h : gset Z := foldl (fun h m => h ∖ {[m]}) h ms.

Lemma unlocks_diff ms h : unlocks ms h = h ∖ list_to_set ms.
Proof.
  revert h. induction ms as [|m ms IH]; intros h; simpl; [set_solver|]. rewrite IH. set_solver.
Qed.

Definition lock_entry (e : txc_tx_action_list_entry_t action) (m : Z) : Prop :=
  function e = x_pthread_mutex_lock_undo m \/ function e = x_pthread_mutex_unlock_commit m.

(** The actions, whichever list they are on, unlock the mutexes. *)
Lemma exec_unlocks l ms first w :
  Forall2 lock_entry l ms -> exists first' w', exec_seq run_action store_int l first w = Ret first' w' /\
    wheld w' = unlocks ms (wheld w).
Proof.
  intros Hl. revert first w. induction Hl as [|e m l ms He Hl IH]; intros first w; simpl; [by exists first, w|].
  pose proof (held_unlock m (w_kernel w)) as Hu.
  destruct (pthread_mutex_unlock m (w_kernel w)) as [[ret er] k'] eqn:E.
  set (w1 := set_errno (default (w_errno w) er) (set_kernel k' w)).
  assert (run_action (function e) w = Ret ret w1) as Hr.
  { destruct He as [-> | ->]; simpl;
      unfold run_x_pthread_mutex_lock_undo, run_x_pthread_mutex_unlock_commit, libc; by rewrite E. }
  set (w2 := match error_result e with Some p => store_int p ret w1 | None => w1 end).
  destruct (IH (if bool_decide (first = 0) then ret else first) w2) as (f' & w' & Hrun & Hw').
  exists f', w'. split.
  - rewrite <- Hrun. apply m_bind_run. unfold exec_entry. m_next by exact Hr. unfold w2. by destruct (error_result e).
  - rewrite Hw'. unfold wheld in *. f_equal. rewrite <- Hu. unfold w2. by destruct (error_result e).
Qed.

(** *** The calls of a transaction *)

Inductive mop := MLock (mutex : Z) (result : option Z) | MUnlock (mutex : Z) (result : option Z).

Definition run_mop (op : mop) : M world unit :=
  match op with
  | MLock m r => do _ <- x_pthread_mutex_lock txd m r ;; m_ret tt
  | MUnlock m r => do _ <- x_pthread_mutex_unlock txd m r ;; m_ret tt
  end.

Definition locks_of (ops : list mop) : list Z := omap (fun op => match op with MLock m _ => Some m | _ => None end) ops.
Definition unlocks_of (ops : list mop) : list Z := omap (fun op => match op with MUnlock m _ => Some m | _ => None end) ops.

(** A side's part of the calls so far. *)
Definition side_mutexes (sd : side) (ops : list mop) : list Z :=
  match sd with UndoSide => locks_of ops | CommitSide => unlocks_of ops end.

(** The state after [ops]: the locks are held, and the actions of each side are
    registered. *)
Definition mutex_inv sd orig ops n w : Prop := exists k l,
  registered sd txd k l n w /\ Forall2 lock_entry l (side_mutexes sd ops) /\
  NoDup (locks_of ops) /\ list_to_set (locks_of ops) ## orig /\ held k = list_to_set (locks_of ops) ∪ orig.

Lemma mutex_inv_same sd orig ops n w w' :
  mutex_inv sd orig ops n w -> same_side sd txd w w' -> mutex_inv sd orig ops n w'.
Proof. intros (k & l & Hr & H) Hs. exists k, l. split; [by eapply registered_same|done]. Qed.

Lemma mutex_inv_mono sd orig ops n m w : mutex_inv sd orig ops n w -> n <= m -> mutex_inv sd orig ops m w.
Proof. intros (k & l & Hr & H) Hn. exists k, l. split; [by eapply registered_mono|done]. Qed.

Lemma mutex_inv_held sd orig ops n w : mutex_inv sd orig ops n w -> wheld w = list_to_set (locks_of ops) ∪ orig.
Proof. intros (k & l & [_ Hk _] & _ & _ & _ & Hh). unfold wheld. by rewrite Hk. Qed.

(** Where the body stops. *)
Definition mutex_stop sd orig w : Prop := exists ops n, mutex_inv sd orig ops n w.

Lemma locks_snoc ops op : locks_of (ops ++ [op]) = locks_of ops ++ match op with MLock m _ => [m] | _ => [] end.
Proof. unfold locks_of. rewrite omap_app. by destruct op. Qed.

Lemma unlocks_snoc ops op : unlocks_of (ops ++ [op]) = unlocks_of ops ++ match op with MUnlock m _ => [m] | _ => [] end.
Proof. unfold unlocks_of. rewrite omap_app. by destruct op. Qed.

(** A quiet operation. *)
Lemma mutex_quiet {A} sd (m : M world A) orig ops n :
  m_pres (same_side sd txd) m ->
  m_hoare (mutex_inv sd orig ops n) m (fun _ => mutex_inv sd orig ops n) (mutex_stop sd orig).
Proof.
  intros Hm. eapply m_hoare_conseq; [apply (m_hoare_pres (same_side sd txd)); [exact Hm|]|done|done|].
  - intros w w'. by apply mutex_inv_same.
  - intros w Hw. by exists ops, n.
Qed.

(** The held mutexes are those of [ops] and [orig]. *)
Definition holds_ops orig (ops : list mop) h : Prop :=
  NoDup (locks_of ops) /\ list_to_set (locks_of ops) ## orig /\ h = list_to_set (locks_of ops) ∪ orig.

Definition register_op (a : action) (r : option Z) (op : mop) : M world Z :=
  match op with
  | MLock _ _ => txc_tx_register_undo_action txd a r TXC_TX_REGULAR_UNDO_ACTION_ORDER
  | MUnlock _ _ => txc_tx_register_commit_action txd a r TXC_TX_REGULAR_COMMIT_ACTION_ORDER
  end.
Definition op_side (op : mop) : side := match op with MLock _ _ => UndoSide | MUnlock _ _ => CommitSide end.

Lemma side_mutexes_snoc sd ops op :
  side_mutexes sd (ops ++ [op]) =
  side_mutexes sd ops ++ (if decide (op_side op = sd) then match op with MLock m _ | MUnlock m _ => [m] end else []).
Proof. by destruct sd, op; simpl; rewrite ?locks_snoc, ?unlocks_snoc. Qed.

(** The registration of a call's action: on its own side the list grows, on the
    other it stays. *)
Lemma register_mutex sd a r op ops orig n :
  n < 2 ^ 29 -> lock_entry (ActionEntry a r 0) (match op with MLock m _ | MUnlock m _ => m end) ->
  m_hoare (fun w => exists k l, registered sd txd k l n w /\ Forall2 lock_entry l (side_mutexes sd ops) /\
      holds_ops orig (ops ++ [op]) (held k))
    (register_op a r op) (fun _ => mutex_inv sd orig (ops ++ [op]) (n + 1)) (mutex_stop sd orig).
Proof.
  intros Hn Ha w (k & l & Hr & Hl & Hh1 & Hh2 & Hh3).
  pose proof (side_mutexes_snoc sd ops op) as Hs. case_decide as Hsd.
  - destruct (register_regular realloc_grants sd txd a r k l n w Hn Hr) as (w1 & E & Hw1).
    assert (register_op a r op w = Ret TXC_R_SUCCESS w1) as -> by (subst sd; by destruct op).
    exists k, (l ++ [ActionEntry a r 0]). split_and!; [done| |done..]. rewrite Hs. apply Forall2_app; [done|].
    destruct op; (constructor; [exact Ha|constructor]).
  - rewrite app_nil_r in Hs. assert (mutex_inv sd orig (ops ++ [op]) n w) as Hi.
    { exists k, l. by rewrite Hs. }
    assert (m_pres (same_side sd txd) (register_op a r op)) as Hp by (destruct op, sd; simpl; auto with xcalls; done).
    pose proof (mutex_quiet sd _ orig (ops ++ [op]) n Hp w Hi) as Hq. destruct (register_op a r op w); try done.
    eapply mutex_inv_mono; [exact Hq|lia].
Qed.

Lemma mop_body sd op orig ops n :
  txd <> 0 -> n < 2 ^ 29 ->
  m_hoare (mutex_inv sd orig ops n) (run_mop op) (fun _ => mutex_inv sd orig (ops ++ [op]) (n + 1)) (mutex_stop sd orig).
Proof.
  intros H0 Hn.
  assert (Hfin : forall A (r : option Z) (body : M world (A * Z)),
    m_hoare (mutex_inv sd orig ops n) body (fun _ => mutex_inv sd orig (ops ++ [op]) (n + 1)) (mutex_stop sd orig) ->
    m_hoare (mutex_inv sd orig ops n) (finish r body) (fun _ => mutex_inv sd orig (ops ++ [op]) (n + 1)) (mutex_stop sd orig)).
  { intros A r body Hb. unfold finish. eapply m_hoare_bind; [exact Hb|intros [a e]]. apply mutex_quiet. m_pres_auto. }
  assert (Hret : forall A (f : txc_tx_xactstate_t -> M world A) Q E,
    m_hoare (mutex_inv sd orig ops n) (f TXC_XACTSTATE_TRANSACTIONAL_RETRYABLE) Q E ->
    m_hoare (mutex_inv sd orig ops n) (do x <- txc_tx_get_xactstate txd ;; f x) Q E).
  { intros A f Q E Hf w Hw. pose proof Hw as (k & l & Hr & _).
    rewrite (m_bind_run _ _ _ _ _ (registered_mode _ _ _ _ _ _ H0 Hr)). by apply Hf. }
  assert (Hmal : forall c, m_hoare (mutex_inv sd orig ops n) (malloc_or_exit txd (sizeof c))
    (fun _ => mutex_inv sd orig ops n) (mutex_stop sd orig)).
  { intros c. apply mutex_quiet. unfold malloc_or_exit. m_pres_auto. }
  destruct op as [m r|m r]; cbn [run_mop]; (eapply m_hoare_bind; [|intros ?; apply m_hoare_ret; intros w Hw; exact Hw]).
  - unfold x_pthread_mutex_lock. apply Hret, Hfin. unfold x_pthread_mutex_lock_tx.
    eapply m_hoare_bind; [apply Hmal|intros ?]. intros w Hw. pose proof (mutex_inv_held _ _ _ _ _ Hw) as Hh.
    destruct Hw as (k & l & Hr & Hl & Hd1 & Hd2 & Hd3). pose proof (held_trylock m (w_kernel w)) as Ht.
    destruct (pthread_mutex_trylock m (w_kernel w)) as [[ret er] k'] eqn:E. destruct Ht as [Hbusy Hfree].
    set (w1 := set_errno (default (w_errno w) er) (set_kernel k' w)).
    assert (libc (pthread_mutex_trylock m) w = Ret ret w1) as Hc by (unfold libc; by rewrite E).
    assert (registered sd txd k' l n w1) as Hr1 by (by eapply registered_call).
    rewrite (m_bind_run _ _ _ _ _ Hc). destruct (decide (m ∈ held (w_kernel w))) as [Hm|Hm].
    + destruct (Hbusy Hm) as [Hret0 Hk']. rewrite bool_decide_eq_true_2 by done.
      assert (mutex_inv sd orig ops n w1) as Hw1 by (exists k', l; split_and!; [done..|by rewrite Hk', <- Hh]).
      pose proof (abort_side sd txd txd (A := Z * Z) TXC_ABORTREASON_BUSYTXLOCK w1) as Ha.
      destruct (txc_tx_abort_transaction txd TXC_ABORTREASON_BUSYTXLOCK w1) as [|r' w2| | | |] eqn:Ea; try done.
      * exfalso. revert Ea. unfold txc_tx_abort_transaction, tmsystem_abort_transaction, m_bind.
        destruct (tmsystem_register_generic_undo_action txd w1); try done. by repeat case_match.
      * exists ops, n. by eapply mutex_inv_same.
    + destruct (Hfree Hm) as [-> Hk']. rewrite bool_decide_eq_false_2 by (intros X; by apply X).
      pose proof (register_mutex sd (x_pthread_mutex_lock_undo m) r (MLock m r) ops orig n Hn ltac:(by left)) as Hreg.
      unfold m_bind. specialize (Hreg w1). cbv beta in Hreg. destruct (register_op _ _ _ w1) eqn:Ereg; simpl in Ereg; rewrite Ereg.
      all: try done.
      all: apply Hreg; exists k', l; split_and!; [done|done|]; unfold holds_ops; rewrite locks_snoc, list_to_set_app_L, Hk'.
      all: change (held (w_kernel w)) with (wheld w) in *; rewrite Hh in Hm |- *.
      all: split_and!; [apply NoDup_app; split_and!; [done|set_solver|apply NoDup_singleton]|set_solver|set_solver].
  - unfold x_pthread_mutex_unlock. apply Hret, Hfin. unfold x_pthread_mutex_unlock_tx.
    eapply m_hoare_bind; [apply Hmal|intros ?].
    eapply m_hoare_bind; [|intros ?; apply m_hoare_ret; intros w Hw; exact Hw].
    eapply m_hoare_conseq; [apply (register_mutex sd (x_pthread_mutex_unlock_commit m) r (MUnlock m r) ops orig n Hn); by right| |done|done].
    intros w (k & l & Hr & Hl & Hd1 & Hd2 & Hd3). exists k, l. split_and!; [done..|].
    unfold holds_ops. rewrite locks_snoc, app_nil_r. done.
Qed.

Lemma mops_body sd ops orig done_ n :
  txd <> 0 -> n + Z.of_nat (length ops) < 2 ^ 29 ->
  m_hoare (mutex_inv sd orig done_ n) (m_iter run_mop ops)
    (fun _ => mutex_inv sd orig (done_ ++ ops) (n + Z.of_nat (length ops))) (mutex_stop sd orig).
Proof.
  intros H0. revert done_ n. induction ops as [|op ops IH]; intros done_ n Hn; simpl in *.
  - apply m_hoare_ret. intros w Hw. rewrite app_nil_r. eapply mutex_inv_mono; [exact Hw|lia].
  - eapply m_hoare_bind; [apply mop_body; [done|lia]|intros ?].
    replace (done_ ++ op :: ops) with ((done_ ++ [op]) ++ ops) by (by rewrite <- app_assoc).
    replace (n + Z.of_nat (S (length ops))) with (n + 1 + Z.of_nat (length ops)) by lia. apply IH. lia.
Qed.

(** The body of a transaction, from its begin. *)
Lemma begin_mutex sd w w0 : tx_idle sd txd w -> xact_begin txd w = Ret tt w0 -> mutex_inv sd (wheld w) [] 1 w0.
Proof.
  intros Hi E. exists (w_kernel w), []. split_and!; [by eapply begin_reg|destruct sd; constructor|constructor|set_solver|].
  simpl. unfold wheld. set_solver.
Qed.

(** What is left when the mutexes the transaction locked are unlocked. *)
Lemma unlocks_own orig ops : holds_ops orig ops (list_to_set (locks_of ops) ∪ orig) ->
  unlocks (reverse (locks_of ops)) (list_to_set (locks_of ops) ∪ orig) = orig.
Proof. intros (_ & Hd & _). rewrite unlocks_diff. apply set_eq. intros x. rewrite elem_of_difference, elem_of_union,
  !elem_of_list_to_set, elem_of_reverse. set_solver. Qed.
End mutexes.

(** ** Threads *)

Section threads.
Context {PF : Platform} (realloc_grants : forall n, realloc_ok n = true) (sd : side) (txd : Z).

Definition same_blocks (w w' : world) : Prop := w_blocks w' = w_blocks w.

#[local] Instance same_blocks_preorder : PreOrder same_blocks.
Proof. split; [done|]. intros w1 w2 w3 H1 H2. unfold same_blocks in *. congruence. Qed.

Lemma txd_upd_blocks a f : m_pres same_blocks (txd_upd a f).
Proof. by apply txd_upd_pres. Qed.

Lemma store_result_blocks r v : m_pres same_blocks (store_result r v).
Proof. destruct r; [by apply m_pres_modify|apply m_pres_ret; typeclasses eauto]. Qed.

Lemma register_blocks a r o :
  m_pres same_blocks (txc_tx_register_commit_action txd a r o) /\
  m_pres same_blocks (txc_tx_register_undo_action txd a r o).
Proof.
  pose proof txd_upd_blocks.
  unfold txc_tx_register_commit_action, txc_tx_register_undo_action, register_with,
    tmsystem_register_generic_commit_action, tmsystem_register_generic_undo_action. split; m_pres_auto.
Qed.

(** Registering a commit action and an undo action, seen from one side. *)
Lemma register_commit_reg a r k l n w ret w' :
  n < 2 ^ 29 -> registered sd txd k l n w -> txc_tx_register_commit_action txd a r 0 w = Ret ret w' ->
  registered sd txd k (l ++ match sd with CommitSide => [ActionEntry a r 0] | UndoSide => [] end)
    (n + match sd with CommitSide => 1 | UndoSide => 0 end) w'.
Proof.
  intros Hn Hr E. destruct (register_regular realloc_grants sd txd a r k l n w Hn Hr) as (w1 & E1 & Hw1).
  destruct sd eqn:Hsd; simpl in E1; [|rewrite E in E1; by injection E1 as _ ->].
  rewrite app_nil_r. replace (n + 0) with n by lia. eapply registered_same; [exact Hr|].
  eapply m_pres_run; [|exact E]. auto with xcalls.
Qed.

Lemma register_undo_reg a r k l n w ret w' :
  n < 2 ^ 29 -> registered sd txd k l n w -> txc_tx_register_undo_action txd a r 0 w = Ret ret w' ->
  registered sd txd k (l ++ match sd with UndoSide => [ActionEntry a r 0] | CommitSide => [] end)
    (n + match sd with UndoSide => 1 | CommitSide => 0 end) w'.
Proof.
  intros Hn Hr E. destruct (register_regular realloc_grants sd txd a r k l n w Hn Hr) as (w1 & E1 & Hw1).
  destruct sd eqn:Hsd; simpl in E1; [rewrite E in E1; by injection E1 as _ ->|].
  rewrite app_nil_r. replace (n + 0) with n by lia. eapply registered_same; [exact Hr|].
  eapply m_pres_run; [|exact E]. auto with xcalls.
Qed.

Lemma pthread_create_tx b f a r k l n w ret w1 :
  txd <> 0 -> n < 2 ^ 28 -> registered sd txd k l n w -> x_pthread_create txd (Some b) f a r w = Ret ret w1 ->
  ret = 0 /\ w_blocks w1 !! b = Some (ControlBlock true (Some f) a) /\
  exists k', registered sd txd k' (l ++ [ActionEntry (match sd with
      | CommitSide => x_pthread_create_commit b | UndoSide => x_pthread_create_undo b end) r 0]) (n + 1) w1.
Proof.
  intros H0 Hn Hreg E. unfold x_pthread_create in E.
  rewrite (m_bind_run _ _ _ _ _ (registered_mode _ _ _ _ _ _ H0 Hreg)) in E. unfold finish, x_pthread_create_tx in E.
  m_inv E. destruct x as [x e]. rewrite (m_bind_run _ _ _ _ _ (eq_refl : m_deref (Some b) w = Ret b w)) in Hm.
  set (wa := set_blocks (<[b := ControlBlock true (Some f) a]> (w_blocks w)) w).
  rewrite (m_bind_run _ _ _ _ _ (eq_refl : block_put b (ControlBlock true (Some f) a) w = Ret tt wa)) in Hm.
  m_inv Hm. m_inv Hm. m_inv Hm. injection Hm as <- <- <-.
  assert (exists er k', st0 = set_errno er (set_kernel k' wa)) as (er & k' & Est).
  { unfold libc in Hm0. destruct (pthread_create _ _ _) as [[? ?] ?]. injection Hm0 as _ <-. by eexists _, _. }
  assert (registered sd txd k' l n st0) as Hr0.
  { eapply registered_call; [exact Hreg|by subst st0|by subst st0]. }
  assert (Hn0 : n < 2 ^ 29) by lia.
  pose proof (register_commit_reg _ _ _ _ _ _ _ _ Hn0 Hr0 Hm1) as Hr1.
  assert (Hn1 : n + match sd with CommitSide => 1 | UndoSide => 0 end < 2 ^ 29) by (destruct sd; lia).
  destruct (register_undo_reg _ _ _ _ _ _ _ _ Hn1 Hr1 Hm2) as [Hla Hk Hrd].
  assert (m_pres (same_side sd txd) (store_result r 0)) as Hs by m_pres_auto.
  apply m_bind_ret_inv in E as (x3 & st3 & Hm & E). injection E as <- <-.
  apply (m_pres_run _ _ _ _ _ Hs) in Hm as Hs1.
  assert (same_blocks wa st3) as Hblk.
  { trans st1; [trans st0; [by subst st0|]|trans st2].
    - exact (m_pres_run _ _ _ _ _ (proj1 (register_blocks _ _ _)) Hm1).
    - exact (m_pres_run _ _ _ _ _ (proj2 (register_blocks _ _ _)) Hm2).
    - exact (m_pres_run _ _ _ _ _ (store_result_blocks _ _) Hm). }
  split_and!; [done|rewrite Hblk; apply lookup_insert_eq|].
  exists k'. eapply registered_same; [|exact Hs1]. split; [|done..].
  destruct sd; rewrite ?app_nil_r in Hla; rewrite ?Z.add_0_r in Hla; exact Hla.
Qed.
End threads.

(** ** The properties *)

(** C9: A transaction that locks and unlocks any mutexes and then aborts, on its
    own or because a mutex was held, holds after the rollback the mutexes it held
    at the begin: the locks it took are given back and its unlocks are dropped. *)
Theorem mutexes_restored_on_abort `{PF : Platform} (realloc_grants : forall n, realloc_ok n = true)
    `{!PthreadMutexes} txd ops reason r w w0 w1 w2 :
  tx_idle UndoSide txd w -> xact_begin txd w = Ret tt w0 -> Z.of_nat (length ops) < 2 ^ 28 ->
  (m_iter (run_mop txd) ops ;;; txc_tx_abort_transaction (A := unit) txd reason) w0 = Abort r w1 ->
  xact_rollback txd r w1 = Ret tt w2 -> held (w_kernel w2) = held (w_kernel w).
Proof.
  intros Hidle Hb Hlen E Hr. pose proof (begin_mutex realloc_grants txd UndoSide w w0 Hidle Hb) as Hw0.
  assert (mutex_stop txd UndoSide (wheld w) w1) as (done_ & n & k & l & Hreg & Hl & Hnd & Hdis & Hheld).
  { pose proof (mops_body realloc_grants txd UndoSide ops _ _ 1 (proj1 Hidle) ltac:(lia) w0 Hw0) as Hh.
    unfold m_bind in E. destruct (m_iter _ _ w0) as [[] w3|r3 w3| | | |]; try done.
    - pose proof (abort_side UndoSide txd txd (A := unit) reason w3) as Ha. rewrite E in Ha.
      eexists _, _. by eapply mutex_inv_same.
    - by injection E as <- <-. }
  destruct (exec_unlocks (reverse l) (reverse (locks_of done_)) 0 w1) as (first & w3 & Hrun & Hw3).
  { by apply Forall2_reverse. }
  pose proof (rollback_quiet same_kernel txd _ _ _ _ _ _ _ _ Hreg Hrun Hr) as Hk. rewrite Hk.
  change (held (w_kernel w3)) with (wheld w3). rewrite Hw3. unfold wheld at 1.
  rewrite (reg_kernel _ _ _ _ _ _ Hreg), Hheld. by apply unlocks_own.
Qed.

(** C10: When it commits instead, no mutex was locked twice or was held at the
    begin, the mutexes stay held until the commit, and the commit unlocks those
    the transaction asked to unlock. *)
Theorem mutexes_released_on_commit `{PF : Platform} (realloc_grants : forall n, realloc_ok n = true)
    `{!PthreadMutexes} txd ops w w0 w1 :
  tx_idle CommitSide txd w -> xact_begin txd w = Ret tt w0 -> Z.of_nat (length ops) < 2 ^ 28 ->
  m_iter (run_mop txd) ops w0 = Ret tt w1 ->
  NoDup (locks_of ops) /\ list_to_set (locks_of ops) ## held (w_kernel w) /\
  held (w_kernel w1) = list_to_set (locks_of ops) ∪ held (w_kernel w) /\
  (forall w2, xact_commit txd w1 = Ret tt w2 ->
    held (w_kernel w2) = (list_to_set (locks_of ops) ∪ held (w_kernel w)) ∖ list_to_set (unlocks_of ops)).
Proof.
  intros Hidle Hb Hlen E. pose proof (begin_mutex realloc_grants txd CommitSide w w0 Hidle Hb) as Hw0.
  pose proof (mops_body realloc_grants txd CommitSide ops _ _ 1 (proj1 Hidle) ltac:(lia) w0 Hw0) as Hh.
  rewrite E in Hh. simpl in Hh. pose proof (mutex_inv_held _ _ _ _ _ _ Hh) as Hheld1.
  destruct Hh as (k & l & Hreg & Hl & Hnd & Hdis & Hheld). split_and!; [done|done|done|].
  intros w2 Hc. destruct (exec_unlocks l (unlocks_of ops) 0 w1 Hl) as (first & w3 & Hrun & Hw3).
  rewrite (commit_quiet same_kernel txd _ _ _ _ _ _ _ Hreg Hrun Hc). change (held (w_kernel w3)) with (wheld w3).
  by rewrite Hw3, unlocks_diff, Hheld1.
Qed.

(** C11: [x_pthread_create] in a transaction: the child waits; the commit action
    makes it call its routine with its argument, the undo action makes it return
    without calling anything, and either way it frees its control block. Both
    actions are registered ([sd] is either side). *)
Theorem created_thread_runs_iff_commit `{PF : Platform} (realloc_grants : forall n, realloc_ok n = true)
    sd txd b f a r k l n w ret w1 :
  txd <> 0 -> n < 2 ^ 28 -> registered sd txd k l n w ->
  x_pthread_create txd (Some b) f a r w = Ret ret w1 ->
  ret = 0 /\
  (exists k', registered sd txd k' (l ++ [ActionEntry (match sd with
      | CommitSide => x_pthread_create_commit b | UndoSide => x_pthread_create_undo b end) r 0]) (n + 1) w1) /\
  x_pthread_create_start_indirection b w1 = Block /\
  (forall w', w_blocks w' !! b = w_blocks w1 !! b ->
    (exists w2 w3, run_action (x_pthread_create_commit b) w' = Ret 0 w2 /\
      x_pthread_create_start_indirection b w2 = Ret (Some (f, a)) w3 /\ w_blocks w3 !! b = None) /\
    (exists w2 w3, run_action (x_pthread_create_undo b) w' = Ret 0 w2 /\
      x_pthread_create_start_indirection b w2 = Ret None w3 /\ w_blocks w3 !! b = None)).
Proof.
  intros H0 Hn Hreg E.
  destruct (pthread_create_tx realloc_grants sd txd b f a r k l n w ret w1 H0 Hn Hreg E) as (-> & Hb & Hl).
  split_and!; [done|exact Hl| |].
  { unfold x_pthread_create_start_indirection, block_get, m_bind, m_get, m_deref. by rewrite Hb. }
  intros w' Hw'. rewrite Hb in Hw'.
  split; eexists _, _; simpl; unfold run_x_pthread_create_commit, run_x_pthread_create_undo,
    x_pthread_create_start_indirection, block_get, block_put, m_bind, m_get, m_deref, m_modify, m_ret; rewrite Hw'; simpl.
  all: split; [reflexivity|]; simpl; rewrite lookup_insert_eq; simpl; rewrite lookup_insert_eq; simpl.
  all: split; [reflexivity|apply lookup_delete_eq].
Qed.

(** ** A concrete instance *)

Definition mem_held (k : memfs) : gset Z := dom (filter (fun p => p.2 = true) (mn_mutexes (mf_net k))).

Lemma mem_held_spec m k : m ∈ mem_held k <-> mf_held m k = true.
Proof.
  unfold mem_held, mf_held. rewrite elem_of_dom. split.
  - intros [b Hb]. apply map_lookup_filter_Some in Hb as [-> Hb]. simpl in Hb. by subst b.
  - intros H. destruct (mn_mutexes (mf_net k) !! m) as [b|] eqn:E; simpl in H; [|done]. subst b.
    exists true. by apply map_lookup_filter_Some.
Qed.

Lemma mem_held_set x m b k : x ∈ mem_held (mf_set_mutex m b k) <-> if decide (x = m) then b = true else x ∈ mem_held k.
Proof.
  case_decide as Hx; rewrite ?mem_held_spec; unfold mf_held, mf_set_mutex; simpl.
  - subst x. rewrite lookup_insert_eq. reflexivity.
  - by rewrite lookup_insert_ne by congruence; reflexivity.
Qed.

#[export] Instance mem_mutexes : @PthreadMutexes mem_platform.
Proof.
  refine (Build_PthreadMutexes mem_platform mem_held _ _); intros m k; cbn -[mf_set_mutex].
  - unfold mf_mutex_trylock. pose proof (mem_held_spec m k) as Hm. destruct (mf_held m k); simpl; split; intros Hin.
    + by split; [lia|].
    + by destruct Hin; apply Hm.
    + by apply Hm in Hin.
    + split; [done|]. apply set_eq. intros x. rewrite mem_held_set, elem_of_union, elem_of_singleton. case_decide; naive_solver.
  - apply set_eq. intros x. rewrite mem_held_set, elem_of_difference, elem_of_singleton. case_decide; naive_solver.
Defined.

(** A transaction that locks 7 and 8, asks to unlock 7, and aborts because 5 is
    held. *)
Definition w_mutex0 : world := mem_world (mf_set_mutex 5 true (mf_one_file [] 0)) 4.
Definition w_mutex1 : world := after (xact_begin 1000) w_mutex0.
Definition mutex_ops : list mop := [MLock 7 (Some 9); MLock 8 None; MUnlock 7 None].
Definition mutex_body : M world unit :=
  m_iter (run_mop 1000) (mutex_ops ++ [MLock 5 None]) ;;; txc_tx_abort_transaction 1000 TXC_ABORTREASON_USERABORT.
Definition w_mutex2 : world := after mutex_body w_mutex1.
Definition w_mutex3 : world := after (xact_rollback 1000 TXC_ABORTREASON_BUSYTXLOCK) w_mutex2.

Lemma mutexes_restored_on_abort_witness :
  mf_held 7 (w_kernel w_mutex2) = true /\ held (w_kernel w_mutex3) = held (w_kernel w_mutex0) /\
  mf_held 5 (w_kernel w_mutex3) = true.
Proof.
  split; [vm_compute; reflexivity|]. split; [|vm_compute; reflexivity].
  apply (mutexes_restored_on_abort mem_grants 1000 (mutex_ops ++ [MLock 5 None]) TXC_ABORTREASON_USERABORT
    TXC_ABORTREASON_BUSYTXLOCK w_mutex0 w_mutex1 w_mutex2 w_mutex3).
  - apply idle_at_idle; [done|run_eq].
  - runs_to w_mutex1.
  - simpl. lia.
  - change (mutex_body w_mutex1 = Abort TXC_ABORTREASON_BUSYTXLOCK w_mutex2). runs_to w_mutex2.
  - runs_to w_mutex3.
Defined.

Definition w_mutex4 : world := after (m_iter (run_mop 1000) mutex_ops) w_mutex1.
Definition w_mutex5 : world := after (xact_commit 1000) w_mutex4.

Lemma mutexes_released_on_commit_witness :
  held (w_kernel w_mutex4) = {[7; 8]} ∪ held (w_kernel w_mutex0) /\
  held (w_kernel w_mutex5) = ({[7; 8]} ∪ held (w_kernel w_mutex0)) ∖ {[7]}.
Proof.
  destruct (mutexes_released_on_commit mem_grants 1000 mutex_ops w_mutex0 w_mutex1 w_mutex4) as (_ & _ & H1 & H2).
  - apply idle_at_idle; [done|run_eq].
  - runs_to w_mutex1.
  - simpl. lia.
  - runs_to w_mutex4.
  - assert (list_to_set (locks_of mutex_ops) = ({[7; 8]} : gset Z)) as HL by run_eq.
    assert (list_to_set (unlocks_of mutex_ops) = ({[7]} : gset Z)) as HU by run_eq.
    rewrite HL in H1, H2. rewrite HU in H2. split; [exact H1|]. apply H2. runs_to w_mutex5.
Defined.

Definition w_thread : world := after (x_pthread_create 1000 (Some 50) 77 3 None) w_mutex1.

Lemma created_thread_runs_iff_commit_witness :
  x_pthread_create_start_indirection 50 w_thread = Block /\
  (exists w2 w3, run_action (x_pthread_create_commit 50) w_thread = Ret 0 w2 /\
    x_pthread_create_start_indirection 50 w2 = Ret (Some (77, 3)) w3) /\
  (exists w2 w3, run_action (x_pthread_create_undo 50) w_thread = Ret 0 w2 /\
    x_pthread_create_start_indirection 50 w2 = Ret None w3).
Proof.
  destruct (created_thread_runs_iff_commit mem_grants UndoSide 1000 50 77 3 None (w_kernel w_mutex0) [] 1 w_mutex1 0 w_thread)
    as (_ & _ & H1 & H2).
  - done.
  - lia.
  - apply (begin_reg mem_grants UndoSide 1000 w_mutex0 w_mutex1); [apply idle_at_idle; [done|run_eq]|runs_to w_mutex1].
  - runs_to w_thread.
  - split; [exact H1|]. destruct (H2 w_thread eq_refl) as ((c2 & c3 & C1 & C2 & _) & (u2 & u3 & U1 & U2 & _)).
    split; [exists c2, c3|exists u2, u3]; split; assumption.
Defined.
