(* ===== verification/Pipes.v ===== *)
(** * What a transaction reads from a pipe is read again after an abort

    The kernel cannot take back what was read from a pipe, so [x_read_pipe] keeps
    it in the circular buffer of the pipe's KOA. The stream of a pipe is what a
    process can still read from it: the bytes queued in the buffer and then the
    bytes in the kernel. A transaction reads successive pieces of the stream; an
    abort leaves the stream as it was, so that the retry reads the same bytes, and
    a commit removes what was read.

    A read that wants more than is queued is not part of this: see [PipesCut]. The buffer
    has a secondary queue too, for when there is no room after the primary one. The last
    section runs a case in which using both loses the order. *)

From S2P Require Import Prelude Dll Pool HashTable Buffer Actions World MemFs Tx Sentinel Views Koa XFile XDir XPipe System Frames Undo.

(** The kernel's promise about the read end of a pipe: the bytes in it, and that
    a read of no more than there are takes them from the front. *)
Class PipeRead `{PF : Platform} (fd : Z) := {
  pview : kstate -> option (list byte);
  pview_read k K n : pview k = Some K -> 0 < n <= Z.of_nat (length K) ->
    let '((ret, data), k') := call_result (sys_read fd n) k in
    ret = n /\ data = take (Z.to_nat n) K /\ pview k' = Some (drop (Z.to_nat n) K);
}.

(** ** Loads and stores *)

Lemma data_load_length d i n : 0 <= n -> Z.of_nat (length (data_load d i n)) = n.
Proof. intros Hn. unfold data_load. rewrite length_fmap, length_seqZ. lia. Qed.

Lemma data_load_app d i n m : 0 <= n -> 0 <= m -> data_load d i (n + m) = data_load d i n ++ data_load d (i + n) m.
Proof. intros Hn Hm. unfold data_load. by rewrite seqZ_app, fmap_app. Qed.

Lemma data_load_take d i n m : 0 <= n <= m -> take (Z.to_nat n) (data_load d i m) = data_load d i n.
Proof.
  intros H. replace m with (n + (m - n)) by lia. rewrite data_load_app by lia.
  rewrite take_app_le by (pose proof (data_load_length d i n); lia).
  apply take_ge. pose proof (data_load_length d i n). lia.
Qed.

Lemma data_load_drop d i n m : 0 <= n <= m -> drop (Z.to_nat n) (data_load d i m) = data_load d (i + n) (m - n).
Proof.
  intros H. replace m with (n + (m - n)) at 1 by lia. rewrite data_load_app by lia.
  apply drop_app_length'. pose proof (data_load_length d i n). lia.
Qed.

Lemma data_store_other d i bs j : j < i -> data_store d i bs !! j = d !! j.
Proof.
  revert d i. induction bs as [|x bs IH]; intros d i Hj; [done|]. simpl.
  rewrite IH by lia. by rewrite lookup_insert_ne by lia.
Qed.

(** A store does not change what is below it, and reads back. *)
Lemma data_load_below d i bs j n : j + n <= i -> data_load (data_store d i bs) j n = data_load d j n.
Proof.
  intros H. unfold data_load. apply list_fmap_ext. intros ? x Hx. apply list_elem_of_lookup_2, elem_of_seqZ in Hx.
  by rewrite data_store_other by lia.
Qed.

Lemma data_load_store d i bs : data_load (data_store d i bs) i (Z.of_nat (length bs)) = bs.
Proof.
  revert d i. induction bs as [|x bs IH]; intros d i; [done|]. simpl length.
  replace (Z.of_nat (S (length bs))) with (1 + Z.of_nat (length bs)) by lia.
  rewrite data_load_app by lia. simpl. rewrite IH. unfold data_load. simpl.
  by rewrite data_store_other, lookup_insert_eq by lia.
Qed.

(** ** The buffer of a pipe *)

Definition queued (b : txc_buffer_circular_t) : list byte :=
  data_load (cb_data b) (primary_head b) (primary_tail b - primary_head b).

(** A buffer that is not in use, with [L] bytes queued from [h]; the secondary
    queue is empty. *)
Record at_rest (h L : Z) (b : txc_buffer_circular_t) : Prop := {
  rest_state : cb_state b = TXC_BUFFER_STATE_NON_SPECULATIVE;
  rest_head : primary_head b = h;
  rest_tail : primary_tail b = h + L;
  rest_secondary : secondary_head b = 0 /\ secondary_tail b = 0;
  rest_range : 0 <= h /\ 0 <= L /\ h + L < cb_size_max b < 2 ^ 32;
}.

(** A transaction has read [c] bytes: the buffer now holds everything it had and
    what was read beyond it. *)
Record in_use (h L c : Z) (b : txc_buffer_circular_t) : Prop := {
  use_state : cb_state b = TXC_BUFFER_STATE_SPECULATIVE;
  use_head : primary_head b = h;
  use_tail : primary_tail b = h + Z.max L c;
  use_secondary : secondary_head b = 0 /\ secondary_tail b = 0;
  use_spec_head : if decide (c < L) then speculative_primary_head b = h + c
                  else speculative_primary_head b = speculative_primary_tail b;
  use_spec_tail : speculative_primary_tail b = h + L;
  use_spec_secondary : speculative_secondary_head b = speculative_secondary_tail b;
  use_range : 0 <= h /\ 0 <= L /\ 0 <= c /\ h + Z.max L c < cb_size_max b < 2 ^ 32;
}.

Lemma circular_begin_use h L b : at_rest h L b -> in_use h L 0 (circular_begin b).
Proof.
  intros [H1 H2 H3 [H4 H5] H6]. split; simpl; try done; try lia.
  case_decide; lia.
Qed.

(** What the two actions leave. *)
Lemma circular_undo_rest h L c b :
  in_use h L c b -> at_rest h (Z.max L c) (circular_undo b) /\ queued (circular_undo b) = queued b.
Proof. intros [H1 H2 H3 H4 H5 H6 H7 H8]. split; [|done]. split; simpl; try done; lia. Qed.

Lemma circular_commit_rest h L c b :
  in_use h L c b -> exists h', at_rest h' (L - Z.min L c) (circular_commit b) /\ cb_size_max (circular_commit b) = cb_size_max b /\
    (h' = 0 \/ h' = h + c) /\ queued (circular_commit b) = drop (Z.to_nat c) (queued b).
Proof.
  intros [H1 H2 H3 [H4 H4'] H5 H6 H7 H8]. unfold circular_commit. case_decide.
  - rewrite bool_decide_eq_true_2 by lia. exists (h + c). split_and!; [|done|lia|].
    + split; simpl; try done; lia.
    + unfold queued; simpl. rewrite data_load_drop by lia. f_equal; lia.
  - rewrite bool_decide_eq_false_2 by lia. rewrite bool_decide_eq_false_2 by congruence.
    exists 0. split_and!; [|done|lia|].
    + split; simpl; try done; lia.
    + unfold queued; simpl. rewrite data_load_drop by lia.
      replace (primary_tail b - primary_head b - c) with 0 by lia. done.
Qed.

(** Reading what is queued: the index, and the buffer after it. *)
Lemma spec_take_use h L c n b :
  in_use h L c b -> 0 < n -> c < L -> c + n <= L -> exists b',
    circular_spec_take n b = Some (h + c, b') /\ in_use h L (c + n) b' /\ cb_data b' = cb_data b /\
    cb_size_max b' = cb_size_max b /\ queued b' = queued b.
Proof.
  intros [H1 H2 H3 [H4 H4'] H5 H6 H7 H8] Hn Hc Hcn. rewrite decide_True in H5 by done.
  unfold circular_spec_take. rewrite bool_decide_eq_true_2 by lia. rewrite H5. eexists. split; [done|].
  split_and!; [|done..]. split; simpl; try done; try lia. rewrite u32_small by lia. case_decide; lia.
Qed.

(** Nothing is left in the queues: the kernel's bytes go to the end of the
    primary one. *)
Lemma spec_take_none h L c n b : in_use h L c b -> L <= c -> circular_spec_take n b = None.
Proof.
  intros [H1 H2 H3 [H4 H4'] H5 H6 H7 H8] Hc. rewrite decide_False in H5 by lia. unfold circular_spec_take.
  by rewrite !bool_decide_eq_false_2 by congruence.
Qed.

Lemma space_use h L c n b :
  in_use h L c b -> L <= c -> 0 < n -> h + c + n < cb_size_max b -> circular_space n b = Some (h + c, true).
Proof.
  intros [H1 H2 H3 [H4 H4'] H5 H6 H7 H8] Hc Hn Hsz. unfold circular_space.
  rewrite bool_decide_eq_true_2; [by rewrite H3, Z.max_r|]. rewrite u32_small by lia. lia.
Qed.

Lemma fill_use h L c bs b :
  in_use h L c b -> L <= c -> h + c + Z.of_nat (length bs) < cb_size_max b -> exists b',
    circular_store (h + c) bs b = Some b' /\
    let b' := circular_advance true (Z.of_nat (length bs)) b' in
    in_use h L (c + Z.of_nat (length bs)) b' /\ cb_size_max b' = cb_size_max b /\ queued b' = queued b ++ bs /\
    circular_load (h + c) (Z.of_nat (length bs)) b' = Some bs.
Proof.
  intros [H1 H2 H3 [H4 H4'] H5 H6 H7 H8] Hc Hsz. unfold circular_store.
  rewrite bool_decide_eq_true_2 by lia. eexists. split; [done|]. cbv zeta. split_and!.
  - split; simpl; try done; try lia; [rewrite u32_small by lia; lia|].
    rewrite decide_False in H5 by lia. by rewrite decide_False by lia.
  - done.
  - unfold queued. simpl. rewrite H2, H3, u32_small, Z.max_r by lia.
    replace (h + c + Z.of_nat (length bs) - h) with (c + Z.of_nat (length bs)) by lia.
    rewrite data_load_app, data_load_below, data_load_store by lia. f_equal. f_equal. lia.
  - unfold circular_load. simpl. rewrite bool_decide_eq_true_2, bool_decide_eq_true_2 by lia. simpl.
    by rewrite data_load_store.
Qed.

(** ** The stream in the world *)

Section pipes.
Context {PF : Platform}.

(** Nothing about pipes changes: the kernel, the buffers, the KOAs and the
    descriptors that refer to them. *)
Definition same_pipe (w w' : world) : Prop :=
  w_kernel w' = w_kernel w /\ circulars (w_buffermgr w') = circulars (w_buffermgr w) /\
  koas (w_koamgr w') = koas (w_koamgr w) /\
  forall fd, fd_koa <$> fd_map (w_koamgr w') !! fd = fd_koa <$> fd_map (w_koamgr w) !! fd.

#[global] Instance same_pipe_quiet : Quiet same_pipe.
Proof.
  split; [| | | |done|]; try done.
  - split; [done|]. intros w1 w2 w3 (H1 & H2 & H3 & H4) (H5 & H6 & H7 & H8).
    split_and!; [congruence..|]. intros fd. by rewrite H8.
  - intros w fd e b He. split_and!; try done. intros fd'. simpl. destruct (decide (fd = fd')) as [<-|].
    + by rewrite lookup_insert_eq, He.
    + by rewrite lookup_insert_ne.
Qed.

(** [fd] is the read end of a pipe, whose KOA has this buffer. *)
Definition pipe_end (fd koa buffer : Z) (w : world) : Prop :=
  koa <> 0 /\ fd_koa <$> fd_map (w_koamgr w) !! fd = Some koa /\
  exists k, koas (w_koamgr w) !! koa = Some k /\ koa_type k = TXC_KOA_IS_PIPE_READ_END /\ koa_word k = buffer.

Lemma pipe_end_same fd koa buffer w w' : pipe_end fd koa buffer w -> same_pipe w w' -> pipe_end fd koa buffer w'.
Proof. intros (H0 & H1 & H2) (_ & _ & H3 & H4). split_and!; [done|by rewrite H4|by rewrite H3]. Qed.

Lemma pipe_end_lookup fd koa buffer w :
  pipe_end fd koa buffer w -> txc_koa_lookup_fd2koa fd w = Ret (TXC_R_SUCCESS, koa) w /\
    txc_koa_get_buffer koa w = Ret buffer w.
Proof.
  intros (H0 & (e & He & ->)%fmap_Some & k & Hk & Ht & Hw). split.
  - unfold txc_koa_lookup_fd2koa, fd_get, m_bind. simpl. rewrite He. simpl. by rewrite bool_decide_eq_false_2.
  - unfold txc_koa_get_buffer, koa_get, m_bind. simpl. rewrite Hk. simpl. by rewrite Ht, Hw.
Qed.

(** A buffer at its address. *)
Lemma circular_get_run buffer b w :
  circulars (w_buffermgr w) !! buffer = Some b -> in_buffermgr (circular_get buffer) w = Ret b w.
Proof.
  intros Hb. unfold in_buffermgr, m_zoom, circular_get, m_bind. simpl. rewrite Hb. simpl.
  by destruct w as [? ? ? ? [] ? ? ? ?].
Qed.

Definition put_circular (a : Z) (b : txc_buffer_circular_t) (w : world) : world :=
  set_buffermgr (set_circulars (<[a := b]> (circulars (w_buffermgr w))) (w_buffermgr w)) w.

Lemma circular_put_run buffer b w : in_buffermgr (circular_put buffer b) w = Ret tt (put_circular buffer b w).
Proof. done. Qed.

Lemma circular_upd_run buffer b f w :
  circulars (w_buffermgr w) !! buffer = Some b -> circular_upd buffer f w = Ret tt (put_circular buffer (f b) w).
Proof.
  intros Hb. unfold circular_upd, in_buffermgr, m_zoom, circular_get, circular_put, m_bind. simpl. rewrite Hb. done.
Qed.
End pipes.

Section transaction.
Context {PF : Platform} (realloc_grants : forall n, realloc_ok n = true).
Context (sd : side) (txd fd koa buffer : Z) {PR : PipeRead fd}.
(** The stream, and the bytes of it that were queued, from [h]. *)
Context (S : list byte) (h L sz : Z).

(** The action of a transaction that reads. *)
Definition pipe_action : action :=
  match sd with UndoSide => x_read_pipe_undo koa buffer | CommitSide => x_read_pipe_commit koa buffer end.

(** The buffer satisfies [P] and the stream is [S]. *)
Definition stream (P : txc_buffer_circular_t -> Prop) (w : world) : Prop := exists b K,
  circulars (w_buffermgr w) !! buffer = Some b /\ P b /\ cb_size_max b = sz /\
  pview (w_kernel w) = Some K /\ queued b ++ K = S.

Lemma stream_same P w w' : stream P w -> same_pipe w w' -> stream P w'.
Proof. intros (b & K & Hb & HP & Hz & HK & HS) (Hk & Hc & _). exists b, K. rewrite Hc, Hk. done. Qed.

(** The transaction has read [c] bytes. *)
Definition has_read (n c : Z) (w : world) : Prop :=
  pipe_end fd koa buffer w /\
  ((c = 0 /\ stream (at_rest h L) w /\ registered sd txd (w_kernel w) [] n w) \/
   (stream (in_use h L c) w /\ exists r, registered sd txd (w_kernel w) [ActionEntry pipe_action r 0] n w)).
Definition read_stop (c : Z) (w : world) : Prop := exists n, has_read n c w.

Lemma has_read_mono n m c w : has_read n c w -> n <= m -> has_read m c w.
Proof.
  intros [He [(Hc & Hs & Hr)|(Hs & r & Hr)]] Hn; (split; [done|]); [left|right].
  - split_and!; [done|done|]. by eapply registered_mono.
  - split; [done|]. exists r. by eapply registered_mono.
Qed.

(** An operation that does nothing to pipes. *)
Lemma has_read_step {A} (m : M world A) n n' c :
  reg_hoare sd txd n n' m -> m_pres same_pipe m ->
  m_hoare (has_read n c) m (fun _ => has_read n' c) (read_stop c).
Proof.
  intros Hr Hp w [He Hw]. specialize (Hp w).
  assert (forall l, registered sd txd (w_kernel w) l n w -> match m w with
    | Ret _ w' => registered sd txd (w_kernel w') l n' w'
    | Abort _ w' => exists n2, registered sd txd (w_kernel w') l n2 w'
    | _ => True end) as Hreg.
  { intros l Hl. specialize (Hr _ l w Hl). destruct (m w) as [a w'|a w'| | | |]; try done.
    - by rewrite (reg_kernel _ _ _ _ _ _ Hr).
    - destruct Hr as [n2 Hr]. exists n2. by rewrite (reg_kernel _ _ _ _ _ _ Hr). }
  destruct (m w) as [a w'|a w'| | | |]; try done.
  - split; [by eapply pipe_end_same|].
    destruct Hw as [(Hc & Hs & Hl)|(Hs & r & Hl)]; [left|right].
    + split_and!; [done|by eapply stream_same|by apply Hreg].
    + split; [by eapply stream_same|]. exists r. by apply Hreg.
  - destruct Hw as [(Hc & Hs & Hl)|(Hs & r & Hl)]; destruct (Hreg _ Hl) as [n2 H2]; exists n2;
      (split; [by eapply pipe_end_same|]); [left|right].
    + split_and!; [done|by eapply stream_same|done].
    + split; [by eapply stream_same|]. by exists r.
Qed.

Lemma has_read_quiet {A} (m : M world A) n c :
  m_pres (same_side sd txd) m -> m_pres same_pipe m ->
  m_hoare (has_read n c) m (fun _ => has_read n c) (read_stop c).
Proof. intros Hs. by apply has_read_step, reg_quiet. Qed.

(** *** One read *)

(** Change the buffer in the world. *)
Lemma stream_put b b' P (w : world) :
  circulars (w_buffermgr w) !! buffer = Some b -> stream (fun x => x = b) w -> P b' -> cb_size_max b' = cb_size_max b ->
  queued b' = queued b -> stream P (put_circular buffer b' w).
Proof.
  intros Hb (b1 & K & _ & -> & Hz & HK & HS) HP Hz' Hq. exists b', K. simpl. rewrite lookup_insert_eq.
  split_and!; [done|done|congruence|done|by rewrite Hq].
Qed.

Lemma stream_buffer P w :
  stream P w -> exists b, circulars (w_buffermgr w) !! buffer = Some b /\ P b /\ stream (fun x => x = b) w.
Proof. intros (b & K & Hb & HP & HS). exists b. split_and!; [done|done|]. by exists b, K. Qed.

Lemma put_registered k l n b w : registered sd txd k l n w -> registered sd txd k l n (put_circular buffer b w).
Proof. intros [Hl Hk Hr]. by split. Qed.

(** Registering an action does not abort. *)
Lemma register_commit_returns a f r o w :
  match txc_tx_register_commit_action a f r o w with Abort _ _ => False | _ => True end.
Proof.
  unfold txc_tx_register_commit_action, register_with, tmsystem_register_generic_commit_action, txd_upd, txd_get, m_bind,
    m_deref, m_modify, m_ret, m_undef, m_get.
  by repeat (case_match; simplify_eq).
Qed.

Lemma register_undo_returns a f r o w :
  match txc_tx_register_undo_action a f r o w with Abort _ _ => False | _ => True end.
Proof.
  unfold txc_tx_register_undo_action, register_with, tmsystem_register_generic_undo_action, txd_upd, txd_get, m_bind,
    m_deref, m_modify, m_ret, m_undef, m_get.
  by repeat (case_match; simplify_eq).
Qed.

(** The commit and the undo action, of which [sd] keeps one. *)
Lemma register_pipe result k n w :
  n + 1 < 2 ^ 29 -> registered sd txd k [] n w ->
  match (do _ <- txc_tx_register_commit_action txd (x_read_pipe_commit koa buffer) result 0 ;;
         do _ <- txc_tx_register_undo_action txd (x_read_pipe_undo koa buffer) result 0 ;;
         m_ret true) w with
  | Ret ok w' => ok = true /\ registered sd txd k [ActionEntry pipe_action result 0] (n + 1) w' /\ same_pipe w w'
  | Abort _ _ => False
  | _ => True
  end.
Proof.
  intros Hn Hr.
  pose proof (register_commit_quiet same_pipe txd (x_read_pipe_commit koa buffer) result 0 w) as Hp.
  pose proof (register_commit_returns txd (x_read_pipe_commit koa buffer) result 0 w) as Ha.
  unfold pipe_action. destruct sd eqn:Hsd.
  - pose proof (register_commit_undo UndoSide txd txd (x_read_pipe_commit koa buffer) result 0 eq_refl w) as Hs.
    unfold m_bind at 1. destruct (txc_tx_register_commit_action _ _ _ _ w) as [a w1| | | | |]; try done.
    destruct (register_regular realloc_grants UndoSide txd (x_read_pipe_undo koa buffer) result k [] n w1) as (w2 & E & Hr2);
      [lia|by eapply registered_same|]. simpl in E. rewrite (m_bind_run _ _ _ _ _ E). split_and!; [done|done|].
    etrans; [exact Hp|]. eapply m_pres_run; [apply (register_undo_quiet same_pipe)|exact E].
  - destruct (register_regular realloc_grants CommitSide txd (x_read_pipe_commit koa buffer) result k [] n w) as (w1 & E & Hr1);
      [lia|done|]. simpl in E. rewrite (m_bind_run _ _ _ _ _ E). rewrite E in Hp.
    pose proof (register_undo_quiet same_pipe txd (x_read_pipe_undo koa buffer) result 0 w1) as Hp1.
    pose proof (register_undo_returns txd (x_read_pipe_undo koa buffer) result 0 w1) as Ha1.
    pose proof (register_undo_commit CommitSide txd txd (x_read_pipe_undo koa buffer) result 0 eq_refl w1) as Hs.
    unfold m_bind. destruct (txc_tx_register_undo_action _ _ _ _ w1) as [a w2| | | | |]; try done. simpl.
    split_and!; [done|by eapply registered_same|by etrans].
Qed.

(** The first read begins the speculation and registers the actions. *)
Lemma begin_first result n w :
  n + 1 < 2 ^ 29 -> pipe_end fd koa buffer w -> stream (at_rest h L) w -> registered sd txd (w_kernel w) [] n w ->
  match (circular_upd buffer circular_begin ;;;
         do _ <- txc_tx_register_commit_action txd (x_read_pipe_commit koa buffer) result 0 ;;
         do _ <- txc_tx_register_undo_action txd (x_read_pipe_undo koa buffer) result 0 ;;
         m_ret true) w with
  | Ret ok w' => ok = true /\ has_read (n + 1) 0 w' /\ stream (in_use h L 0) w'
  | Abort _ _ => False
  | _ => True
  end.
Proof.
  intros Hn He Hs Hr. destruct (stream_buffer _ _ Hs) as (b & Hb & HP & Hs').
  rewrite (m_bind_run _ _ _ _ _ (circular_upd_run _ _ _ _ Hb)).
  set (w1 := put_circular buffer (circular_begin b) w).
  assert (stream (in_use h L 0) w1) as Hs1.
  { eapply stream_put; [exact Hb|exact Hs'|by apply circular_begin_use|done|done]. }
  pose proof (register_pipe result (w_kernel w) n w1 Hn (put_registered _ _ _ _ _ Hr)) as Hreg.
  destruct ((do _ <- txc_tx_register_commit_action _ _ _ _ ;; _) w1) as [ok w2| | | | |]; try done.
  destruct Hreg as (-> & Hreg & Hsame). assert (stream (in_use h L 0) w2) as Hs2 by (by eapply stream_same).
  split_and!; [done| |done]. split; [by apply (pipe_end_same fd koa buffer w1)|]. right. split; [done|].
  exists result. by rewrite (reg_kernel _ _ _ _ _ _ Hreg).
Qed.

Lemma read_pipe_begin_read n c result :
  n + 1 < 2 ^ 29 ->
  m_hoare (has_read n c) (read_pipe_begin txd koa buffer result)
    (fun ok w => if ok : bool then has_read (n + 1) c w /\ stream (in_use h L c) w else has_read n c w) (read_stop c).
Proof.
  intros Hn w Hw. unfold read_pipe_begin.
  destruct Hw as [He [(-> & Hs & Hreg)|(Hs & r & Hreg)]]; destruct (stream_buffer _ _ Hs) as (b & Hb & HP & Hs');
    rewrite (m_bind_run _ _ _ _ _ (circular_get_run _ _ _ Hb)).
  - rewrite bool_decide_eq_true_2 by apply HP.
    pose proof (linear_malloc_quiet same_pipe txd (sizeof sz_x_read_pipe_args_t) w) as Hp.
    pose proof (linear_malloc_side sd txd txd (sizeof sz_x_read_pipe_args_t) w) as Hsd.
    unfold m_bind at 1. destruct (tx_linear_malloc txd (sizeof sz_x_read_pipe_args_t) w) as [o w1|o w1| | | |]; try done.
    + assert (pipe_end fd koa buffer w1) as He1 by (by eapply pipe_end_same).
      assert (stream (at_rest h L) w1) as Hs1 by (by eapply stream_same).
      assert (registered sd txd (w_kernel w1) [] n w1) as Hr1.
      { replace (w_kernel w1) with (w_kernel w) by (symmetry; apply Hp). by eapply registered_same. }
      destruct o as [p|]; [|split; [done|left; done]].
      pose proof (begin_first result n w1 Hn He1 Hs1 Hr1) as Hf.
      unfold TXC_TX_REGULAR_COMMIT_ACTION_ORDER, TXC_TX_REGULAR_UNDO_ACTION_ORDER.
      destruct ((circular_upd _ _ ;;; _) w1) as [ok w2| | | | |]; try done. by destruct Hf as (-> & Hf).
    + exists n. split; [by eapply pipe_end_same|]. left. split_and!; [done|by eapply stream_same|].
      replace (w_kernel w1) with (w_kernel w) by (symmetry; apply Hp). by eapply registered_same.
  - rewrite bool_decide_eq_false_2; [|destruct HP as [HP _ _ _ _ _ _ _]; by rewrite HP]. simpl.
    split; [|done]. apply has_read_mono with n; [|lia]. split; [done|]. right. split; [done|]. by exists r.
Qed.

Lemma has_read_use n c w :
  has_read n c w -> stream (in_use h L c) w ->
  pipe_end fd koa buffer w /\ exists r, registered sd txd (w_kernel w) [ActionEntry pipe_action r 0] n w.
Proof.
  intros [He [(_ & Hs & _)|(_ & r & Hr)]] Hu; split; try done; [|by exists r].
  destruct (stream_buffer _ _ Hs) as (b & Hb & [H1 _ _ _ _] & _).
  destruct (stream_buffer _ _ Hu) as (b' & Hb' & [H2 _ _ _ _ _ _ _] & _). congruence.
Qed.

(** From the buffer. *)
Lemma load_queued c n b K :
  in_use h L c b -> queued b ++ K = S -> 0 <= n -> c + n <= L -> circular_load (h + c) n b = Some (slice S c n).
Proof.
  intros [H1 H2 H3 _ _ _ _ H8] <- Hn Hcn. unfold circular_load.
  rewrite bool_decide_eq_true_2, bool_decide_eq_true_2 by lia. simpl. f_equal. unfold slice, queued.
  pose proof (data_load_length (cb_data b) (primary_head b) (primary_tail b - primary_head b) ltac:(lia)).
  rewrite drop_app_le by lia. rewrite data_load_drop by lia.
  pose proof (data_load_length (cb_data b) (primary_head b + c) (primary_tail b - primary_head b - c) ltac:(lia)).
  rewrite take_app_le by lia. rewrite data_load_take by lia. by rewrite H2.
Qed.

Lemma read_queued n c nbyte w :
  has_read n c w -> stream (in_use h L c) w -> 0 < nbyte -> c < L -> c + nbyte <= L -> exists w' b b',
    circulars (w_buffermgr w) !! buffer = Some b /\ circular_spec_take nbyte b = Some (h + c, b') /\
    (in_buffermgr (circular_put buffer b') ;;; read_pipe_copy buffer (h + c) nbyte nbyte) w =
      Ret ((nbyte, slice S c nbyte), 0) w' /\ has_read n (c + nbyte) w'.
Proof.
  intros Hr Hs Hn Hc Hcn. destruct (has_read_use _ _ _ Hr Hs) as (He & r & Hreg).
  destruct (stream_buffer _ _ Hs) as (b & Hb & HP & Hs').
  destruct (spec_take_use h L c nbyte b HP Hn Hc Hcn) as (b' & Ht & Hu & Hd & Hz & Hq).
  exists (put_circular buffer b' w), b, b'. split_and!; [done|done| |].
  - rewrite (m_bind_run _ _ _ _ _ (circular_put_run _ _ _)). unfold read_pipe_copy.
    rewrite (m_bind_run _ _ _ _ _ (circular_get_run buffer b' (put_circular buffer b' w) ltac:(simpl; by rewrite lookup_insert_eq))).
    replace (circular_load (h + c) nbyte b') with (circular_load (h + c) nbyte b) by (unfold circular_load; by rewrite Hd, Hz).
    destruct Hs' as (b1 & K & Hb1 & -> & Hsz & HK & HS). by rewrite (load_queued c nbyte b K HP HS) by lia.
  - split; [done|]. right. split; [by eapply stream_put|]. exists r. by apply put_registered.
Qed.

(** From the kernel. *)
Lemma libc_returns {A} (c : syscall kstate A) a k w :
  call_result c (w_kernel w) = (a, k) -> exists e, libc c w = Ret a (set_errno e (set_kernel k w)).
Proof. unfold call_result, libc. destruct (c (w_kernel w)) as [[a' e] k']. intros [= <- <-]. by eexists. Qed.

Lemma read_kernel n c nbyte w :
  has_read n c w -> stream (in_use h L c) w -> 0 < nbyte -> L <= c -> c + nbyte <= Z.of_nat (length S) ->
  h + c + nbyte < sz -> exists w',
    read_pipe_fill fd buffer nbyte w = Ret ((nbyte, slice S c nbyte), 0) w' /\ has_read n (c + nbyte) w'.
Proof.
  intros Hr Hs Hn Hc Hcn Hsz. destruct (has_read_use _ _ _ Hr Hs) as (He & r & Hreg).
  destruct Hs as (b & K & Hb & HP & Hz & HK & HS). unfold read_pipe_fill.
  rewrite (m_bind_run _ _ _ _ _ (circular_get_run _ _ _ Hb)), (space_use h L c) by (done || lia).
  assert (Z.of_nat (length (queued b)) = c) as Hlq.
  { destruct HP as [_ H2 H3 _ _ _ _ H8]. unfold queued. rewrite data_load_length; lia. }
  assert (drop (Z.to_nat c) S = K) as HdK by (rewrite <- HS; apply drop_app_length'; lia).
  assert (Z.of_nat (length K) = Z.of_nat (length S) - c) as HlK by (rewrite <- HdK, length_drop; lia).
  pose proof (pview_read (w_kernel w) K nbyte HK ltac:(lia)) as Hrd.
  destruct (call_result (sys_read fd nbyte) (w_kernel w)) as [[ret data] k'] eqn:E.
  destruct Hrd as (-> & -> & HK'). destruct (libc_returns _ _ _ _ E) as [e E'].
  rewrite (m_bind_run _ _ _ _ _ E'). cbv iota.
  assert (Z.of_nat (length (take (Z.to_nat nbyte) K)) = nbyte) as Hlt by (rewrite length_take; lia).
  destruct (fill_use h L c (take (Z.to_nat nbyte) K) b HP Hc ltac:(lia)) as (b' & Hst & Hu & Hz' & Hq & Hld).
  rewrite Hlt in Hu, Hz', Hq, Hld. rewrite Hst. unfold m_deref at 1, m_ret at 1, m_bind at 1. cbv beta iota.
  rewrite bool_decide_eq_true_2 by lia. rewrite (m_bind_run _ _ _ _ _ (circular_put_run _ _ _)). unfold read_pipe_copy.
  set (b1 := circular_advance true nbyte b') in *. set (w1 := put_circular buffer b1 _).
  exists w1. split.
  - rewrite (m_bind_run _ _ _ _ _ (circular_get_run buffer b1 w1 ltac:(unfold w1; simpl; by rewrite lookup_insert_eq))).
    rewrite Hld. unfold slice. by rewrite HdK.
  - split; [done|]. right. split.
    + exists b1, (drop (Z.to_nat nbyte) K). unfold w1. simpl. rewrite lookup_insert_eq. split_and!; [done|done|exact (eq_trans Hz' Hz)|done|].
      by rewrite Hq, <- app_assoc, take_drop.
    + exists r. apply put_registered. by eapply registered_call.
Qed.

(** Where a read of [nbyte] bytes is served: what is queued does not end inside
    it, and otherwise there is room for it and the kernel has the bytes. *)
Definition read_ok (len c nbyte : Z) : Prop :=
  0 < nbyte /\ if decide (c < L) then c + nbyte <= L else h + c + nbyte < sz /\ c + nbyte <= len.

(** What a read does: it fails and reads nothing, or returns the next bytes. *)
Definition read_step (n c nbyte : Z) (r : Z * list byte) (w : world) : Prop :=
  (r = (-1, []) /\ has_read n c w) \/ (r = (nbyte, slice S c nbyte) /\ has_read n (c + nbyte) w).

Lemma speculative_read n c nbyte result :
  n + 1 < 2 ^ 29 -> read_ok (Z.of_nat (length S)) c nbyte ->
  m_hoare (has_read n c) (read_pipe_speculative txd koa fd buffer nbyte result)
    (fun r => read_step (n + 1) c nbyte r.1) (read_stop c).
Proof.
  intros Hn [Hpos Hok]. unfold read_pipe_speculative.
  eapply m_hoare_bind; [by apply read_pipe_begin_read|]. intros [|]; simpl.
  - intros w [Hw Hs]. destruct (stream_buffer _ _ Hs) as (b & Hb & HP & _).
    rewrite (m_bind_run _ _ _ _ _ (circular_get_run _ _ _ Hb)). case_decide as Hc.
    + destruct (read_queued (n + 1) c nbyte w Hw Hs Hpos Hc Hok) as (w' & b1 & b' & Hb1 & Ht & E & Hw').
      assert (b1 = b) as -> by congruence. rewrite Ht, E. by right.
    + rewrite (spec_take_none h L c) by (done || lia).
      destruct (read_kernel (n + 1) c nbyte w Hw Hs Hpos ltac:(lia) ltac:(lia) ltac:(lia)) as (w' & E & Hw').
      rewrite E. by right.
  - apply m_hoare_ret. intros w Hw. left. split; [done|]. eapply has_read_mono; [exact Hw|lia].
Qed.

Lemma registered_result l n result v w :
  registered sd txd (w_kernel w) l n w -> let w' := match result with Some p => store_int p v w | None => w end in
  registered sd txd (w_kernel w') l n w'.
Proof. intros Hr. destruct result; [|done]. simpl. destruct Hr as [Hl _ Hr]. by split. Qed.

Lemma has_read_result n c result v w :
  has_read n c w -> has_read n c (match result with Some p => store_int p v w | None => w end).
Proof.
  intros [He [(Hc & Hs & Hr)|(Hs & r & Hr)]]; (split; [by destruct result|]); [left|right].
  - split_and!; [done|by destruct result|by apply registered_result].
  - split; [by destruct result|]. exists r. by apply registered_result.
Qed.

(** The whole call, around what it does with the sentinel. *)
Lemma x_read_pipe_around n c nbyte result (Q : Z * list byte -> world -> Prop) :
  txd <> 0 -> n + 1 < 2 ^ 29 ->
  m_hoare (has_read (n + 1) c) (read_pipe_speculative txd koa fd buffer nbyte result) (fun r => Q r.1) (read_stop c) ->
  (forall r v w, Q r w -> Q r (match result with Some p => store_int p v w | None => w end)) ->
  m_hoare (has_read n c) (x_read_pipe txd fd nbyte result) Q (read_stop c).
Proof.
  intros H0 Hn Hspec HQ w Hw. unfold x_read_pipe.
  assert (exists l, registered sd txd (w_kernel w) l n w) as [l Hreg].
  { destruct Hw as [_ [(_ & _ & Hr)|(_ & r & Hr)]]; by eexists. }
  rewrite (m_bind_run _ _ _ _ _ (registered_mode _ _ _ _ _ _ H0 Hreg)). cbv iota. clear Hreg. revert w Hw.
  unfold __txc_read_pipe, finish. apply (m_hoare_bind _ _ _ (fun r => Q r.1)).
  - eapply m_hoare_bind; [apply has_read_quiet; m_pres_auto|intros []].
    intros w Hw. destruct (pipe_end_lookup _ _ _ _ (proj1 Hw)) as [E1 E2].
    rewrite (m_bind_run _ _ _ _ _ E1). cbv iota. rewrite bool_decide_eq_false_2 by done.
    rewrite (m_bind_run _ _ _ _ _ E2). simpl. clear E1 E2. revert w Hw.
    eapply m_hoare_bind; [apply has_read_quiet; unfold txc_koa_get_sentinel; m_pres_auto|intros s].
    eapply m_hoare_bind; [apply has_read_step; [apply (tryacquire_reg realloc_grants); lia|m_pres_auto]|intros xret].
    eapply m_hoare_bind; [apply has_read_quiet; m_pres_auto|intros ?]. case_bool_decide; [|exact Hspec].
    intros w Hw. assert (m_hoare (has_read (n + 1) c) (txc_tx_abort_transaction (A := Z * list byte * Z) txd TXC_ABORTREASON_BUSYSENTINEL)
      (fun _ => has_read (n + 1) c) (read_stop c)) as Ha by (apply has_read_quiet; m_pres_auto).
    specialize (Ha w Hw). unfold txc_tx_abort_transaction, tmsystem_abort_transaction, m_bind in *.
    by repeat case_match; simplify_eq.
  - intros [r e]. apply (m_hoare_bind _ _ _ (fun _ => Q r)).
    + intros w Hw. specialize (HQ r e w Hw). by destruct result.
    + intros ?. by apply m_hoare_ret.
Qed.

Lemma x_read_pipe_read n c nbyte result :
  txd <> 0 -> n + 2 < 2 ^ 29 -> read_ok (Z.of_nat (length S)) c nbyte ->
  m_hoare (has_read n c) (x_read_pipe txd fd nbyte result) (read_step (n + 2) c nbyte) (read_stop c).
Proof.
  intros H0 Hn Hok. apply x_read_pipe_around; [done|lia| |].
  - replace (n + 2) with (n + 1 + 1) by lia. apply speculative_read; [lia|exact Hok].
  - intros r v w [[-> Hw]|[-> Hw]]; [left|right]; (split; [done|]); by apply has_read_result.
Qed.

(** *** A sequence of reads *)

(** A body that reads and stops at the first failure: the bytes of each read. *)
Fixpoint read_all (ns : list Z) (result : option Z) : M world (list (list byte)) :=
  match ns with
  | [] => m_ret []
  | n :: ns' =>
      do ' (ret, bytes) <- x_read_pipe txd fd n result ;;
      if bool_decide (ret = -1) then m_ret []
      else do rest <- read_all ns' result ;; m_ret (bytes :: rest)
  end.

(** Successive pieces of the stream. *)
Fixpoint pieces (c : Z) (ns : list Z) : list (list byte) :=
  match ns with [] => [] | n :: ns' => slice S c n :: pieces (c + n) ns' end.

Fixpoint reads_ok (len c : Z) (ns : list Z) : Prop :=
  match ns with [] => True | n :: ns' => read_ok len c n /\ reads_ok len (c + n) ns' end.

(** After some of the reads. *)
Definition read_some (ns : list Z) (c0 n : Z) (got : list (list byte)) (w : world) : Prop :=
  got = pieces c0 (take (length got) ns) /\ has_read n (c0 + foldr Z.add 0 (take (length got) ns)) w.
Definition some_stop (ns : list Z) (c0 : Z) (w : world) : Prop :=
  exists j, read_stop (c0 + foldr Z.add 0 (take j ns)) w.

Lemma read_all_reads ns result n c :
  txd <> 0 -> n + 2 * Z.of_nat (length ns) < 2 ^ 29 -> reads_ok (Z.of_nat (length S)) c ns ->
  m_hoare (has_read n c) (read_all ns result) (read_some ns c (n + 2 * Z.of_nat (length ns))) (some_stop ns c).
Proof.
  intros H0. revert n c. induction ns as [|nb ns IH]; intros n c Hn Hok; simpl in *.
  - apply m_hoare_ret. intros w Hw. split; [done|]. simpl. replace (c + 0) with c by lia. eapply has_read_mono; [exact Hw|lia].
  - destruct Hok as [Hok Hoks].
    eapply (m_hoare_bind _ _ _ (read_step (n + 2) c nb)); [|intros [ret bytes]].
    + eapply m_hoare_conseq; [apply (x_read_pipe_read n c nb result); [done|lia|exact Hok]|done|done|].
      intros w Hw. exists 0%nat. simpl. by replace (c + 0) with c by lia.
    + intros w [[[= -> ->] Hw]|[[= -> ->] Hw]].
      * simpl. split; [done|]. simpl. replace (c + 0) with c by lia. eapply has_read_mono; [exact Hw|lia].
      * rewrite bool_decide_eq_false_2 by (destruct Hok; lia). revert w Hw.
        eapply m_hoare_bind; [eapply m_hoare_conseq; [apply (IH (n + 2) (c + nb)); [lia|exact Hoks]|done|intros got w Hg; exact Hg|]|].
        -- intros w [j Hj]. exists (Datatypes.S j). simpl. by rewrite Z.add_assoc.
        -- intros got. apply m_hoare_ret. intros w [Hg Hw]. split; simpl; [by rewrite <- Hg|].
           rewrite Z.add_assoc.
           eapply has_read_mono; [exact Hw|lia].
Qed.

(** What a read covers of the stream. *)
Lemma has_read_range n c w : has_read n c w -> 0 <= c <= Z.of_nat (length S).
Proof.
  intros [_ [(-> & _)|((b & K & _ & [_ H2 H3 _ _ _ _ H8] & _ & _ & HS) & _)]]; [lia|].
  rewrite <- HS, length_app. unfold queued.
  pose proof (data_load_length (cb_data b) (primary_head b) (primary_tail b - primary_head b)). lia.
Qed.
End transaction.

(** *** The retry

    The buffer has kept what was read, so that the retry finds more queued; the
    same reads are served. *)

Lemma reads_ok_more h L L' sz len c ns : L <= L' <= Z.max L c -> reads_ok h L sz len c ns -> reads_ok h L' sz len c ns.
Proof.
  revert c. induction ns as [|n ns IH]; intros c HL; [done|]. simpl. intros [[Hn Hr] Hok]. split.
  - split; [done|]. repeat case_decide; lia.
  - apply IH; [lia|done].
Qed.

Lemma reads_ok_pos h L sz len c ns j : reads_ok h L sz len c ns -> 0 <= foldr Z.add 0 (take j ns).
Proof.
  revert c j. induction ns as [|n ns IH]; intros c [|j]; simpl; try done. intros [[Hn _] Hok].
  specialize (IH (c + n) j Hok). lia.
Qed.

Lemma reads_ok_again h L sz len c ns j :
  reads_ok h L sz len c ns -> reads_ok h (Z.max L (c + foldr Z.add 0 (take j ns))) sz len c ns.
Proof.
  revert c j. induction ns as [|n ns IH]; intros c [|j]; simpl; try done.
  - rewrite Z.add_0_r. intros Hok. apply (reads_ok_more h L (Z.max L c) sz len c (n :: ns)); [lia|done].
  - intros [[Hn Hr] Hok]. pose proof (reads_ok_pos _ _ _ _ _ _ j Hok). rewrite Z.add_assoc. split; [|by apply IH].
    split; [done|]. repeat case_decide; lia.
Qed.

(** *** Abort and commit *)

Section completion.
Context {PF : Platform} (realloc_grants : forall n, realloc_ok n = true).
Context (txd fd koa buffer : Z) {PR : PipeRead fd}.

(** No transaction reads the pipe: its stream is [S], [L] bytes of it queued. *)
Definition pipe_at_rest (S : list byte) (h L sz : Z) (w : world) : Prop :=
  pipe_end fd koa buffer w /\ stream fd buffer S sz (at_rest h L) w.

Lemma begin_has_read sd S h L sz w w0 :
  tx_idle sd txd w -> pipe_at_rest S h L sz w -> xact_begin txd w = Ret tt w0 ->
  has_read sd txd fd koa buffer S h L sz 1 0 w0.
Proof.
  intros Hi [He Hs] E. pose proof (m_pres_run _ _ _ _ _ (begin_quiet same_pipe txd) E) as Hsame.
  pose proof (begin_reg realloc_grants sd txd w w0 Hi E) as Hreg.
  split; [by eapply pipe_end_same|]. left. split_and!; [done|by eapply stream_same|].
  by rewrite (reg_kernel _ _ _ _ _ _ Hreg).
Qed.

(** The undo action. *)
Lemma rollback_reads S h L sz n c r w w' :
  has_read UndoSide txd fd koa buffer S h L sz n c w -> xact_rollback txd r w = Ret tt w' ->
  pipe_at_rest S h (Z.max L c) sz w' /\
  (r <> TXC_ABORTREASON_USERABORT -> registered UndoSide txd (w_kernel w') [] 1 w').
Proof.
  intros [He Hw] E.
  assert (exists l first w1, registered UndoSide txd (w_kernel w) l n w /\
    exec_seq run_action store_int (reverse l) 0 w = Ret first w1 /\ w_txmgr w1 = w_txmgr w /\
    pipe_at_rest S h (Z.max L c) sz w1) as (l & first & w1 & Hreg & Hrun & Htx & Hrest).
  { destruct Hw as [(-> & Hs & Hreg)|(Hs & res & Hreg)].
    - exists [], 0, w. split_and!; [done..|]. split; [done|]. destruct Hs as (b & K & Hb & HP & Hs).
      exists b, K. rewrite Z.max_l by apply HP. done.
    - destruct (stream_buffer _ _ _ _ _ _ Hs) as (b & Hb & HP & Hs').
      destruct (circular_undo_rest h L c b HP) as [HP' Hq].
      set (w1 := put_circular buffer (circular_undo b) w).
      exists [ActionEntry (x_read_pipe_undo koa buffer) res 0], 0, (match res with Some p => store_int p 0 w1 | None => w1 end).
      split_and!; [done| |by destruct res|].
      + simpl. unfold exec_entry. simpl. unfold run_x_read_pipe_undo, m_bind at 1 2 3.
        rewrite (circular_upd_run _ _ _ _ Hb). by destruct res.
      + assert (pipe_at_rest S h (Z.max L c) sz w1) as [H1 H2] by (split; [done|by eapply stream_put]).
        destruct res; by split. }
  pose proof (rollback_quiet same_pipe txd _ _ _ _ _ _ _ _ Hreg Hrun E) as Hsame. split.
  - destruct Hrest as [H1 H2]. split; [by eapply pipe_end_same|by eapply stream_same].
  - intros Hr. by eapply restart_reg.
Qed.

(** The commit action. *)
Lemma commit_reads S h L sz n c w w' :
  has_read CommitSide txd fd koa buffer S h L sz n c w -> xact_commit txd w = Ret tt w' ->
  exists h' L', pipe_at_rest (drop (Z.to_nat c) S) h' L' sz w'.
Proof.
  intros [He Hw] E.
  assert (exists l first w1 h' L', registered CommitSide txd (w_kernel w) l n w /\
    exec_seq run_action store_int l 0 w = Ret first w1 /\
    pipe_at_rest (drop (Z.to_nat c) S) h' L' sz w1) as (l & first & w1 & h' & L' & Hreg & Hrun & Hrest).
  { destruct Hw as [(-> & Hs & Hreg)|(Hs & res & Hreg)]; [by exists [], 0, w, h, L|].
    destruct Hs as (b & K & Hb & HP & Hz & HK & HS).
    destruct (circular_commit_rest h L c b HP) as (h' & HP' & Hz' & _ & Hq).
    set (w1 := put_circular buffer (circular_commit b) w).
    exists [ActionEntry (x_read_pipe_commit koa buffer) res 0], 0, (match res with Some p => store_int p 0 w1 | None => w1 end),
      h', (L - Z.min L c).
    split_and!; [done| |].
    - simpl. unfold exec_entry. simpl. unfold run_x_read_pipe_commit, m_bind at 1 2 3.
      rewrite (circular_upd_run _ _ _ _ Hb). by destruct res.
    - assert (pipe_at_rest (drop (Z.to_nat c) S) h' (L - Z.min L c) sz w1) as [H1 H2]; [|destruct res; by split].
      split; [done|]. exists (circular_commit b), K. unfold w1. simpl. rewrite lookup_insert_eq.
      split_and!; [done|done|exact (eq_trans Hz' Hz)|done|]. rewrite Hq, <- HS.
      assert (c <= Z.of_nat (length (queued b))) as Hc.
      { destruct HP as [_ H2 H3 _ _ _ _ H8]. unfold queued. rewrite data_load_length; lia. }
      rewrite drop_app_le by lia. done. }
  pose proof (commit_quiet same_pipe txd _ _ _ _ _ _ _ Hreg Hrun E) as Hsame. exists h', L'.
  destruct Hrest as [H1 H2]. split; [by eapply pipe_end_same|by eapply stream_same].
Qed.
End completion.

(** ** The properties *)

Lemma slice_app b o n m : 0 <= o -> 0 <= n -> 0 <= m -> slice b o n ++ slice b (o + n) m = slice b o (n + m).
Proof.
  intros Ho Hn Hm. unfold slice. rewrite !Z2Nat.inj_add, <- drop_drop by lia. apply take_take_drop.
Qed.

Lemma pieces_concat S h L sz len c ns j :
  0 <= c -> reads_ok h L sz len c ns -> concat (pieces S c (take j ns)) = slice S c (foldr Z.add 0 (take j ns)).
Proof.
  revert c j. induction ns as [|n ns IH]; intros c [|j] Hc Hok; [done..|]. simpl. destruct Hok as [[Hn _] Hok].
  pose proof (reads_ok_pos _ _ _ _ _ _ j Hok). rewrite IH by (done || lia). apply slice_app; lia.
Qed.

Section properties.
Context `{PF : Platform} (realloc_grants : forall n, realloc_ok n = true).
Context (txd fd koa buffer : Z) `{!PipeRead fd} (S : list byte) (h L sz : Z).

(** The state at the begin of an attempt. *)
Definition may_read (w : world) : Prop := has_read UndoSide txd fd koa buffer S h L sz 1 0 w.

Lemma attempt_reads ns result w got w' :
  txd <> 0 -> may_read w -> reads_ok h L sz (Z.of_nat (length S)) 0 ns -> Z.of_nat (length ns) < 2 ^ 27 ->
  read_all txd fd ns result w = Ret got w' -> got = pieces S 0 (take (length got) ns).
Proof.
  intros H0 Hw Hok Hlen E.
  pose proof (read_all_reads realloc_grants UndoSide txd fd koa buffer S h L sz ns result 1 0 H0 ltac:(lia) Hok w Hw) as Hh.
  rewrite E in Hh. apply Hh.
Qed.

(** An attempt that aborts after some of its reads. *)
Lemma attempt_aborts ns result reason w r w1 :
  txd <> 0 -> may_read w -> reads_ok h L sz (Z.of_nat (length S)) 0 ns -> Z.of_nat (length ns) < 2 ^ 27 ->
  (read_all txd fd ns result ;;; txc_tx_abort_transaction (A := unit) txd reason) w = Abort r w1 ->
  exists n j, has_read UndoSide txd fd koa buffer S h L sz n (foldr Z.add 0 (take j ns)) w1.
Proof.
  intros H0 Hw Hok Hlen E.
  pose proof (read_all_reads realloc_grants UndoSide txd fd koa buffer S h L sz ns result 1 0 H0 ltac:(lia) Hok w Hw) as Hh.
  unfold m_bind in E. destruct (read_all txd fd ns result w) as [got w2|r2 w2| | | |]; try done.
  - destruct Hh as [_ Hh]. rewrite Z.add_0_l in Hh.
    pose proof (has_read_quiet UndoSide txd fd koa buffer S h L sz (txc_tx_abort_transaction (A := unit) txd reason) _ _
      ltac:(m_pres_auto) ltac:(m_pres_auto) w2 Hh) as Ha. rewrite E in Ha. destruct Ha as [n Ha]. by exists n, (length got).
  - injection E as <- <-. destruct Hh as (j & n & Hh). rewrite Z.add_0_l in Hh. by exists n, j.
Qed.
End properties.

(** C5: Take a thread between transactions and the read end of a pipe that no
    transaction reads, whose stream is [S]. It begins a transaction and makes reads
    of sizes [ns], where what is queued does not end inside a read (the case that the
    comment in [__txc_read_pipe] leaves open, and [PipesCut] is about), and where a read
    beyond what is queued finds room for it after the primary queue and its bytes in the
    pipe ([reads_ok]). Then the reads that succeed return
    successive pieces of the stream. When the transaction aborts, during a read
    or after the last, the stream is [S] after the rollback; and when the
    transaction is restarted and makes the same reads, those that succeed return
    the same pieces again. *)
Theorem pipe_reads_replayed `{PF : Platform} (realloc_grants : forall n, realloc_ok n = true)
    txd fd koa buffer `{!PipeRead fd} S h L sz ns result w w0 :
  tx_idle UndoSide txd w -> pipe_at_rest fd koa buffer S h L sz w -> xact_begin txd w = Ret tt w0 ->
  reads_ok h L sz (Z.of_nat (length S)) 0 ns -> Z.of_nat (length ns) < 2 ^ 27 ->
  (forall got w1, read_all txd fd ns result w0 = Ret got w1 -> got = pieces S 0 (take (length got) ns)) /\
  (forall reason r w1 w2,
    (read_all txd fd ns result ;;; txc_tx_abort_transaction (A := unit) txd reason) w0 = Abort r w1 ->
    xact_rollback txd r w1 = Ret tt w2 ->
    (exists L', pipe_at_rest fd koa buffer S h L' sz w2) /\
    (r <> TXC_ABORTREASON_USERABORT -> forall got w3,
      read_all txd fd ns result w2 = Ret got w3 -> got = pieces S 0 (take (length got) ns))).
Proof.
  intros Hi Hrest Hb Hok Hlen. pose proof (proj1 Hi) as H0.
  pose proof (begin_has_read realloc_grants txd fd koa buffer UndoSide S h L sz w w0 Hi Hrest Hb) as Hw0. split.
  - intros got w1. by apply (attempt_reads realloc_grants txd fd koa buffer S h L sz).
  - intros reason r w1 w2 E Er.
    destruct (attempt_aborts realloc_grants txd fd koa buffer S h L sz ns result reason w0 r w1 H0 Hw0 Hok Hlen E) as (n & j & Hw1).
    destruct (rollback_reads realloc_grants txd fd koa buffer S h L sz n _ r w1 w2 Hw1 Er) as [Hrest2 Hreg]. split; [by eexists|].
    intros Hr got w3. apply (attempt_reads realloc_grants txd fd koa buffer S h (Z.max L (foldr Z.add 0 (take j ns))) sz); [done| | |done].
    + destruct Hrest2 as [He Hs]. split; [done|]. left. split_and!; [done|done|by apply Hreg].
    + rewrite <- (Z.add_0_l (foldr _ _ _)). by apply reads_ok_again.
Qed.

(** C6: When such a transaction, with the same conditions on its reads ([reads_ok]),
    commits after them, what it read is gone from the stream, and nothing else: the
    stream is what was left after the pieces it got. *)
Theorem pipe_reads_consumed `{PF : Platform} (realloc_grants : forall n, realloc_ok n = true)
    txd fd koa buffer `{!PipeRead fd} S h L sz ns result w w0 got w1 w2 :
  tx_idle CommitSide txd w -> pipe_at_rest fd koa buffer S h L sz w -> xact_begin txd w = Ret tt w0 ->
  reads_ok h L sz (Z.of_nat (length S)) 0 ns -> Z.of_nat (length ns) < 2 ^ 27 ->
  read_all txd fd ns result w0 = Ret got w1 -> xact_commit txd w1 = Ret tt w2 ->
  concat got ++ drop (length (concat got)) S = S /\
  exists h' L', pipe_at_rest fd koa buffer (drop (length (concat got)) S) h' L' sz w2.
Proof.
  intros Hi Hrest Hb Hok Hlen E Ec. pose proof (proj1 Hi) as H0.
  pose proof (begin_has_read realloc_grants txd fd koa buffer CommitSide S h L sz w w0 Hi Hrest Hb) as Hw0.
  pose proof (read_all_reads realloc_grants CommitSide txd fd koa buffer S h L sz ns result 1 0 H0 ltac:(lia) Hok w0 Hw0) as Hh.
  rewrite E in Hh. destruct Hh as [Hg Hh]. rewrite Z.add_0_l in Hh.
  set (c := foldr Z.add 0 (take (length got) ns)) in *.
  pose proof (has_read_range _ _ _ _ _ _ _ _ _ _ _ _ Hh) as Hc.
  assert (concat got = take (Z.to_nat c) S) as Hcat.
  { rewrite Hg. rewrite (pieces_concat S h L sz (Z.of_nat (length S)) 0 ns) by done. done. }
  assert (length (concat got) = Z.to_nat c) as -> by (rewrite Hcat, length_take; lia). split.
  - by rewrite Hcat, take_drop.
  - by eapply commit_reads.
Qed.

(** ** The in-memory kernel keeps the promise *)

Definition mf_pipe_view (fd : Z) (k : memfs) : option (list byte) :=
  match mf_lookup fd k with Some (_, OPipeRead p) => mf_pipes k !! p | _ => None end.

#[export] Program Instance mem_pipe_read fd : PipeRead (PF := mem_platform) fd := {| pview := mf_pipe_view fd |}.
Next Obligation.
  intros fd k K n. unfold mf_pipe_view at 1, call_result. simpl. unfold mf_read.
  destruct (mf_lookup fd k) as [[o [i off|p|p|p]]|] eqn:E; try done. intros HK Hn.
  assert (default [] (mf_pipes k !! p) = K) as -> by (by rewrite HK). simpl. split_and!; [|done|].
  - rewrite length_take. lia.
  - unfold mf_pipe_view. unfold mf_lookup in *. simpl. rewrite E. by rewrite lookup_insert_eq.
Qed.

#[export] Instance byte_eq_dec : EqDecision byte := Byte.byte_eq_dec.

(** Is the pipe at rest? *)
Definition at_rest_check (h L sz : Z) (b : txc_buffer_circular_t) : bool :=
  bool_decide (cb_state b = TXC_BUFFER_STATE_NON_SPECULATIVE) && bool_decide (primary_head b = h) &&
  bool_decide (primary_tail b = h + L) && bool_decide (secondary_head b = 0 /\ secondary_tail b = 0) &&
  bool_decide (0 <= h /\ 0 <= L /\ h + L < cb_size_max b < 2 ^ 32) && bool_decide (cb_size_max b = sz).

Definition pipe_check `{PF : Platform} (fd koa buffer : Z) `{!PipeRead fd} (S : list byte) (h L sz : Z) (w : world) : bool :=
  match fd_map (w_koamgr w) !! fd, koas (w_koamgr w) !! koa, circulars (w_buffermgr w) !! buffer, pview (w_kernel w) with
  | Some e, Some k, Some b, Some K =>
      bool_decide (koa <> 0 /\ fd_koa e = koa /\ koa_type k = TXC_KOA_IS_PIPE_READ_END /\ koa_word k = buffer) &&
      at_rest_check h L sz b && bool_decide (queued b ++ K = S)
  | _, _, _, _ => false
  end.

Lemma pipe_check_rest `{PF : Platform} fd koa buffer `{!PipeRead fd} S h L sz w :
  pipe_check fd koa buffer S h L sz w = true -> pipe_at_rest fd koa buffer S h L sz w.
Proof.
  unfold pipe_check, at_rest_check.
  destruct (fd_map _ !! fd) as [e|] eqn:He; [|done]. destruct (koas _ !! koa) as [k|] eqn:Hk; [|done].
  destruct (circulars _ !! buffer) as [b|] eqn:Hb; [|done]. destruct (pview _) as [K|] eqn:HK; [|done].
  rewrite !andb_true_iff, !bool_decide_eq_true. intros [[(H1 & H2 & H3 & H4) (((((H5 & H6) & H7) & H8) & H9) & H10)] H11].
  split.
  - split_and!; [done|by rewrite He; simpl; rewrite H2|by exists k].
  - exists b, K. split_and!; [done| |done|done|done]. by split.
Qed.

(** *** Concrete transactions

    A pipe with eight bytes in it: a transaction reads three and two bytes and
    aborts; a second one reads them again and two more, and commits. *)

Definition w_read0 : world := mem_world (mf_one_file [Byte.x61] 0) 4.
Definition w_read1 : world := after (x_pipe 1000 None) w_read0.
Definition w_read2 : world :=
  after (x_write_pipe 0 2 [Byte.x61; Byte.x62; Byte.x63; Byte.x64; Byte.x65; Byte.x66; Byte.x67; Byte.x68] None) w_read1.
Definition w_read3 : world := after (xact_begin 1000) w_read2.
Definition read_body : M world unit :=
  read_all 1000 1 [3; 2] (Some 7) ;;; txc_tx_abort_transaction (A := unit) 1000 TXC_ABORTREASON_USERRETRY.
Definition w_read4 : world := after read_body w_read3.
Definition w_read5 : world := after (xact_rollback 1000 TXC_ABORTREASON_USERRETRY) w_read4.
Definition w_read6 : world := after (read_all 1000 1 [3; 2] (Some 7)) w_read5.
Definition read_stream : list byte := [Byte.x61; Byte.x62; Byte.x63; Byte.x64; Byte.x65; Byte.x66; Byte.x67; Byte.x68].

Lemma pipe_reads_replayed_witness :
  (exists L', pipe_at_rest 1 3000 4000 read_stream 0 L' 64 w_read5) /\
  (forall got w1, read_all 1000 1 [3; 2] (Some 7) w_read3 = Ret got w1 -> got = pieces read_stream 0 (take (length got) [3; 2])) /\
  read_all 1000 1 [3; 2] (Some 7) w_read5 = Ret [[Byte.x61; Byte.x62; Byte.x63]; [Byte.x64; Byte.x65]] w_read6.
Proof.
  destruct (pipe_reads_replayed mem_grants 1000 1 3000 4000 read_stream 0 0 64 [3; 2] (Some 7) w_read2 w_read3) as [H1 H2].
  - apply idle_at_idle; [done|run_eq].
  - apply pipe_check_rest. run_eq.
  - runs_to w_read3.
  - simpl. unfold read_ok. repeat case_decide; simpl; lia.
  - simpl. lia.
  - split_and!.
    + apply (H2 TXC_ABORTREASON_USERRETRY TXC_ABORTREASON_USERRETRY w_read4 w_read5).
      * runs_to w_read4.
      * runs_to w_read5.
    + exact H1.
    + runs_to w_read6.
Defined.

(** The retry reads two more and commits. *)
Definition w_read7 : world := after (xact_begin 1000) w_read2.
Definition w_read8 : world := after (read_all 1000 1 [3; 2; 2] None) w_read7.
Definition w_read9 : world := after (xact_commit 1000) w_read8.

Lemma pipe_reads_consumed_witness :
  exists h' L', pipe_at_rest 1 3000 4000 [Byte.x68] h' L' 64 w_read9.
Proof.
  assert (read_all 1000 1 [3; 2; 2] None w_read7 =
    Ret [[Byte.x61; Byte.x62; Byte.x63]; [Byte.x64; Byte.x65]; [Byte.x66; Byte.x67]] w_read8) as E by runs_to w_read8.
  destruct (pipe_reads_consumed mem_grants 1000 1 3000 4000 read_stream 0 0 64 [3; 2; 2] None w_read2 w_read7
    [[Byte.x61; Byte.x62; Byte.x63]; [Byte.x64; Byte.x65]; [Byte.x66; Byte.x67]] w_read8 w_read9)
    as [_ H].
  - apply idle_at_idle; [done|run_eq].
  - apply pipe_check_rest. run_eq.
  - runs_to w_read7.
  - simpl. unfold read_ok. repeat case_decide; simpl; lia.
  - simpl. lia.
  - exact E.
  - runs_to w_read9.
  - exact H.
Defined.

(** ** The secondary queue

    A buffer of 8 bytes whose primary queue ends at 5: a read of 3 bytes does not fit
    after it and goes to the secondary queue, and a read of one that follows goes
    to the primary one. The retry finds the one byte before the three. *)

Definition order_bytes : list byte :=
  [Byte.x61; Byte.x62; Byte.x63; Byte.x64; Byte.x65; Byte.x66; Byte.x67; Byte.x68; Byte.x69].
Definition order_reads : list Z := [1; 3; 1].
Definition attempt (ns : list Z) : M world unit :=
  read_all 1000 1 ns None ;;; txc_tx_abort_transaction (A := unit) 1000 TXC_ABORTREASON_USERRETRY.

(** The pipe, after a transaction that read 5 bytes, restarted, and then read 4 of
    them and committed; and the begin of the next. *)
Definition w_order0 : world :=
  put_circular 4000 (CircularBuffer 0 ∅ 8 0 0 0 0 0 0 0 0 TXC_BUFFER_STATE_NON_SPECULATIVE)
    (after (x_write_pipe 0 2 order_bytes None) w_read1).
Definition w_order1 : world := after (attempt [5]) (after (xact_begin 1000) w_order0).
Definition w_order2 : world :=
  after (read_all 1000 1 [4] None) (after (xact_rollback 1000 TXC_ABORTREASON_USERRETRY) w_order1).
Definition w_order3 : world := after (xact_begin 1000) (after (xact_commit 1000) w_order2).
Definition w_order4 : world := after (attempt order_reads) w_order3.
Definition w_order5 : world := after (xact_rollback 1000 TXC_ABORTREASON_USERRETRY) w_order4.

(** A case of a small buffer: a read that follows one served from the secondary queue is served
    from the primary one again, and then an abort does not leave the stream as it
    was: here the first attempt reads successive pieces of the stream, of 1, 3 and
    1 bytes; it aborts, and the first two reads of the retry report success and
    the second gives other bytes than it gave before. *)
Theorem secondary_queue_loses_order :
  exists w w', read_all 1000 1 order_reads None w_order3 = Ret (pieces order_bytes 4 order_reads) w /\
    attempt order_reads w_order3 = Abort TXC_ABORTREASON_USERRETRY w_order4 /\
    xact_rollback 1000 TXC_ABORTREASON_USERRETRY w_order4 = Ret tt w_order5 /\
    read_all 1000 1 [1; 3] None w_order5 =
      Ret [slice order_bytes 4 1; slice order_bytes 8 1 ++ [Byte.x00; Byte.x00]] w' /\
    slice order_bytes 8 1 ++ [Byte.x00; Byte.x00] <> slice order_bytes 5 3.
Proof.
  exists (after (read_all 1000 1 order_reads None) w_order3), (after (read_all 1000 1 [1; 3] None) w_order5).
  split_and!; [by apply after_ret; vm_compute|runs_to w_order4|runs_to w_order5|by apply after_ret; vm_compute|by vm_compute].
Qed.
