(* ===== verification/PipesCut.v ===== *)
(** * A read of more than is queued cuts the pipe off

    The comment at the head of [__txc_read_pipe] says that the case is not handled in
    which more is to be consumed than the buffer has. This file says what the code does
    then, where [Pipes] is about the reads that the buffer or the kernel serves whole. *)

From S2P Require Import Prelude Dll Pool HashTable Buffer Actions World MemFs Tx Sentinel Views Koa XFile XDir XPipe System Frames Undo Pipes.

(** A transaction has read [n] bytes where [L] are queued from [h]. *)
Record over_read (h L n : Z) (b : txc_buffer_circular_t) : Prop := {
  over_state : cb_state b = TXC_BUFFER_STATE_SPECULATIVE;
  over_head : primary_head b = h /\ speculative_primary_head b = h + n;
  over_tail : primary_tail b = h + L /\ speculative_primary_tail b = h + L;
  over_range : 0 <= h /\ 0 < L < n /\ h + n <= cb_size_max b < 2 ^ 32;
}.

(** The head of a buffer that is not in use is past its tail. *)
Record past_tail (x t : Z) (b : txc_buffer_circular_t) : Prop := {
  past_state : cb_state b = TXC_BUFFER_STATE_NON_SPECULATIVE;
  past_head : primary_head b = x;
  past_end : primary_tail b = t;
  past_range : 0 <= t < x /\ x < 2 ^ 32;
}.

Lemma over_take h L n b :
  in_use h L 0 b -> 0 < L < n -> h + n <= cb_size_max b -> exists b',
    circular_spec_take n b = Some (h, b') /\ over_read h L n b' /\ cb_data b' = cb_data b /\
    cb_size_max b' = cb_size_max b /\ queued b' = queued b.
Proof.
  intros [H1 H2 H3 [H4 H4'] H5 H6 H7 H8] HL Hn. rewrite decide_True in H5 by lia.
  unfold circular_spec_take. rewrite bool_decide_eq_true_2, H5, Z.add_0_r by lia. eexists. split; [done|].
  split_and!; [|done..]. split; simpl; try done; [|lia|lia]. rewrite u32_small by lia. lia.
Qed.

Lemma over_commit h L n b : over_read h L n b -> past_tail (h + n) (h + L) (circular_commit b).
Proof.
  intros [H1 [H2 H3] [H4 H5] H6]. unfold circular_commit. rewrite bool_decide_eq_true_2 by lia. by split; simpl; try lia.
Qed.

Lemma past_take x t m b :
  past_tail x t b -> 0 <= m -> x + m < 2 ^ 32 -> exists b', circular_take m b = Some (x, b') /\ past_tail (x + m) t b'.
Proof.
  intros [H1 H2 H3 H4] Hm Hx. unfold circular_take. rewrite bool_decide_eq_true_2, H2 by lia. eexists. split; [done|].
  split; simpl; try done; [|lia]. by rewrite u32_small by lia.
Qed.

(** ** The transaction *)

Section transaction.
Context {PF : Platform} (realloc_grants : forall n, realloc_ok n = true).
Context (txd fd koa buffer : Z) {PR : PipeRead fd} (S : list byte) (h L sz nbyte : Z).
Hypotheses (HL : 0 < L < nbyte) (Hsz : h + nbyte <= sz).

Notation has_read := (has_read CommitSide txd fd koa buffer S h L sz).

(** What the read does: it fails, or reports [nbyte] bytes, of which the first are those
    that were queued. *)
Definition over_step (r : Z * list byte) (w : world) : Prop :=
  r.1 = -1 \/
  (r.1 = nbyte /\ Z.of_nat (length r.2) = nbyte /\ take (Z.to_nat L) r.2 = take (Z.to_nat L) S /\
   pipe_end fd koa buffer w /\ stream fd buffer S sz (over_read h L nbyte) w /\
   exists n res, registered CommitSide txd (w_kernel w) [ActionEntry (x_read_pipe_commit koa buffer) res 0] n w).

Lemma queued_front b K : primary_head b = h -> primary_tail b = h + L -> queued b ++ K = S -> take (Z.to_nat L) S = data_load (cb_data b) h L.
Proof.
  intros H1 H2 <-. unfold queued. rewrite H1, H2. replace (h + L - h) with L by lia.
  pose proof (data_load_length (cb_data b) h L ltac:(lia)). rewrite take_app_le by lia. apply take_ge. lia.
Qed.

Lemma over_speculative n result :
  n + 1 < 2 ^ 29 ->
  m_hoare (has_read n 0) (read_pipe_speculative txd koa fd buffer nbyte result) (fun r => over_step r.1)
    (read_stop CommitSide txd fd koa buffer S h L sz 0).
Proof.
  intros Hn. unfold read_pipe_speculative.
  eapply m_hoare_bind; [by apply (read_pipe_begin_read realloc_grants)|]. intros [|]; simpl; [|by apply m_hoare_ret; left].
  intros w [Hw Hs]. destruct (has_read_use _ _ _ _ _ _ _ _ _ _ _ _ Hw Hs) as (He & res & Hreg).
  destruct Hs as (b & K & Hb & HP & Hz & HK & HS). rewrite (m_bind_run _ _ _ _ _ (circular_get_run _ _ _ Hb)).
  destruct (over_take h L nbyte b HP HL ltac:(lia)) as (b' & Ht & Ho & Hd & Hz' & Hq). rewrite Ht.
  rewrite (m_bind_run _ _ _ _ _ (circular_put_run _ _ _)). unfold read_pipe_copy.
  rewrite (m_bind_run _ _ _ _ _ (circular_get_run buffer b' (put_circular buffer b' w) ltac:(simpl; by rewrite lookup_insert_eq))).
  pose proof Ho as [_ [Hh _] [Htl _] Hr]. unfold circular_load.
  rewrite !bool_decide_eq_true_2 by lia. simpl. right. simpl. split_and!; [done|by apply data_load_length; lia| |done| |].
  - rewrite <- Hq in HS. by rewrite (queued_front b' K Hh Htl HS), data_load_take by lia.
  - exists b', K. simpl. rewrite lookup_insert_eq. split_and!; [done|done|congruence|done|by rewrite Hq].
  - exists (n + 1), res. by apply put_registered.
Qed.

Lemma over_call n result :
  txd <> 0 -> n + 2 < 2 ^ 29 ->
  m_hoare (has_read n 0) (x_read_pipe txd fd nbyte result) over_step (read_stop CommitSide txd fd koa buffer S h L sz 0).
Proof.
  intros H0 Hn. apply (x_read_pipe_around realloc_grants); [done|lia|apply over_speculative; lia|].
  intros r v w [H1|(H1 & H2 & H3 & He & Hs & m & res & Hreg)]; [by left|right]. split_and!; [done..|by destruct result|by destruct result|].
  exists m, res. by apply registered_result.
Qed.

(** The commit puts the head of the buffer past its tail. *)
Definition cut_off (x : Z) (w : world) : Prop :=
  pipe_end fd koa buffer w /\ pview (w_kernel w) = Some (drop (Z.to_nat L) S) /\
  exists b, circulars (w_buffermgr w) !! buffer = Some b /\ past_tail x (h + L) b.

Lemma cut_off_same x w w' : cut_off x w -> same_pipe w w' -> cut_off x w'.
Proof.
  intros (He & Hv & Hb) Hs. split; [by eapply pipe_end_same|]. destruct Hs as (Hk & Hc & _). by rewrite Hk, Hc.
Qed.

Lemma over_committed r w w' : r.1 <> -1 -> over_step r w -> xact_commit txd w = Ret tt w' -> cut_off (h + nbyte) w'.
Proof.
  intros Hr [?|(_ & _ & _ & He & (b & K & Hb & HP & Hz & HK & HS) & n & res & Hreg)] E; [done|].
  set (w1 := put_circular buffer (circular_commit b) w).
  set (w2 := match res with Some p => store_int p 0 w1 | None => w1 end).
  assert (exec_seq run_action store_int [ActionEntry (x_read_pipe_commit koa buffer) res 0] 0 w = Ret 0 w2) as Hrun.
  { simpl. unfold exec_entry. simpl. unfold run_x_read_pipe_commit, m_bind at 1 2 3.
    rewrite (circular_upd_run _ _ _ _ Hb). unfold w2. by destruct res. }
  pose proof (commit_quiet same_pipe txd _ _ _ _ _ _ _ Hreg Hrun E) as Hsame. apply (cut_off_same _ w2); [|done].
  assert (cut_off (h + nbyte) w1) as Hc; [|unfold w2; by destruct res]. split; [done|]. split.
  - simpl. rewrite HK. f_equal. destruct HP as [_ [Hh _] [Ht _] Hrg]. rewrite <- HS. unfold queued. rewrite Hh, Ht.
    replace (h + L - h) with L by lia. pose proof (data_load_length (cb_data b) h L ltac:(lia)).
    by rewrite drop_app_length' by lia.
  - exists (circular_commit b). simpl. rewrite lookup_insert_eq. split; [done|by apply over_commit].
Qed.

(** ** The reads after it *)

(** Outside transactions. *)
Definition plain_mode (t : Z) (w : world) : Prop :=
  exists x, tx_mode t w = Some x /\ x <> TXC_XACTSTATE_TRANSACTIONAL_RETRYABLE.

Lemma fd_lock_txmgr : m_pres (fun w w' => w_txmgr w' = w_txmgr w) (txc_koa_lock_fd fd) /\
  m_pres (fun w w' => w_txmgr w' = w_txmgr w) (txc_koa_unlock_fd fd).
Proof.
  assert (forall f, m_pres (fun w w' => w_txmgr w' = w_txmgr w) (fd_upd fd f)) as Hu by (intros f; by apply fd_upd_pres).
  split; [|apply Hu]. intros w. unfold txc_koa_lock_fd, fd_get, m_bind, m_get, m_deref. destruct (fd_map (w_koamgr w) !! fd) as [e|]; [|done].
  simpl. destruct (fd_mutex e); [done|]. apply Hu.
Qed.

(** The state of the pipe, for a thread outside transactions. *)
Definition cut_for (t x : Z) (w : world) : Prop := cut_off x w /\ plain_mode t w.

Lemma cut_for_quiet {A} (m : M world A) t x :
  m_pres same_pipe m -> m_pres (fun w w' => w_txmgr w' = w_txmgr w) m ->
  m_hoare (cut_for t x) m (fun _ => cut_for t x) (fun _ => True).
Proof.
  intros Hm Ht w [Hc Hp]. specialize (Hm w). specialize (Ht w). destruct (m w) as [a w'| | | | |]; try done.
  split; [by eapply cut_off_same|]. destruct Hp as (y & Hy & Hne). exists y. split; [|done]. unfold tx_mode in *. by rewrite Ht.
Qed.

Lemma plain_read_cut t x m :
  0 <= m -> x + m < 2 ^ 32 ->
  m_hoare (cut_for t x) (read_pipe_plain fd buffer m) (fun _ => cut_for t (x + m)) (fun _ => True).
Proof.
  intros Hm Hx w [(He & Hv & b & Hb & HP) Hp]. unfold read_pipe_plain. rewrite (m_bind_run _ _ _ _ _ (circular_get_run _ _ _ Hb)).
  destruct (past_take x (h + L) m b HP Hm Hx) as (b' & -> & HP').
  rewrite (m_bind_run _ _ _ _ _ (circular_put_run _ _ _)). unfold read_pipe_copy.
  rewrite (m_bind_run _ _ _ _ _ (circular_get_run buffer b' (put_circular buffer b' w) ltac:(simpl; by rewrite lookup_insert_eq))).
  unfold m_bind, m_deref, m_ret. destruct (circular_load x m b'); [|done]. split; [|done].
  split; [done|]. split; [done|]. exists b'. simpl. by rewrite lookup_insert_eq.
Qed.

Lemma x_read_pipe_cut t x m result :
  0 <= m -> x + m < 2 ^ 32 ->
  m_hoare (cut_for t x) (x_read_pipe t fd m result) (fun _ => cut_for t (x + m)) (fun _ => True).
Proof.
  intros Hm Hx w Hw. destruct fd_lock_txmgr as [Hlk Hul]. pose proof Hw as [_ (y & Hy & Hne)]. unfold x_read_pipe.
  rewrite (m_bind_run _ _ _ _ _ (get_xactstate_run _ _ _ Hy)).
  assert (m_hoare (cut_for t x) (__txc_read_pipe t false fd m result) (fun _ => cut_for t (x + m)) (fun _ => True)) as Hc;
    [|by destruct y; [..|done|]; apply Hc].
  clear w Hw y Hy Hne. unfold __txc_read_pipe, finish. eapply (m_hoare_bind _ _ _ (fun _ => cut_for t (x + m))).
  - eapply m_hoare_bind; [apply cut_for_quiet; [m_pres_auto|exact Hlk]|intros []].
    intros w Hw. destruct (pipe_end_lookup _ _ _ _ (proj1 (proj1 Hw))) as [E1 E2].
    rewrite (m_bind_run _ _ _ _ _ E1). cbv iota. rewrite bool_decide_eq_false_2 by done.
    rewrite (m_bind_run _ _ _ _ _ E2). simpl. clear E1 E2. revert w Hw.
    eapply m_hoare_bind; [apply cut_for_quiet; [m_pres_auto|exact Hul]|intros []]. by apply plain_read_cut.
  - intros [r e]. intros w Hw. by destruct result.
Qed.

Lemma read_all_cut t ms result x :
  Forall (fun m => 0 <= m) ms -> x + foldr Z.add 0 ms < 2 ^ 32 ->
  m_hoare (cut_for t x) (read_all t fd ms result) (fun _ w => exists x', cut_for t x' w) (fun _ => True).
Proof.
  revert x. induction ms as [|m ms IH]; intros x Hp Hx; simpl in *; [apply m_hoare_ret; eauto|].
  inversion Hp as [|? ? Hm Hms]; subst. assert (0 <= foldr Z.add 0 ms) as Hs by (clear -Hms; induction Hms; simpl; lia).
  eapply m_hoare_bind; [apply (x_read_pipe_cut t x m); lia|]. intros [ret bytes]. case_bool_decide; [apply m_hoare_ret; eauto|].
  eapply m_hoare_bind; [apply (IH (x + m)); [done|lia]|intros got]. by apply m_hoare_ret.
Qed.
End transaction.


(** *** A concrete run

    A transaction that reads one byte of the pipe of [Pipes] and is restarted, a read of
    three where that byte is queued, the commit, and a read of two outside. *)
Definition w_cut1 : world := after (read_all 1000 1 [1] None ;;; txc_tx_abort_transaction (A := unit) 1000 TXC_ABORTREASON_USERABORT) w_read3.
Definition w_cut2 : world := after (xact_rollback 1000 TXC_ABORTREASON_USERABORT) w_cut1.
Definition w_cut3 : world := after (xact_begin 1000) w_cut2.
Definition w_cut4 : world := after (x_read_pipe 1000 1 3 None) w_cut3.
Definition w_cut5 : world := after (xact_commit 1000) w_cut4.
Definition w_cut6 : world := after (read_all 1000 1 [2] None) w_cut5.

