(* ===== verification/KoaFrames.v ===== *)
(** * What the operations on KOAs leave alone

    The operations of [core/koa.c] change the managers of KOAs, sentinels and
    buffers, and neither the kernel, except for [stat], nor the transactions;
    and they do not abort. *)

From S2P Require Import Prelude Dll Pool HashTable Buffer Actions World Tx Sentinel Views Koa XFile XDir XPipe System Frames.

Section frame.
Context {PF : Platform}.

(** A relation that does not see these managers. *)
Class KoaFrame (R : world -> world -> Prop) : Prop := {
  koa_frame_preorder :: PreOrder R;
  koa_frame_koamgr w k : R w (set_koamgr k w);
  koa_frame_sentinelmgr w s : R w (set_sentinelmgr s w);
  koa_frame_buffermgr w b : R w (set_buffermgr b w);
}.

#[global] Instance same_kernel_koa_frame : KoaFrame same_kernel.
Proof. split; [typeclasses eauto|done..]. Qed.

#[global] Instance same_side_koa_frame sd txd : KoaFrame (same_side sd txd).
Proof. split; [typeclasses eauto|done..]. Qed.

Context (R : world -> world -> Prop) {HR : KoaFrame R}.

Lemma koa_upd_frame a f : m_pres R (koa_upd a f).
Proof. apply koa_upd_pres. intros w x. apply koa_frame_koamgr. Qed.

Lemma fd_upd_frame fd f : m_pres R (fd_upd fd f).
Proof. apply fd_upd_pres. intros w x. apply koa_frame_koamgr. Qed.

Lemma sentinel_upd_frame a f : m_pres R (sentinel_upd a f).
Proof. apply sentinel_upd_pres. intros w s. apply koa_frame_sentinelmgr. Qed.

Lemma in_pool_sentinel_frame {A} (m : M txc_pool_t A) : m_pres R (in_pool_sentinel m).
Proof. apply zoom_pres. intros t w. apply koa_frame_sentinelmgr. Qed.

Lemma in_pool_koa_frame {A} (m : M txc_pool_t A) : m_pres R (in_pool_koa m).
Proof. apply zoom_pres. intros t w. apply koa_frame_koamgr. Qed.

Lemma in_alias_cache_frame {A} (m : M txc_hash_table_t A) : m_pres R (in_alias_cache m).
Proof. apply zoom_pres. intros t w. apply koa_frame_koamgr. Qed.

Lemma in_buffermgr_frame {A} (m : M txc_buffermgr_t A) : m_pres R (in_buffermgr m).
Proof. apply zoom_pres. intros t w. apply koa_frame_buffermgr. Qed.
End frame.

#[export] Hint Extern 1 (m_pres _ (koa_upd _ _)) => apply koa_upd_frame; typeclasses eauto : xcalls.
#[export] Hint Extern 1 (m_pres _ (fd_upd _ _)) => apply fd_upd_frame; typeclasses eauto : xcalls.
#[export] Hint Extern 1 (m_pres _ (sentinel_upd _ _)) => apply sentinel_upd_frame; typeclasses eauto : xcalls.
#[export] Hint Extern 1 (m_pres _ (in_pool_sentinel _)) => apply in_pool_sentinel_frame; typeclasses eauto : xcalls.
#[export] Hint Extern 1 (m_pres _ (in_pool_koa _)) => apply in_pool_koa_frame; typeclasses eauto : xcalls.
#[export] Hint Extern 1 (m_pres _ (in_alias_cache _)) => apply in_alias_cache_frame; typeclasses eauto : xcalls.
#[export] Hint Extern 1 (m_pres _ (in_buffermgr _)) => apply in_buffermgr_frame; typeclasses eauto : xcalls.

Section koa_ops.
Context {PF : Platform} (R : world -> world -> Prop) {HR : KoaFrame R}.

Lemma lock_alias_frame : m_pres R txc_koa_lock_alias_cache.
Proof.
  unfold txc_koa_lock_alias_cache. intros w. unfold m_bind, m_get. destruct (alias_mutex (w_koamgr w)); [done|].
  apply koa_frame_koamgr.
Qed.

Lemma unlock_alias_frame : m_pres R txc_koa_unlock_alias_cache.
Proof. apply m_pres_modify. intros w. apply koa_frame_koamgr. Qed.

Lemma koa_lock_fd_frame fd : m_pres R (txc_koa_lock_fd fd) /\ m_pres R (txc_koa_unlock_fd fd).
Proof. unfold txc_koa_lock_fd, txc_koa_unlock_fd. split; m_pres_auto. Qed.

Lemma koa_lock_fds_frame a : m_pres R (txc_koa_lock_fds_refby_koa a) /\ m_pres R (txc_koa_unlock_fds_refby_koa a).
Proof.
  pose proof koa_lock_fd_frame as H. unfold txc_koa_lock_fds_refby_koa, txc_koa_unlock_fds_refby_koa.
  split; m_pres_auto; apply H.
Qed.

Lemma alias_lookup_frame i : m_pres R (txc_koa_alias_cache_lookup_inode i).
Proof. unfold txc_koa_alias_cache_lookup_inode. m_pres_auto. Qed.

Lemma koa_create_frame t a : m_pres R (txc_koa_create t a).
Proof. unfold txc_koa_create, txc_sentinel_create. m_pres_auto. Qed.

Lemma koa_destroy_frame a : m_pres R (txc_koa_destroy a).
Proof. unfold txc_koa_destroy, txc_sentinel_detach, synch_lock, synch_unlock, sentinel_detach, sentinel_destroy. m_pres_auto. Qed.

Lemma koa_incref_frame a : m_pres R (koa_incref a).
Proof. unfold koa_incref, alias_cache_insert. m_pres_auto. Qed.

Lemma koa_decref_frame a : m_pres R (koa_decref a).
Proof. pose proof koa_destroy_frame. unfold koa_decref, alias_cache_remove. m_pres_auto. Qed.

Lemma koa_attach_frame a : m_pres R (txc_koa_attach a).
Proof. pose proof koa_incref_frame. unfold txc_koa_attach, koa_lock, koa_unlock. m_pres_auto. Qed.

Lemma koa_detach_frame a : m_pres R (txc_koa_detach a).
Proof. pose proof koa_decref_frame. unfold txc_koa_detach, koa_lock, koa_unlock. m_pres_auto. Qed.

Lemma attach_fd_frame a fd b : m_pres R (txc_koa_attach_fd a fd b).
Proof.
  pose proof koa_incref_frame. destruct (koa_lock_fd_frame fd). unfold txc_koa_attach_fd. m_pres_auto.
Qed.

Lemma detach_fd_frame a fd b : m_pres R (txc_koa_detach_fd a fd b).
Proof.
  pose proof koa_decref_frame. destruct (koa_lock_fd_frame fd). unfold txc_koa_detach_fd. m_pres_auto.
Qed.

Lemma get_sentinel_frame a : m_pres R (txc_koa_get_sentinel a).
Proof. unfold txc_koa_get_sentinel. m_pres_auto. Qed.
End koa_ops.

#[export] Hint Extern 1 (m_pres _ txc_koa_lock_alias_cache) => apply lock_alias_frame; typeclasses eauto : xcalls.
#[export] Hint Extern 1 (m_pres _ txc_koa_unlock_alias_cache) => apply unlock_alias_frame; typeclasses eauto : xcalls.
#[export] Hint Extern 1 (m_pres _ (txc_koa_lock_fd _)) => apply koa_lock_fd_frame; typeclasses eauto : xcalls.
#[export] Hint Extern 1 (m_pres _ (txc_koa_unlock_fd _)) => apply koa_lock_fd_frame; typeclasses eauto : xcalls.
#[export] Hint Extern 1 (m_pres _ (txc_koa_lock_fds_refby_koa _)) => apply koa_lock_fds_frame; typeclasses eauto : xcalls.
#[export] Hint Extern 1 (m_pres _ (txc_koa_unlock_fds_refby_koa _)) => apply koa_lock_fds_frame; typeclasses eauto : xcalls.
#[export] Hint Extern 1 (m_pres _ (txc_koa_alias_cache_lookup_inode _)) => apply alias_lookup_frame; typeclasses eauto : xcalls.
#[export] Hint Extern 1 (m_pres _ (txc_koa_create _ _)) => apply koa_create_frame; typeclasses eauto : xcalls.
#[export] Hint Extern 1 (m_pres _ (txc_koa_attach _)) => apply koa_attach_frame; typeclasses eauto : xcalls.
#[export] Hint Extern 1 (m_pres _ (txc_koa_detach _)) => apply koa_detach_frame; typeclasses eauto : xcalls.
#[export] Hint Extern 1 (m_pres _ (txc_koa_attach_fd _ _ _)) => apply attach_fd_frame; typeclasses eauto : xcalls.
#[export] Hint Extern 1 (m_pres _ (txc_koa_detach_fd _ _ _)) => apply detach_fd_frame; typeclasses eauto : xcalls.
#[export] Hint Extern 1 (m_pres _ (txc_koa_get_sentinel _)) => apply get_sentinel_frame; typeclasses eauto : xcalls.

(** ** Nothing here aborts *)

Lemma obj_noabort : (forall i f, m_noabort (obj_upd i f)) /\ (forall o f, m_noabort (obj_upd_opt o f)).
Proof. unfold obj_upd_opt, obj_upd, obj_get. split; intros; m_noabort_auto. Qed.

Lemma pool_noabort : (forall b, m_noabort (txc_pool_object_alloc b)) /\ (forall o b, m_noabort (txc_pool_object_free o b)).
Proof.
  destruct obj_noabort. unfold txc_pool_object_alloc, txc_pool_object_free, txc_pool_lock, txc_pool_unlock.
  split; intros; m_noabort_auto; unfold obj_get; m_noabort_auto.
Qed.

Lemma tbl_noabort : (forall k, m_noabort (tbl_index k)) /\ (forall i, m_noabort (tbl_lock i)) /\
  (forall i, m_noabort (tbl_unlock i)) /\ (forall i, m_noabort (tbl_get i)) /\ (forall i f, m_noabort (tbl_upd i f)).
Proof. unfold tbl_index, tbl_lock, tbl_unlock, tbl_upd, tbl_get. split_and!; intros; m_noabort_auto. Qed.

Lemma find_bucket_noabort fuel k o : m_noabort (find_bucket fuel k o).
Proof.
  revert o. induction fuel as [|fuel IH]; intros [x|]; cbn [find_bucket]; unfold b_get; m_noabort_auto.
Qed.

Lemma bucket_list_noabort : (forall h b, m_noabort (bucket_list_add h b)) /\ (forall h b, m_noabort (bucket_list_remove h b)).
Proof. unfold bucket_list_add, bucket_list_remove, b_upd, b_get. split; intros; m_noabort_auto. Qed.

Lemma search_noabort k i : m_noabort (search k i).
Proof. pose proof find_bucket_noabort. destruct tbl_noabort as (? & ? & ? & ? & ?). unfold search, in_heap. m_noabort_auto. Qed.

Lemma hash_noabort : (forall ok k v, m_noabort (txc_hash_table_add ok k v)) /\
  (forall k, m_noabort (txc_hash_table_lookup k)) /\ (forall k, m_noabort (txc_hash_table_remove k)).
Proof.
  destruct tbl_noabort as (? & ? & ? & ? & ?). destruct bucket_list_noabort. pose proof search_noabort.
  unfold txc_hash_table_add, txc_hash_table_lookup, txc_hash_table_remove, take_bucket, push_bucket, in_heap, b_upd,
    b_get, b_malloc. split_and!; intros; m_noabort_auto.
Qed.

Lemma circular_noabort : m_noabort txc_buffer_circular_create /\ (forall a, m_noabort (txc_buffer_circular_destroy a)).
Proof.
  destruct pool_noabort. unfold txc_buffer_circular_create, txc_buffer_circular_destroy, in_pool_circular, circular_get,
    circular_put. split; intros; m_noabort_auto.
Qed.

Section noabort.
Context {PF : Platform}.

Lemma access_noabort : (forall a, m_noabort (koa_get a)) /\ (forall a f, m_noabort (koa_upd a f)) /\
  (forall a, m_noabort (fd_get a)) /\ (forall a f, m_noabort (fd_upd a f)) /\
  (forall a, m_noabort (sentinel_get a)) /\ (forall a f, m_noabort (sentinel_upd a f)) /\
  (forall a, m_noabort (txd_get a)) /\ (forall a f, m_noabort (txd_upd a f)).
Proof.
  unfold koa_upd, koa_get, fd_upd, fd_get, sentinel_upd, sentinel_get, txd_upd, txd_get. split_and!; intros; m_noabort_auto.
Qed.

Lemma libc_noabort {A} (c : syscall kstate A) : m_noabort (libc c).
Proof. intros w. unfold libc. by destruct (c (w_kernel w)) as [[? ?] ?]. Qed.

Ltac use_accesses := destruct access_noabort as (? & ? & ? & ? & ? & ? & ? & ?).

Lemma koa_lock_noabort : (forall fd, m_noabort (txc_koa_lock_fd fd)) /\ (forall fd, m_noabort (txc_koa_unlock_fd fd)) /\
  m_noabort txc_koa_lock_alias_cache /\ m_noabort txc_koa_unlock_alias_cache /\
  (forall a, m_noabort (txc_koa_lock_fds_refby_koa a)) /\ (forall a, m_noabort (txc_koa_unlock_fds_refby_koa a)).
Proof.
  use_accesses. unfold txc_koa_lock_fds_refby_koa, txc_koa_unlock_fds_refby_koa, txc_koa_lock_fd, txc_koa_unlock_fd,
    txc_koa_lock_alias_cache, txc_koa_unlock_alias_cache. split_and!; intros; m_noabort_auto.
Qed.

Lemma koa_ref_noabort : (forall a, m_noabort (txc_koa_destroy a)) /\ (forall a, m_noabort (koa_incref a)) /\
  (forall t a, m_noabort (txc_koa_create t a)) /\ (forall i, m_noabort (txc_koa_alias_cache_lookup_inode i)) /\
  (forall a, m_noabort (txc_koa_get_sentinel a)).
Proof.
  use_accesses. destruct pool_noabort. destruct hash_noabort as (? & ? & ?). destruct circular_noabort.
  unfold txc_koa_destroy, koa_incref, txc_koa_create, txc_koa_alias_cache_lookup_inode, txc_koa_get_sentinel,
    txc_sentinel_detach, sentinel_detach, sentinel_destroy, synch_lock, synch_unlock, alias_cache_insert, in_alias_cache,
    in_pool_sentinel, in_pool_koa, in_buffermgr, txc_sentinel_create, in_pool_sentinel.
  split_and!; intros; m_noabort_auto.
Qed.

Lemma koa_decref_noabort a : m_noabort (koa_decref a).
Proof.
  use_accesses. destruct koa_ref_noabort as (? & ? & ? & ? & ?). destruct hash_noabort as (? & ? & ?).
  unfold koa_decref, alias_cache_remove, in_alias_cache. m_noabort_auto.
Qed.

Lemma koa_attach_noabort : (forall a, m_noabort (txc_koa_attach a)) /\ (forall a, m_noabort (txc_koa_detach a)) /\
  (forall a fd b, m_noabort (txc_koa_attach_fd a fd b)) /\ (forall a fd b, m_noabort (txc_koa_detach_fd a fd b)).
Proof.
  use_accesses. destruct koa_ref_noabort as (? & ? & ? & ? & ?). destruct koa_lock_noabort as (? & ? & ? & ? & ? & ?).
  pose proof koa_decref_noabort.
  unfold txc_koa_attach, txc_koa_detach, txc_koa_attach_fd, txc_koa_detach_fd, koa_lock, koa_unlock.
  split_and!; intros; m_noabort_auto.
Qed.

Lemma register_noabort : (forall a f r o, m_noabort (txc_tx_register_undo_action a f r o)) /\
  (forall a f r o, m_noabort (txc_tx_register_commit_action a f r o)).
Proof.
  use_accesses. unfold txc_tx_register_undo_action, txc_tx_register_commit_action, register_with,
    tmsystem_register_generic_undo_action, tmsystem_register_generic_commit_action. split; intros; m_noabort_auto.
Qed.

Lemma linear_malloc_noabort a n : m_noabort (tx_linear_malloc a n).
Proof. use_accesses. unfold tx_linear_malloc, in_buffermgr, linear_get, linear_put. m_noabort_auto. Qed.

Lemma get_xactstate_noabort a : m_noabort (txc_tx_get_xactstate a).
Proof. use_accesses. unfold txc_tx_get_xactstate, tmsystem_get_xactstate. m_noabort_auto. Qed.

Lemma spin_trylock_noabort fuel n s : m_noabort (spin_trylock fuel n s).
Proof.
  use_accesses. revert n. induction fuel as [|fuel IH]; intros n; cbn [spin_trylock]; [done|].
  unfold sentinel_trylock. m_noabort_auto.
Qed.

(** A busy sentinel is a result of [txc_sentinel_tryacquire]; the caller aborts. *)
Lemma tryacquire_noabort a s flags : m_noabort (txc_sentinel_tryacquire a s flags).
Proof.
  use_accesses. destruct register_noabort. pose proof spin_trylock_noabort. pose proof get_xactstate_noabort.
  unfold txc_sentinel_tryacquire, register_sentinelmgr_undo_action, register_sentinelmgr_commit_action, attach_synch,
    synch_lock, synch_unlock, sentinel_attach, tx_enlist. m_noabort_auto.
Qed.

Lemma store_result_noabort r v : m_noabort (store_result r v).
Proof. by destruct r. Qed.
End noabort.

#[export] Hint Extern 1 (m_noabort (koa_get _)) => apply access_noabort : xcalls.
#[export] Hint Extern 1 (m_noabort (libc _)) => apply libc_noabort : xcalls.
#[export] Hint Extern 1 (m_noabort (txc_koa_lock_fd _)) => apply koa_lock_noabort : xcalls.
#[export] Hint Extern 1 (m_noabort (txc_koa_unlock_fd _)) => apply koa_lock_noabort : xcalls.
#[export] Hint Extern 1 (m_noabort txc_koa_lock_alias_cache) => apply koa_lock_noabort : xcalls.
#[export] Hint Extern 1 (m_noabort txc_koa_unlock_alias_cache) => apply koa_lock_noabort : xcalls.
#[export] Hint Extern 1 (m_noabort (txc_koa_lock_fds_refby_koa _)) => apply koa_lock_noabort : xcalls.
#[export] Hint Extern 1 (m_noabort (txc_koa_unlock_fds_refby_koa _)) => apply koa_lock_noabort : xcalls.
#[export] Hint Extern 1 (m_noabort (txc_koa_create _ _)) => apply koa_ref_noabort : xcalls.
#[export] Hint Extern 1 (m_noabort (txc_koa_alias_cache_lookup_inode _)) => apply koa_ref_noabort : xcalls.
#[export] Hint Extern 1 (m_noabort (txc_koa_get_sentinel _)) => apply koa_ref_noabort : xcalls.
#[export] Hint Extern 1 (m_noabort (txc_koa_attach _)) => apply koa_attach_noabort : xcalls.
#[export] Hint Extern 1 (m_noabort (txc_koa_detach _)) => apply koa_attach_noabort : xcalls.
#[export] Hint Extern 1 (m_noabort (txc_koa_attach_fd _ _ _)) => apply koa_attach_noabort : xcalls.
#[export] Hint Extern 1 (m_noabort (txc_koa_detach_fd _ _ _)) => apply koa_attach_noabort : xcalls.
#[export] Hint Extern 1 (m_noabort (txc_tx_register_undo_action _ _ _ _)) => apply register_noabort : xcalls.
#[export] Hint Extern 1 (m_noabort (txc_tx_register_commit_action _ _ _ _)) => apply register_noabort : xcalls.
#[export] Hint Resolve linear_malloc_noabort get_xactstate_noabort tryacquire_noabort store_result_noabort : xcalls.
