(* ===== verification/Outside.v ===== *)
(** * Programs outside transactions

    Outside a retryable transaction the calls keep the library's records of the open
    files and otherwise leave the work to the kernel. This file says so for whole programs
    of calls: their results and what they do to the kernel are those of the system calls
    behind them. *)

From S2P Require Import Prelude Dll Pool HashTable Buffer Actions World MemFs Tx Sentinel Views Koa XFile XDir XPipe XSock System Modes Frames KoaFrames Undo.

(** The calls. Left out are [x_dup], which the library refuses for descriptors it does not
    know, and [x_read_pipe] and [x_recvmsg], which serve what transactions left in their
    buffers. *)
Inductive call :=
  | CRead (fd nbyte : Z)
  | CWriteSeq (fd : Z) (buf : list byte)
  | CWriteSave (fd : Z) (buf : list byte)
  | CWriteIgnore (fd : Z) (buf : list byte)
  | CLseek (fd offset whence : Z)
  | CFsync (fd : Z)
  | CFdatasync (fd : Z)
  | CWritePipe (fd : Z) (buf : list byte)
  | CSendmsg (fd : Z) (m : msghdr) (flags : Z)
  | CUnlink (path : string)
  | CRename (oldpath newpath : string)
  | COpen (path : string) (flags mode : Z)
  | CCreate (path : string) (mode : Z)
  | CClose (fd : Z)
  | CPipe
  | CSocket (domain type protocol : Z).

(** What they return: a number, with the bytes read or the two descriptors of a pipe. *)
Inductive answer :=
  | ANum (ret : Z)
  | ABytes (ret : Z) (bytes : list byte)
  | AFds (ret : Z) (fds : Z * Z).

Section outside.
Context {PF : Platform}.

Definition answers {A} (f : A -> answer) (m : M world A) : M world answer := do a <- m ;; m_ret (f a).
Definition bytes_answer (r : Z * list byte) : answer := ABytes r.1 r.2.
Definition fds_answer (r : Z * (Z * Z)) : answer := AFds r.1 r.2.

Definition run_outside (txd : Z) (c : call) (result : option Z) : M world answer :=
  match c with
  | CRead fd nbyte => answers bytes_answer (x_read txd fd nbyte result)
  | CWriteSeq fd buf => answers ANum (x_write_seq txd fd buf result)
  | CWriteSave fd buf => answers ANum (x_write_ovr_save txd fd buf result)
  | CWriteIgnore fd buf => answers ANum (x_write_ovr_ignore txd fd buf result)
  | CLseek fd offset whence => answers ANum (x_lseek txd fd offset whence result)
  | CFsync fd => answers ANum (x_fsync txd fd result)
  | CFdatasync fd => answers ANum (x_fdatasync txd fd result)
  | CWritePipe fd buf => answers ANum (x_write_pipe txd fd buf result)
  | CSendmsg fd m flags => answers ANum (x_sendmsg txd fd m flags result)
  | CUnlink path => answers ANum (x_unlink txd path result)
  | CRename oldpath newpath => answers ANum (x_rename txd oldpath newpath result)
  | COpen path flags mode => answers ANum (x_open txd path flags mode result)
  | CCreate path mode => answers ANum (x_create txd path mode result)
  | CClose fd => answers ANum (x_close txd fd result)
  | CPipe => answers fds_answer (x_pipe txd result)
  | CSocket domain type protocol => answers ANum (x_socket txd domain type protocol result)
  end.

Fixpoint run_program (txd : Z) (cs : list (call * option Z)) : M world (list answer) :=
  match cs with
  | [] => m_ret []
  | (c, result) :: cs' => do a <- run_outside txd c result ;; do rest <- run_program txd cs' ;; m_ret (a :: rest)
  end.

(** ** The same with system calls alone *)

Definition kernel_answer {A} (f : A -> answer) (r : A * kstate) : answer * kstate := let '(a, k) := r in (f a, k).

(** A path that was opened is looked at with [stat]. *)
Definition then_stat (path : string) (r : Z * kstate) : Z * kstate :=
  let '(fd, k) := r in (fd, if neg fd then k else (call_result (sys_stat path) k).2).

Definition kernel_call (c : call) (k : kstate) : answer * kstate :=
  match c with
  | CRead fd nbyte => kernel_answer bytes_answer (call_result (sys_read fd nbyte) k)
  | CWriteSeq fd buf | CWriteSave fd buf | CWriteIgnore fd buf | CWritePipe fd buf =>
      kernel_answer ANum (call_result (sys_write fd buf) k)
  | CLseek fd offset whence => kernel_answer ANum (call_result (sys_lseek fd offset whence) k)
  | CFsync fd => kernel_answer ANum (call_result (sys_fsync fd) k)
  | CFdatasync fd => kernel_answer ANum (call_result (sys_fdatasync fd) k)
  | CSendmsg fd m flags => kernel_answer ANum (call_result (sys_sendmsg fd m flags) k)
  (* the calls return 0 whatever the system call returns *)
  | CUnlink path => (ANum 0, (call_result (sys_unlink path) k).2)
  | CRename oldpath newpath => (ANum 0, (call_result (sys_rename oldpath newpath) k).2)
  | COpen path flags mode => kernel_answer ANum (then_stat path (call_result (sys_open path (Z.lor O_RDWR flags) mode) k))
  | CCreate path mode => kernel_answer ANum (then_stat path (call_result (sys_open path creation_flags mode) k))
  | CClose fd => kernel_answer (fun ret => ANum (if neg ret then ret else 0)) (call_result (sys_close fd) k)
  | CPipe => kernel_answer (fun r => AFds (if neg r.1 then r.1 else 0) r.2) (call_result sys_pipe k)
  (* for [SOCK_STREAM] there is no system call *)
  | CSocket domain type protocol =>
      if bool_decide (type = SOCK_STREAM) then (ANum (-1), k)
      else kernel_answer ANum (call_result (sys_socket domain type protocol) k)
  end.

Fixpoint kernel_program (cs : list (call * option Z)) (k : kstate) : list answer * kstate :=
  match cs with
  | [] => ([], k)
  | (c, _) :: cs' =>
      let '(a, k1) := kernel_call c k in
      let '(rest, k2) := kernel_program cs' k1 in (a :: rest, k2)
  end.

(** ** One call *)

(** What the library does for itself changes neither the kernel nor the transactions. *)
Definition own_work (w w' : world) : Prop := w_kernel w' = w_kernel w /\ w_txmgr w' = w_txmgr w.

#[global] Instance own_work_frame : KoaFrame own_work.
Proof.
  split; [|done..]. split; [done|]. intros w1 w2 w3 [H1 H2] [H3 H4]. split; congruence.
Qed.

Lemma store_result_own result v : m_pres own_work (store_result result v).
Proof. by destruct result. Qed.

Lemma get_errno_own : m_pres own_work get_errno.
Proof. done. Qed.

Lemma fd2koa_own fd : m_pres own_work (txc_koa_lookup_fd2koa fd).
Proof. unfold txc_koa_lookup_fd2koa, fd_get. m_pres_auto. Qed.

(** A computation that makes the system calls of [f], up to what [p] does not see of the
    result (the value of [errno]). *)
Definition makes {A B} (p : A -> B) (m : M world A) (f : kstate -> B * kstate) : Prop :=
  forall w a w', m w = Ret a w' -> f (w_kernel w) = (p a, w_kernel w') /\ w_txmgr w' = w_txmgr w.

Lemma libc_makes {A} (c : syscall kstate A) : makes id (libc c) (call_result c).
Proof. intros w a w'. unfold libc, call_result. destruct (c (w_kernel w)) as [[a' e] k]. by intros [= -> <-]. Qed.

Lemma makes_bind {A B C} (p : B -> C) (m : M world A) f (g : A -> M world B) h :
  makes id m f -> (forall a, makes p (g a) (h a)) -> makes p (m_bind m g) (fun k => let '(a, k') := f k in h a k').
Proof.
  intros Hm Hg w b w' E. m_inv E. destruct (Hm _ _ _ Hm0) as [E1 T1]. destruct (Hg _ _ _ _ E) as [E2 T2]. rewrite E1.
  split; [done|congruence].
Qed.

(** Work of its own first. *)
Lemma makes_own {A B C} (p : B -> C) (m : M world A) (g : A -> M world B) h :
  m_pres own_work m -> (forall a, makes p (g a) h) -> makes p (m_bind m g) h.
Proof.
  intros Hm Hg w b w' E. m_inv E. destruct (m_pres_run _ _ _ _ _ Hm Hm0) as [H1 H2]. destruct (Hg _ _ _ _ E) as [E2 T2].
  rewrite H1 in E2. split; [done|congruence].
Qed.

(** Nothing but work of its own, with a known result. *)
Lemma makes_none {A B} (p : A -> B) (m : M world A) b :
  m_pres own_work m -> (forall w a w', m w = Ret a w' -> p a = b) -> makes p m (fun k => (b, k)).
Proof. intros Hm Hb w a w' E. destruct (m_pres_run _ _ _ _ _ Hm E) as [H1 H2]. by rewrite (Hb _ _ _ E), H1. Qed.

Lemma makes_ret {A B} (p : A -> B) a : makes p (m_ret a) (fun k => (p a, k)).
Proof. by intros w b w' [= <- <-]. Qed.

Lemma makes_ext {A B} (p : A -> B) (m : M world A) f g : (forall k, f k = g k) -> makes p m f -> makes p m g.
Proof. intros H Hm w a w' E. rewrite <- H. by apply Hm. Qed.

(** [*result] is stored. *)
Lemma finish_makes {A} result (m : M world (A * Z)) f : makes fst m f -> makes id (finish result m) f.
Proof.
  intros Hm w a w' E. unfold finish in E. m_inv E. destruct x as [ret v]. cbv beta iota in E. m_inv E. injection E as <- <-.
  destruct (Hm _ _ _ Hm0) as [E1 T1]. destruct (m_pres_run _ _ _ _ _ (store_result_own result v) Hm1) as [H1 H2].
  rewrite H1, H2. done.
Qed.

Lemma plain_makes {A} (failed : A -> bool) (c : syscall kstate A) : makes fst (plain failed (libc c)) (call_result c).
Proof.
  eapply makes_ext; [|unfold plain; apply makes_bind; [apply libc_makes|intros a]].
  2: { apply (makes_none _ _ a); [destruct (failed a); [apply m_pres_bind; [typeclasses eauto|apply get_errno_own|]; intros ?|]; m_pres_auto|].
       intros w b w' E. destruct (failed a); [m_inv E|]; by injection E as <- <-. }
  intros k. cbv beta. by destruct (call_result c k).
Qed.

Lemma mode_makes {A B} (p : A -> B) txd (f : txc_tx_xactstate_t -> M world A) h w x a w' :
  (forall y, y <> TXC_XACTSTATE_TRANSACTIONAL_RETRYABLE -> makes p (f y) h) ->
  tx_mode txd w = Some x -> x <> TXC_XACTSTATE_TRANSACTIONAL_RETRYABLE ->
  (do y <- txc_tx_get_xactstate txd ;; f y) w = Ret a w' -> h (w_kernel w) = (p a, w_kernel w') /\ w_txmgr w' = w_txmgr w.
Proof. intros Hf Hx Hne E. rewrite (m_bind_run _ _ _ _ _ (get_xactstate_run _ _ _ Hx)) in E. by apply (Hf x Hne). Qed.

Ltac own := repeat first [m_pres_step | apply store_result_own | apply get_errno_own | apply fd2koa_own | solve [eauto 2 with xcalls]].

(** A failed call reports [errno]. *)
Lemma failed_makes {A} (m : M world unit) (ret : A) :
  m_pres own_work m -> makes fst (m ;;; do e <- get_errno ;; m_ret (ret, e)) (fun k => (ret, k)).
Proof.
  intros Hm. apply makes_none; [own; exact Hm|]. intros w b w' E. m_inv E. m_inv E. by injection E as <- <-.
Qed.

(** A call that ends well with [ret]. *)
Ltac ends := let w := fresh in let b := fresh in let w' := fresh in let E := fresh in
  intros w b w' E; repeat m_inv E; repeat case_match; repeat m_inv E; by injection E as <- <-.

Lemma path2inode_makes path : makes id (txc_koa_path2inode path)
  (fun k => let '((ret, ino), k') := call_result (sys_stat path) k in (if bool_decide (ret = 0) then ino else 0, k')).
Proof.
  unfold txc_koa_path2inode. apply (makes_bind id); [apply libc_makes|]. intros [ret ino]. apply makes_ret.
Qed.

(** What [x_open] and [x_create] do when the file is open: [stat] and own work. *)
Lemma stat_makes {A} path (fd : Z) (g : Z -> M world (Z * A)) :
  (forall ino, m_pres own_work (g ino)) -> (forall ino w a w', g ino w = Ret a w' -> a.1 = fd) ->
  makes fst (m_bind (txc_koa_path2inode path) g) (fun k => (fd, (call_result (sys_stat path) k).2)).
Proof.
  intros Hg Hr. eapply makes_ext; [|apply makes_bind; [apply path2inode_makes|intros ino; apply (makes_none fst _ fd); [apply Hg|apply Hr]]].
  intros k. simpl. by destruct (call_result (sys_stat path) k) as [[ret ino] k'].
Qed.

Lemma open_makes path flags mode :
  makes fst (x_open_nontx path flags mode) (fun k => let '(fd, k') := call_result (sys_open path flags mode) k in
    (fd, if neg fd then k' else (call_result (sys_stat path) k').2)).
Proof.
  unfold x_open_nontx. apply makes_own; [own|intros _]. apply (makes_bind fst _ _ _ (fun fd k' => (fd, if neg fd then k' else _))); [apply libc_makes|intros fd].
  destruct (neg fd); [apply failed_makes; own|]. apply stat_makes; intros ino; [own|ends].
Qed.

Lemma create_makes path mode :
  makes fst (x_create_nontx path mode) (fun k => let '(fd, k') := call_result (sys_open path creation_flags mode) k in
    (fd, if neg fd then k' else (call_result (sys_stat path) k').2)).
Proof.
  unfold x_create_nontx. apply makes_own; [own|intros _]. apply (makes_bind fst _ _ _ (fun fd k' => (fd, if neg fd then k' else _))); [apply libc_makes|intros fd].
  destruct (neg fd); [apply makes_none; [own|ends]|]. apply stat_makes; intros ino; [own|ends].
Qed.

Lemma close_makes fd : makes fst (x_close_nontx fd) (fun k => let '(ret, k') := call_result (sys_close fd) k in
  (if neg ret then ret else 0, k')).
Proof.
  unfold x_close_nontx. apply makes_own; [own|intros _]. apply (makes_bind fst); [apply libc_makes|intros ret].
  destruct (neg ret); [apply failed_makes; own|]. apply makes_none; [own|ends].
Qed.

Lemma pipe_makes : makes fst x_pipe_nontx (fun k => let '((ret, fds), k') := call_result sys_pipe k in
  ((if neg ret then ret else 0, fds), k')).
Proof.
  unfold x_pipe_nontx, x_pipe_attach, lock_two. apply (makes_bind fst); [apply libc_makes|intros [ret [fd0 fd1]]].
  destruct (neg ret); apply makes_none; own; ends.
Qed.

Lemma socket_makes domain type protocol t :
  makes fst (x_socket_nontx domain type protocol t) (call_result (sys_socket domain type protocol)).
Proof.
  eapply makes_ext; [|unfold x_socket_nontx; apply (makes_bind fst); [apply libc_makes|intros fd]].
  2: { apply (makes_none fst _ fd); destruct (neg fd); own; ends. }
  intros k. cbv beta. by destruct (call_result _ k).
Qed.

Lemma name_call_makes (c : syscall kstate Z) :
  makes fst (do e <- or_errno (libc c) 0 ;; m_ret (0, e)) (fun k => (0, (call_result c k).2)).
Proof.
  intros w a w' E. m_inv E. injection E as <- <-. unfold or_errno in Hm. m_inv Hm. destruct (libc_makes c _ _ _ Hm0) as [E1 T1].
  assert (own_work st0 st) as [H1 H2].
  { destruct (neg x0); [eapply m_pres_run; [apply get_errno_own|exact Hm]|by injection Hm as <- <-]. }
  rewrite E1, H1, H2. done.
Qed.
(** Outside a retryable transaction. *)
Definition makes_outside (txd : Z) (m : M world answer) (f : kstate -> answer * kstate) : Prop :=
  forall w x a w', tx_mode txd w = Some x -> x <> TXC_XACTSTATE_TRANSACTIONAL_RETRYABLE -> m w = Ret a w' ->
    f (w_kernel w) = (a, w_kernel w') /\ w_txmgr w' = w_txmgr w.

Lemma outside_call {A} (g : A -> answer) txd (f : txc_tx_xactstate_t -> M world A) h h' :
  (forall y, y <> TXC_XACTSTATE_TRANSACTIONAL_RETRYABLE -> makes id (f y) h) -> (forall k, h' k = kernel_answer g (h k)) ->
  makes_outside txd (answers g (do y <- txc_tx_get_xactstate txd ;; f y)) h'.
Proof.
  intros Hf Hh w x a w' Hx Hne E. unfold answers in E. m_inv E. injection E as <- <-.
  destruct (mode_makes id txd f h w x _ _ Hf Hx Hne Hm) as [E1 T1]. rewrite Hh, E1. done.
Qed.

Ltac outside_with lem :=
  eapply outside_call; [intros y Hy; cbv beta iota; destruct y; try done; apply finish_makes; apply lem|intros k; unfold kernel_call, then_stat].

Lemma run_outside_makes txd c result : makes_outside txd (run_outside txd c result) (kernel_call c).
Proof.
  destruct c; simpl; unfold x_read, x_write_seq, x_write_ovr_save, x_write_ovr_ignore, x_write, x_lseek, x_fsync, x_fdatasync,
    x_write_pipe, x_sendmsg.
  1-9: by (outside_with (@plain_makes)).
  - by (outside_with name_call_makes).
  - by (outside_with name_call_makes).
  - outside_with open_makes. by destruct (call_result _ k).
  - outside_with create_makes. by destruct (call_result _ k).
  - outside_with close_makes. by destruct (call_result _ k).
  - outside_with pipe_makes. by destruct (call_result _ k) as [[ret fds] k'].
  - unfold x_socket. case_bool_decide as Ht; [|outside_with socket_makes; by rewrite bool_decide_eq_false_2].
    intros w x a w' _ _ E. unfold kernel_call. rewrite bool_decide_eq_true_2 by done. unfold answers in E. m_inv E. injection E as <- <-.
    destruct (finish_makes result (m_ret (-1, EINVAL)) _ (makes_ret fst (-1, EINVAL)) _ _ _ Hm) as [E1 T1].
    split; [|done]. by injection E1 as <- <-.
Qed.

(** ** Calls that always return

    The calls that keep no records are one system call each. *)
Definition keeps_no_record (c : call) : bool :=
  match c with COpen _ _ _ | CCreate _ _ | CClose _ | CPipe | CSocket _ _ _ => false | _ => true end.

Definition same_managers (w w' : world) : Prop :=
  w_txmgr w' = w_txmgr w /\ w_sentinelmgr w' = w_sentinelmgr w /\ w_buffermgr w' = w_buffermgr w /\ w_koamgr w' = w_koamgr w.

Lemma plain_call_returns {A} (failed : A -> bool) (c : syscall kstate A) result w (m : M world A) (g : A -> answer) :
  is_plain_call failed c result w m -> exists a w', answers g m w = Ret a w' /\ same_managers w w'.
Proof.
  unfold is_plain_call. destruct (c (w_kernel w)) as [[a e] k]. intros E. unfold answers. rewrite (m_bind_run _ _ _ _ _ E).
  eexists _, _. split; [reflexivity|]. by destruct result.
Qed.

Lemma name_call_returns (c : syscall kstate Z) result w (g : Z -> answer) :
  exists a w', answers g (finish result (do e <- or_errno (libc c) 0 ;; m_ret (0, e))) w = Ret a w' /\ same_managers w w'.
Proof.
  unfold answers, finish, or_errno, libc, get_errno, m_bind, m_gets, m_ret. destruct (c (w_kernel w)) as [[r e] k].
  destruct (neg r), result; eexists _, _; (split; [reflexivity|done]).
Qed.

Lemma mode_returns {A} txd w x (f : txc_tx_xactstate_t -> M world A) :
  tx_mode txd w = Some x -> (do y <- txc_tx_get_xactstate txd ;; f y) w = f x w.
Proof. intros Hx. by rewrite (m_bind_run _ _ _ _ _ (get_xactstate_run _ _ _ Hx)). Qed.

Lemma answers_ext {A} (g : A -> answer) (m m' : M world A) w : m w = m' w -> answers g m w = answers g m' w.
Proof. intros E. unfold answers, m_bind. by rewrite E. Qed.

Lemma no_record_returns txd c result w x :
  tx_mode txd w = Some x -> x <> TXC_XACTSTATE_TRANSACTIONAL_RETRYABLE -> keeps_no_record c = true ->
  exists a w', run_outside txd c result w = Ret a w' /\ same_managers w w'.
Proof.
  intros Hm Hx Hc. assert (forall A (g : A -> answer) f,
    (exists a w', answers g (f x) w = Ret a w' /\ same_managers w w') ->
    exists a w', answers g (do y <- txc_tx_get_xactstate txd ;; f y) w = Ret a w' /\ same_managers w w') as Hmode.
  { intros A g f H. by rewrite (answers_ext g _ (f x) w (mode_returns txd w x f Hm)). }
  destruct c; try done; simpl; unfold x_read, x_write_seq, x_write_ovr_save, x_write_ovr_ignore, x_write, x_lseek, x_fsync, x_fdatasync,
    x_write_pipe, x_sendmsg, x_unlink, x_rename; apply Hmode; destruct x; try done;
    first [apply name_call_returns | eapply plain_call_returns; apply plain_call_run].
Qed.

Lemma no_records_return txd cs w x :
  tx_mode txd w = Some x -> x <> TXC_XACTSTATE_TRANSACTIONAL_RETRYABLE -> Forall (fun c => keeps_no_record c.1 = true) cs ->
  exists rets w', run_program txd cs w = Ret rets w' /\ same_managers w w'.
Proof.
  intros Hm Hx Hcs. revert w Hm. induction Hcs as [|[c result] cs Hc _ IH]; intros w Hm; simpl; [by exists [], w|].
  destruct (no_record_returns txd c result w x Hm Hx Hc) as (a & w1 & E1 & H1 & H2 & H3 & H4).
  rewrite (m_bind_run _ _ _ _ _ E1). destruct (IH w1) as (rets & w2 & E2 & H5 & H6 & H7 & H8).
  { unfold tx_mode in *. by rewrite H1. }
  rewrite (m_bind_run _ _ _ _ _ E2). eexists _, _. split; [reflexivity|]. split_and!; congruence.
Qed.

Lemma program_makes txd cs w x rets w' :
  tx_mode txd w = Some x -> x <> TXC_XACTSTATE_TRANSACTIONAL_RETRYABLE -> run_program txd cs w = Ret rets w' ->
  kernel_program cs (w_kernel w) = (rets, w_kernel w') /\ w_txmgr w' = w_txmgr w.
Proof.
  intros Hm Hx. revert w rets Hm. induction cs as [|[c result] cs IH]; intros w rets Hm E; simpl in *; [by injection E as <- <-|].
  m_inv E. m_inv E. injection E as <- <-. destruct (run_outside_makes txd c result w x _ _ Hm Hx Hm0) as [E1 T1].
  destruct (IH st x1) as [E2 T2]; [unfold tx_mode in *; by rewrite T1|done|]. rewrite E1, E2. split; [done|congruence].
Qed.

End outside.

(** *** A program

    It opens a file, writes to it, seeks back and reads, and closes it. *)
Definition outside_cs : list (call * option Z) :=
  [(COpen "f" 0 0, None); (CLseek 1 0 SEEK_END, None); (CWriteSeq 1 [Byte.x63], Some 7); (CLseek 1 0 SEEK_SET, None); (CRead 1 9, Some 8);
   (CClose 1, None)].
Definition outside_w : world := after (run_program 1000 outside_cs) world_out.
Definition outside_rets : list answer :=
  [ANum 1; ANum 2; ANum 1; ANum 0; ABytes 3 [Byte.x61; Byte.x62; Byte.x63]; ANum 0].

