(* ===== verification/Isolation.v ===== *)
(** * Isolation of the calls on descriptors

    [Protocol] is about the operations of the sentinel manager. This file carries it over
    to the calls: a call on a descriptor in a retryable transaction is a sequence of steps
    of the protocol, it works on a kernel object only while its transaction holds the
    sentinel of the object, and it aborts, with the kernel as it was, while another
    transaction holds it. *)

From S2P Require Import Prelude Dll Pool HashTable Buffer Actions World MemFs Tx Sentinel Views Locks Protocol Koa XFile XDir XPipe XSock System Modes Frames KoaFrames.

(** ** The calls *)

(** What is done to a descriptor. *)
Inductive fd_call :=
  | CallRead (nbyte : Z)
  | CallWriteSeq (buf : list byte)
  | CallWriteSave (buf : list byte)
  | CallWriteIgnore (buf : list byte)
  | CallLseek (offset whence : Z)
  | CallFsync
  | CallFdatasync
  | CallClose
  | CallReadPipe (nbyte : Z)
  | CallWritePipe (buf : list byte)
  | CallSendmsg (m : msghdr) (flags : Z)
  | CallRecvmsg (iov_lens : list Z) (msg_controllen flags : Z).

Section calls.
Context {PF : Platform}.

Definition run_call (txd fd : Z) (result : option Z) (c : fd_call) : M world unit :=
  match c with
  | CallRead nbyte => do _ <- x_read txd fd nbyte result ;; m_ret tt
  | CallWriteSeq buf => do _ <- x_write_seq txd fd buf result ;; m_ret tt
  | CallWriteSave buf => do _ <- x_write_ovr_save txd fd buf result ;; m_ret tt
  | CallWriteIgnore buf => do _ <- x_write_ovr_ignore txd fd buf result ;; m_ret tt
  | CallLseek offset whence => do _ <- x_lseek txd fd offset whence result ;; m_ret tt
  | CallFsync => do _ <- x_fsync txd fd result ;; m_ret tt
  | CallFdatasync => do _ <- x_fdatasync txd fd result ;; m_ret tt
  | CallClose => do _ <- x_close txd fd result ;; m_ret tt
  | CallReadPipe nbyte => do _ <- x_read_pipe txd fd nbyte result ;; m_ret tt
  | CallWritePipe buf => do _ <- x_write_pipe txd fd buf result ;; m_ret tt
  | CallSendmsg m flags => do _ <- x_sendmsg txd fd m flags result ;; m_ret tt
  | CallRecvmsg iov_lens msg_controllen flags => do _ <- x_recvmsg txd fd iov_lens msg_controllen flags result ;; m_ret tt
  end.

(** ** What they have in common

    From the locked descriptor on: the sentinel is tried, the descriptor unlocked, and
    the transaction aborted or the object worked on. *)
Definition try_then {A} (txd fd a : Z) (body : M world A) : M world A :=
  do xret <- txc_sentinel_tryacquire txd a TXC_SENTINEL_ACQUIREONRETRY ;;
  txc_koa_unlock_fd fd ;;;
  if bool_decide (xret = TXC_R_BUSYSENTINEL)
  then txc_tx_abort_transaction txd TXC_ABORTREASON_BUSYSENTINEL
  else body.

Lemma abort_bind {A B} txd r (f : A -> M world B) s :
  m_bind (txc_tx_abort_transaction txd r) f s = txc_tx_abort_transaction txd r s.
Proof.
  unfold txc_tx_abort_transaction, tmsystem_abort_transaction. rewrite !m_bind_assoc.
  apply m_bind_ext; [done|intros _ s1]. rewrite !m_bind_assoc. apply m_bind_ext; [done|intros _ s2].
  rewrite !m_bind_assoc. by apply m_bind_ext.
Qed.

Lemma try_then_bind {A B} txd fd a (m : M world A) (f : A -> M world B) s :
  m_bind (try_then txd fd a m) f s = try_then txd fd a (m_bind m f) s.
Proof.
  unfold try_then. rewrite !m_bind_assoc. apply m_bind_ext; [done|intros xret s1]. rewrite !m_bind_assoc.
  apply m_bind_ext; [done|intros _ s2]. case_bool_decide; [apply abort_bind|done].
Qed.

(** The object behind [fd]: its sentinel is at [a]. *)
Definition object_at (fd koa a : Z) (w : world) : Prop :=
  fd_map (w_koamgr w) !! fd = Some (Fd2Koa false koa) /\ koa <> 0 /\
  exists k, koas (w_koamgr w) !! koa = Some k /\ koa_sentinel k = a.

(** [fd] is locked. *)
Definition with_fd_locked (fd koa : Z) (w : world) : world := put_fd fd (Fd2Koa true koa) w.

Section object.
Variables (txd fd koa a : Z) (w : world).
Hypothesis Hobj : object_at fd koa a w.

Lemma object_lookup : txc_koa_lookup_fd2koa fd (with_fd_locked fd koa w) = Ret (TXC_R_SUCCESS, koa) (with_fd_locked fd koa w).
Proof.
  destruct Hobj as (_ & Hk & _). rewrite (lookup_fd_locked fd koa _ true) by apply lookup_insert_eq.
  by rewrite bool_decide_eq_false_2.
Qed.

Lemma object_sentinel : txc_koa_get_sentinel koa (with_fd_locked fd koa w) = Ret a (with_fd_locked fd koa w).
Proof.
  destruct Hobj as (_ & _ & k & Hk & <-). unfold txc_koa_get_sentinel, koa_get. m_next by (m_next; simpl; by rewrite Hk). done.
Qed.

Lemma object_buffer : exists b, txc_koa_get_buffer koa (with_fd_locked fd koa w) = Ret b (with_fd_locked fd koa w).
Proof.
  destruct Hobj as (_ & _ & k & Hk & _). unfold txc_koa_get_buffer, koa_get.
  eexists. m_next by (m_next; simpl; by rewrite Hk). done.
Qed.

Lemma acquire_object {A} (f : option Z -> M world A) :
  m_bind (acquire_fd txd fd TXC_SENTINEL_ACQUIREONRETRY) f w = try_then txd fd a (f (Some koa)) (with_fd_locked fd koa w).
Proof.
  pose proof object_lookup as Hl. pose proof object_sentinel as Hs. destruct Hobj as (Hfd & _).
  unfold acquire_fd. rewrite m_bind_assoc, (m_bind_run _ _ _ _ _ (fd_lock_run _ _ _ Hfd)).
  rewrite m_bind_assoc, (m_bind_run _ _ _ _ _ Hl). cbv beta iota. rewrite bool_decide_eq_false_2 by done.
  rewrite m_bind_assoc, (m_bind_run _ _ _ _ _ Hs). unfold try_then. rewrite m_bind_assoc.
  apply m_bind_ext; [done|intros xret s]. rewrite m_bind_assoc. apply m_bind_ext; [done|intros _ s'].
  case_bool_decide; [apply abort_bind|done].
Qed.
End object.

(** *** What is done to the object

    It leaves the sentinels alone and does not abort. *)

Lemma linear_malloc_same txd n : m_pres same_locks (tx_linear_malloc txd n).
Proof. unfold tx_linear_malloc. m_pres_auto. Qed.

Lemma linear_free_same txd n : m_pres same_locks (tx_linear_free txd n).
Proof. unfold tx_linear_free, linear_upd. m_pres_auto. Qed.

Lemma linear_free_noabort txd n : m_noabort (tx_linear_free txd n).
Proof.
  destruct access_noabort as (_ & _ & _ & _ & _ & _ & ? & _). unfold tx_linear_free, linear_upd, in_buffermgr, linear_get, linear_put. m_noabort_auto.
Qed.

Lemma unlock_fd_same fd : m_pres same_locks (txc_koa_unlock_fd fd).
Proof. unfold txc_koa_unlock_fd. by apply fd_upd_pres. Qed.
End calls.

#[export] Hint Resolve linear_malloc_same linear_free_same linear_free_noabort unlock_fd_same : xcalls.

Ltac works_auto :=
  unfold in_buffermgr, circular_get, circular_put, get_errno; split; [m_pres_auto; by apply zoom_pres|m_noabort_auto].

Section works.
Context {PF : Platform}.

Definition works {A} (body : M world A) : Prop := m_pres same_locks body /\ m_noabort body.

Lemma works_bind {A B} (m : M world A) (f : A -> M world B) : works m -> (forall x, works (f x)) -> works (m_bind m f).
Proof.
  intros [H1 H2] Hf. split; [apply m_pres_bind; [typeclasses eauto|done|]|apply m_noabort_bind; [done|]]; intros x; apply Hf.
Qed.

Lemma finish_works {A} result (ret : A) v : works (store_result result v ;;; m_ret ret).
Proof. works_auto. Qed.

Lemma read_pipe_works txd koa fd buffer nbyte result : works (read_pipe_speculative txd koa fd buffer nbyte result).
Proof.
  unfold read_pipe_speculative, read_pipe_begin, read_pipe_fill, read_pipe_copy, circular_upd. works_auto.
Qed.

Lemma recvmsg_works txd koa fd buffer iov_lens flags result : works (recvmsg_speculative txd koa fd buffer iov_lens flags result).
Proof. unfold recvmsg_speculative, recvmsg_begin, recvmsg_fill, recvmsg_copy, circular_upd. works_auto. Qed.

(** ** The shape of a call *)

Section shape.
Variables (txd fd koa a : Z) (result : option Z) (w : world).
Hypothesis Hmode : tx_mode txd w = Some TXC_XACTSTATE_TRANSACTIONAL_RETRYABLE.
Hypothesis Hobj : object_at fd koa a w.

Definition shaped (m : M world unit) : Prop :=
  exists body : M world unit, works body /\ m w = try_then txd fd a body (with_fd_locked fd koa w).

Lemma shaped_then {A B} (m : M world A) (body : M world A) (f : A -> M world B) (g : B -> M world unit) :
  m w = try_then txd fd a body (with_fd_locked fd koa w) -> works body -> (forall x, works (f x)) -> (forall x, works (g x)) ->
  exists body', works body' /\ m_bind (m_bind m f) g w = try_then txd fd a body' (with_fd_locked fd koa w).
Proof.
  intros E Hb Hf Hg. exists (m_bind (m_bind body f) g). split; [by repeat (apply works_bind; [|done])|].
  assert (m_bind m f w = try_then txd fd a (m_bind body f) (with_fd_locked fd koa w)) as E2.
  { rewrite <- try_then_bind. unfold m_bind. by rewrite E. }
  rewrite <- (try_then_bind txd fd a (m_bind body f) g). unfold m_bind at 1. rewrite E2. done.
Qed.

(** A call made with [acquire_fd]. *)
Lemma shaped_acquire {A} (f : option Z -> M world (A * Z)) :
  works (f (Some koa)) -> shaped (do _ <- finish result (m_bind (acquire_fd txd fd TXC_SENTINEL_ACQUIREONRETRY) f) ;; m_ret tt).
Proof.
  intros Hf. unfold finish. eapply shaped_then; [by apply acquire_object|done|intros []; apply finish_works|].
  intros x. works_auto.
Qed.

(** A call that looks the buffer of the object up first. *)
Lemma shaped_buffer {A} (e : A) (plain : Z -> M world (A * Z)) (spec : Z -> Z -> M world (A * Z)) :
  (forall b, works (spec koa b)) ->
  shaped (do _ <- finish result
    (txc_koa_lock_fd fd ;;;
     do ' (xret, koa) <- txc_koa_lookup_fd2koa fd ;;
     if bool_decide (xret = TXC_R_FAILURE) then txc_koa_unlock_fd fd ;;; m_ret (e, EBADF)
     else
       do buffer <- txc_koa_get_buffer koa ;;
       if negb true then txc_koa_unlock_fd fd ;;; plain buffer
       else
         do sentinel <- txc_koa_get_sentinel koa ;;
         do xret <- txc_sentinel_tryacquire txd sentinel TXC_SENTINEL_ACQUIREONRETRY ;;
         txc_koa_unlock_fd fd ;;;
         if bool_decide (xret = TXC_R_BUSYSENTINEL)
         then txc_tx_abort_transaction txd TXC_ABORTREASON_BUSYSENTINEL
         else spec koa buffer) ;; m_ret tt).
Proof.
  intros Hs. destruct (object_buffer fd koa a w Hobj) as [b Hb]. unfold finish.
  eapply shaped_then; [|apply (Hs b)|intros []; apply finish_works|intros x; works_auto].
  pose proof Hobj as (Hfd & _). rewrite (m_bind_run _ _ _ _ _ (fd_lock_run _ _ _ Hfd)).
  rewrite (m_bind_run _ _ _ _ _ (object_lookup fd koa a w Hobj)). cbv beta iota. rewrite bool_decide_eq_false_2 by done.
  rewrite (m_bind_run _ _ _ _ _ Hb). cbn [negb].
  by rewrite (m_bind_run _ _ _ _ _ (object_sentinel fd koa a w Hobj)).
Qed.

Lemma call_shaped c : shaped (run_call txd fd result c).
Proof.
  pose proof (get_xactstate_run _ _ _ Hmode) as Hx.
  assert (forall A (f : txc_tx_xactstate_t -> M world A), 
    shaped (do _ <- f TXC_XACTSTATE_TRANSACTIONAL_RETRYABLE ;; m_ret tt) ->
    shaped (do _ <- (do x <- txc_tx_get_xactstate txd ;; f x) ;; m_ret tt)) as Hr.
  { intros A f (body & Hb & E). exists body. split; [done|]. rewrite m_bind_assoc, (m_bind_run _ _ _ _ _ Hx). exact E. }
  destruct c; simpl; unfold x_write_seq, x_write_ovr_save, x_write_ovr_ignore, x_write, x_read, x_lseek, x_fsync, x_fdatasync, x_close,
    x_write_pipe, x_sendmsg, x_read_pipe, x_recvmsg; apply Hr; cbv beta iota.
  - apply shaped_acquire. works_auto.
  - apply shaped_acquire. rewrite bool_decide_eq_true_2 by done. unfold x_write_seq_tx. works_auto.
  - apply shaped_acquire. rewrite bool_decide_eq_false_2, orb_true_r by done. unfold x_write_ovr_tx, x_write_ovr_old. works_auto.
  - apply shaped_acquire. rewrite bool_decide_eq_false_2, bool_decide_eq_true_2 by done. unfold x_write_ovr_tx, x_write_ovr_old. works_auto.
  - apply shaped_acquire. works_auto.
  - apply shaped_acquire. works_auto.
  - apply shaped_acquire. works_auto.
  - apply shaped_acquire. unfold malloc_or_exit. works_auto.
  - apply shaped_buffer. intros b. apply read_pipe_works.
  - apply shaped_acquire. works_auto.
  - apply shaped_acquire. works_auto.
  - apply (shaped_buffer _ (fun buffer => recvmsg_plain fd buffer iov_lens msg_controllen flags)). intros b. apply recvmsg_works.
Qed.
End shape.
End works.

(** ** A call as steps of the protocol *)

Section steps.
Context {PF : Platform} (realloc_grants : forall n, realloc_ok n = true).

Lemma same_locks_fd fd koa w : same_locks w (with_fd_locked fd koa w).
Proof. done. Qed.

Lemma tx_holds_same w w' t a : same_locks w w' -> tx_holds w t a -> tx_holds w' t a.
Proof. intros [_ T] (sl & pre & Hv & Hh). exists sl, pre. by rewrite T. Qed.

Lemma abort_same {A} txd r : m_pres same_locks (txc_tx_abort_transaction (A := A) txd r).
Proof. unfold txc_tx_abort_transaction, tmsystem_abort_transaction, tmsystem_register_generic_undo_action. m_pres_auto. Qed.

Lemma abort_returns {A} txd r s (x : A) s' : txc_tx_abort_transaction txd r s <> Ret x s'.
Proof. unfold txc_tx_abort_transaction, tmsystem_abort_transaction. intros H. by do 3 m_inv H. Qed.

Lemma works_run {A} (body : M world A) s : works body -> match body s with Ret _ s' => same_locks s s' | Abort _ _ => False | _ => True end.
Proof. intros [H1 H2]. specialize (H1 s). specialize (H2 s). by destruct (body s). Qed.

(** Another transaction that holds [a]. *)
Definition other_holds (c : config) (txd a : Z) : Prop := exists u, u <> txd /\ is_Some (c.2 !! u) /\ tx_holds c.1 u a.

(** Why [a] was not to be had: another transaction holds it, and still does; or [txd]
    has it, and the result that is not assigned then reads as busy. *)
Definition refused (c : config) (txd a : Z) (w' : world) : Prop :=
  (exists u, u <> txd /\ is_Some (c.2 !! u) /\ tx_holds c.1 u a /\ tx_holds w' u a) \/
  (tx_holds c.1 txd a /\ uninit = TXC_R_BUSYSENTINEL).

(** Trying the sentinel. *)
Lemma try_step w th txd a w' c :
  pinv (w, th) -> th !! txd = Some Running -> tx_mode txd w = Some TXC_XACTSTATE_TRANSACTIONAL_RETRYABLE ->
  txc_sentinel_tryacquire txd a TXC_SENTINEL_ACQUIREONRETRY w = Ret c w' ->
  w_kernel w' = w_kernel w /\ if bool_decide (c = TXC_R_BUSYSENTINEL) then refused (w, th) txd a w' else tx_holds w' txd a.
Proof.
  intros Hi Hp Hm H. split; [exact (m_pres_run same_kernel _ _ _ _ (tryacquire_quiet same_kernel _ _ _) H)|].
  destruct (pi_tx _ Hi _ _ Hp) as (H0 & sl & pre & Hti). pose proof (few_entries _ _ _ _ _ _ Hi Hti) as Hn.
  destruct (tryacquire_inv realloc_grants _ _ _ _ _ _ _ _ H (ti_view _ _ _ _ _ Hti) (ti_good _ _ _ _ _ Hti) Hn) as (s & Hs & R).
  destruct R as [w' Ho Hsl|w' _ Hm' _|w' Hne Hf Hsy V T (sl' & Hv' & Hg' & Hl)|w' Hne Hf Hsy V T (sl' & Hv' & Hg' & Hl)].
  - apply (tx_holds_owner (w, th) _ _ _ _ Hi Hp Hs) in Ho. case_bool_decide as Hu; [by right|by eapply tx_holds_same].
  - congruence.
  - rewrite bool_decide_eq_false_2 by done. exists sl', pre. split; [done|]. unfold holds. rewrite Hl.
    eexists. split; [apply elem_of_app; right; apply list_elem_of_here|]. split; [done|]. apply acquired_flag.
  - rewrite bool_decide_eq_true_2 by done. left. destruct (pi_locks _ Hi _ _ Hs) as [[_ [Hb _]] Ho]. simpl in *.
    destruct Ho as [Ho|Hth]; [by apply Hb in Hf|]. destruct Hth as [q Hq]. exists (s_owner s). split_and!; [done|by eexists| |].
    + by apply (tx_holds_owner (w, th) _ _ _ _ Hi Hq Hs).
    + destruct (proj2 (tx_holds_owner (w, th) _ _ _ _ Hi Hq Hs) eq_refl) as (sl2 & pre2 & Hv2 & Hh2). simpl in *.
      exists sl2, pre2. split; [|done]. by rewrite T.
Qed.

Lemma other_step w w' th th' : rtc pstep (w, th) (w', th') -> forall w2, same_locks w' w2 -> rtc pstep (w, th) (w2, th').
Proof. intros H w2 Hs. eapply rtc_r; [exact H|by apply step_other]. Qed.

(** From the locked descriptor on. *)
Lemma try_then_outcome w th txd fd a (body : M world unit) :
  pinv (w, th) -> th !! txd = Some Running -> tx_mode txd w = Some TXC_XACTSTATE_TRANSACTIONAL_RETRYABLE -> works body ->
  match try_then txd fd a body w with
  | Ret _ w' => rtc pstep (w, th) (w', th) /\ tx_holds w' txd a
  | Abort _ w' => rtc pstep (w, th) (w', <[txd := Aborting]> th) /\ w_kernel w' = w_kernel w /\ refused (w, th) txd a w'
  | _ => True
  end.
Proof.
  intros Hi Hp Hm Hb. unfold try_then, m_bind. pose proof (tryacquire_noabort txd a TXC_SENTINEL_ACQUIREONRETRY w) as Hna.
  destruct (txc_sentinel_tryacquire _ _ _ w) as [c w2| | | | |] eqn:Et; try done.
  destruct (try_step _ _ _ _ _ _ Hi Hp Hm Et) as [Hk Hc].
  assert (rtc pstep (w, th) (w2, <[txd := if bool_decide (c = TXC_R_BUSYSENTINEL) then Aborting else Running]> th)) as Hst
    by (eapply rtc_l; [by eapply step_try|apply rtc_refl]).
  pose proof (unlock_fd_same fd w2) as Hu. pose proof (unlock_fd_quiet same_kernel fd w2) as Hku.
  pose proof (proj1 (proj2 koa_lock_noabort) fd w2) as Hua.
  destruct (txc_koa_unlock_fd fd w2) as [[] w3| | | | |]; try done.
  pose proof (other_step _ _ _ _ Hst _ Hu) as Hst3. case_bool_decide as Hcb.
  - pose proof (abort_same (A := unit) txd TXC_ABORTREASON_BUSYSENTINEL w3) as Ha.
    pose proof (abort_quiet same_kernel txd (A := unit) TXC_ABORTREASON_BUSYSENTINEL w3) as Hka.
    destruct (txc_tx_abort_transaction txd _ w3) as [|r w4| | | |] eqn:E4; try done; [by apply abort_returns in E4|].
    split_and!; [by eapply other_step|unfold same_kernel in *; congruence|].
    destruct Hc as [(u & Hne & Hth & Hh & Hh')|Hc]; [|by right]. left. exists u. split_and!; [done..|].
    eapply tx_holds_same; [|exact Hh']. by trans w3.
  - rewrite insert_id in Hst3 by done. pose proof (works_run _ w3 Hb) as Hw. destruct (body w3) as [[] w4| | | | |]; try done.
    split; [by eapply other_step|]. eapply tx_holds_same; [|exact Hc]. by trans w3.
Qed.

Lemma call_outcome w th txd fd koa a result c :
  pinv (w, th) -> th !! txd = Some Running -> tx_mode txd w = Some TXC_XACTSTATE_TRANSACTIONAL_RETRYABLE -> object_at fd koa a w ->
  match run_call txd fd result c w with
  | Ret _ w' => rtc pstep (w, th) (w', th) /\ tx_holds w' txd a
  | Abort _ w' => rtc pstep (w, th) (w', <[txd := Aborting]> th) /\ w_kernel w' = w_kernel w /\ refused (w, th) txd a w'
  | _ => True
  end.
Proof.
  intros Hi Hp Hm Ho. destruct (call_shaped txd fd koa a result w Hm Ho c) as (body & Hb & ->).
  set (w1 := with_fd_locked fd koa w).
  assert (rtc pstep (w, th) (w1, th)) as H1 by (apply rtc_once, step_other, same_locks_fd).
  pose proof (try_then_outcome w1 th txd fd a body (pinv_same _ _ _ (same_locks_fd fd koa w) Hi) Hp Hm Hb) as Ht.
  destruct (try_then _ _ _ _ w1) as [[] w'|r w'| | | |]; try done; destruct Ht as [Ht Hr]; (split; [etrans; [exact H1|exact Ht]|exact Hr]).
Qed.
End steps.

(** ** A refused call aborts *)

Section refusal.
Context {PF : Platform} (realloc_grants : forall n, realloc_ok n = true).

(** There is room for an action on either list. *)
Definition can_register (sd : side) (txd : Z) (w : world) : Prop :=
  exists n la md, aview sd txd w = Some (la, md) /\ la_good n la /\ n < 2 ^ 29 /\ ready sd txd w.

Lemma can_register_side sd txd w w' : same_side sd txd w w' -> can_register sd txd w -> can_register sd txd w'.
Proof. intros (_ & Ha & Hr) (n & la & md & H1 & H2 & H3 & H4). exists n, la, md. rewrite Ha. auto. Qed.

Lemma register_sentinelmgr_undo_runs txd w : can_register UndoSide txd w -> exists w', register_sentinelmgr_undo_action txd w = Ret tt w'.
Proof.
  intros (n & la & md & Ha & Hg & Hn & Hr). destruct (aview_inv _ _ _ _ _ Ha) as (t & Ht & _).
  unfold register_sentinelmgr_undo_action. rewrite (m_bind_run _ _ _ _ _ (txd_get_run _ _ _ Ht)). case_match; [by eexists|].
  destruct (register_run realloc_grants UndoSide txd (sentinelmgr_undo_action txd) None TXC_SENTINELMGR_UNDO_ACTION_ORDER w la md n Ha Hg Hn Hr)
    as (w1 & la' & E & _ & Ha' & _). simpl in E. rewrite (m_bind_run _ _ _ _ _ E). destruct (aview_inv _ _ _ _ _ Ha') as (t' & Ht' & _).
  eexists. by apply txd_upd_run.
Qed.

Lemma register_sentinelmgr_commit_runs txd w : can_register CommitSide txd w -> exists w', register_sentinelmgr_commit_action txd w = Ret tt w'.
Proof.
  intros (n & la & md & Ha & Hg & Hn & Hr). destruct (aview_inv _ _ _ _ _ Ha) as (t & Ht & _).
  unfold register_sentinelmgr_commit_action. rewrite (m_bind_run _ _ _ _ _ (txd_get_run _ _ _ Ht)). case_match; [by eexists|].
  destruct (register_run realloc_grants CommitSide txd (sentinelmgr_commit_action txd) None TXC_SENTINELMGR_COMMIT_ACTION_ORDER w la md n Ha Hg Hn Hr)
    as (w1 & la' & E & _ & Ha' & _). simpl in E. rewrite (m_bind_run _ _ _ _ _ E). destruct (aview_inv _ _ _ _ _ Ha') as (t' & Ht' & _).
  eexists. by apply txd_upd_run.
Qed.

(** Spinning on a held lock ends with the retries. *)
Lemma spin_busy_run fuel n a s w :
  sview w !! a = Some s -> sentinel_mutex s = true -> n < Z.of_nat fuel -> (0 < fuel)%nat ->
  exists r, spin_trylock fuel n a w = Ret r w /\ r <> 0.
Proof.
  intros Hs Hm. revert n. induction fuel as [|fuel IH]; intros n Hn Hf; [lia|]. cbn [spin_trylock].
  assert (exists r, sentinel_trylock a w = Ret r w /\ r <> 0) as (r & E & Hr).
  { unfold sentinel_trylock. rewrite (m_bind_run _ _ _ _ _ (sentinel_get_run _ _ _ Hs)), Hm. eexists. split; [done|]. done. }
  rewrite (m_bind_run _ _ _ _ _ E). cbv zeta. destruct (bool_decide (n - 1 >= 0)) eqn:En; simpl; [|by exists r].
  apply bool_decide_eq_true_1 in En. rewrite bool_decide_eq_true_2 by done. apply IH; lia.
Qed.

Lemma attach_synch_run a s w : sview w !! a = Some s -> synch_mutex s = false -> exists w', attach_synch a w = Ret tt w' /\ forall u, tview w' u = tview w u.
Proof.
  intros Hs Hm. unfold attach_synch, synch_lock, sentinel_attach, synch_unlock. rewrite m_bind_assoc, (m_bind_run _ _ _ _ _ (sentinel_get_run _ _ _ Hs)), Hm.
  rewrite (m_bind_run _ _ _ _ _ (sentinel_upd_run _ _ _ _ Hs)). erewrite m_bind_run by (apply sentinel_upd_run, lookup_insert_eq).
  erewrite sentinel_upd_run by apply lookup_insert_eq. eexists. split; [done|]. done.
Qed.

Lemma tryacquire_busy_run w th txd a s :
  pinv (w, th) -> th !! txd = Some Running -> tx_mode txd w = Some TXC_XACTSTATE_TRANSACTIONAL_RETRYABLE ->
  (forall sd, can_register sd txd w) -> sview w !! a = Some s -> s_owner s <> txd -> sentinel_mutex s = true ->
  exists w', txc_sentinel_tryacquire txd a TXC_SENTINEL_ACQUIREONRETRY w = Ret TXC_R_BUSYSENTINEL w'.
Proof.
  intros Hi Hp Hm Hreg Hs Ho Hf. destruct (pi_tx _ Hi _ _ Hp) as (H0 & sl & pre & Hti).
  pose proof (few_entries _ _ _ _ _ _ Hi Hti) as Hn. destruct (pi_locks _ Hi _ _ Hs) as [[Hsy _] _].
  unfold txc_sentinel_tryacquire. rewrite (m_bind_run _ _ _ _ _ (sentinel_get_run _ _ _ Hs)). rewrite bool_decide_eq_true_2 by done.
  rewrite (m_bind_run _ _ _ _ _ (get_xactstate_run _ _ _ Hm)).
  destruct (register_sentinelmgr_undo_runs _ _ (Hreg UndoSide)) as [w1 E1]. rewrite (m_bind_run _ _ _ _ _ E1).
  pose proof (m_pres_run _ _ _ _ _ (register_sentinelmgr_undo_same txd) E1) as [V1 T1].
  assert (m_pres (same_side CommitSide txd) (register_sentinelmgr_undo_action txd)) as Hside by (unfold register_sentinelmgr_undo_action; m_pres_auto).
  destruct (register_sentinelmgr_commit_runs txd w1) as [w2 E2].
  { eapply can_register_side; [exact (m_pres_run _ _ _ _ _ Hside E1)|apply Hreg]. }
  rewrite (m_bind_run _ _ _ _ _ E2). pose proof (m_pres_run _ _ _ _ _ (register_sentinelmgr_commit_same txd) E2) as [V2 T2].
  rewrite (m_bind_run m_get _ w2 w2 w2 eq_refl). cbv zeta. set (n := sentinel_max_spin_retries _).
  assert (sview w2 !! a = Some s) as Hs2 by (by rewrite V2, V1).
  destruct (spin_busy_run (S (Z.to_nat n)) n a s w2 Hs2 Hf ltac:(lia) ltac:(lia)) as (r & E3 & Hr).
  rewrite (m_bind_run _ _ _ _ _ E3), bool_decide_eq_false_2 by done.
  destruct (attach_synch_run a s w2 Hs2 Hsy) as (w3 & E4 & T3). rewrite (m_bind_run _ _ _ _ _ E4).
  destruct (tview_inv w3 txd sl pre) as (t & Ht & Hsl & _); [by rewrite T3, T2, T1; apply (ti_view _ _ _ _ _ Hti)|].
  destruct (tx_enlist_run realloc_grants txd a (acquire_on_retry TXC_SENTINEL_ACQUIREONRETRY) w3 t Ht) as (sl' & E5 & _);
    [rewrite Hsl; apply (ti_good _ _ _ _ _ Hti)|by rewrite Hsl|].
  rewrite (m_bind_run _ _ _ _ _ E5). by eexists.
Qed.

(** The descriptors that are mapped. *)
Definition same_fds (w w' : world) : Prop := forall fd, is_Some (fd_map (w_koamgr w) !! fd) -> is_Some (fd_map (w_koamgr w') !! fd).

#[global] Instance same_fds_quiet : Quiet same_fds.
Proof.
  split.
  2-5: intros; intros fd' H; exact H.
  - split; [by intros w fd|]. intros w1 w2 w3 H1 H2 fd Hfd. by apply H2, H1.
  - intros w fd e b _ fd' H. simpl. destruct (decide (fd' = fd)) as [->|]; [rewrite lookup_insert_eq|rewrite lookup_insert_ne]; by eauto.
Qed.

Lemma unlock_fd_run fd w : is_Some (fd_map (w_koamgr w) !! fd) -> exists w', txc_koa_unlock_fd fd w = Ret tt w' /\ w_txmgr w' = w_txmgr w.
Proof.
  intros [e He]. unfold txc_koa_unlock_fd, fd_upd, fd_get. eexists. split; [|shelve].
  m_next by (m_next; rewrite He; reflexivity). done.
  Unshelve. done.
Qed.

Lemma abort_run {A} txd r w t : txds (w_txmgr w) !! txd = Some t -> exists w', txc_tx_abort_transaction (A := A) txd r w = Abort r w'.
Proof.
  intros Ht. destruct (side_callback_run UndoSide txd t w Ht) as (t' & E & _). simpl in E.
  unfold txc_tx_abort_transaction, tmsystem_abort_transaction. rewrite (m_bind_run _ _ _ _ _ E).
  erewrite m_bind_run by apply txd_upd_run, lookup_insert_eq. erewrite m_bind_run by apply txd_upd_run, lookup_insert_eq. by eexists.
Qed.

Lemma call_refused w th txd fd koa a result c :
  pinv (w, th) -> th !! txd = Some Running -> tx_mode txd w = Some TXC_XACTSTATE_TRANSACTIONAL_RETRYABLE -> object_at fd koa a w ->
  is_Some (sview w !! a) -> other_holds (w, th) txd a -> (forall sd, can_register sd txd w) ->
  exists w', run_call txd fd result c w = Abort TXC_ABORTREASON_BUSYSENTINEL w'.
Proof.
  intros Hi Hp Hm Hobj [s Hs] (u & Hne & [q Hq] & Hh) Hreg.
  destruct (call_shaped txd fd koa a result w Hm Hobj c) as (body & _ & ->). set (w1 := with_fd_locked fd koa w).
  apply (tx_holds_owner (w, th) _ _ _ _ Hi Hq Hs) in Hh as Ho. destruct (pi_locks _ Hi _ _ Hs) as [[_ [_ Hl]] _].
  destruct (tryacquire_busy_run w1 th txd a s (pinv_same _ _ _ (same_locks_fd fd koa w) Hi) Hp Hm Hreg Hs) as [w2 E];
    [congruence|apply Hl; rewrite Ho; by destruct (pi_tx _ Hi _ _ Hq)|].
  unfold try_then. rewrite (m_bind_run _ _ _ _ _ E).
  destruct (unlock_fd_run fd w2) as (w3 & E3 & Ht3).
  { apply (m_pres_run same_fds _ _ _ _ (tryacquire_quiet same_fds _ _ _) E). simpl. rewrite lookup_insert_eq. by eexists. }
  rewrite (m_bind_run _ _ _ _ _ E3), bool_decide_eq_true_2 by done.
  assert (exists t, txds (w_txmgr w3) !! txd = Some t) as [t Ht]; [|by eapply abort_run].
  pose proof (step_try_inv realloc_grants _ _ _ _ _ _ _ (pinv_same _ _ _ (same_locks_fd fd koa w) Hi) Hp E) as Hi2.
  destruct (pi_tx _ Hi2 txd Aborting) as (_ & sl & pre & Hti); [simpl; by rewrite lookup_insert_eq|].
  destruct (tview_inv _ _ _ _ (ti_view _ _ _ _ _ Hti)) as (t & Ht & _). exists t. by rewrite Ht3.
Qed.
End refusal.

Section isolation.
Context {PF : Platform} (realloc_grants : forall n, realloc_ok n = true).

(** C12: isolation of the calls. In every state that the sentinel protocol reaches, with
    its transactions interleaved in any way, a call on a descriptor, in a retryable
    transaction that has room to register actions,
    - is a sequence of steps of the protocol: everything that holds of the reachable
      states goes on to hold when whole calls are interleaved;
    - when it returns, the transaction holds the sentinel of the object that the
      descriptor names, and so no other transaction does;
    - when it aborts, the kernel is as it was, and another transaction held the sentinel
      and still does, or its own hold was misread ([uninit]);
    - and while another transaction holds the sentinel, it does abort. *)
Theorem calls_isolated w0 th0 w th txd fd koa a result c :
  pstart w0 th0 -> rtc pstep (w0, th0) (w, th) -> th !! txd = Some Running ->
  tx_mode txd w = Some TXC_XACTSTATE_TRANSACTIONAL_RETRYABLE -> object_at fd koa a w -> is_Some (sview w !! a) ->
  (forall sd, can_register sd txd w) ->
  match run_call txd fd result c w with
  | Ret _ w' => rtc pstep (w0, th0) (w', th) /\ tx_holds w' txd a /\ ~ other_holds (w', th) txd a
  | Abort _ w' => rtc pstep (w0, th0) (w', <[txd := Aborting]> th) /\ w_kernel w' = w_kernel w /\ refused (w, th) txd a w'
  | _ => True
  end /\
  (other_holds (w, th) txd a -> exists w', run_call txd fd result c w = Abort TXC_ABORTREASON_BUSYSENTINEL w').
Proof.
  intros Hst Hr Hp Hm Hobj Hs Hreg. apply (pstart_inv realloc_grants) in Hst. apply (psteps_inv realloc_grants _ _ Hr) in Hst as Hi.
  split; [|by intros Ho; eapply call_refused].
  pose proof (call_outcome realloc_grants w th txd fd koa a result c Hi Hp Hm Hobj) as Hc.
  destruct (run_call txd fd result c w) as [[] w'|r w'| | | |]; try done; destruct Hc as [Hc H];
    (split; [etrans; [exact Hr|exact Hc]|]); [|done].
  split; [done|]. intros (u & Hne & [q Hq] & Hh). pose proof (psteps_inv realloc_grants _ _ Hc Hi) as Hi'.
  assert (is_Some (sview w' !! a)) as [s' Hs'].
  { destruct H as (sl & pre & Hv & e & He & <- & _). destruct (pi_tx _ Hi' _ _ Hp) as (_ & sl2 & pre2 & Hti).
    pose proof (ti_dom _ _ _ _ _ Hti) as Hd. pose proof (ti_view _ _ _ _ _ Hti) as Hv2. simpl in Hv2. rewrite Hv2 in Hv. injection Hv as -> ->.
    by apply (proj1 (Forall_forall _ _) Hd). }
  apply (tx_holds_owner (w', th) _ _ _ _ Hi' Hp Hs') in H. apply (tx_holds_owner (w', th) _ _ _ _ Hi' Hq Hs') in Hh. congruence.
Qed.
End isolation.

(** *** Two transactions on one file

    The transactions at 1000 and 1016 both have descriptor 0, whose KOA is at 3000 with
    the sentinel at 2000. The first reads; the second is refused. *)

(** [can_register], decided. *)
Definition can_register_at (sd : side) (txd : Z) (w : world) : bool :=
  match txds (w_txmgr w) !! txd with
  | Some t =>
      let la := side_list sd t in
      match entries la with
      | Some es => bool_decide (0 <= num_entries la <= Z.of_nat (length es) /\ num_entries la <= 100 /\
          num_entries la <= la_size la /\ 0 < la_size la < 2 ^ 30 /\ (side_generic sd t = true -> side_itm sd t = true) /\
          (0 < num_entries la -> side_generic sd t = true))
      | None => false
      end
  | None => false
  end.

Lemma can_register_decided sd txd w : can_register_at sd txd w = true -> can_register sd txd w.
Proof.
  unfold can_register_at. destruct (txds (w_txmgr w) !! txd) as [t|] eqn:Ht; [|done].
  destruct (entries (side_list sd t)) as [es|] eqn:He; [|done]. intros (H1 & H2 & H3 & H4 & H5 & H6)%bool_decide_eq_true_1.
  exists 100, (side_list sd t), (itm_mode (itm_td t)). split_and!; [unfold aview; by rewrite Ht|by exists es|lia|].
  intros t' Ht'. rewrite Ht in Ht'. injection Ht' as <-. by split.
Qed.

Definition one_koa : txc_koa_t := Koa false 2000 ([0] ++ replicate 7 (-1)) 1 1 TXC_KOA_IS_FILE 0.
Definition iso0 : world := put_fd 0 (Fd2Koa false 3000) (put_koa 3000 one_koa
  (enter_retryable 1000 (enter_retryable 1016 (mem_world (mf_one_file [Byte.x61; Byte.x62] 0) 4)))).
Definition iso1 : world := after (run_call 1000 0 (Some 7) (CallRead 1)) iso0.

Lemma iso_start : pstart iso0 two_phases.
Proof.
  assert (same_locks two0 iso0) as [V T] by done. destruct two_start as [H1 H2 H3 H4].
  split; [by rewrite V|by intros ? ?; rewrite V; apply H2|by intros ? ? ? ?; rewrite V; apply H3|].
  intros txd p Hp. destruct (H4 _ _ Hp) as (? & ? & sl & pre & Hv & ?). split_and!; [done..|]. exists sl, pre. by rewrite T.
Qed.
Lemma iso_object : object_at 0 3000 2000 iso0 /\ object_at 0 3000 2000 iso1.
Proof. split; (split; [vm_compute; reflexivity|split; [done|eexists; split; vm_compute; reflexivity]]). Qed.

Lemma calls_isolated_witness :
  tx_holds iso1 1000 2000 /\
  exists w', run_call 1016 0 (Some 8) (CallWriteSeq [Byte.x63]) iso1 = Abort TXC_ABORTREASON_BUSYSENTINEL w'.
Proof.
  assert (run_call 1000 0 (Some 7) (CallRead 1) iso0 = Ret tt iso1) as E by (runs_to iso1).
  destruct iso_object as [Ho0 Ho1].
  pose proof (calls_isolated mem_grants iso0 two_phases iso0 two_phases 1000 0 3000 2000 (Some 7) (CallRead 1)
    iso_start (rtc_refl _ _) eq_refl eq_refl Ho0 ltac:(eexists; vm_compute; reflexivity)
    ltac:(intros []; apply can_register_decided; vm_compute; reflexivity)) as [H1 _].
  rewrite E in H1. destruct H1 as (Hr & Hh & _). split; [exact Hh|].
  apply (calls_isolated mem_grants iso0 two_phases iso1 two_phases 1016 0 3000 2000 (Some 8) (CallWriteSeq [Byte.x63])
    iso_start Hr).
  - vm_compute. reflexivity.
  - vm_compute. reflexivity.
  - exact Ho1.
  - eexists. vm_compute. reflexivity.
  - intros []; apply can_register_decided; vm_compute; reflexivity.
  - exists 1000. split; [done|]. split; [eexists; vm_compute; reflexivity|exact Hh].
Defined.
