(* ===== verification/Atomic.v ===== *)
(** * A transaction on a file is all or nothing

    [Undo] is about one attempt. Here a block of calls on a file is run as the TM library
    runs it: attempt after attempt, each aborted one rolled back and the block started
    again, with other threads at work in between, until one returns and commits, or the
    application gives up. *)

From S2P Require Import Prelude Dll Pool HashTable Buffer Actions World MemFs Tx Sentinel Views Koa XFile XDir XPipe System Frames KoaFrames Undo Isolation.

Section atomic.
Context {PF : Platform} (realloc_grants : forall n, realloc_ok n = true).
Context (fd : Z) {RF : RegularFile fd} (txd : Z).
Implicit Types (w : world) (v : list byte * Z).

(** The block: calls, and then perhaps an abort of the application's. *)
Definition block (ops : list fop) (abort : option txc_tx_abortreason_t) : M world unit :=
  m_iter (run_fop fd txd) ops ;;;
  match abort with Some reason => txc_tx_abort_transaction txd reason | None => m_ret tt end.

(** What other threads do: anything but to this thread's descriptor. Between two attempts
    they may change the file, which stays a file; between an abort and the end of its
    rollback, which waits for the sentinels to be released, they leave it alone. *)
Definition others w w' : Prop := txds (w_txmgr w') !! txd = txds (w_txmgr w) !! txd /\ is_Some (fv fd w').
Definition others_apart w w' : Prop := txds (w_txmgr w') !! txd = txds (w_txmgr w) !! txd /\ fv fd w' = fv fd w.

(** From the start of an attempt to the start of a later one, with the calls made where
    they are right. *)
Inductive attempts (ops : list fop) (abort : option txc_tx_abortreason_t) : world -> world -> Prop :=
  | attempts_here w : attempts ops abort w w
  | attempts_next w r w1 w1' w2 w3 w' :
      fops_ok fd txd ops w -> block ops abort w = Abort r w1 -> r <> TXC_ABORTREASON_USERABORT ->
      others_apart w1 w1' -> xact_rollback txd r w1' = Ret tt w2 -> others w2 w3 ->
      attempts ops abort w3 w' -> attempts ops abort w w'.

(** ** The commit side of the calls

    The calls register nothing to be done at commit but the sentinel manager's action. *)

Definition commits_nothing (n : Z) w : Prop := exists k, registered CommitSide txd k [] n w.

Definition same_commit w w' : Prop :=
  aview CommitSide txd w' = aview CommitSide txd w /\ (ready CommitSide txd w -> ready CommitSide txd w').

#[global] Instance same_commit_preorder : PreOrder same_commit.
Proof. split; [done|]. intros w1 w2 w3 [H1 H2] [H3 H4]. split; [congruence|auto]. Qed.

Lemma same_side_commit {A} (m : M world A) : m_pres (same_side CommitSide txd) m -> m_pres same_commit m.
Proof. apply m_pres_weaken. by intros w w' (_ & H). Qed.

Lemma libc_commit {A} (c : syscall kstate A) : m_pres same_commit (libc c).
Proof. by apply libc_pres. Qed.

Lemma commits_same n w w' : commits_nothing n w -> same_commit w w' -> commits_nothing n w'.
Proof.
  intros (k & [(la & Ha & Hrest) _ Hr]) [Hs Hr']. exists (w_kernel w'). split; [|done|by apply Hr']. exists la. by rewrite Hs.
Qed.

Lemma commits_mono n m w : commits_nothing n w -> n <= m -> commits_nothing m w.
Proof. intros (k & H) Hn. exists k. by eapply registered_mono. Qed.

Definition some_commits w : Prop := exists n, commits_nothing n w.

Lemma commits_pres {A} (m : M world A) n : m_pres same_commit m -> m_hoare (commits_nothing n) m (fun _ => commits_nothing n) some_commits.
Proof.
  intros Hm w Hw. specialize (Hm w). destruct (m w); try done; [|exists n]; by eapply commits_same.
Qed.

Ltac commit_auto :=
  repeat first [solve [apply libc_commit] | solve [apply same_side_commit; m_pres_auto] | m_pres_step].

(** A call made with [acquire_fd]. *)
Lemma acquired_commits {A} result (f : option Z -> M world (A * Z)) n :
  txd <> 0 -> n < 2 ^ 29 -> (forall acq, m_pres same_commit (f acq)) ->
  m_hoare (commits_nothing n) (finish result (m_bind (acquire_fd txd fd TXC_SENTINEL_ACQUIREONRETRY) f))
    (fun _ => commits_nothing (n + 1)) some_commits.
Proof.
  intros H0 Hn Hf. unfold finish. apply m_hoare_assoc. eapply m_hoare_bind.
  - intros w (k & Hw). pose proof (acquire_fd_reg realloc_grants CommitSide txd fd TXC_SENTINEL_ACQUIREONRETRY n Hn k [] w Hw) as Ha.
    destruct (acquire_fd _ _ _ w) as [acq w'|r w'| | | |]; try done; [exact (ex_intro (fun k => registered _ _ k _ _ _) k Ha)|].
    destruct Ha as [m Ha]. by exists m, k.
  - intros acq. apply commits_pres. apply m_pres_bind; [typeclasses eauto|apply Hf|intros [a e]]. commit_auto.
Qed.

Lemma retryable_commits {A} (f : txc_tx_xactstate_t -> M world A) Q n :
  txd <> 0 -> m_hoare (commits_nothing n) (f TXC_XACTSTATE_TRANSACTIONAL_RETRYABLE) Q some_commits ->
  m_hoare (commits_nothing n) (do x <- txc_tx_get_xactstate txd ;; f x) Q some_commits.
Proof.
  intros H0 Hf w Hw. pose proof Hw as (k & Hr). rewrite (m_bind_run _ _ _ _ _ (registered_mode _ _ _ _ _ _ H0 Hr)). by apply Hf.
Qed.

Lemma fop_commits op n :
  txd <> 0 -> n < 2 ^ 29 -> m_hoare (commits_nothing n) (run_fop fd txd op) (fun _ => commits_nothing (n + 1)) some_commits.
Proof.
  intros H0 Hn. destruct op; simpl; (apply (m_hoare_bind _ _ _ (fun _ => commits_nothing (n + 1))); [|intros ?; by apply m_hoare_ret]);
    unfold x_read, x_lseek, x_write_seq, x_write_ovr_save, x_write; apply retryable_commits; try done; cbv beta iota; apply acquired_commits; try done.
  all: intros []; [|commit_auto].
  - commit_auto.
  - commit_auto.
  - rewrite bool_decide_eq_true_2 by done. unfold x_write_seq_tx. commit_auto.
  - rewrite bool_decide_eq_false_2, orb_true_r by done. unfold x_write_ovr_tx, x_write_ovr_old. commit_auto.
Qed.

(** ** Aborts arm the callback *)

Notation entry := (txc_tx_action_list_entry_t action).

Lemma hoare_noabort {A} (P : world -> Prop) (m : M world A) Q E E' : m_hoare P m Q E -> m_noabort m -> m_hoare P m Q E'.
Proof. intros Hm Hn w Hw. specialize (Hm w Hw). specialize (Hn w). by destruct (m w). Qed.

Lemma noabort_armed {A} (P : world -> Prop) (m : M world A) : m_noabort m -> m_hoare P m (fun _ _ => True) (armed txd).
Proof. intros Hn w _. specialize (Hn w). by destruct (m w). Qed.

Lemma lookup_noabort a : m_noabort (txc_koa_lookup_fd2koa a).
Proof. destruct access_noabort as (_ & _ & H & _). unfold txc_koa_lookup_fd2koa. m_noabort_auto. Qed.

Lemma acquire_armed k (l : list entry) n :
  n < 2 ^ 29 ->
  m_hoare (registered UndoSide txd k l n) (acquire_fd txd fd TXC_SENTINEL_ACQUIREONRETRY) (fun _ _ => True) (armed txd).
Proof.
  intros Hn. unfold acquire_fd.
  eapply m_hoare_bind; [eapply hoare_noabort; [apply reg_quiet; m_pres_auto|m_noabort_auto]|intros ?].
  eapply m_hoare_bind; [eapply hoare_noabort; [apply reg_quiet; unfold txc_koa_lookup_fd2koa; m_pres_auto|apply lookup_noabort]|].
  intros [xret koa]. case_bool_decide; [apply noabort_armed; m_noabort_auto|].
  eapply m_hoare_bind; [eapply hoare_noabort; [apply reg_quiet; unfold txc_koa_get_sentinel; m_pres_auto|m_noabort_auto]|intros s].
  eapply m_hoare_bind; [eapply hoare_noabort; [by apply tryacquire_reg|m_noabort_auto]|intros c].
  eapply m_hoare_bind; [eapply hoare_noabort; [apply reg_quiet; m_pres_auto|m_noabort_auto]|intros ?].
  case_bool_decide; [|by apply noabort_armed]. intros w Hw.
  destruct (txc_tx_abort_transaction _ _ w) as [| r w' | | | |] eqn:E; try done. eapply abort_armed; [exact (reg_ready _ _ _ _ _ _ Hw)|exact E].
Qed.

Lemma acquired_armed {A} result (f : option Z -> M world (A * Z)) k (l : list entry) n :
  n < 2 ^ 29 -> (forall acq, m_noabort (f acq)) ->
  m_hoare (registered UndoSide txd k l n) (finish result (m_bind (acquire_fd txd fd TXC_SENTINEL_ACQUIREONRETRY) f))
    (fun _ _ => True) (armed txd).
Proof.
  intros Hn Hf. unfold finish. apply m_hoare_assoc. eapply m_hoare_bind; [by apply acquire_armed|intros acq].
  apply noabort_armed. apply m_noabort_bind; [apply Hf|intros [a e]]. m_noabort_auto.
Qed.

Lemma fop_armed op k (l : list entry) n :
  txd <> 0 -> n < 2 ^ 29 -> m_hoare (registered UndoSide txd k l n) (run_fop fd txd op) (fun _ _ => True) (armed txd).
Proof.
  intros H0 Hn. destruct op; simpl; (apply (m_hoare_bind _ _ _ (fun _ _ => True)); [|intros ?; by apply m_hoare_ret]);
    unfold x_read, x_lseek, x_write_seq, x_write_ovr_save, x_write; intros w Hw;
    rewrite (m_bind_run _ _ _ _ _ (registered_mode _ _ _ _ _ _ H0 Hw)); revert w Hw; cbv beta iota; apply acquired_armed; try done.
  all: unfold x_read_tx, get_errno; intros []; [|m_noabort_auto].
  - m_noabort_auto.
  - m_noabort_auto.
  - rewrite bool_decide_eq_true_2 by done. unfold x_write_seq_tx, get_errno. m_noabort_auto.
  - rewrite bool_decide_eq_false_2, orb_true_r by done. unfold x_write_ovr_tx, x_write_ovr_old, get_errno. m_noabort_auto.
Qed.

(** ** One attempt *)

(** The start of an attempt on a file with the view [v]. *)
Record attempt_start v w : Prop := {
  as_view : fv fd w = Some v;
  as_undo : registered UndoSide txd (w_kernel w) [] 1 w;
  as_commit : registered CommitSide txd (w_kernel w) [] 1 w;
}.

Lemma start_body v w : attempt_start v w -> body_inv fd txd v 1 v w /\ commits_nothing 1 w.
Proof. intros [Hv Hu Hc]. split; [|by eexists]. exists (w_kernel w), []. split_and!; [done|done|apply undoes_nil]. Qed.

(** Where an attempt stops. *)
Definition attempt_stop v w : Prop := body_stop fd txd v w /\ some_commits w /\ armed txd w.

Lemma fops_attempt ops orig n v w :
  txd <> 0 -> fops_ok fd txd ops w -> n + 2 * Z.of_nat (length ops) < 2 ^ 29 -> body_inv fd txd orig n v w -> commits_nothing n w ->
  match m_iter (run_fop fd txd) ops w with
  | Ret _ w' => body_after fd txd orig (n + 2 * Z.of_nat (length ops)) w' /\ commits_nothing (n + 2 * Z.of_nat (length ops)) w'
  | Abort _ w' => attempt_stop orig w'
  | _ => True
  end.
Proof.
  intros H0. revert n v w. induction ops as [|op ops IH]; intros n v w Hok Hn Hw Hc; simpl in *.
  - split; [exists v; eapply body_inv_mono; [done|lia]|by eapply commits_mono; [exact Hc|lia]].
  - destruct Hok as [Hop Hok].
    pose proof (fop_body realloc_grants fd txd op orig n v H0 (Hop v (bi_view _ _ _ _ _ _ Hw)) ltac:(lia) w Hw) as Hh.
    pose proof (fop_commits op n H0 ltac:(lia) w Hc) as Hhc.
    assert (match run_fop fd txd op w with Abort _ w' => armed txd w' | _ => True end) as Ha.
    { destruct Hw as (k & l & Hr & _). pose proof (fop_armed op k l n H0 ltac:(lia) w Hr) as Ha. by destruct (run_fop fd txd op w). }
    unfold m_bind. destruct (run_fop fd txd op w) as [[] w1|r w1| | | |] eqn:E; try done. destruct Hh as [v1 Hw1].
    specialize (IH (n + 2) v1 w1 (Hok _ eq_refl) ltac:(lia) Hw1 ltac:(eapply commits_mono; [exact Hhc|lia])).
    replace (n + 2 * Z.of_nat (S (length ops))) with (n + 2 + 2 * Z.of_nat (length ops)) by lia. exact IH.
Qed.

Lemma block_attempt ops abort v w :
  txd <> 0 -> fops_ok fd txd ops w -> Z.of_nat (length ops) < 2 ^ 27 -> attempt_start v w ->
  match block ops abort w with
  | Ret _ w' => some_commits w'
  | Abort _ w' => attempt_stop v w'
  | _ => True
  end.
Proof.
  intros H0 Hok Hlen [Hb Hc]%start_body. pose proof (fops_attempt ops v 1 v w H0 Hok ltac:(lia) Hb Hc) as H.
  unfold block, m_bind. destruct (m_iter _ _ w) as [[] w1|r w1| | | |]; try done. destruct H as [[v1 Hb1] Hc1].
  destruct abort as [reason|]; [|by eexists]. pose proof (abort_side UndoSide txd txd (A := unit) reason w1) as Hs.
  pose proof (abort_side CommitSide txd txd (A := unit) reason w1) as Hsc.
  destruct (txc_tx_abort_transaction txd reason w1) as [|r w2| | | |] eqn:E; try done; [by apply abort_returns in E|].
  split; [eexists _, _; by eapply body_inv_same|]. split; [eexists; eapply commits_same; [exact Hc1|]; by destruct Hsc as (_ & Hsc)|].
  destruct Hb1 as (k & l & Hr & _). eapply abort_armed; [exact (reg_ready _ _ _ _ _ _ Hr)|exact E].
Qed.

(** ** From one attempt to the next *)

Lemma registered_others sd k (l : list entry) n w w' :
  registered sd txd k l n w -> txds (w_txmgr w') !! txd = txds (w_txmgr w) !! txd -> registered sd txd (w_kernel w') l n w'.
Proof.
  intros [(la & Ha & Hrest) _ Hr] Ht. split; [|done|].
  - exists la. unfold aview in *. by rewrite Ht.
  - intros t Hl. rewrite Ht in Hl. by apply Hr.
Qed.

Lemma stop_others v w w' : attempt_stop v w -> others_apart w w' -> attempt_stop v w'.
Proof.
  intros ((n & v1 & k & l & Hr & Hv & Hun) & (m & kc & Hc) & Harm) [Ht Hf]. split_and!.
  - exists n, v1, (w_kernel w'), l. split; [by eapply registered_others|]. split; [|done].
    rewrite <- Hv, <- (reg_kernel _ _ _ _ _ _ Hr). exact Hf.
  - exists m, (w_kernel w'). by eapply registered_others.
  - intros t Hl. rewrite Ht in Hl. by apply Harm.
Qed.

Lemma rollback_start v w r w' :
  attempt_stop v w -> r <> TXC_ABORTREASON_USERABORT -> xact_rollback txd r w = Ret tt w' -> attempt_start v w'.
Proof.
  intros (Hs & (m & kc & [(lc & Hlc & (es & He & _ & _ & _ & Hsz) & _) _ _]) & Harm) Hr E. pose proof Hs as (n & v1 & k & l & Hreg & Hv & Hun).
  rewrite <- (reg_kernel _ _ _ _ _ _ Hreg) in Hv. destruct (Hun 0 w Hv) as (first & w1 & Hrun & Hv1 & Ht1).
  destruct (aview_inv _ _ _ _ _ Hlc) as (t & Ht & Hlt & _). subst lc. split.
  - by eapply rollback_restores.
  - by eapply (restart_reg realloc_grants txd k l n w first w1 r w').
  - by eapply (restart_other realloc_grants txd CommitSide k l n w first w1 r w' t es).
Qed.

Lemma start_others v w w' : attempt_start v w -> others w w' -> exists v', attempt_start v' w'.
Proof. intros [_ Hu Hc] [Ht [v' Hv]]. exists v'. split; [done|by eapply registered_others|by eapply registered_others]. Qed.

Lemma attempts_start ops abort v w w' :
  txd <> 0 -> Z.of_nat (length ops) < 2 ^ 27 -> attempts ops abort w w' -> attempt_start v w -> exists v', attempt_start v' w'.
Proof.
  intros H0 Hlen Ha. revert v. induction Ha as [w|w r w1 w1' w2 w3 w' Hok E Hr Ho Er Ho2 _ IH]; intros v Hs; [by exists v|].
  pose proof (block_attempt ops abort v w H0 Hok Hlen Hs) as Hb. rewrite E in Hb.
  destruct (start_others v w2 w3) as [v3 Hs3]; [|done|by apply (IH v3)].
  eapply rollback_start; [by eapply stop_others|exact Hr|exact Er].
Qed.
End atomic.

(** C2: A block of calls on a regular file is all or nothing, however often it is tried. A
    thread between transactions begins one; after any number of attempts, each aborted,
    rolled back and restarted, with other threads at work in between, take an attempt that
    starts with the file's contents and offset at [v]. If it returns, the commit leaves the
    file as the calls of this attempt have left it; if it aborts, by a busy sentinel or by
    the application, the rollback leaves the file at [v]. The other threads leave this
    thread's descriptor alone throughout, and the file from an abort to the end of its
    rollback. *)
Theorem file_block_all_or_nothing `{PF : Platform} (realloc_grants : forall n, realloc_ok n = true) fd
    `{!RegularFile fd} txd ops abort w w0 wn :
  tx_idle UndoSide txd w -> tx_idle CommitSide txd w -> is_Some (fview (w_kernel w)) -> xact_begin txd w = Ret tt w0 ->
  Z.of_nat (length ops) < 2 ^ 27 -> attempts fd txd ops abort w0 wn -> fops_ok fd txd ops wn ->
  exists v, fview (w_kernel wn) = Some v /\
    match block fd txd ops abort wn with
    | Ret _ w1 => forall w2, xact_commit txd w1 = Ret tt w2 -> fview (w_kernel w2) = fview (w_kernel w1)
    | Abort r w1 => forall w1' w2, others_apart fd txd w1 w1' -> xact_rollback txd r w1' = Ret tt w2 -> fview (w_kernel w2) = Some v
    | _ => True
    end.
Proof.
  intros Hiu Hic [v0 Hv0] Hb Hlen Ha Hok. pose proof (proj1 Hiu) as H0.
  assert (attempt_start fd txd v0 w0) as Hs.
  { pose proof (begin_quiet same_kernel txd w) as Hk. rewrite Hb in Hk.
    pose proof (begin_reg realloc_grants UndoSide txd w w0 Hiu Hb) as Hu. pose proof (begin_reg realloc_grants CommitSide txd w w0 Hic Hb) as Hc.
    split; [unfold fv; by rewrite Hk|by rewrite Hk|by rewrite Hk]. }
  destruct (attempts_start realloc_grants fd txd ops abort v0 w0 wn H0 Hlen Ha Hs) as [v Hn]. exists v. split; [exact (as_view _ _ _ _ Hn)|].
  pose proof (block_attempt realloc_grants fd txd ops abort v wn H0 Hok Hlen Hn) as Hat.
  destruct (block fd txd ops abort wn) as [[] w1|r w1| | | |]; try done.
  - intros w2 E. destruct Hat as (m & k & Hc). pose proof (commit_quiet same_kernel txd k [] m w1 0 w1 w2 Hc eq_refl E) as Hk.
    by rewrite Hk.
  - intros w1' w2 Ho E. destruct (stop_others fd txd v w1 w1' Hat Ho) as (Hst & _). by eapply (rollback_restores fd txd v r w1' w2).
Qed.

(** *** Two transactions on one file, to their ends

    The thread at 1000 reads the file to its end and holds it. The thread at 1016 wants to
    append: its first attempt is refused; 1000 commits; the second attempt goes through. *)

Definition at_read : M world unit := run_call 1000 0 (Some 7) (CallRead 2).
Definition at_append : list fop := [FWriteSeq [Byte.x63] None].
Definition at_block : M world unit := block 0 1016 at_append None.

Definition at_world0 : world :=
  put_fd 0 (Fd2Koa false 3000) (put_koa 3000 one_koa (mem_world (mf_one_file [Byte.x61; Byte.x62] 0) 4)).
Definition at_world1 : world := after at_read (after (xact_begin 1000) at_world0).
Definition at_world2 : world := after (xact_begin 1016) at_world1.
Definition at_world3 : world := after at_block at_world2.
Definition at_world4 : world := after (xact_commit 1000) at_world3.
Definition at_world5 : world := after (xact_rollback 1016 TXC_ABORTREASON_BUSYSENTINEL) at_world4.
Definition at_world6 : world := after at_block at_world5.
Definition at_world7 : world := after (xact_commit 1016) at_world6.

(** The second thread's descriptor while it waits. *)
Definition at_waiting : option txc_tx_t := Eval vm_compute in txds (w_txmgr at_world3) !! 1016.

Lemma append_ok w : mf_view 0 (w_kernel w) = Some ([Byte.x61; Byte.x62], 2) -> fops_ok 0 1016 at_append w.
Proof.
  intros Hv. split; [|done]. intros v. change (mf_view 0 (w_kernel w) = Some v -> fop_ok (FWriteSeq [Byte.x63] None) v).
  rewrite Hv. by intros [= <-].
Qed.

(** The commit of 1000 leaves the other's descriptor and the file alone. *)
Lemma append_waits : others_apart 0 1016 at_world3 at_world4.
Proof.
  assert (txds (w_txmgr at_world3) !! 1016 = at_waiting) as T3 by run_eq.
  assert (txds (w_txmgr at_world4) !! 1016 = at_waiting) as T4 by run_eq.
  assert (fv 0 at_world3 = Some ([Byte.x61; Byte.x62], 2)) as V3 by run_eq.
  assert (fv 0 at_world4 = Some ([Byte.x61; Byte.x62], 2)) as V4 by run_eq.
  split; [by rewrite T3, T4|by rewrite V3, V4].
Qed.

Lemma file_block_all_or_nothing_witness :
  at_block at_world2 = Abort TXC_ABORTREASON_BUSYSENTINEL at_world3 /\ at_block at_world5 = Ret tt at_world6 /\
  mf_view 0 (w_kernel at_world5) = Some ([Byte.x61; Byte.x62], 2) /\
  fview (fd := 0) (w_kernel at_world7) = Some ([Byte.x61; Byte.x62; Byte.x63], 3).
Proof.
  assert (at_block at_world2 = Abort TXC_ABORTREASON_BUSYSENTINEL at_world3) as E3 by (runs_to at_world3).
  assert (block 0 1016 at_append None at_world5 = Ret tt at_world6) as E6 by (runs_to at_world6).
  assert (mf_view 0 (w_kernel at_world5) = Some ([Byte.x61; Byte.x62], 2)) as V5 by run_eq.
  assert (is_Some (fv 0 at_world5)) as F5 by (exists ([Byte.x61; Byte.x62], 2); run_eq).
  assert (fview (fd := 0) (w_kernel at_world6) = Some ([Byte.x61; Byte.x62; Byte.x63], 3)) as V6 by run_eq.
  split_and!; [exact E3|exact E6|exact V5|].
  destruct (file_block_all_or_nothing mem_grants 0 1016 at_append None at_world1 at_world2 at_world5) as (v & _ & H).
  - apply idle_at_idle; [done|run_eq].
  - apply idle_at_idle; [done|run_eq].
  - exists ([Byte.x61; Byte.x62], 2). run_eq.
  - runs_to at_world2.
  - done.
  - apply (attempts_next 0 1016 at_append None at_world2 TXC_ABORTREASON_BUSYSENTINEL at_world3 at_world4 at_world5 at_world5).
    + apply append_ok. run_eq.
    + exact E3.
    + done.
    + exact append_waits.
    + runs_to at_world5.
    + split; [reflexivity|exact F5].
    + apply attempts_here.
  - by apply append_ok.
  - rewrite E6 in H. rewrite <- V6. apply (H at_world7). runs_to at_world7.
Defined.
