(* ===== verification/Names.v ===== *)
(** * Names: creating, unlinking and renaming files

    [x_create] and [x_rename] change the directory at once and register what puts
    it back; [x_unlink] is deferred. A view of the directory, from names to inodes
    and contents, says what an abort restores, and what it does not: a file that
    [x_create] could not move out of the way is lost, and an unlink runs after the
    other actions of the commit. *)

From stdpp Require Import stringmap.
From S2P Require Import Prelude Dll Pool HashTable Buffer Actions World MemFs Tx Sentinel Views Koa XFile XDir XPipe System Frames KoaFrames Undo.

(** ** The kernel's promise *)

(** A file: its inode and its bytes. *)
Notation file := (Z * list byte)%type.

Definition mktemp_template : string := "/tmp/libtxc.tmp.XXXXXX".

(** The calls on names, for a process that may write its directories. [rename] and
    [link] may fail even so, between two file systems for instance; [mktemp]
    returns a name that is free, or else the empty one, which names nothing. *)
Class NameSpace `{PF : Platform} := {
  nview : kstate -> option (gmap string file);
  nview_stat k v p : nview k = Some v ->
    let '((ret, ino), k') := call_result (sys_stat p) k in nview k' = Some v /\
    match v !! p with Some (i, _) => ret = 0 /\ ino = i /\ ino <> 0 | None => ret <> 0 end;
  nview_creat k v p mode : nview k = Some v -> v !! p = None ->
    let '(ret, k') := call_result (sys_open p creation_flags mode) k in
    (ret < 0 /\ nview k' = Some v) \/ (0 <= ret /\ exists i, nview k' = Some (<[p := (i, [])]> v));
  nview_creat_over k v p mode i c : nview k = Some v -> v !! p = Some (i, c) ->
    let '(ret, k') := call_result (sys_open p creation_flags mode) k in
    (ret < 0 /\ nview k' = Some v) \/ (0 <= ret /\ exists v', nview k' = Some v' /\ v' !! p = Some (i, []));
  nview_close k v fd : nview k = Some v -> nview (call_result (sys_close fd) k).2 = Some v;
  nview_unlink k v p : nview k = Some v ->
    let '(ret, k') := call_result (sys_unlink p) k in
    nview k' = Some (delete p v) /\ (is_Some (v !! p) -> ret = 0);
  (** (two names of one file are left alone by [rename]: one of them is free here) *)
  nview_rename k v a b : nview k = Some v -> v !! a = None \/ v !! b = None ->
    let '(ret, k') := call_result (sys_rename a b) k in
    (ret < 0 /\ nview k' = Some v) \/
    (exists f, v !! a = Some f /\ ret = 0 /\ nview k' = Some (<[b := f]> (delete a v)));
  (** what was renamed can be renamed back *)
  nview_rename_back k1 a b k2 v : (call_result (sys_rename a b) k1).1 = 0 -> nview k2 = Some v -> is_Some (v !! b) ->
    (call_result (sys_rename b a) k2).1 = 0;
  nview_link k v a b : nview k = Some v ->
    let '(ret, k') := call_result (sys_link a b) k in
    (ret < 0 /\ nview k' = Some v) \/
    (exists f, v !! a = Some f /\ v !! b = None /\ ret = 0 /\ nview k' = Some (<[b := f]> v));
  nview_mktemp k v : nview k = Some v ->
    let '(t, k') := call_result (sys_mktemp mktemp_template) k in nview k' = Some v /\ v !! t = None;
}.

Section names.
Context {PF : Platform} (realloc_grants : forall n, realloc_ok n = true) {NS : NameSpace} (txd : Z).
Implicit Types (v orig : gmap string file) (w : world).

Definition nv w : option (gmap string file) := nview (w_kernel w).

(** [a], when it returns, takes the view [v'] back to [v]. *)
Definition act_back (a : action) v' v : Prop :=
  m_hoare (fun w => nv w = Some v') (run_action a) (fun _ w => nv w = Some v) (fun _ => True).

Definition acts_back (l : list (txc_tx_action_list_entry_t action)) v orig : Prop :=
  forall first w, nv w = Some v ->
    match exec_seq run_action store_int l first w with Ret _ w' => nv w' = Some orig | _ => True end.

Lemma acts_back_nil v : acts_back [] v v.
Proof. by intros first w Hw. Qed.

Lemma acts_back_cons e l v v' orig : act_back (function e) v' v -> acts_back l v orig -> acts_back (e :: l) v' orig.
Proof.
  intros Ha Hl first w Hw. cbn [exec_seq]. unfold exec_entry. specialize (Ha w Hw).
  rewrite m_bind_assoc. unfold m_bind at 1. destruct (run_action (function e) w) as [r w1| | | | |]; try done.
  assert (exists w2, (match error_result e with Some p => m_modify (store_int p r) | None => m_ret tt end) w1 = Ret tt w2 /\
    nv w2 = Some v) as (w2 & E & Hw2) by (destruct (error_result e); by eexists).
  rewrite m_bind_assoc, (m_bind_run _ _ _ _ _ E). by apply Hl.
Qed.

(** A retryable transaction whose compensating actions take the names from [v] to
    [orig]; the names are [v'] now. *)
Definition names_inv orig (n : Z) v v' w : Prop := exists l,
  registered UndoSide txd (w_kernel w) l n w /\ nv w = Some v' /\ acts_back (reverse l) v orig.
Definition names_stop orig w : Prop := exists n v, names_inv orig n v v w.

Lemma names_inv_mono orig n m v v' w : names_inv orig n v v' w -> n <= m -> names_inv orig m v v' w.
Proof. intros (l & Hr & Hv) Hn. exists l. split; [by eapply registered_mono|done]. Qed.

Lemma names_inv_same orig n v v' w w' : names_inv orig n v v' w -> same_side UndoSide txd w w' -> names_inv orig n v v' w'.
Proof.
  intros (l & Hr & Hv & Ha) Hs. pose proof Hs as (Hk & _). exists l. unfold nv. rewrite Hk. split; [|done].
  by eapply registered_same.
Qed.

(** An operation that registers at most the sentinel manager's action. *)
Lemma names_reg {A} (m : M world A) orig n n' v :
  reg_hoare UndoSide txd n n' m ->
  m_hoare (names_inv orig n v v) m (fun _ => names_inv orig n' v v) (names_stop orig).
Proof.
  intros Hm w (l & Hr & Hv & Ha). specialize (Hm _ l w Hr). destruct (m w) as [a w'|r w'| | | |]; try done.
  - exists l. pose proof (reg_kernel _ _ _ _ _ _ Hm) as Hk. unfold nv. by rewrite Hk.
  - destruct Hm as [n2 Hm]. pose proof (reg_kernel _ _ _ _ _ _ Hm) as Hk. exists n2, v, l. unfold nv. rewrite Hk.
    split; [exact Hm|done].
Qed.

Lemma names_reg_noabort {A} (m : M world A) orig n n' v v' E :
  reg_hoare UndoSide txd n n' m -> m_noabort m ->
  m_hoare (names_inv orig n v v') m (fun _ => names_inv orig n' v v') E.
Proof.
  intros Hm Hn w (l & Hr & Hv & Ha). specialize (Hm _ l w Hr). specialize (Hn w).
  destruct (m w) as [a w'|r w'| | | |]; try done.
  exists l. pose proof (reg_kernel _ _ _ _ _ _ Hm) as Hk. unfold nv. by rewrite Hk.
Qed.

Lemma names_quiet {A} (m : M world A) orig n v v' E :
  m_pres (same_side UndoSide txd) m -> m_noabort m ->
  m_hoare (names_inv orig n v v') m (fun _ => names_inv orig n v v') E.
Proof. intros Hs. apply names_reg_noabort. by apply reg_quiet. Qed.

(** A system call that takes the view to one of those [Q] allows. *)
Lemma names_call {A} (c : syscall kstate A) (Q : A -> gmap string file -> Prop) orig n v v' E :
  (forall k, nview k = Some v' -> let '(a, k') := call_result c k in exists v2, nview k' = Some v2 /\ Q a v2) ->
  m_hoare (names_inv orig n v v') (libc c) (fun a w => exists v2, names_inv orig n v v2 w /\ Q a v2) E.
Proof.
  intros HQ w (l & Hr & Hv & Ha). specialize (HQ _ Hv). destruct (call_result c (w_kernel w)) as [a k] eqn:Ec.
  destruct (libc_call _ _ _ _ Ec) as (w' & E' & Hk & Ht). rewrite E'. destruct HQ as (v2 & Hv2 & HQ). exists v2. split; [|done].
  exists l. split; [by eapply registered_call|]. unfold nv. by rewrite Hk.
Qed.

(** *** The compensating actions *)

Lemma view_quiet {A} (m : M world A) v E :
  m_pres same_kernel m -> m_noabort m -> m_hoare (fun w => nv w = Some v) m (fun _ w => nv w = Some v) E.
Proof. intros Hm Hn. apply (m_hoare_quiet same_kernel); [done|done|]. intros w w' Hw Hk. unfold nv. by rewrite Hk. Qed.

(** The call [c] takes the view [v] to [v2], whatever it returns. *)
Definition call_takes {A} (c : syscall kstate A) v v2 : Prop :=
  forall k, nview k = Some v -> nview (call_result c k).2 = Some v2.

Lemma view_call {A} (c : syscall kstate A) v v2 E :
  call_takes c v v2 -> m_hoare (fun w => nv w = Some v) (libc c) (fun _ w => nv w = Some v2) E.
Proof.
  intros HQ w Hv. specialize (HQ _ Hv). destruct (call_result c (w_kernel w)) as [a k] eqn:Ec.
  destruct (libc_call _ _ _ _ Ec) as (w' & E' & Hk & _). rewrite E'. unfold nv. by rewrite Hk.
Qed.

Lemma view_errno (b : bool) (e : Z) v E :
  m_hoare (fun w => nv w = Some v) (if b then get_errno else m_ret e) (fun _ w => nv w = Some v) E.
Proof. apply view_quiet; destruct b; unfold get_errno; m_pres_auto; m_noabort_auto. Qed.

Lemma view_or_errno (c : syscall kstate Z) e v v2 E :
  call_takes c v v2 -> m_hoare (fun w => nv w = Some v) (or_errno (libc c) e) (fun _ w => nv w = Some v2) E.
Proof. intros Hc. unfold or_errno. eapply m_hoare_bind; [by apply view_call|intros r]. apply view_errno. Qed.

(** What the calls of the actions do to the view. *)
Lemma unlink_takes p v : call_takes (sys_unlink p) v (delete p v).
Proof. intros k Hv. pose proof (nview_unlink k v p Hv). by destruct (call_result _ k) as [? ?]; destruct H. Qed.

Lemma close_takes fd v : call_takes (sys_close fd) v v.
Proof. intros k Hv. by apply nview_close. Qed.

Lemma rename_back_takes k1 a b f v :
  (call_result (sys_rename a b) k1).1 = 0 -> v !! b = Some f -> v !! a = None ->
  call_takes (sys_rename b a) v (<[a := f]> (delete b v)).
Proof.
  intros H1 Hb Ha k Hv. pose proof (nview_rename k v b a Hv (or_intror Ha)) as H. pose proof (nview_rename_back k1 a b k v H1 Hv ltac:(by eexists)) as Hr.
  destruct (call_result _ k) as [r k']. simpl in Hr. destruct H as [[Hn _]|(f' & Hf & _ & H)]; [lia|]. simpl. congruence.
Qed.

(** Go through an action: what leaves the kernel alone, a call, the result. *)
Ltac view_step :=
  lazymatch goal with
  | |- m_hoare _ (m_ret _) _ _ => by apply m_hoare_ret
  | |- m_hoare _ (m_bind (libc _) _) _ _ => eapply m_hoare_bind; [eapply view_call|intros ?]
  | |- m_hoare _ (m_bind (or_errno (libc _) _) _) _ _ => eapply m_hoare_bind; [eapply view_or_errno|intros ?]
  | |- m_hoare _ (m_bind (if _ then get_errno else _) _) _ _ => eapply m_hoare_bind; [apply view_errno|intros ?]
  | |- m_hoare _ (m_bind _ _) _ _ => eapply m_hoare_bind; [apply view_quiet; [m_pres_auto|m_noabort_auto]|intros ?]
  end.

Lemma case1_undo_back fd koa p v : act_back (x_create_case1_undo fd koa p) v (delete p v).
Proof.
  unfold act_back. cbn [run_action]. unfold run_x_create_case1_undo.
  repeat view_step; [apply unlink_takes|apply close_takes].
Qed.

(** The file is moved back over the one that was made. *)
Lemma case2_undo_back k1 fd koa t p f v :
  (call_result (sys_rename p t) k1).1 = 0 -> t <> p -> v !! t = Some f ->
  act_back (x_create_case2_undo fd koa t p) v (<[p := f]> (delete t (delete p v))).
Proof.
  intros H1 Hne Ht. unfold act_back. cbn [run_action]. unfold run_x_create_case2_undo.
  repeat view_step; [apply unlink_takes| |apply close_takes].
  eapply rename_back_takes; [exact H1|by rewrite lookup_delete_ne|apply lookup_delete_eq].
Qed.

Lemma rename_undo_back_free ok nk o n t v : act_back (x_rename_undo ok nk false o n t) v (delete n v).
Proof.
  unfold act_back. cbn [run_action]. unfold run_x_rename_undo, rename_lock, rename_detach, rename_unlock.
  repeat view_step. apply unlink_takes.
Qed.

Lemma rename_undo_back_taken k1 ok nk o n t f v :
  (call_result (sys_rename n t) k1).1 = 0 -> t <> n -> v !! t = Some f ->
  act_back (x_rename_undo ok nk true o n t) v (<[n := f]> (delete t (delete n v))).
Proof.
  intros H1 Hne Ht. unfold act_back. cbn [run_action]. unfold run_x_rename_undo, rename_lock, rename_detach, rename_unlock.
  repeat view_step; [apply unlink_takes|].
  eapply rename_back_takes; [exact H1|by rewrite lookup_delete_ne|apply lookup_delete_eq].
Qed.

(** *** The steps of a call *)

Lemma names_call_takes {A} (c : syscall kstate A) orig n v v' v2 E :
  call_takes c v' v2 -> m_hoare (names_inv orig n v v') (libc c) (fun _ => names_inv orig n v v2) E.
Proof.
  intros Hc. eapply m_hoare_conseq; [apply (names_call c (fun _ x => x = v2))|done| |done].
  - intros k Hk. specialize (Hc k Hk). destruct (call_result c k). by eexists.
  - by intros a w (x & Hw & ->).
Qed.

(** The action that takes the view back is registered. *)
Lemma names_register a r orig n v v' E :
  n < 2 ^ 29 -> act_back a v' v ->
  m_hoare (names_inv orig n v v') (txc_tx_register_undo_action txd a r 0) (fun _ => names_inv orig (n + 1) v' v') E.
Proof.
  intros Hn Ha w (l & Hr & Hv & Hb).
  destruct (register_regular realloc_grants UndoSide txd a r (w_kernel w) l n w Hn Hr) as (w' & E' & Hr').
  simpl in E'. rewrite E'. pose proof (reg_kernel _ _ _ _ _ _ Hr') as Hk. exists (l ++ [ActionEntry a r 0]).
  rewrite <- Hk in Hr'. split_and!; [done|unfold nv; by rewrite Hk|]. rewrite reverse_snoc. by eapply acts_back_cons.
Qed.

Lemma acquire_new_reg koa n : n < 2 ^ 29 -> reg_hoare UndoSide txd n (n + 1) (acquire_new txd koa).
Proof.
  intros Hn. unfold acquire_new. eapply reg_bind; [apply reg_quiet; m_pres_auto|intros s].
  eapply reg_bind; [by apply (tryacquire_reg realloc_grants)|intros x]. apply reg_quiet. m_pres_auto.
Qed.

Lemma acquire_new_noabort koa : m_noabort (acquire_new txd koa).
Proof. unfold acquire_new. m_noabort_auto. Qed.

Lemma names_acquire_new koa orig n v v' E :
  n < 2 ^ 29 -> m_hoare (names_inv orig n v v') (acquire_new txd koa) (fun _ => names_inv orig (n + 1) v v') E.
Proof. intros Hn. apply names_reg_noabort; [by apply acquire_new_reg|apply acquire_new_noabort]. Qed.

(** [stat]: is the name taken? *)
Lemma path2inode_view p k v : nview k = Some v ->
  let '((ret, ino), k') := call_result (sys_stat p) k in exists v2, nview k' = Some v2 /\
    v2 = v /\ match v !! p with Some (i, _) => (if bool_decide (ret = 0) then ino else 0) = i /\ i <> 0
              | None => (if bool_decide (ret = 0) then ino else 0) = 0 end.
Proof.
  intros Hv. pose proof (nview_stat k v p Hv) as H. destruct (call_result _ k) as [[ret ino] k']. destruct H as [H1 H2].
  exists v. split_and!; [done|done|]. destruct (v !! p) as [[i c]|].
  - destruct H2 as (-> & -> & H3). by rewrite bool_decide_eq_true_2.
  - by rewrite bool_decide_eq_false_2.
Qed.

Lemma names_path2inode p orig n v v' E :
  m_hoare (names_inv orig n v v') (txc_koa_path2inode p)
    (fun i w => names_inv orig n v v' w /\ match v' !! p with Some (j, _) => i = j /\ i <> 0 | None => i = 0 end) E.
Proof.
  unfold txc_koa_path2inode. eapply m_hoare_bind.
  - apply (names_call (sys_stat p) (fun r x => x = v' /\ match v' !! p with
      Some (i, _) => (if bool_decide (r.1 = 0) then r.2 else 0) = i /\ i <> 0
    | None => (if bool_decide (r.1 = 0) then r.2 else 0) = 0 end)).
    intros k Hv. pose proof (path2inode_view p k v' Hv) as H. by destruct (call_result _ k) as [[ret ino] k'].
  - intros [ret ino]. apply m_hoare_ret. intros w (x & Hw & -> & H). simpl in H. split; [done|].
    destruct (v' !! p) as [[j c]|]; [destruct H; split; congruence|done].
Qed.

Lemma malloc_or_exit_side sz : m_pres (same_side UndoSide txd) (malloc_or_exit txd sz) /\ m_noabort (malloc_or_exit txd sz).
Proof. unfold malloc_or_exit. split; [m_pres_auto|m_noabort_auto]. Qed.

Lemma strcpy_names p orig n v v' E :
  m_hoare (names_inv orig n v v') (strcpy_path p) (fun q w => names_inv orig n v v' w /\ q = p) E.
Proof. unfold strcpy_path. case_bool_decide; [|done]. by apply m_hoare_ret. Qed.

Lemma strcpy_path_side p : m_pres (same_side UndoSide txd) (strcpy_path p) /\ m_noabort (strcpy_path p).
Proof. unfold strcpy_path. split; [m_pres_auto|m_noabort_auto]. Qed.

(** Go through a call: the operations that leave the names alone. *)
Ltac names_step :=
  lazymatch goal with
  | |- m_hoare _ (m_bind (acquire_new _ _) _) _ _ => eapply m_hoare_bind; [apply names_acquire_new; lia|intros ?]
  | |- m_hoare _ (m_bind (malloc_or_exit _ _) _) _ _ =>
      eapply m_hoare_bind; [apply names_quiet; apply malloc_or_exit_side|intros ?]
  | |- m_hoare _ (m_bind (strcpy_path _) _) _ _ =>
      eapply m_hoare_bind; [apply names_quiet; apply strcpy_path_side|intros ?]
  | |- m_hoare _ (m_bind _ _) _ _ => eapply m_hoare_bind; [apply names_quiet; [m_pres_auto|m_noabort_auto]|intros ?]
  end.

(** The end of a call: the names are [v] and the list undoes them. *)
Definition names_after orig n w : Prop := exists v, names_inv orig n v v w.

(** The call answered [ret >= 0], and the name still has the file it had. *)
Definition unmoved p v (ret : Z) w : Prop :=
  0 <= ret /\ exists i c v' c', v !! p = Some (i, c) /\ nv w = Some v' /\ v' !! p = Some (i, c').
Definition call_post orig n p v (ret : Z) w : Prop := names_after orig n w \/ unmoved p v ret w.

Lemma after_intro orig n m v w : names_inv orig n v v w -> n <= m -> names_after orig m w.
Proof. intros Hw Hn. exists v. by eapply names_inv_mono. Qed.

Lemma attach_names orig n v v' fildes p E :
  n + 1 < 2 ^ 29 ->
  m_hoare (names_inv orig n v v') (x_create_attach txd fildes p) (fun _ => names_inv orig (n + 1) v v') E.
Proof.
  intros Hn. unfold x_create_attach.
  eapply m_hoare_bind; [apply names_path2inode|intros inode; apply m_hoare_pure; intros _].
  repeat names_step. by apply m_hoare_ret.
Qed.

(** The error exit after a failed [open]. *)
Lemma fail_names orig n m v fildes p v0 E :
  n <= m ->
  m_hoare (names_inv orig n v v) (txc_koa_unlock_alias_cache ;;; do e <- get_errno ;; m_ret (fildes, e))
    (fun r => call_post orig m p v0 r.1) E.
Proof.
  intros Hn. names_step. eapply m_hoare_bind; [apply names_quiet; unfold get_errno; [m_pres_auto|m_noabort_auto]|intros e].
  apply m_hoare_ret. intros w Hw. left. by eapply after_intro.
Qed.

Lemma create_case1_names orig n v p mode result E :
  n + 2 < 2 ^ 29 -> v !! p = None ->
  m_hoare (names_inv orig n v v) (x_create_case1 txd p mode result) (fun r => call_post orig (n + 2) p v r.1) E.
Proof.
  intros Hn Hp. unfold x_create_case1.
  eapply m_hoare_bind.
  { apply (names_call (sys_open p creation_flags mode) (fun r x => (r < 0 /\ x = v) \/ (0 <= r /\ exists i, x = <[p := (i, [])]> v))).
    intros k Hk. pose proof (nview_creat k v p mode Hk Hp) as H. destruct (call_result _ k) as [r k'].
    destruct H as [[H1 H2]|(H1 & i & H2)]; [exists v|eexists]; (split; [done|]); [by left|right; eauto]. }
  intros fildes. apply m_hoare_exists. intros x. apply m_hoare_pure. intros [[Hneg ->]|(Hpos & i & ->)].
  - rewrite neg_true by done. apply fail_names. lia.
  - rewrite neg_false by done.
    eapply m_hoare_bind; [apply attach_names; lia|intros koa]. names_step.
    eapply m_hoare_bind; [apply strcpy_names|intros q; apply m_hoare_pure; intros ->].
    eapply m_hoare_bind; [apply (names_register (x_create_case1_undo fildes koa p) result _ _ v); [lia|]|intros ?].
    { rewrite <- (delete_insert_id v p (i, [])) at 2 by done. apply case1_undo_back. }
    repeat names_step. apply m_hoare_ret. intros w Hw. left. eapply after_intro; [exact Hw|lia].
Qed.

(** The file that has the name is isolated. *)
Lemma isolate_old_names inode orig n v :
  n + 1 < 2 ^ 29 ->
  m_hoare (names_inv orig n v v) (x_create_isolate_old txd inode) (fun _ => names_inv orig (n + 1) v v) (names_stop orig).
Proof.
  intros Hn. apply names_reg. unfold x_create_isolate_old.
  eapply reg_bind; [apply reg_quiet; m_pres_auto|intros [xret koa]].
  case_bool_decide; [|apply reg_weaken; [lia|apply reg_ret]].
  eapply reg_bind; [apply reg_quiet; m_pres_auto|intros k].
  eapply reg_bind; [apply reg_quiet; m_pres_auto|intros ?].
  eapply reg_bind; [apply reg_quiet; m_pres_auto|intros s].
  eapply reg_bind; [apply (tryacquire_reg realloc_grants); lia|intros x]. apply reg_quiet. m_pres_auto.
Qed.

Lemma stat_takes p v : call_takes (sys_stat p) v v.
Proof. intros k Hk. pose proof (nview_stat k v p Hk). destruct (call_result _ k) as [[ret ino] k']. destruct H as [H _]. exact H. Qed.

Lemma view_attach fildes p x E :
  m_hoare (fun w => nv w = Some x) (x_create_attach txd fildes p) (fun _ w => nv w = Some x) E.
Proof.
  unfold x_create_attach, acquire_new. eapply m_hoare_bind; [|intros inode; repeat view_step].
  unfold txc_koa_path2inode. apply (m_hoare_bind _ _ _ (fun _ w => nv w = Some x)); [apply view_call, stat_takes|].
  intros [ret ino]. by apply m_hoare_ret.
Qed.

(** What follows the [open] of a name that is taken. *)
Definition create_case2_rest (fildes : Z) (temp p : string) (result : option Z) : M world (Z * Z) :=
  do koa_new <- x_create_attach txd fildes p ;;
  malloc_or_exit txd (sizeof sz_x_create_case2_args_t) ;;;
  do t <- strcpy_path temp ;;
  do p <- strcpy_path p ;;
  do _ <- txc_tx_register_commit_action txd (x_create_case2_commit fildes koa_new t p) result
            TXC_KOA_CREATE_COMMIT_ACTION_ORDER ;;
  do _ <- txc_tx_register_undo_action txd (x_create_case2_undo fildes koa_new t p) result
            TXC_KOA_CREATE_UNDO_ACTION_ORDER ;;
  txc_koa_unlock_fd fildes ;;;
  txc_koa_unlock_alias_cache ;;;
  m_ret (fildes, 0).

(** The file was not moved: the registered action will not find it. *)
Lemma case2_rest_unmoved fildes t p result x v i c c' orig n v0 E :
  0 <= fildes -> v !! p = Some (i, c) -> x !! p = Some (i, c') ->
  m_hoare (names_inv orig n v0 x) (create_case2_rest fildes t p result) (fun r w => unmoved p v r.1 w) E.
Proof.
  intros Hpos Hv Hx. apply (m_hoare_conseq _ (fun w => nv w = Some x) _ _ (fun r w => unmoved p v r.1 w) _ E); [|by intros w (l & _ & Hw & _)|done|done].
  unfold create_case2_rest, malloc_or_exit, strcpy_path. eapply m_hoare_bind; [apply view_attach|intros koa].
  repeat view_step. apply m_hoare_ret. intros w Hw. split; [done|]. eauto 10.
Qed.

(** The file was moved to [t]. *)
Lemma case2_rest_moved fildes k1 t p result v f i orig n E :
  n + 2 < 2 ^ 29 -> (call_result (sys_rename p t) k1).1 = 0 -> v !! p = Some f -> v !! t = None ->
  m_hoare (names_inv orig n v (<[p := (i, [])]> (<[t := f]> (delete p v)))) (create_case2_rest fildes t p result)
    (fun _ w => names_after orig (n + 2) w) E.
Proof.
  intros Hn H1 Hp Ht. assert (t <> p) as Hne by congruence. unfold create_case2_rest.
  eapply m_hoare_bind; [apply attach_names; lia|intros koa]. names_step.
  eapply m_hoare_bind; [apply strcpy_names|intros q; apply m_hoare_pure; intros ->].
  eapply m_hoare_bind; [apply strcpy_names|intros q; apply m_hoare_pure; intros ->]. names_step.
  eapply m_hoare_bind; [apply (names_register (x_create_case2_undo fildes koa t p) result _ _ v); [lia|]|intros ?].
  { set (v2 := <[p := (i, [])]> (<[t := f]> (delete p v))).
    assert (<[p := f]> (delete t (delete p v2)) = v) as Hv.
    { unfold v2. rewrite delete_insert_id by (rewrite lookup_insert_ne by done; apply lookup_delete_eq).
      rewrite delete_insert_id by (by rewrite lookup_delete_ne). by rewrite insert_delete_id. }
    rewrite <- Hv. apply (case2_undo_back k1); [done|done|]. unfold v2. rewrite lookup_insert_ne by done. by rewrite lookup_insert_eq. }
  repeat names_step. apply m_hoare_ret. intros w Hw. eapply after_intro; [exact Hw|lia].
Qed.

Lemma create_case2_names orig n v p inode mode result f :
  n + 3 < 2 ^ 29 -> v !! p = Some f ->
  m_hoare (names_inv orig n v v) (x_create_case2 txd inode p mode result)
    (fun r => call_post orig (n + 3) p v r.1) (names_stop orig).
Proof.
  intros Hn Hp. unfold x_create_case2. eapply m_hoare_bind; [apply isolate_old_names; lia|intros ?].
  eapply m_hoare_bind.
  { apply (names_call (sys_mktemp mktemp_template) (fun t x => x = v /\ v !! t = None)). intros k Hk.
    pose proof (nview_mktemp k v Hk) as H. destruct (call_result _ k). destruct H. by exists v. }
  intros t. apply m_hoare_exists. intros x. apply m_hoare_pure. intros [-> Ht]. assert (t <> p) as Hne by congruence.
  eapply m_hoare_bind.
  { apply (names_call (sys_rename p t) (fun r x => x = v \/
      exists k1, (call_result (sys_rename p t) k1).1 = 0 /\ x = <[t := f]> (delete p v))). intros k Hk.
    pose proof (nview_rename k v p t Hk (or_intror Ht)) as H. destruct (call_result _ k) as [r k'] eqn:E.
    destruct H as [[_ H]|(f' & Hf & -> & H)]; eexists; (split; [exact H|]); [by left|right]. exists k. rewrite E.
    by assert (f' = f) as -> by congruence. }
  intros r. apply m_hoare_exists. intros x. apply m_hoare_pure. intros [->|(k1 & H1 & ->)].
  - destruct f as [i c]. eapply m_hoare_bind.
    { apply (names_call (sys_open p creation_flags mode) (fun r x => (r < 0 /\ x = v) \/ (0 <= r /\ x !! p = Some (i, [])))).
      intros k Hk. pose proof (nview_creat_over k v p mode i c Hk Hp) as H. destruct (call_result _ k) as [r' k'].
      destruct H as [[H1 H2]|(H1 & v' & H2 & H3)]; eexists; (split; [exact H2|]); auto. }
    intros fildes. apply m_hoare_exists. intros x. apply m_hoare_pure. intros [[Hneg ->]|[Hpos Hx]].
    + rewrite neg_true by done. eapply m_hoare_bind; [apply names_call_takes|intros ?; apply fail_names; lia].
      intros k Hk. pose proof (nview_rename k v t p Hk (or_introl Ht)) as H. destruct (call_result _ k) as [r' k'].
      destruct H as [[_ H]|(f' & Hf & _)]; [done|congruence].
    + rewrite neg_false by done. eapply m_hoare_conseq; [by apply (case2_rest_unmoved fildes t p result x v i c [])|done| |done].
      intros ? w Hw. by right.
  - eapply m_hoare_bind.
    { apply (names_call (sys_open p creation_flags mode) (fun r x => (r < 0 /\ x = <[t := f]> (delete p v)) \/
        (0 <= r /\ exists i, x = <[p := (i, [])]> (<[t := f]> (delete p v))))).
      intros k Hk. assert (<[t := f]> (delete p v) !! p = None) as Hn' by (rewrite lookup_insert_ne by done; apply lookup_delete_eq).
      pose proof (nview_creat k _ p mode Hk Hn') as H. destruct (call_result _ k) as [r' k'].
      destruct H as [[H2 H3]|(H2 & i & H3)]; eexists; (split; [exact H3|]); eauto. }
    intros fildes. apply m_hoare_exists. intros x. apply m_hoare_pure. intros [[Hneg ->]|(Hpos & i & ->)].
    + rewrite neg_true by done. apply (m_hoare_bind _ _ _ (fun _ => names_inv orig (n + 1) v v)); [|intros ?; apply fail_names; lia].
      assert (v = <[p := f]> (delete t (<[t := f]> (delete p v)))) as Hv.
      { rewrite delete_insert_id by (by rewrite lookup_delete_ne). by rewrite insert_delete_id. }
      apply names_call_takes. rewrite Hv at 2. eapply rename_back_takes; [exact H1|apply lookup_insert_eq|].
      rewrite lookup_insert_ne by done. apply lookup_delete_eq.
    + rewrite neg_false by done. eapply m_hoare_conseq; [apply (case2_rest_moved fildes k1 t p result v f i orig (n + 1)); [lia|done..]|done| |done].
      intros ? w Hw. left. by replace (n + 3) with (n + 1 + 2) by lia.
Qed.

(** The end of a call. *)
Lemma finish_post P Q result (body : M world (Z * Z)) E :
  (forall r w w', Q r w -> same_side UndoSide txd w w' -> Q r w') ->
  m_hoare P body (fun r => Q r.1) E -> m_hoare P (finish result body) Q E.
Proof.
  intros HQ Hb. unfold finish. eapply m_hoare_bind; [exact Hb|]. intros [r e] w Hw. simpl in Hw.
  assert (m_pres (same_side UndoSide txd) (store_result result e)) as Hs by m_pres_auto. specialize (Hs w).
  unfold m_bind. assert (exists w', store_result result e w = Ret tt w') as [w' E'] by (destruct result; by eexists).
  rewrite E' in *. simpl. by eapply HQ.
Qed.

Lemma after_same orig n w w' : names_after orig n w -> same_side UndoSide txd w w' -> names_after orig n w'.
Proof. intros [x Hw] Hs. exists x. by eapply names_inv_same. Qed.

Lemma call_post_same orig n p v r w w' :
  call_post orig n p v r w -> same_side UndoSide txd w w' -> call_post orig n p v r w'.
Proof.
  intros [Hw|(Hr & i & c & v' & c' & H1 & H2 & H3)] Hs; [left; by eapply after_same|right].
  split; [done|]. exists i, c, v', c'. destruct Hs as [Hk _]. unfold nv. by rewrite Hk.
Qed.

Lemma retryable_names {A} (f : txc_tx_xactstate_t -> M world A) Q orig n v :
  txd <> 0 -> m_hoare (names_inv orig n v v) (f TXC_XACTSTATE_TRANSACTIONAL_RETRYABLE) Q (names_stop orig) ->
  m_hoare (names_inv orig n v v) (do x <- txc_tx_get_xactstate txd ;; f x) Q (names_stop orig).
Proof.
  intros H0 Hf w Hw. pose proof Hw as (l & Hr & _).
  rewrite (m_bind_run _ _ _ _ _ (registered_mode _ _ _ _ _ _ H0 Hr)). by apply Hf.
Qed.

Lemma call_post_mono orig n m p v r w : call_post orig n p v r w -> n <= m -> call_post orig m p v r w.
Proof. intros [(x & Hw)|Hw] Hn; [left; exists x; by eapply names_inv_mono|by right]. Qed.

Lemma x_create_names orig n v p mode result :
  txd <> 0 -> n + 3 < 2 ^ 29 ->
  m_hoare (names_inv orig n v v) (x_create txd p mode result) (call_post orig (n + 3) p v) (names_stop orig).
Proof.
  intros H0 Hn. unfold x_create. apply (retryable_names (fun x => finish result _)); [done|].
  apply finish_post; [intros r; apply call_post_same|]. names_step.
  eapply m_hoare_bind; [apply names_path2inode|intros inode; apply m_hoare_pure; intros Hi].
  destruct (v !! p) as [f|] eqn:Hp.
  - rewrite bool_decide_eq_false_2 by (destruct f as [j c], Hi; congruence). by eapply create_case2_names.
  - rewrite bool_decide_eq_true_2 by done. eapply m_hoare_conseq; [apply (create_case1_names orig n v p mode result (names_stop orig)); [lia|done]|done| |done].
    intros r w Hw. eapply call_post_mono; [exact Hw|lia].
Qed.

(** *** [x_unlink] and [x_rename] *)

Lemma attach_inode_reg inode flags n : n < 2 ^ 29 -> reg_hoare UndoSide txd n (n + 1) (attach_inode txd inode flags).
Proof.
  intros Hn. unfold attach_inode, attach_known. eapply reg_bind; [apply reg_quiet; m_pres_auto|intros [xret koa]].
  case_bool_decide.
  - eapply reg_bind; [apply reg_quiet; m_pres_auto|intros k]. eapply reg_bind; [|intros ?; apply reg_ret].
    eapply reg_bind; [apply reg_quiet; m_pres_auto|intros ?]. eapply reg_bind; [apply reg_quiet; m_pres_auto|intros ?].
    eapply reg_bind; [apply reg_quiet; m_pres_auto|intros s].
    eapply reg_bind; [apply (tryacquire_reg realloc_grants); lia|intros x]. apply reg_quiet. m_pres_auto.
  - eapply reg_bind; [apply reg_quiet; m_pres_auto|intros k]. eapply reg_bind; [apply reg_quiet; m_pres_auto|intros ?].
    eapply reg_bind; [by apply acquire_new_reg|intros ?; apply reg_ret].
Qed.

Lemma x_unlink_names orig n v p result :
  txd <> 0 -> n + 3 < 2 ^ 29 ->
  m_hoare (names_inv orig n v v) (x_unlink txd p result) (fun _ => names_after orig (n + 3)) (names_stop orig).
Proof.
  intros H0 Hn. unfold x_unlink. apply retryable_names; [done|].
  apply finish_post; [intros _; apply after_same|]. unfold x_unlink_tx. names_step.
  eapply m_hoare_bind; [apply names_path2inode|intros inode; apply m_hoare_pure; intros _]. case_bool_decide.
  - names_step. apply m_hoare_ret. intros w Hw. eapply after_intro; [exact Hw|lia].
  - eapply m_hoare_bind; [apply (names_reg _ orig n (n + 1)), attach_inode_reg; lia|intros koa].
    names_step.
    eapply m_hoare_bind; [apply strcpy_names|intros q; apply m_hoare_pure; intros ->]. repeat names_step.
    apply m_hoare_ret. intros w Hw. eapply after_intro; [exact Hw|lia].
Qed.

(** What is at the new name, after it was moved to a temporary one. *)
Definition newpath_post orig n v newp (r : Z * bool * option string) w : Prop :=
  match r with
  | (_, false, _) => names_inv orig n v v w /\ v !! newp = None
  | (_, true, None) => False
  | (_, true, Some t) => v !! t = None /\ exists f, v !! newp = Some f /\
      (names_inv orig n v v w \/
       exists k1, (call_result (sys_rename newp t) k1).1 = 0 /\ names_inv orig n v (<[t := f]> (delete newp v)) w)
  end.

Lemma newpath_names orig n v newp :
  n + 1 < 2 ^ 29 ->
  m_hoare (names_inv orig n v v) (x_rename_newpath txd newp) (newpath_post orig (n + 1) v newp) (names_stop orig).
Proof.
  intros Hn. unfold x_rename_newpath.
  eapply m_hoare_bind; [apply names_path2inode|intros inode; apply m_hoare_pure; intros Hi]. destruct (v !! newp) as [f|] eqn:Hp.
  - rewrite bool_decide_eq_false_2 by (destruct f as [j c], Hi; congruence).
    eapply m_hoare_bind; [apply (names_reg _ orig n (n + 1)), attach_inode_reg; lia|intros koa].
    eapply m_hoare_bind.
    { apply (names_call (sys_mktemp mktemp_template) (fun t x => x = v /\ v !! t = None)). intros k Hk.
      pose proof (nview_mktemp k v Hk) as H. destruct (call_result _ k). destruct H. by exists v. }
    intros t. apply m_hoare_exists. intros x. apply m_hoare_pure. intros [-> Ht].
    eapply m_hoare_bind.
    { apply (names_call (sys_rename newp t) (fun r x => x = v \/
        exists k1, (call_result (sys_rename newp t) k1).1 = 0 /\ x = <[t := f]> (delete newp v))). intros k Hk.
      pose proof (nview_rename k v newp t Hk (or_intror Ht)) as H. destruct (call_result _ k) as [r k'] eqn:E.
      destruct H as [[_ H]|(f' & Hf & -> & H)]; eexists; (split; [exact H|]); [by left|right]. exists k. rewrite E.
      by assert (f' = f) as -> by congruence. }
    intros r. apply m_hoare_ret. intros w (x & Hw & Hx). simpl. split; [done|]. exists f. split; [done|].
    destruct Hx as [->|(k1 & H1 & ->)]; [by left|right; by exists k1].
  - rewrite bool_decide_eq_true_2 by done. apply m_hoare_ret. intros w Hw. simpl. split; [|done].
    eapply names_inv_mono; [exact Hw|lia].
Qed.

(** [link] makes the new name when it is free. *)
Lemma link_view a b v : forall k, nview k = Some v ->
  let '(r, k') := call_result (sys_link a b) k in exists v2, nview k' = Some v2 /\
    (v2 = v \/ v !! b = None /\ exists f, v2 = <[b := f]> v).
Proof.
  intros k Hk. pose proof (nview_link k v a b Hk) as H. destruct (call_result _ k) as [r k'].
  destruct H as [[_ H]|(f & _ & Hb & _ & H)]; eexists; (split; [exact H|]); eauto.
Qed.

(** The end of a rename, after the [link]. *)
Definition rename_rest (oldp newp : string) (ok nk : Z) (valid : bool) (temp : option string) (result : option Z)
    : M world (Z * Z) :=
  malloc_or_exit txd (sizeof sz_x_rename_args_t) ;;;
  do t <- strcpy_path (default ""%string temp) ;;
  do n <- strcpy_path newp ;;
  do o <- strcpy_path oldp ;;
  do _ <- txc_tx_register_commit_action txd (x_rename_commit ok nk valid o n t) result
            TXC_KOA_CREATE_COMMIT_ACTION_ORDER ;;
  do _ <- txc_tx_register_undo_action txd (x_rename_undo ok nk valid o n t) result
            TXC_KOA_CREATE_UNDO_ACTION_ORDER ;;
  txc_koa_unlock_alias_cache ;;;
  m_ret (0, 0).

Lemma rename_rest_names oldp newp ok nk valid temp result orig n v x E :
  n + 1 < 2 ^ 29 -> act_back (x_rename_undo ok nk valid oldp newp (default ""%string temp)) x v ->
  m_hoare (names_inv orig n v x) (rename_rest oldp newp ok nk valid temp result)
    (fun _ w => names_after orig (n + 1) w) E.
Proof.
  intros Hn Hb. unfold rename_rest. names_step.
  do 3 (eapply m_hoare_bind; [apply strcpy_names|intros q; apply m_hoare_pure; intros ->]). names_step.
  eapply m_hoare_bind; [eapply names_register; [lia|exact Hb]|intros ?]. repeat names_step.
  apply m_hoare_ret. intros w Hw. eapply after_intro; [exact Hw|lia].
Qed.

Lemma rename_rest_view oldp newp ok nk valid temp result orig n v x E :
  m_hoare (names_inv orig n v x) (rename_rest oldp newp ok nk valid temp result)
    (fun r w => r.1 = 0 /\ nv w = Some x) E.
Proof.
  apply (m_hoare_conseq _ (fun w => nv w = Some x) _ _ (fun r w => r.1 = 0 /\ nv w = Some x) _ E);
    [|by intros w (l & _ & Hw & _)|done|done].
  unfold rename_rest, malloc_or_exit, strcpy_path. repeat view_step.
Qed.

Lemma x_rename_names orig n v oldp newp result :
  txd <> 0 -> n + 3 < 2 ^ 29 ->
  m_hoare (names_inv orig n v v) (x_rename txd oldp newp result) (call_post orig (n + 3) newp v) (names_stop orig).
Proof.
  intros H0 Hn. unfold x_rename. apply retryable_names; [done|].
  apply finish_post; [intros r; apply call_post_same|]. unfold x_rename_tx. names_step.
  eapply m_hoare_bind; [apply names_path2inode|intros inode; apply m_hoare_pure; intros _]. case_bool_decide.
  { names_step. apply m_hoare_ret. intros w Hw. left. eapply after_intro; [exact Hw|lia]. }
  eapply m_hoare_bind; [apply (names_reg _ orig n (n + 1)), attach_inode_reg; lia|intros ok].
  eapply m_hoare_bind; [apply newpath_names; lia|intros [[nk valid] temp]].
  change (m_hoare (newpath_post orig (n + 1 + 1) v newp (nk, valid, temp))
    (do _ <- libc (sys_link oldp newp) ;; rename_rest oldp newp ok nk valid temp result)
    (fun r => call_post orig (n + 3) newp v r.1) (names_stop orig)).
  assert (forall x, (forall v2, v2 = x \/ x !! newp = None /\ (exists f, v2 = <[newp := f]> x) ->
      act_back (x_rename_undo ok nk valid oldp newp (default ""%string temp)) v2 v) ->
    m_hoare (names_inv orig (n + 1 + 1) v x) (do _ <- libc (sys_link oldp newp) ;; rename_rest oldp newp ok nk valid temp result)
      (fun r => call_post orig (n + 3) newp v r.1) (names_stop orig)) as Hback.
  { intros x Hx. eapply m_hoare_bind; [apply (names_call _ (fun _ v2 => v2 = x \/ x !! newp = None /\ exists f, v2 = <[newp := f]> x)), link_view|intros r].
    apply m_hoare_exists. intros v2. apply m_hoare_pure. intros Hv2.
    eapply m_hoare_conseq; [apply (rename_rest_names oldp newp ok nk valid temp result orig (n + 1 + 1)); [lia|by apply Hx]|done| |done].
    intros ? w Hw. left. by replace (n + 3) with (n + 1 + 1 + 1) by lia. }
  destruct valid; [destruct temp as [t|]; [|by intros w Hw]|].
  - intros w (Ht & f & Hf & Hw). assert (t <> newp) as Hne by congruence. destruct Hw as [Hw|(k1 & H1 & Hw)].
    + revert w Hw. eapply m_hoare_bind; [apply (names_call _ (fun _ v2 => v2 = v \/ v !! newp = None /\ exists f, v2 = <[newp := f]> v)), link_view|intros r].
      apply m_hoare_exists. intros v2. apply m_hoare_pure. intros [->|[Hnone _]]; [|congruence].
      eapply m_hoare_conseq; [apply (rename_rest_view oldp newp ok nk true (Some t) result orig (n + 1 + 1) v v)|done| |done].
      intros [r' e'] w [Hr Hw]. right. simpl in Hr. split; [simpl; lia|]. destruct f as [i c]. exists i, c, v, c. done.
    + revert w Hw. apply Hback. intros v2 Hv2.
      assert (delete newp v2 = <[t := f]> (delete newp v)) as Hd.
      { assert (<[t := f]> (delete newp v) !! newp = None) as Hn'.
        { rewrite lookup_insert_ne by done. apply lookup_delete_eq. }
        destruct Hv2 as [->|[_ [f' ->]]]; [by rewrite delete_id|by rewrite delete_insert_id]. }
      assert (<[newp := f]> (delete t (delete newp v2)) = v) as <-.
      { rewrite Hd, delete_insert_id by (by rewrite lookup_delete_ne). by rewrite insert_delete_id. }
      eapply rename_undo_back_taken; [exact H1|done|].
      rewrite <- (lookup_delete_ne v2 newp t), Hd by done. apply lookup_insert_eq.
  - intros w Hw. assert (names_inv orig (n + 1 + 1) v v w /\ v !! newp = None) as [Hw' Hnone] by (by destruct temp).
    clear Hw. revert w Hw'. apply Hback. intros v2 Hv2.
    assert (delete newp v2 = v) as <-; [|apply rename_undo_back_free].
    destruct Hv2 as [->|[_ [f ->]]]; [by rewrite delete_id|by rewrite delete_insert_id].
Qed.

(** *** A body *)

Inductive nop :=
  | NCreate (p : string) (mode : Z) (result : option Z)
  | NUnlink (p : string) (result : option Z)
  | NRename (oldp newp : string) (result : option Z).

Definition run_nop (op : nop) : M world Z :=
  match op with
  | NCreate p mode result => x_create txd p mode result
  | NUnlink p result => x_unlink txd p result
  | NRename o n result => x_rename txd o n result
  end.

(** The name a call makes. *)
Definition nop_target (op : nop) : option string :=
  match op with NCreate p _ _ | NRename _ p _ => Some p | NUnlink _ _ => None end.

(** Every file whose name a call took was moved out of the way. *)
Fixpoint all_moved (ops : list nop) w : Prop :=
  match ops with
  | [] => True
  | op :: ops' => forall ret w', run_nop op w = Ret ret w' ->
      (forall v p, nv w = Some v -> nop_target op = Some p -> ~ unmoved p v ret w') /\ all_moved ops' w'
  end.

Definition run_nops (ops : list nop) : M world unit := m_iter (fun op => do _ <- run_nop op ;; m_ret tt) ops.

Lemma nop_names op orig n v :
  txd <> 0 -> n + 3 < 2 ^ 29 ->
  m_hoare (names_inv orig n v v) (run_nop op)
    (fun ret w => names_after orig (n + 3) w \/ exists p, nop_target op = Some p /\ unmoved p v ret w) (names_stop orig).
Proof.
  intros H0 Hn. destruct op; simpl;
    (eapply m_hoare_conseq; [by (apply x_create_names || apply x_unlink_names || apply x_rename_names)|done| |done]);
    intros ret w Hw; [|by left|]; destruct Hw as [Hw|Hw]; eauto.
Qed.

Lemma nops_names ops orig n v w :
  txd <> 0 -> n + 3 * Z.of_nat (length ops) < 2 ^ 29 -> names_inv orig n v v w -> all_moved ops w ->
  match run_nops ops w with
  | Ret _ w' => names_stop orig w'
  | Abort _ w' => names_stop orig w'
  | _ => True
  end.
Proof.
  intros H0. revert n v w. induction ops as [|op ops IH]; intros n v w Hn Hw Hmv; [by exists n, v|].
  cbn [length] in Hn. unfold run_nops. cbn [m_iter].
  pose proof (nop_names op orig n v H0 ltac:(lia) w Hw) as Hh. unfold m_bind at 1 2. simpl in Hmv.
  destruct (run_nop op w) as [ret w1|r w1| | | |]; try done. destruct (Hmv ret w1 eq_refl) as [Hm Hms].
  destruct Hh as [[v1 Hw1]|(p & Hp & Hu)]; [|exfalso; eapply Hm; [|exact Hp|exact Hu]; by destruct Hw as (l & _ & Hv & _)].
  apply (IH (n + 3) v1); [lia|done|done].
Qed.
End names.

(** ** The abort *)

Section rollback.
Context {PF : Platform} (realloc_grants : forall n, realloc_ok n = true) {NS : NameSpace} (txd : Z).

Lemma begin_names orig w w0 :
  tx_idle UndoSide txd w -> nv w = Some orig -> xact_begin txd w = Ret tt w0 -> names_inv txd orig 1 orig orig w0.
Proof.
  intros Hi Hv E. pose proof (begin_reg realloc_grants UndoSide txd w w0 Hi E) as Hreg.
  pose proof (reg_kernel _ _ _ _ _ _ Hreg) as Hk. exists []. rewrite Hk. split_and!; [done| |apply acts_back_nil].
  unfold nv. by rewrite Hk.
Qed.

Lemma rollback_names orig r w w' :
  names_stop txd orig w -> xact_rollback txd r w = Ret tt w' -> nv w' = Some orig.
Proof.
  intros (n & v & l & Hreg & Hv & Hb) E.
  destruct (rollback_ran same_kernel txd _ _ _ _ _ _ Hreg E) as (first & w1 & Hrun & Hk).
  specialize (Hb 0 w Hv). rewrite Hrun in Hb. unfold nv in *. by rewrite Hk.
Qed.
End rollback.

(** C8: A transaction creates, unlinks and renames files, by any sequence of
    [x_create], [x_unlink] and [x_rename] with any results, where every file whose
    name was taken by a call that succeeded was moved out of the way; then it
    aborts, during a call or after the last. When the rollback returns, every name
    is as it was at the begin: it names the same file, with the same bytes, or
    nothing. *)
Theorem names_restored_on_abort `{PF : Platform} (realloc_grants : forall n, realloc_ok n = true) `{!NameSpace}
    txd ops orig reason r w w0 w1 w2 :
  tx_idle UndoSide txd w -> nview (w_kernel w) = Some orig -> xact_begin txd w = Ret tt w0 ->
  all_moved txd ops w0 -> Z.of_nat (length ops) < 2 ^ 27 ->
  (run_nops txd ops ;;; txc_tx_abort_transaction (A := unit) txd reason) w0 = Abort r w1 ->
  xact_rollback txd r w1 = Ret tt w2 -> nview (w_kernel w2) = Some orig.
Proof.
  intros Hi Hv Hb Hmv Hlen E Er. apply (rollback_names txd orig r w1 w2); [|done].
  pose proof (begin_names realloc_grants txd orig w w0 Hi Hv Hb) as Hw0.
  pose proof (nops_names realloc_grants txd ops orig 1 orig w0 (proj1 Hi) ltac:(lia) Hw0 Hmv) as Hh.
  unfold m_bind in E. destruct (run_nops txd ops w0) as [[] w3|r3 w3| | | |]; try done; [|by injection E as _ <-].
  pose proof (abort_side UndoSide txd txd (A := unit) reason w3) as Ha. rewrite E in Ha.
  destruct Hh as (n & v & Hh). exists n, v. by eapply names_inv_same.
Qed.

(** ** The in-memory kernel keeps the promise *)

Definition mf_file (k : memfs) (i : Z) : file := (i, default [] (mf_files k !! i)).
(** The inodes the directory names have been given out. *)
Definition mf_wf (next : Z) (n : gmap string Z) : Prop := 0 < next /\ map_Forall (fun _ i => 0 < i < next) n.

#[export] Instance mf_wf_decision next n : Decision (mf_wf next n).
Proof. unfold mf_wf. apply _. Defined.

Lemma mf_wf_mono next next' n : mf_wf next n -> next <= next' -> mf_wf next' n.
Proof. intros [H0 H] Hn. split; [lia|]. eapply map_Forall_impl; [exact H|]. simpl. lia. Qed.

Lemma mf_wf_insert next n p i : mf_wf next n -> 0 < i < next -> mf_wf next (<[p := i]> n).
Proof. intros [H0 H] Hi. split; [done|]. by apply map_Forall_insert_2. Qed.

Lemma mf_wf_delete next n p : mf_wf next n -> mf_wf next (delete p n).
Proof. intros [H0 H]. split; [done|]. by apply map_Forall_delete. Qed.

Lemma mf_wf_lookup next n p i : mf_wf next n -> n !! p = Some i -> 0 < i < next.
Proof. intros [_ H]. apply H. Qed.

Definition mf_names_view (k : memfs) : option (gmap string file) :=
  if bool_decide (mf_wf (mf_next k) (mf_names k)) then Some (mf_file k <$> mf_names k) else None.

Lemma mf_names_inv k v :
  mf_names_view k = Some v -> mf_wf (mf_next k) (mf_names k) /\ v = mf_file k <$> mf_names k.
Proof. unfold mf_names_view. case_bool_decide; [|done]. by intros [= <-]. Qed.

Lemma mf_names_intro k v :
  mf_wf (mf_next k) (mf_names k) -> v = mf_file k <$> mf_names k -> mf_names_view k = Some v.
Proof. intros H ->. unfold mf_names_view. by rewrite bool_decide_eq_true_2. Qed.

(** The names change, and nothing else. *)
Lemma mf_set_names_view k n :
  mf_wf (mf_next k) n -> mf_names_view (mf_set_names n k) = Some (mf_file k <$> n).
Proof. intros H. by apply mf_names_intro. Qed.

Lemma lookup_names k v p : v = mf_file k <$> mf_names k -> v !! p = mf_file k <$> mf_names k !! p.
Proof. intros ->. apply lookup_fmap. Qed.

Lemma creat_flags_set : bool_decide (Z.land creation_flags O_CREAT = 0) = false /\
  bool_decide (Z.land creation_flags O_TRUNC <> 0) = true.
Proof. done. Qed.

Lemma mf_lowest_nonneg n m i : 0 <= i -> 0 <= mf_lowest n m i.
Proof. revert i. induction n as [|n IH]; intros i Hi; simpl; [done|]. destruct (m !! i); [apply IH; lia|done]. Qed.

(** [open] with the flags of [creat], by whether the name is free. *)
Lemma mf_creat_new p mode k :
  mf_names k !! p = None -> exists fd k', mf_open p creation_flags mode k = (fd, None, k') /\ 0 <= fd /\
    mf_names k' = <[p := mf_next k]> (mf_names k) /\ mf_files k' = <[mf_next k := []]> (mf_files k) /\
    mf_next k < mf_next k'.
Proof.
  intros Hp. unfold mf_open. rewrite Hp. destruct creat_flags_set as [-> _]. eexists _, _. split; [done|].
  split; [by apply mf_lowest_nonneg|]. split_and!; [done..|simpl; lia].
Qed.

Lemma mf_creat_over p mode k i :
  mf_names k !! p = Some i -> exists fd k', mf_open p creation_flags mode k = (fd, None, k') /\ 0 <= fd /\
    mf_names k' = mf_names k /\ mf_files k' = <[i := []]> (mf_files k) /\ mf_next k < mf_next k'.
Proof.
  intros Hp. unfold mf_open. rewrite Hp. destruct creat_flags_set as [_ ->]. eexists _, _. split; [done|].
  split; [by apply mf_lowest_nonneg|]. split_and!; [done..|simpl; lia].
Qed.

(** A kernel with the same directory, and bytes at its inodes. *)
Lemma mf_view_ext k k' :
  mf_names k' = mf_names k -> mf_next k <= mf_next k' ->
  mf_wf (mf_next k) (mf_names k) -> mf_files k' = mf_files k ->
  mf_names_view k' = Some (mf_file k <$> mf_names k).
Proof.
  intros Hn Hx Hw Hf. apply mf_names_intro; rewrite Hn.
  - eapply mf_wf_mono; [exact Hw|lia].
  - apply map_fmap_ext. intros p i _. unfold mf_file. by rewrite Hf.
Qed.

#[export] Program Instance mem_name_space : NameSpace (PF := mem_platform) := {|
  nview := mf_names_view;
|}.
Next Obligation.
  intros k v p Hv. destruct (mf_names_inv k v Hv) as [Hw E]. unfold call_result. simpl. unfold mf_stat.
  rewrite (lookup_names k v p E). destruct (mf_names k !! p) as [i|] eqn:Hp; simpl; [|done].
  split_and!; [done|done|done|]. pose proof (mf_wf_lookup _ _ _ _ Hw Hp). lia.
Qed.
Next Obligation.
  intros k v p mode Hv Hp. destruct (mf_names_inv k v Hv) as [Hw E]. rewrite (lookup_names k v p E) in Hp.
  destruct (mf_names k !! p) as [i|] eqn:Hp'; [done|].
  destruct (mf_creat_new p mode k Hp') as (fd & k' & Ho & Hfd & Hn & Hf & Hx).
  unfold call_result. cbn [sys_open mem_platform]. rewrite Ho. right. split; [done|]. exists (mf_next k).
  apply mf_names_intro; rewrite Hn.
  - apply mf_wf_insert; [eapply mf_wf_mono; [exact Hw|lia]|]. destruct Hw. lia.
  - rewrite fmap_insert, E. f_equal; [unfold mf_file; by rewrite Hf, lookup_insert_eq|].
    apply map_fmap_ext. intros q i Hq. unfold mf_file. rewrite Hf, lookup_insert_ne; [done|].
    pose proof (mf_wf_lookup _ _ _ _ Hw Hq). lia.
Qed.
Next Obligation.
  intros k v p mode i c Hv Hp. destruct (mf_names_inv k v Hv) as [Hw E]. rewrite (lookup_names k v p E) in Hp.
  destruct (mf_names k !! p) as [j|] eqn:Hp'; [|done]. injection Hp as <- _.
  destruct (mf_creat_over p mode k j Hp') as (fd & k' & Ho & Hfd & Hn & Hf & Hx).
  unfold call_result. cbn [sys_open mem_platform]. rewrite Ho. right. split; [done|].
  exists (mf_file k' <$> mf_names k'). split.
  - apply mf_names_intro; [|done]. rewrite Hn. eapply mf_wf_mono; [exact Hw|lia].
  - rewrite lookup_fmap, Hn, Hp'. simpl. unfold mf_file. by rewrite Hf, lookup_insert_eq.
Qed.
Next Obligation.
  intros k v fd Hv. destruct (mf_names_inv k v Hv) as [Hw ->]. unfold call_result. simpl. unfold mf_close.
  destruct (mf_fds k !! fd); [|done]. by apply mf_view_ext.
Qed.
Next Obligation.
  intros k v p Hv. destruct (mf_names_inv k v Hv) as [Hw E]. unfold call_result. simpl. unfold mf_unlink.
  rewrite (lookup_names k v p E), E. destruct (mf_names k !! p) as [i|] eqn:Hp; simpl.
  - rewrite mf_set_names_view, fmap_delete; [done|]. by apply mf_wf_delete.
  - rewrite <- fmap_delete, delete_id by done. split; [congruence|]. by intros [? ?].
Qed.
Next Obligation.
  intros k v a b Hv _. destruct (mf_names_inv k v Hv) as [Hw E]. unfold call_result. simpl. unfold mf_rename.
  destruct (mf_names k !! a) as [i|] eqn:Ha; [|by left]. destruct (mf_same_fs a b); [|by left]. right.
  exists (mf_file k i). rewrite (lookup_names k v a E), Ha. split_and!; [done|done|]. simpl.
  rewrite mf_set_names_view, fmap_insert, fmap_delete, E; [done|].
  apply mf_wf_insert; [by apply mf_wf_delete|by eapply mf_wf_lookup].
Qed.
Next Obligation.
  intros k1 a b k2 v. unfold call_result. simpl. unfold mf_rename. intros H1 Hv [f Hb].
  destruct (mf_names_inv k2 v Hv) as [_ E]. rewrite (lookup_names k2 v b E) in Hb.
  destruct (mf_names k2 !! b); [|done]. destruct (mf_names k1 !! a); [|done].
  assert (mf_same_fs b a = mf_same_fs a b) as ->. { unfold mf_same_fs. by destruct (String.prefix _ a), (String.prefix _ b). }
  by destruct (mf_same_fs a b).
Qed.
Next Obligation.
  intros k v a b Hv. destruct (mf_names_inv k v Hv) as [Hw E]. unfold call_result. simpl. unfold mf_link.
  destruct (mf_names k !! a) as [i|] eqn:Ha; [|by left]. destruct (mf_names k !! b) eqn:Hb; [by left|].
  destruct (mf_same_fs a b); [|by left]. right.
  exists (mf_file k i). rewrite (lookup_names k v a E), (lookup_names k v b E), Ha, Hb. split_and!; [done|done|done|].
  simpl. rewrite mf_set_names_view, fmap_insert, E; [done|]. apply mf_wf_insert; [done|by eapply mf_wf_lookup].
Qed.
Next Obligation.
  intros k v Hv. destruct (mf_names_inv k v Hv) as [Hw E]. unfold call_result. cbn -[fresh_string]. split; [done|].
  rewrite (lookup_names k v _ E). by rewrite fresh_string_fresh.
Qed.

(** ** Runs of the in-memory kernel *)

(** [all_moved], decided along a run. *)
Definition moved_check1 `{NameSpace} (target : option string) (ret : Z) w w' : bool :=
  match target, nview (w_kernel w), nview (w_kernel w') with
  | Some p, Some v, Some v' =>
      bool_decide (ret < 0) || match v !! p, v' !! p with
                               | Some (i, _), Some (j, _) => negb (bool_decide (i = j))
                               | _, _ => true
                               end
  | _, _, _ => true
  end.

Fixpoint moved_check `{NameSpace} txd (ops : list nop) w : bool :=
  match ops with
  | [] => true
  | op :: ops' =>
      match run_nop txd op w with
      | Ret ret w' => moved_check1 (nop_target op) ret w w' && moved_check txd ops' w'
      | _ => true
      end
  end.

Lemma moved_check_sound `{NameSpace} txd ops w : moved_check txd ops w = true -> all_moved txd ops w.
Proof.
  revert w. induction ops as [|op ops IH]; intros w Hc; [done|]. intros ret w' E. simpl in Hc. rewrite E in Hc.
  apply andb_true_iff in Hc as [H1 H2]. split; [|by apply IH].
  intros v p Hv Hp (Hr & i & c & v' & c' & Hi & Hv' & Hi'). unfold moved_check1 in H1. unfold nv in *.
  rewrite Hp, Hv, Hv', Hi, Hi' in H1. rewrite bool_decide_eq_false_2 in H1 by lia. by rewrite bool_decide_eq_true_2 in H1.
Qed.

(** Four files in [/tmp], where [mktemp] makes its names, and one elsewhere. *)
Definition tmp_a : string := "/tmp/a".
Definition tmp_b : string := "/tmp/b".
Definition tmp_c : string := "/tmp/c".
Definition tmp_d : string := "/tmp/d".
Definition home_f : string := "/home/f".
Definition names_k : memfs :=
  MemFs {[1 := [Byte.x61]; 2 := [Byte.x62; Byte.x62]; 3 := [Byte.x63]; 4 := [Byte.x66]]}
    {[tmp_a := 1; tmp_b := 2; tmp_c := 3; home_f := 4]} ∅ ∅ ∅ 100 (MemNet ∅ [] ∅ []).

Definition names_ops : list nop :=
  [NCreate tmp_d 6 None; NCreate tmp_a 6 (Some 900); NUnlink home_f None; NRename tmp_b tmp_c None].
Definition names_body : M world unit :=
  run_nops 1000 names_ops ;;; txc_tx_abort_transaction 1000 TXC_ABORTREASON_USERABORT.
Definition w_names0 : world := mem_world names_k 10.
Definition w_names1 : world := after (xact_begin 1000) w_names0.
Definition w_names2 : world := after names_body w_names1.
Definition w_names3 : world := after (xact_rollback 1000 TXC_ABORTREASON_USERABORT) w_names2.

Lemma names_restored_on_abort_witness :
  mf_names (w_kernel w_names2) !! tmp_a <> Some 1 /\ mf_names (w_kernel w_names2) !! tmp_d <> None /\
  nview (NameSpace := mem_name_space) (w_kernel w_names3) =
    Some {[tmp_a := (1, [Byte.x61]); tmp_b := (2, [Byte.x62; Byte.x62]); tmp_c := (3, [Byte.x63]); home_f := (4, [Byte.x66])]}.
Proof.
  split; [vm_compute; congruence|]. split; [vm_compute; congruence|].
  apply (names_restored_on_abort mem_grants 1000 names_ops _ TXC_ABORTREASON_USERABORT TXC_ABORTREASON_USERABORT
    w_names0 w_names1 w_names2 w_names3).
  - apply idle_at_idle; [done|run_eq].
  - vm_compute; reflexivity.
  - runs_to w_names1.
  - apply moved_check_sound. vm_compute; reflexivity.
  - simpl. lia.
  - runs_to w_names2.
  - runs_to w_names3.
Defined.

(** ** What an abort does not restore, and what a commit removes *)

(** A transaction of the calls [ops] that aborts or commits; what it leaves. *)
Definition names_after_abort (ops : list nop) w : option (gmap string file) :=
  match (xact_begin 1000 ;;; run_nops 1000 ops ;;; xact_rollback 1000 TXC_ABORTREASON_USERABORT) w with
  | Ret _ w' => mf_names_view (w_kernel w')
  | _ => None
  end.
Definition names_after_commit (ops : list nop) w : option (gmap string file) :=
  match (xact_begin 1000 ;;; run_nops 1000 ops ;;; xact_commit 1000) w with
  | Ret _ w' => mf_names_view (w_kernel w')
  | _ => None
  end.

(** A file of another file system than [/tmp] cannot be moved there: [rename]
    fails, [x_create] does not look at its result (x_create.c:338) and truncates the
    file, and the compensating action unlinks it.  An abort loses the file the
    transaction was to replace. *)
Lemma create_other_fs_loses_file :
  mf_names_view (w_kernel w_names0) ≫= (.!! home_f) = Some (4, [Byte.x66]) /\
  exists v, names_after_abort [NCreate home_f 6 None] w_names0 = Some v /\ v !! home_f = None /\
    delete home_f <$> mf_names_view (w_kernel w_names0) = Some v.
Proof. split; [vm_compute; reflexivity|]. eexists. split; [vm_compute; reflexivity|]. split; vm_compute; reflexivity. Qed.

(** An unlink runs at the commit, and not where the transaction called it: a file
    made after it under the same name goes too. *)
Lemma unlink_then_create_commits_nothing :
  (exists v f, names_after_commit [NCreate tmp_a 6 None] w_names0 = Some v /\ v !! tmp_a = Some f) /\
  (exists v, names_after_commit [NUnlink tmp_a None; NCreate tmp_a 6 None] w_names0 = Some v /\ v !! tmp_a = None).
Proof.
  split; [eexists _, _|eexists]; (split; [vm_compute; reflexivity|vm_compute; reflexivity]).
Qed.
