(* ===== verification/Registry.v ===== *)
(** * The registry of KOAs: one for each open file

    What the KOA manager promises the calls: a KOA lives as long as somebody holds
    a reference to it, and two references to one file are references to one KOA,
    hence to one sentinel. The manager's pool, its objects and the alias cache
    together represent a finite map of the live KOAs. *)

From S2P Require Import Prelude Dll Pool HashTable Buffer Actions World MemFs Tx Sentinel Views Koa XFile XDir System Frames KoaFrames.

(** ** The abstract registry *)

(** A live KOA: its type, its inode or buffer, and the number of references. *)
Record kref := KRef { kr_type : Z; kr_word : Z; kr_refs : Z }.

Definition kr_add (n : Z) (r : kref) : kref := KRef (kr_type r) (kr_word r) (kr_refs r + n).

Section registry.
Context {PF : Platform}.
Implicit Types (R : gmap Z kref) (C : gmap Z Z) (w : world).

(** The KOA [k] of a file is in the alias cache under [i] while it has references. *)
Definition cached R (i k : Z) : Prop := exists r, R !! k = Some r /\
  kr_type r = TXC_KOA_IS_FILE /\ 0 < kr_refs r /\ u32 (kr_word r) = i.

Definition koa_is (r : kref) (c : txc_koa_t) : Prop :=
  koa_type c = kr_type r /\ koa_word c = kr_word r /\ koa_refcnt c = kr_refs r.

(** The pool: its allocated objects are the KOAs of [R]; every object has a cell. *)
Definition pool_part R (p : txc_pool_t) (m : gmap Z txc_koa_t) : Prop := exists fr al,
  pool_rep p fr al /\ (forall k, is_Some (R !! k) <-> k ∈ obj_addr p <$> al) /\
  (forall i, i ∈ fr ++ al -> is_Some (m !! obj_addr p i)).

Definition cells_part R (m : gmap Z txc_koa_t) : Prop :=
  map_Forall (fun k r => 0 <= kr_refs r /\ exists c, m !! k = Some c /\ koa_is r c) R.

(** The manager holds the KOAs [R] and the alias cache [C]. *)
Definition holds R C w : Prop :=
  pool_part R (pool_koa_obj (w_koamgr w)) (koas (w_koamgr w)) /\ cells_part R (koas (w_koamgr w)) /\
  ht_rep (alias_hash_tbl (w_koamgr w)) C.

Definition coherent R C : Prop := forall i k, C !! i = Some k <-> cached R i k.

Definition registry R w : Prop := exists C, holds R C w /\ coherent R C.

(** A file is cached once. *)
Lemma registry_unique R w i k1 k2 : registry R w -> cached R i k1 -> cached R i k2 -> k1 = k2.
Proof. intros (C & _ & Hc) H1 H2. apply Hc in H1, H2. congruence. Qed.

(** What the registry does not look at. *)
Definition same_registry w w' : Prop :=
  pool_koa_obj (w_koamgr w') = pool_koa_obj (w_koamgr w) /\ koas (w_koamgr w') = koas (w_koamgr w) /\
  alias_hash_tbl (w_koamgr w') = alias_hash_tbl (w_koamgr w).

#[global] Instance same_registry_quiet : Quiet same_registry.
Proof.
  split; try done. split; [done|]. intros w1 w2 w3 (H1 & H2 & H3) (H4 & H5 & H6). split_and!; congruence.
Qed.

Lemma holds_same R C w w' : holds R C w -> same_registry w w' -> holds R C w'.
Proof. intros H (H1 & H2 & H3). unfold holds. by rewrite H1, H2, H3. Qed.

Lemma registry_same R w w' : registry R w -> same_registry w w' -> registry R w'.
Proof. intros (C & H & Hc) Hs. exists C. split; [by eapply holds_same|done]. Qed.

(** *** Pure steps *)

Lemma cached_insert R k r i j :
  cached (<[k := r]> R) i j <->
  (j = k /\ kr_type r = TXC_KOA_IS_FILE /\ 0 < kr_refs r /\ u32 (kr_word r) = i) \/ (j <> k /\ cached R i j).
Proof.
  unfold cached. destruct (decide (j = k)) as [->|Hne].
  - rewrite lookup_insert_eq. naive_solver.
  - rewrite lookup_insert_ne by done. naive_solver.
Qed.

Lemma cached_delete R k i j : cached (delete k R) i j <-> j <> k /\ cached R i j.
Proof. unfold cached. setoid_rewrite lookup_delete_Some. naive_solver. Qed.

(** A KOA whose presence in the cache does not change. *)
Lemma coherent_update R C k r r' :
  coherent R C -> R !! k = Some r -> kr_type r' = kr_type r -> kr_word r' = kr_word r ->
  (0 < kr_refs r' <-> 0 < kr_refs r) -> coherent (<[k := r']> R) C.
Proof.
  intros Hc Hr Ht Hw Hn i j. rewrite (Hc i j), cached_insert. split.
  - intros (s & Hs & H1 & H2 & H3). destruct (decide (j = k)) as [->|]; [left|right; split; [done|by exists s]].
    simplify_eq. rewrite Ht, Hw. tauto.
  - intros [(-> & H1 & H2 & H3)|[_ H]]; [|done]. exists r. rewrite <- Ht, <- Hw. tauto.
Qed.

(** One that is not in the cache, before or after. *)
Lemma coherent_new R C k r :
  coherent R C -> (forall i, ~ cached R i k) -> kr_type r <> TXC_KOA_IS_FILE \/ kr_refs r <= 0 ->
  coherent (<[k := r]> R) C.
Proof.
  intros Hc Hk Hr i j. rewrite (Hc i j), cached_insert. split.
  - intros H. right. split; [|done]. intros ->. by eapply Hk.
  - intros [(-> & H1 & H2 & _)|[_ H]]; [|done]. destruct Hr; [done|lia].
Qed.

Lemma coherent_first R C k r i :
  coherent R C -> (forall j, ~ cached R j k) -> C !! i = None -> kr_type r = TXC_KOA_IS_FILE -> 0 < kr_refs r ->
  u32 (kr_word r) = i -> coherent (<[k := r]> R) (<[i := k]> C).
Proof.
  intros Hc Hk Hi Ht Hn Hw j x. rewrite cached_insert. destruct (decide (i = j)) as [->|Hne].
  - rewrite lookup_insert_eq. split; [intros [= <-]; by left|]. intros [(-> & _)|[_ H]]; [done|].
    apply Hc in H. congruence.
  - rewrite lookup_insert_ne by done. rewrite (Hc j x). split.
    + intros H. right. split; [|done]. intros ->. by eapply Hk.
    + intros [(_ & _ & _ & H)|[_ H]]; [congruence|done].
Qed.

Lemma coherent_delete_cached R C k i :
  coherent R C -> cached R i k -> coherent (delete k R) (delete i C).
Proof.
  intros Hc Hk j x. rewrite cached_delete, lookup_delete_Some, (Hc j x). split.
  - intros [Hne H]. split; [|done]. intros ->. destruct Hk as (r & H1 & _ & _ & H2), H as (r' & H3 & _ & _ & H4). congruence.
  - intros [Hne H]. split; [|done]. intros ->. apply Hne. apply Hc in H, Hk. congruence.
Qed.

Lemma coherent_delete R C k : coherent R C -> (forall i, ~ cached R i k) -> coherent (delete k R) C.
Proof.
  intros Hc Hk i x. rewrite cached_delete, (Hc i x). split; [|by intros [_ H]]. intros H. split; [|done].
  intros ->. by eapply Hk.
Qed.
(** *** The operations *)

Lemma koa_get_run k c w : koas (w_koamgr w) !! k = Some c -> koa_get k w = Ret c w.
Proof. unfold koa_get, m_bind. simpl. by intros ->. Qed.

Lemma koa_upd_run k c f w : koas (w_koamgr w) !! k = Some c -> koa_upd k f w = Ret tt (put_koa k (f c) w).
Proof. intros H. unfold koa_upd. by rewrite (m_bind_run _ _ _ _ _ (koa_get_run _ _ _ H)). Qed.

Lemma pool_part_cell R p m k c : pool_part R p m -> pool_part R p (<[k := c]> m).
Proof.
  intros (fr & al & H1 & H2 & H3). exists fr, al. split_and!; [done..|]. intros i Hi. rewrite lookup_insert_is_Some.
  destruct (decide (k = obj_addr p i)); [by left|right]. auto.
Qed.

Lemma cells_part_cell R m k r c :
  cells_part R m -> 0 <= kr_refs r -> koa_is r c -> cells_part (<[k := r]> R) (<[k := c]> m).
Proof.
  intros Hm Hr Hc. apply map_Forall_lookup. intros j s. rewrite lookup_insert_Some. intros [[<- <-]|[Hne Hs]].
  - split; [done|]. exists c. by rewrite lookup_insert_eq.
  - rewrite lookup_insert_ne by done. by apply Hm.
Qed.

Lemma pool_part_dom R p m k r : pool_part R p m -> is_Some (R !! k) -> pool_part (<[k := r]> R) p m.
Proof.
  intros (fr & al & H1 & H2 & H3) Hk. exists fr, al. split_and!; [done| |done]. intros j. rewrite <- H2, lookup_insert_is_Some.
  destruct (decide (k = j)) as [->|]; [tauto|]. tauto.
Qed.

(** An update of the cell of a live KOA. *)
Lemma koa_upd_holds R C k r r' f :
  0 <= kr_refs r' -> (forall c, koa_is r c -> koa_is r' (f c)) ->
  m_hoare (fun w => holds R C w /\ R !! k = Some r) (koa_upd k f) (fun _ => holds (<[k := r']> R) C) (fun _ => True).
Proof.
  intros Hn Hf w [(Hp & Hm & Hh) Hr]. destruct (Hm k r Hr) as (_ & c & Hc & Hi). rewrite (koa_upd_run _ _ _ _ Hc).
  split_and!; simpl; [|by apply cells_part_cell; auto|done].
  apply pool_part_dom; [|by eexists]. by apply pool_part_cell.
Qed.

(** ... of its mutex, and of that of a KOA that was destroyed. *)
Lemma koa_mutex_holds R C k b w :
  holds R C w -> match koa_upd k (k_set_mutex b) w with Ret _ w' => holds R C w' | _ => True end.
Proof.
  intros (Hp & Hm & Hh). destruct (koas (w_koamgr w) !! k) as [c|] eqn:Hc; [rewrite (koa_upd_run _ _ _ _ Hc)|].
  - split_and!; simpl; [by apply pool_part_cell| |done]. destruct (R !! k) as [r|] eqn:Hr.
    + rewrite <- (insert_id R k r) by done. destruct (Hm k r Hr) as (Hn & c' & Hc' & Hi). apply cells_part_cell; [done..|].
      by simplify_eq.
    + apply map_Forall_lookup. intros j s Hs. rewrite lookup_insert_ne by congruence. by apply Hm.
  - unfold koa_upd, koa_get, m_bind. simpl. by rewrite Hc.
Qed.

Lemma koa_get_holds R C k r w :
  holds R C w -> R !! k = Some r -> exists c, koa_get k w = Ret c w /\ koa_is r c.
Proof. intros (_ & Hm & _) Hr. destruct (Hm k r Hr) as (_ & c & Hc & Hi). exists c. split; [by apply koa_get_run|done]. Qed.

(** The alias cache. *)
Lemma in_alias_cache_run {A} (m : M txc_hash_table_t A) a h' w :
  m (alias_hash_tbl (w_koamgr w)) = Ret a h' ->
  in_alias_cache m w = Ret a (set_koamgr (set_alias_hash_tbl h' (w_koamgr w)) w).
Proof. intros H. unfold in_alias_cache, m_zoom. by rewrite H. Qed.

Lemma insert_holds R C k r w :
  holds R C w -> R !! k = Some r -> C !! u32 (kr_word r) = None ->
  exists ret w', alias_cache_insert k w = Ret ret w' /\ holds R (<[u32 (kr_word r) := k]> C) w'.
Proof.
  intros H Hr Hnone. destruct (koa_get_holds _ _ _ _ _ H Hr) as (c & E & (_ & Hw & _)). destruct H as (Hp & Hm & Hh).
  assert (u32 (u32 (kr_word r)) = u32 (kr_word r)) as Hu by apply u32_idem.
  destruct (add_new_run _ _ (u32 (kr_word r)) k Hh) as (h' & Ea & Hh' & _); [by rewrite Hu|].
  unfold alias_cache_insert. rewrite (m_bind_run _ _ _ _ _ E), Hw. eexists _, _. split; [by apply in_alias_cache_run|].
  rewrite Hu in Hh'. done.
Qed.

Lemma remove_holds R C k r w :
  holds R C w -> R !! k = Some r -> is_Some (C !! u32 (kr_word r)) ->
  exists ret w', alias_cache_remove k w = Ret ret w' /\ holds R (delete (u32 (kr_word r)) C) w'.
Proof.
  intros H Hr [v Hv]. destruct (koa_get_holds _ _ _ _ _ H Hr) as (c & E & (_ & Hw & _)). destruct H as (Hp & Hm & Hh).
  assert (u32 (u32 (kr_word r)) = u32 (kr_word r)) as Hu by apply u32_idem. rewrite <- Hu in Hv.
  destruct (remove_run _ _ _ _ Hh Hv) as (h' & Ea & Hh' & _).
  unfold alias_cache_remove. rewrite (m_bind_run _ _ _ _ _ E), Hw. eexists _, _.
  split; [by rewrite (m_bind_run _ _ _ _ _ (in_alias_cache_run _ _ _ _ Ea))|]. rewrite Hu in Hh'. done.
Qed.

(** Looking an inode up finds the KOA of the file, and changes nothing. *)
Lemma lookup_registry R ino w :
  registry R w -> exists o w', txc_koa_alias_cache_lookup_inode ino w =
      Ret (match o with Some _ => TXC_R_SUCCESS | None => TXC_R_NOTEXISTS end, o) w' /\ same_registry w w' /\
    forall k, o = Some k <-> cached R (u32 ino) k.
Proof.
  intros (C & (Hp & Hm & Hh) & Hc). pose proof (lookup_run _ _ (u32 ino) Hh) as E. rewrite u32_idem in E.
  exists (C !! u32 ino). eexists. split; [|split; [|intros k; apply (Hc (u32 ino) k)]].
  { unfold txc_koa_alias_cache_lookup_inode. rewrite (m_bind_run _ _ _ _ _ (in_alias_cache_run _ _ _ _ E)).
  by destruct (C !! u32 ino). }
  done.
Qed.
(** The pool gives an object that is not live, and takes one back. *)
Lemma pool_part_alloc R p m :
  pool_part R p m ->
  (txc_pool_object_alloc true p = Ret (TXC_R_NOMEMORY, None) p) \/
  exists k p', txc_pool_object_alloc true p = Ret (TXC_R_SUCCESS, Some k) p' /\ R !! k = None /\ is_Some (m !! k) /\
    forall r, pool_part (<[k := r]> R) p' m.
Proof.
  intros (fr & al & H & Hd & Hm). destruct fr as [|i fr]; [left; by eapply pool_alloc_nomem|right].
  exists (obj_addr p i), (pool_after_alloc p i (head fr)). pose proof (rep_nodup _ _ _ H) as Hnd.
  split_and!.
  - by eapply pool_alloc_run.
  - apply eq_None_not_Some. intros Hs%Hd. apply list_elem_of_fmap in Hs as (j & Hj & Hin).
    apply (obj_addr_inj _ _ _ _ _ H) in Hj as <-; [|set_solver..]. simpl in Hnd. apply NoDup_cons in Hnd as [Hnd _]. set_solver.
  - apply Hm. set_solver.
  - intros r. exists fr, (i :: al). assert (obj_addr (pool_after_alloc p i (head fr)) = obj_addr p) as -> by by apply obj_addr_ext.
    split_and!; [by apply pool_after_alloc_rep| |intros j Hj; apply Hm; set_solver].
    intros k. rewrite fmap_cons, elem_of_cons, <- Hd, lookup_insert_is_Some. destruct (decide (obj_addr p i = k)) as [->|]; naive_solver.
Qed.

Lemma pool_part_free R p m k :
  pool_part R p m -> is_Some (R !! k) ->
  exists p', txc_pool_object_free k true p = Ret tt p' /\ pool_part (delete k R) p' m.
Proof.
  intros (fr & al & H & Hd & Hm) Hk. apply Hd in Hk as (i & -> & Hi)%list_elem_of_fmap.
  apply list_elem_of_split in Hi as (al1 & al2 & ->). pose proof (rep_nodup _ _ _ H) as (_ & _ & Hnd)%NoDup_app.
  exists (pool_after_free p i (head al2) (last al1)). split; [by eapply pool_free_run|].
  exists (i :: fr), (al1 ++ al2). assert (obj_addr (pool_after_free p i (head al2) (last al1)) = obj_addr p) as -> by by apply obj_addr_ext.
  split_and!; [by apply pool_after_free_rep| |intros j Hj; apply Hm; set_solver].
  intros k. rewrite lookup_delete_is_Some, Hd, !fmap_app, fmap_cons, !elem_of_app, elem_of_cons. split; [naive_solver|].
  intros Hk. split; [|naive_solver]. intros Heq. assert (k ∈ obj_addr p <$> (al1 ++ al2)) as Hin by (rewrite fmap_app; set_solver).
  apply list_elem_of_fmap in Hin as (j & -> & Hj). apply (obj_addr_inj _ _ _ _ _ H) in Heq as <-; [|set_solver..].
  apply NoDup_app in Hnd as (_ & Hnd & [Hn _]%NoDup_cons). specialize (Hnd i). set_solver.
Qed.

Lemma in_pool_koa_run {A} (m : M txc_pool_t A) a p' w :
  m (pool_koa_obj (w_koamgr w)) = Ret a p' -> in_pool_koa m w = Ret a (set_koamgr (set_pool_koa_obj p' (w_koamgr w)) w).
Proof. intros H. unfold in_pool_koa, m_zoom. by rewrite H. Qed.

Lemma free_holds R C k w :
  holds R C w -> is_Some (R !! k) ->
  exists w', in_pool_koa (txc_pool_object_free k true) w = Ret tt w' /\ holds (delete k R) C w'.
Proof.
  intros (Hp & Hm & Hh) Hk. destruct (pool_part_free _ _ _ _ Hp Hk) as (p' & E & Hp').
  eexists. split; [by apply in_pool_koa_run|]. split_and!; simpl; [done| |done].
  apply map_Forall_delete. exact Hm.
Qed.

(** What the pool of sentinels, the sentinels and the buffers see. *)
Lemma in_buffermgr_registry {A} (m : M txc_buffermgr_t A) : m_pres same_registry (in_buffermgr m).
Proof. by apply zoom_pres. Qed.

Lemma sentinel_detach_registry s : m_pres same_registry (txc_sentinel_detach s).
Proof. unfold txc_sentinel_detach, synch_lock, synch_unlock, sentinel_detach, sentinel_destroy. m_pres_auto. Qed.

Lemma sentinel_create_registry : m_pres same_registry txc_sentinel_create.
Proof. unfold txc_sentinel_create. m_pres_auto. Qed.

Lemma destroy_holds R C k :
  m_hoare (fun w => holds R C w /\ is_Some (R !! k)) (txc_koa_destroy k) (fun _ => holds (delete k R) C) (fun _ => True).
Proof.
  unfold txc_koa_destroy. apply m_hoare_pure. intros Hk.
  assert (forall w w', holds R C w -> same_registry w w' -> holds R C w') as Hs by (intros; by eapply holds_same).
  eapply m_hoare_bind; [eapply m_hoare_conseq; [apply (m_hoare_pres same_registry (holds R C)); [m_pres_auto|done]|done..]|intros c].
  eapply m_hoare_bind; [eapply m_hoare_conseq; [apply (m_hoare_pres same_registry (holds R C)); [apply sentinel_detach_registry|done]|done..]|intros ?].
  eapply m_hoare_bind; [eapply m_hoare_conseq; [apply (m_hoare_pres same_registry (holds R C)); [|done]|done..]|intros ?].
  { case_match; [apply in_buffermgr_registry|m_pres_auto]. }
  intros w Hw. destruct (free_holds R C k w Hw Hk) as (w' & -> & H). exact H.
Qed.
(** *** References *)

(** A KOA without references may get the first. *)
Definition may_enter R (r : kref) : Prop :=
  kr_refs r = 0 -> kr_type r = TXC_KOA_IS_FILE -> forall j, ~ cached R (u32 (kr_word r)) j.

Lemma incref_registry R k r :
  R !! k = Some r -> 0 <= kr_refs r -> may_enter R r ->
  m_hoare (registry R) (koa_incref k) (fun _ => registry (<[k := kr_add 1 r]> R)) (fun _ => True).
Proof.
  intros Hr Hn He w (C & H & Hc). unfold koa_incref.
  set (r' := kr_add 1 r). set (R' := <[k := r']> R).
  assert (R' !! k = Some r') as Hr' by apply lookup_insert_eq.
  pose proof (koa_upd_holds R C k r r' (fun x => k_set_refcnt (koa_refcnt x + 1) x)) as Hu.
  specialize (Hu ltac:(simpl; lia)). assert (forall c, koa_is r c -> koa_is r' (k_set_refcnt (koa_refcnt c + 1) c)) as Hf.
  { intros c (H1 & H2 & H3). split_and!; simpl; [done..|lia]. }
  specialize (Hu Hf w (conj H Hr)). unfold m_bind at 1. destruct (koa_upd _ _ w) as [[] w1| | | | |]; try done.
  destruct (koa_get_holds _ _ _ _ _ Hu Hr') as (c & E & (Ht & Hw & Hc')).
  rewrite (m_bind_run _ _ _ _ _ E), Ht, Hc'. simpl.
  destruct (decide (kr_refs r = 0 /\ kr_type r = TXC_KOA_IS_FILE)) as [[H0 Hf']|Hno].
  - rewrite !bool_decide_eq_true_2 by (done || lia). simpl.
    assert (C !! u32 (kr_word r) = None) as Hnone.
    { apply eq_None_not_Some. intros [j Hj]. apply Hc in Hj. by apply (He H0 Hf' j). }
    destruct (insert_holds _ _ _ _ _ Hu Hr' Hnone) as (ret & w2 & E2 & H2). rewrite (m_bind_run _ _ _ _ _ E2).
    exists (<[u32 (kr_word r) := k]> C). split; [exact H2|].
    apply coherent_first; [done| |done..|simpl; lia|done].
    intros i (s & Hs & _ & Hpos & _). simplify_eq. lia.
  - assert (bool_decide (kr_refs r + 1 = 1) && bool_decide (kr_type r = TXC_KOA_IS_FILE) = false) as ->.
    { apply andb_false_iff. rewrite !bool_decide_eq_false. destruct (decide (kr_refs r = 0)); [right; tauto|left; lia]. }
    exists C. split; [exact Hu|]. destruct (decide (kr_refs r = 0)) as [H0|H0].
    + apply coherent_new; [done| |left; tauto]. intros i (s & Hs & _ & Hpos & _). simplify_eq. lia.
    + apply (coherent_update R C k r); [done..|]. simpl. lia.
Qed.

(** The registry after a reference is dropped. *)
Definition dropped R (k : Z) (r : kref) : gmap Z kref :=
  if decide (kr_refs r = 1) then delete k R else <[k := kr_add (-1) r]> R.

Lemma decref_registry R k r :
  R !! k = Some r -> 0 < kr_refs r ->
  m_hoare (registry R) (koa_decref k) (fun _ => registry (dropped R k r)) (fun _ => True).
Proof.
  intros Hr Hn w (C & H & Hc). unfold koa_decref, dropped.
  set (r' := kr_add (-1) r). set (R' := <[k := r']> R).
  assert (R' !! k = Some r') as Hr' by apply lookup_insert_eq.
  pose proof (koa_upd_holds R C k r r' (fun x => k_set_refcnt (koa_refcnt x - 1) x)) as Hu.
  specialize (Hu ltac:(simpl; lia)). assert (forall c, koa_is r c -> koa_is r' (k_set_refcnt (koa_refcnt c - 1) c)) as Hf.
  { intros c (H1 & H2 & H3). split_and!; simpl; [done..|lia]. }
  specialize (Hu Hf w (conj H Hr)). unfold m_bind at 1. destruct (koa_upd _ _ w) as [[] w1| | | | |]; try done.
  destruct (koa_get_holds _ _ _ _ _ Hu Hr') as (c & E & (Ht & Hw & Hc')).
  rewrite (m_bind_run _ _ _ _ _ E), Ht, Hc'. simpl. case_decide as H1.
  - rewrite bool_decide_eq_true_2 by lia.
    assert (delete k R' = delete k R) as HR by apply delete_insert_eq.
    case_bool_decide as Hf'.
    + assert (cached R (u32 (kr_word r)) k) as Hk by (exists r; split_and!; [done..|lia|done]).
      assert (is_Some (C !! u32 (kr_word r'))) as Hs by (exists k; by apply (Hc (u32 (kr_word r)) k)).
      destruct (remove_holds _ _ _ _ _ Hu Hr' Hs) as (ret & w2 & E2 & H2). unfold m_bind at 1.
      rewrite (m_bind_run _ _ _ _ _ E2). simpl.
      pose proof (destroy_holds R' (delete (u32 (kr_word r)) C) k w2 (conj H2 (mk_is_Some _ _ Hr'))) as Hd.
      destruct (txc_koa_destroy k w2); try done. rewrite HR in Hd. exists (delete (u32 (kr_word r)) C). split; [done|].
      by apply coherent_delete_cached.
    + unfold m_bind, m_ret. pose proof (destroy_holds R' C k w1 (conj Hu (mk_is_Some _ _ Hr'))) as Hd.
      destruct (txc_koa_destroy k w1); try done. rewrite HR in Hd. exists C. split; [done|].
      apply coherent_delete; [done|]. intros i (x & Hs & H2 & _). by simplify_eq.
  - rewrite bool_decide_eq_false_2 by lia. exists C. split; [exact Hu|].
    apply (coherent_update R C k r); [done..|]. simpl. lia.
Qed.
(** *** The operations of [core/koa.c] *)

Lemma koa_upd_mutex_registry R k b :
  m_hoare (registry R) (koa_upd k (k_set_mutex b)) (fun _ => registry R) (fun _ => True).
Proof.
  intros w (C & H & Hc). pose proof (koa_mutex_holds R C k b w H) as Hm. destruct (koa_upd _ _ w); try done. by exists C.
Qed.

Lemma quiet_registry {A} R (m : M world A) :
  m_pres same_registry m -> m_hoare (registry R) m (fun _ => registry R) (fun _ => True).
Proof.
  intros Hm. eapply m_hoare_conseq; [apply (m_hoare_pres same_registry (registry R)); [exact Hm|]|done..].
  intros; by eapply registry_same.
Qed.

Lemma koa_lock_registry R k : m_hoare (registry R) (koa_lock k) (fun _ => registry R) (fun _ => True).
Proof.
  unfold koa_lock. eapply m_hoare_bind; [apply quiet_registry; m_pres_auto|intros c].
  destruct (koa_mutex c); [done|]. apply koa_upd_mutex_registry.
Qed.

(** What surrounds the change of a reference count. *)
Lemma locked_registry R R' k (m : M world unit) (ret : Z) :
  m_hoare (registry R) m (fun _ => registry R') (fun _ => True) ->
  m_hoare (registry R) (koa_lock k ;;; m ;;; koa_unlock k ;;; m_ret ret) (fun _ => registry R') (fun _ => True).
Proof.
  intros Hm. eapply m_hoare_bind; [apply koa_lock_registry|intros ?].
  eapply m_hoare_bind; [exact Hm|intros ?].
  eapply m_hoare_bind; [apply koa_upd_mutex_registry|intros ?]. by apply m_hoare_ret.
Qed.

Lemma attach_registry R k r :
  R !! k = Some r -> 0 <= kr_refs r -> may_enter R r ->
  m_hoare (registry R) (txc_koa_attach k) (fun _ => registry (<[k := kr_add 1 r]> R)) (fun _ => True).
Proof. intros Hr Hn He. by apply locked_registry, incref_registry. Qed.

Lemma detach_registry R k r :
  R !! k = Some r -> 0 < kr_refs r ->
  m_hoare (registry R) (txc_koa_detach k) (fun _ => registry (dropped R k r)) (fun _ => True).
Proof. intros Hr Hn. by apply locked_registry, decref_registry. Qed.

(** The entry of a descriptor, and the descriptors a KOA lists. *)
Lemma fd_upd_registry fd f : m_pres same_registry (fd_upd fd f).
Proof. by apply fd_upd_pres. Qed.

Lemma koa_upd_fdref_registry R k r l n :
  R !! k = Some r -> m_hoare (registry R) (koa_upd k (k_set_fdref l n)) (fun _ => registry R) (fun _ => True).
Proof.
  intros Hr w (C & H & Hc). pose proof H as (_ & Hm & _). destruct (Hm k r Hr) as [Hn _].
  pose proof (koa_upd_holds R C k r r (k_set_fdref l n) Hn ltac:(by intros c (? & ? & ?)) w (conj H Hr)) as Hu.
  destruct (koa_upd _ _ w); try done. exists C. by rewrite insert_id in Hu.
Qed.

Lemma m_when_lock_registry fd b :
  m_pres same_registry (m_when b (txc_koa_lock_fd fd)) /\ m_pres same_registry (m_when b (txc_koa_unlock_fd fd)).
Proof. pose proof fd_upd_registry. split; (apply m_pres_when; [typeclasses eauto|]); unfold txc_koa_lock_fd, txc_koa_unlock_fd; m_pres_auto. Qed.

Lemma attach_fd_registry R k r fd b :
  R !! k = Some r -> 0 <= kr_refs r -> may_enter R r ->
  m_hoare (registry R) (txc_koa_attach_fd k fd b) (fun _ => registry (<[k := kr_add 1 r]> R)) (fun _ => True).
Proof.
  intros Hr Hn He. unfold txc_koa_attach_fd. destruct (m_when_lock_registry fd b).
  eapply m_hoare_bind; [by apply quiet_registry|intros ?].
  eapply m_hoare_bind; [apply quiet_registry, fd_upd_registry|intros ?].
  eapply m_hoare_bind; [by apply incref_registry|intros ?].
  eapply m_hoare_bind; [apply quiet_registry; m_pres_auto|intros c]. case_bool_decide; [done|].
  eapply m_hoare_bind; [apply quiet_registry; m_pres_auto|intros l].
  eapply m_hoare_bind; [eapply koa_upd_fdref_registry, lookup_insert_eq|intros ?].
  eapply m_hoare_bind; [by apply quiet_registry|intros ?]. by apply m_hoare_ret.
Qed.

(** [detach_fd] gives the reference back unless it fails. *)
Lemma detach_fd_registry R k r fd b :
  R !! k = Some r -> 0 < kr_refs r ->
  m_hoare (registry R) (txc_koa_detach_fd k fd b)
    (fun ret w => (ret = TXC_R_SUCCESS /\ registry (dropped R k r) w) \/ (ret = TXC_R_FAILURE /\ registry R w)) (fun _ => True).
Proof.
  intros Hr Hn. unfold txc_koa_detach_fd. destruct (m_when_lock_registry fd b).
  eapply m_hoare_bind; [apply quiet_registry; m_pres_auto|intros ?].
  eapply m_hoare_bind; [by apply quiet_registry|intros ?].
  eapply m_hoare_bind; [apply quiet_registry; m_pres_auto|intros e]. case_bool_decide; [apply m_hoare_ret; auto|].
  eapply m_hoare_bind; [apply quiet_registry, fd_upd_registry|intros ?].
  eapply m_hoare_bind; [apply quiet_registry; m_pres_auto|intros c].
  destruct (fdref_index _ _ fd) as [index|].
  - eapply m_hoare_bind; [apply quiet_registry; m_pres_auto|intros last].
    eapply m_hoare_bind; [apply quiet_registry; m_pres_auto|intros l].
    eapply m_hoare_bind; [by eapply koa_upd_fdref_registry|intros ?].
    eapply m_hoare_bind; [by apply decref_registry|intros ?].
    eapply m_hoare_bind; [by apply quiet_registry|intros ?]. apply m_hoare_ret. auto.
  - eapply m_hoare_bind; [by apply quiet_registry|intros ?]. apply m_hoare_ret. auto.
Qed.

(** A KOA whose object was just allocated. *)
Definition fresh R C k w : Prop :=
  R !! k = None /\ is_Some (koas (w_koamgr w) !! k) /\
  (forall r, pool_part (<[k := r]> R) (pool_koa_obj (w_koamgr w)) (koas (w_koamgr w))) /\
  cells_part R (koas (w_koamgr w)) /\ ht_rep (alias_hash_tbl (w_koamgr w)) C.

Lemma fresh_same R C k w w' : fresh R C k w -> same_registry w w' -> fresh R C k w'.
Proof. intros H (H1 & H2 & H3). unfold fresh. by rewrite H1, H2, H3. Qed.

Lemma alloc_fresh R C :
  coherent R C -> m_hoare (holds R C) (in_pool_koa (txc_pool_object_alloc true))
    (fun r w => r.1 = TXC_R_SUCCESS -> exists k, r.2 = Some k /\ fresh R C k w) (fun _ => True).
Proof.
  intros Hc w (Hp & Hm & Hh). destruct (pool_part_alloc _ _ _ Hp) as [E|(k & p' & E & Hk & Hcell & Hp')].
  - by rewrite (in_pool_koa_run _ _ _ _ E).
  - rewrite (in_pool_koa_run _ _ _ _ E). intros _. by exists k.
Qed.

Lemma init_holds R C k t s :
  m_hoare (fresh R C k) (koa_upd k (fun c => Koa false s (fdref_fd c) 0 0 t (koa_word c)))
    (fun _ w => R !! k = None /\ exists wd, holds (<[k := KRef t wd 0]> R) C w) (fun _ => True).
Proof.
  intros w (Hk & [c Hc] & Hp & Hm & Hh). rewrite (koa_upd_run _ _ _ _ Hc). split; [done|]. exists (koa_word c).
  split_and!; simpl; [by apply pool_part_cell|by apply cells_part_cell|done].
Qed.

Lemma set_word_holds R C k t wd u :
  m_hoare (holds (<[k := KRef t wd 0]> R) C) (koa_upd k (k_set_word u)) (fun _ => holds (<[k := KRef t u 0]> R) C) (fun _ => True).
Proof.
  intros w Hw. pose proof (koa_upd_holds (<[k := KRef t wd 0]> R) C k (KRef t wd 0) (KRef t u 0) (k_set_word u)) as Hu.
  rewrite insert_insert_eq in Hu. apply Hu; [done|by intros c (? & ? & ?)|]. split; [done|apply lookup_insert_eq].
Qed.

(** A new KOA, which has no reference yet. *)
Lemma create_registry R t a :
  m_hoare (registry R) (txc_koa_create t a)
    (fun k w => R !! k = None /\ exists wd, (t = TXC_KOA_IS_FILE -> wd = a) /\ registry (<[k := KRef t wd 0]> R) w)
    (fun _ => True).
Proof.
  unfold txc_koa_create. apply m_hoare_exists. intros C. apply m_hoare_pure. intros Hc.
  eapply m_hoare_bind; [by apply alloc_fresh|intros [c o]]. cbv beta iota. case_bool_decide as Hs; [done|].
  apply (m_hoare_conseq _ (fun w => exists k, o = Some k /\ fresh R C k w) _ _ (fun k w => R !! k = None /\ exists wd,
    (t = TXC_KOA_IS_FILE -> wd = a) /\ registry (<[k := KRef t wd 0]> R) w) _ (fun _ => True));
    [|intros w Hw; apply Hw; simpl; lia|done|done].
  apply m_hoare_exists. intros k w [-> Hw]. revert w Hw.
  apply (m_hoare_bind _ _ _ (fun x w => fresh R C k w /\ x = k)); [by intros w Hw|]. intros x. apply m_hoare_pure. intros ->.
  apply (m_hoare_bind _ _ _ (fun _ => fresh R C k)).
  { eapply m_hoare_conseq; [apply (m_hoare_pres same_registry (fresh R C k)); [apply sentinel_create_registry|]|done..].
    intros; by eapply fresh_same. }
  intros s. eapply m_hoare_bind; [apply init_holds|intros []]. intros w [Hk Hw]. revert w Hw. apply m_hoare_exists. intros wd.
  assert (forall x, coherent (<[k := KRef t x 0]> R) C) as Hc'.
  { intros x. apply coherent_new; [done| |right; simpl; lia]. intros i (r & Hr & _). congruence. }
  apply (m_hoare_bind _ _ _ (fun _ w => exists x, (t = TXC_KOA_IS_FILE -> x = a) /\ holds (<[k := KRef t x 0]> R) C w)).
  - case_bool_decide as Hf; [|case_match].
    + eapply m_hoare_conseq; [apply set_word_holds|done| |done]. intros ? w Hw. by exists a.
    + apply (m_hoare_bind _ _ _ (fun _ => holds (<[k := KRef t wd 0]> R) C)).
      * eapply m_hoare_conseq; [apply (m_hoare_pres same_registry (holds (<[k := KRef t wd 0]> R) C)); [apply in_buffermgr_registry|]|done..].
        intros; by eapply holds_same.
      * intros u. eapply m_hoare_conseq; [apply (set_word_holds R C k t wd u)|done| |done]. intros ? w Hw. by exists u.
    + apply m_hoare_ret. intros w Hw. by exists wd.
  - intros []. apply m_hoare_ret. intros w (x & Hx & Hw). split; [done|]. exists x. split; [done|]. by exists C.
Qed.
(** ** The clients *)

(** The references the clients hold, one entry for each. *)
Definition held (refs : list Z) (k : Z) : Z := Z.of_nat (count_occ Z.eq_dec refs k).

(** A reference, for itself or through a descriptor. *)
Definition attach_by (how : option (Z * bool)) (k : Z) : M world Z :=
  match how with None => txc_koa_attach k | Some (fd, lock) => txc_koa_attach_fd k fd lock end.

(** What clients do: reference the KOA of a file, looked up under its inode and made
    when there is none; make that of a pipe or a socket; reference one once more;
    drop a reference; and, between these and inside them, what does not concern the
    registry. *)
Inductive koa_step : world * list Z -> world * list Z -> Prop :=
  | step_new_file w refs ino o w1 w2 k w3 w4 how ret w5 :
      txc_koa_alias_cache_lookup_inode ino w = Ret (TXC_R_NOTEXISTS, o) w1 -> same_registry w1 w2 ->
      txc_koa_create TXC_KOA_IS_FILE ino w2 = Ret k w3 -> same_registry w3 w4 ->
      attach_by how k w4 = Ret ret w5 -> koa_step (w, refs) (w5, k :: refs)
  | step_known_file w refs ino k w1 w2 how ret w3 :
      txc_koa_alias_cache_lookup_inode ino w = Ret (TXC_R_SUCCESS, Some k) w1 -> same_registry w1 w2 ->
      attach_by how k w2 = Ret ret w3 -> koa_step (w, refs) (w3, k :: refs)
  | step_new_other w refs t k w1 w2 how ret w3 :
      t <> TXC_KOA_IS_FILE -> txc_koa_create t 0 w = Ret k w1 -> same_registry w1 w2 ->
      attach_by how k w2 = Ret ret w3 -> koa_step (w, refs) (w3, k :: refs)
  | step_again w refs k how ret w1 :
      k ∈ refs -> attach_by how k w = Ret ret w1 -> koa_step (w, refs) (w1, k :: refs)
  | step_detach w refs1 k refs2 ret w1 :
      txc_koa_detach k w = Ret ret w1 -> koa_step (w, refs1 ++ k :: refs2) (w1, refs1 ++ refs2)
  | step_detach_fd w refs1 k refs2 fd b w1 :
      txc_koa_detach_fd k fd b w = Ret TXC_R_SUCCESS w1 -> koa_step (w, refs1 ++ k :: refs2) (w1, refs1 ++ refs2)
  | step_detach_fd_fails w refs k fd b w1 :
      k ∈ refs -> txc_koa_detach_fd k fd b w = Ret TXC_R_FAILURE w1 -> koa_step (w, refs) (w1, refs)
  | step_other w refs w1 : same_registry w w1 -> koa_step (w, refs) (w1, refs).

(** Every live KOA has the references its clients hold, and at least one. *)
Definition counts R (refs : list Z) : Prop :=
  (forall k, is_Some (R !! k) <-> k ∈ refs) /\ map_Forall (fun k r => kr_refs r = held refs k) R.

Lemma held_pos refs k : k ∈ refs <-> 0 < held refs k.
Proof. unfold held. rewrite list_elem_of_In, (count_occ_In Z.eq_dec). lia. Qed.

Lemma held_cons refs k j : held (k :: refs) j = held refs j + (if decide (k = j) then 1 else 0).
Proof. unfold held. simpl. destruct (Z.eq_dec k j), (decide (k = j)); try done; lia. Qed.

Lemma held_remove l1 k l2 j : held (l1 ++ k :: l2) j = held (k :: l1 ++ l2) j.
Proof. unfold held. simpl. rewrite !count_occ_app. simpl. destruct (Z.eq_dec k j); lia. Qed.

Lemma counts_perm R l1 k l2 : counts R (l1 ++ k :: l2) <-> counts R (k :: l1 ++ l2).
Proof.
  unfold counts. split; intros [H1 H2]; (split; [intros j; rewrite H1; set_solver|]); intros j r Hr; specialize (H2 j r Hr);
    simpl in *; by rewrite ?held_remove in *.
Qed.

Lemma counts_new R refs k r :
  counts R refs -> R !! k = None -> kr_refs r = 1 -> counts (<[k := r]> R) (k :: refs).
Proof.
  intros [H1 H2] Hk Hr. assert (k ∉ refs) as Hn by (rewrite <- H1, Hk; by intros [? ?]). split.
  - intros j. rewrite lookup_insert_is_Some, H1. destruct (decide (k = j)); set_solver.
  - intros j s. rewrite lookup_insert_Some, held_cons. intros [[<- <-]|[Hne Hs]].
    + rewrite decide_True by done. assert (held refs k = 0) as ->; [|lia]. rewrite held_pos in Hn. unfold held in *. lia.
    + rewrite decide_False, Z.add_0_r by done. by apply H2.
Qed.

Lemma counts_more R refs k r :
  counts R refs -> R !! k = Some r -> counts (<[k := kr_add 1 r]> R) (k :: refs).
Proof.
  intros [H1 H2] Hk. split.
  - intros j. rewrite lookup_insert_is_Some, H1. destruct (decide (k = j)); set_solver.
  - intros j s. rewrite lookup_insert_Some, held_cons. intros [[<- <-]|[Hne Hs]].
    + rewrite decide_True by done. simpl. by rewrite (H2 k r).
    + rewrite decide_False, Z.add_0_r by done. by apply H2.
Qed.

Lemma counts_dropped R refs k r :
  counts R (k :: refs) -> R !! k = Some r -> counts (dropped R k r) refs.
Proof.
  intros [H1 H2] Hk. pose proof (H2 k r Hk) as Hn. simpl in Hn. rewrite held_cons, decide_True in Hn by done.
  unfold dropped. case_decide as Hr; split.
  - intros j. rewrite lookup_delete_is_Some, H1, elem_of_cons. split; [naive_solver|]. intros Hj. split; [|by right].
    intros ->. apply held_pos in Hj. lia.
  - intros j s. rewrite lookup_delete_Some. intros [Hne Hs]. specialize (H2 j s Hs). simpl in H2.
    rewrite held_cons, decide_False in H2 by done. lia.
  - intros j. rewrite lookup_insert_is_Some, H1, elem_of_cons. destruct (decide (k = j)) as [<-|Hne]; [|naive_solver].
    split; [|by left]. intros _. apply held_pos. unfold held in *. lia.
  - intros j s. rewrite lookup_insert_Some. intros [[<- <-]|[Hne Hs]]; [simpl; lia|]. specialize (H2 j s Hs). simpl in H2.
    rewrite held_cons, decide_False in H2 by done. lia.
Qed.

Definition client_inv (s : world * list Z) : Prop := exists R, registry R s.1 /\ counts R s.2.

Lemma counts_pos R refs k r : counts R refs -> R !! k = Some r -> 0 < kr_refs r.
Proof. intros [H1 H2] Hk. rewrite (H2 k r Hk). apply held_pos, H1. by eexists. Qed.

Lemma attach_by_registry R how k r w ret w' :
  registry R w -> R !! k = Some r -> 0 <= kr_refs r -> may_enter R r -> attach_by how k w = Ret ret w' ->
  registry (<[k := kr_add 1 r]> R) w'.
Proof.
  intros Hw Hk Hn He E. destruct how as [[fd b]|]; simpl in E.
  - pose proof (attach_fd_registry R k r fd b Hk Hn He w Hw) as H. by rewrite E in H.
  - pose proof (attach_registry R k r Hk Hn He w Hw) as H. by rewrite E in H.
Qed.

(** A KOA with references is referenced once more. *)
Lemma attach_more R refs how k r w ret w' :
  registry R w -> counts R refs -> R !! k = Some r -> attach_by how k w = Ret ret w' -> client_inv (w', k :: refs).
Proof.
  intros Hw Hc Hk E. pose proof (counts_pos _ _ _ _ Hc Hk) as Hpos. exists (<[k := kr_add 1 r]> R).
  split; [|by apply counts_more]. eapply attach_by_registry; [done..|lia| |done]. intros H0. lia.
Qed.

(** A KOA that was made gets its first reference. *)
Lemma attach_first R refs t a how k w w1 w1' ret w2 :
  registry R w -> counts R refs -> (t = TXC_KOA_IS_FILE -> forall j, ~ cached R (u32 a) j) ->
  txc_koa_create t a w = Ret k w1 -> same_registry w1 w1' -> attach_by how k w1' = Ret ret w2 ->
  client_inv (w2, k :: refs).
Proof.
  intros Hw Hc Hno E1 Hs E2. pose proof (create_registry R t a w Hw) as H1. rewrite E1 in H1. destruct H1 as (Hk & wd & Hwd & Hw1).
  apply (registry_same _ _ _ Hw1) in Hs.
  exists (<[k := KRef t wd 1]> R). split; [|by apply counts_new].
  pose proof (attach_by_registry (<[k := KRef t wd 0]> R) how k (KRef t wd 0) w1' ret w2 Hs (lookup_insert_eq _ _ _) ltac:(done)) as H2.
  unfold kr_add in H2. simpl in H2. rewrite insert_insert_eq in H2. apply H2; [|done].
  intros _ Ht j. simpl in Ht. simpl. rewrite (Hwd Ht), cached_insert. intros [(_ & _ & H & _)|[_ H]]; [simpl in H; lia|].
  by eapply Hno.
Qed.

Lemma koa_step_inv s s' : client_inv s -> koa_step s s' -> client_inv s'.
Proof.
  intros (R & Hw & Hc) Hs. destruct Hs as [w refs ino o w1 w2 k w3 w4 how ret w5 E1 Hs1 E2 Hs2 E3|
    w refs ino k w1 w2 how ret w3 E1 Hs1 E2|w refs t k w1 w2 how ret w3 Ht E1 Hs1 E2|w refs k how ret w1 Hk E|
    w refs1 k refs2 ret w1 E|w refs1 k refs2 fd b w1 E|w refs k fd b w1 Hk E|w refs w1 E]; simpl in Hw, Hc.
  - destruct (lookup_registry R ino w Hw) as (o' & w' & E & Hs & Ho). rewrite E1 in E. destruct o'; [done|]. injection E as -> ->.
    eapply attach_first; [|done| |exact E2|done..]; [|by intros _ j; rewrite <- Ho].
    eapply registry_same; [|exact Hs1]. by eapply registry_same.
  - destruct (lookup_registry R ino w Hw) as (o' & w' & E & Hs & Ho). rewrite E1 in E. destruct o'; [|done]. injection E as -> ->.
    destruct (proj1 (Ho _) eq_refl) as (r & Hk & _). eapply attach_more; [|done..].
    eapply registry_same; [|exact Hs1]. by eapply registry_same.
  - by eapply attach_first.
  - apply Hc in Hk as [r Hk]. by eapply attach_more.
  - apply counts_perm in Hc. destruct (proj2 (proj1 Hc k)) as [r Hk]; [set_solver|].
    pose proof (detach_registry R k r Hk (counts_pos _ _ _ _ Hc Hk) w Hw) as H. rewrite E in H.
    exists (dropped R k r). split; [done|by apply counts_dropped].
  - apply counts_perm in Hc. destruct (proj2 (proj1 Hc k)) as [r Hk]; [set_solver|].
    pose proof (detach_fd_registry R k r fd b Hk (counts_pos _ _ _ _ Hc Hk) w Hw) as H. rewrite E in H.
    destruct H as [[_ H]|[H _]]; [|done]. exists (dropped R k r). split; [done|by apply counts_dropped].
  - destruct (proj2 (proj1 Hc k) Hk) as [r Hr].
    pose proof (detach_fd_registry R k r fd b Hr (counts_pos _ _ _ _ Hc Hr) w Hw) as H. rewrite E in H.
    destruct H as [[H _]|[_ H]]; [done|]. by exists R.
  - exists R. split; [by eapply registry_same|done].
Qed.
(** *** The calls are made of these steps *)

Section calls.
Context (s : world * list Z) (txd : Z).

Definition reached (refs : list Z) w : Prop := rtc koa_step s (w, refs).
(** ... with references to some KOAs more. *)
Definition reached_more (n : nat) (refs : list Z) w : Prop := exists new, (length new <= n)%nat /\ reached (new ++ refs) w.

Lemma reached_same refs w w' : reached refs w -> same_registry w w' -> reached refs w'.
Proof. intros H Hs. eapply rtc_r; [exact H|by apply step_other]. Qed.

Lemma reached_quiet {A} refs (m : M world A) :
  m_pres same_registry m -> m_hoare (reached refs) m (fun _ => reached refs) (reached refs).
Proof. intros Hm. apply (m_hoare_pres same_registry); [done|]. intros; by eapply reached_same. Qed.

Lemma reached_step refs refs' {A} (m : M world A) E :
  m_noabort m -> (forall w a w', m w = Ret a w' -> koa_step (w, refs) (w', refs')) ->
  m_hoare (reached refs) m (fun _ => reached refs') E.
Proof.
  intros Hn Hm w Hw. specialize (Hn w). specialize (Hm w). destruct (m w) as [a w'| | | | |]; try done.
  eapply rtc_r; [exact Hw|by eapply Hm].
Qed.

(** A look-up, and what leaves the registry alone after it. *)
Definition looked_up refs ino (r : Z * option Z) w : Prop := exists w0 w1, reached refs w0 /\
  txc_koa_alias_cache_lookup_inode ino w0 = Ret r w1 /\ same_registry w1 w.

Lemma lookup_looked_up refs ino E :
  m_hoare (reached refs) (txc_koa_alias_cache_lookup_inode ino) (looked_up refs ino) E.
Proof.
  intros w Hw. pose proof (koa_ref_noabort) as (_ & _ & _ & Hn & _). specialize (Hn ino w).
  destruct (txc_koa_alias_cache_lookup_inode ino w) as [r w1| | | | |] eqn:El; try done. by exists w, w1.
Qed.

Lemma looked_up_quiet {A} refs ino r (m : M world A) :
  m_pres same_registry m -> m_hoare (looked_up refs ino r) m (fun _ => looked_up refs ino r) (looked_up refs ino r).
Proof.
  intros Hm. apply (m_hoare_pres same_registry); [done|]. intros w w' (w0 & w1 & H1 & H2 & H3) Hs. exists w0, w1.
  split_and!; [done|done|by etrans].
Qed.

Lemma lookup_code ino w r w' :
  txc_koa_alias_cache_lookup_inode ino w = Ret r w' -> r.1 <> TXC_R_SUCCESS -> r.1 = TXC_R_NOTEXISTS.
Proof.
  unfold txc_koa_alias_cache_lookup_inode. intros E. m_inv E. destruct x as [ret v]. by case_bool_decide; injection E as <- <-.
Qed.

Lemma attach_by_noabort how k : m_noabort (attach_by how k).
Proof. destruct how as [[fd b]|]; simpl; m_noabort_auto. Qed.

Lemma attach_known_reached refs ino k how E :
  m_hoare (looked_up refs ino (TXC_R_SUCCESS, Some k)) (attach_by how k) (fun _ => reached (k :: refs)) E.
Proof.
  intros w (w0 & w1 & H1 & H2 & H3). pose proof (attach_by_noabort how k w) as Hn.
  destruct (attach_by how k w) as [ret w'| | | | |] eqn:Ea; try done. eapply rtc_r; [exact H1|by eapply step_known_file].
Qed.

(** A KOA made after a look-up that found none. *)
Definition made refs (k : Z) w : Prop := forall how ret w', attach_by how k w = Ret ret w' -> reached (k :: refs) w'.

Lemma create_made refs ino r E :
  r.1 <> TXC_R_SUCCESS ->
  m_hoare (looked_up refs ino r) (txc_koa_create TXC_KOA_IS_FILE ino)
    (fun k w => forall w', same_registry w w' -> made refs k w') E.
Proof.
  intros Hr w (w0 & w1 & H1 & H2 & H3). pose proof koa_ref_noabort as (_ & _ & Hn & _). specialize (Hn TXC_KOA_IS_FILE ino w).
  destruct (txc_koa_create TXC_KOA_IS_FILE ino w) as [k w2| | | | |] eqn:Ec; try done.
  intros w3 Hs how ret w4 Ea. eapply rtc_r; [exact H1|]. pose proof (lookup_code _ _ _ _ H2 Hr) as Hc.
  destruct r as [c o]. simpl in Hc. subst c. by eapply step_new_file.
Qed.

Lemma attach_made_reached refs k how E : m_hoare (made refs k) (attach_by how k) (fun _ => reached (k :: refs)) E.
Proof.
  intros w Hw. pose proof (attach_by_noabort how k w) as Hn. destruct (attach_by how k w) eqn:Ea; try done. by eapply Hw.
Qed.

Lemma detach_reached refs1 k refs2 E :
  m_hoare (reached (refs1 ++ k :: refs2)) (txc_koa_detach k) (fun _ => reached (refs1 ++ refs2)) E.
Proof. apply reached_step; [m_noabort_auto|]. intros. by eapply step_detach. Qed.

Lemma detach_fd_reached refs1 k refs2 fd b E :
  m_hoare (reached (refs1 ++ k :: refs2)) (txc_koa_detach_fd k fd b)
    (fun ret => reached (if bool_decide (ret = TXC_R_SUCCESS) then refs1 ++ refs2 else refs1 ++ k :: refs2)) E.
Proof.
  intros w Hw. assert (m_noabort (txc_koa_detach_fd k fd b)) as Hn by m_noabort_auto. specialize (Hn w).
  destruct (txc_koa_detach_fd k fd b w) as [ret w'| | | | |] eqn:Ed; try done. case_bool_decide as Hr.
  - subst ret. eapply rtc_r; [exact Hw|by eapply step_detach_fd].
  - assert (ret = TXC_R_FAILURE) as ->; [|eapply rtc_r; [exact Hw|eapply (step_detach_fd_fails w _ k); [set_solver|done]]].
    revert Ed. unfold txc_koa_detach_fd. intros Ed. repeat m_inv Ed. case_bool_decide; [by injection Ed as <- _|].
    repeat m_inv Ed. destruct (fdref_index _ _ _); repeat m_inv Ed; by injection Ed as <- _.
Qed.

(** *** References by inode ([x_unlink], [x_rename]) *)

(** The transaction has the references [refs], or those and one more that an abort
    has left behind. *)
Definition at_most_one_more refs w : Prop := reached refs w \/ exists k, reached (k :: refs) w.

Lemma abort_registry {A} a r : m_pres same_registry (txc_tx_abort_transaction (A := A) a r).
Proof. m_pres_auto. Qed.

Lemma abort_reached {A} refs r Q (E : world -> Prop) :
  (forall w, reached refs w -> E w) -> m_hoare (reached refs) (txc_tx_abort_transaction (A := A) txd r) Q E.
Proof.
  intros HE w Hw. pose proof (reached_quiet refs _ (abort_registry (A := A) txd r) w Hw) as H.
  destruct (txc_tx_abort_transaction txd r w) as [a w'| | | | |] eqn:Ea; try done; [|by apply HE].
  unfold txc_tx_abort_transaction, tmsystem_abort_transaction in Ea. repeat m_inv Ea. done.
Qed.

Lemma lock_fds_registry k :
  m_pres same_registry (txc_koa_lock_fds_refby_koa k) /\ m_pres same_registry (txc_koa_unlock_fds_refby_koa k).
Proof. unfold txc_koa_lock_fds_refby_koa, txc_koa_unlock_fds_refby_koa. split; m_pres_auto. Qed.

Lemma unlock_alias_registry : m_pres same_registry txc_koa_unlock_alias_cache.
Proof. by apply m_pres_modify. Qed.

Lemma acquire_new_registry k : m_pres same_registry (acquire_new txd k).
Proof. unfold acquire_new, txc_koa_get_sentinel. m_pres_auto. Qed.

Lemma reached_more_l {A} refs refs' (m : M world A) Q :
  m_hoare (reached refs) m Q (reached refs) -> (forall w, reached refs w -> at_most_one_more refs' w) ->
  m_hoare (reached refs) m Q (at_most_one_more refs').
Proof. intros Hm HE. by eapply m_hoare_conseq. Qed.

Lemma attach_inode_references refs ino flags :
  m_hoare (reached refs) (attach_inode txd ino flags) (fun k => reached (k :: refs)) (at_most_one_more refs).
Proof.
  assert (forall k w, reached (k :: refs) w -> at_most_one_more refs w) as Hmore by (intros; right; eauto).
  unfold attach_inode. eapply m_hoare_bind; [apply lookup_looked_up|intros [xret o]]. cbv beta iota.
  case_bool_decide as Hx; [subst xret|].
  - destruct o as [k|]; [|by intros w _]. simpl. apply (m_hoare_bind _ _ _ (fun x w => looked_up refs ino (TXC_R_SUCCESS, Some k) w /\ x = k)).
    { by apply m_hoare_ret. }
    intros x. apply m_hoare_pure. intros ->. apply (m_hoare_bind _ _ _ (fun _ => reached (k :: refs))); [|intros ?; by apply m_hoare_ret].
    destruct (lock_fds_registry k) as [Hl Hu]. unfold attach_known.
    apply (m_hoare_bind _ _ _ (fun _ => looked_up refs ino (TXC_R_SUCCESS, Some k))).
    { eapply m_hoare_quiet; [exact Hl|m_noabort_auto|]. intros w w' (w0 & w1 & H1 & H2 & H3) Hs. exists w0, w1. split_and!; [done|done|by etrans]. }
    intros ?. eapply m_hoare_bind; [apply (attach_known_reached refs ino k None)|intros ?].
    eapply m_hoare_bind; [apply reached_more_l; [apply reached_quiet; unfold txc_koa_get_sentinel; m_pres_auto|apply Hmore]|intros sent].
    eapply m_hoare_bind; [apply reached_more_l; [apply reached_quiet; m_pres_auto|apply Hmore]|intros xret]. case_bool_decide.
    + eapply m_hoare_bind; [apply (detach_reached [] k refs)|intros ?]. simpl.
      eapply m_hoare_bind; [apply reached_more_l; [by apply reached_quiet|by left]|intros ?].
      eapply m_hoare_bind; [apply reached_more_l; [apply reached_quiet, unlock_alias_registry|by left]|intros ?].
      apply abort_reached. by left.
    + apply reached_more_l; [by apply reached_quiet|apply Hmore].
  - eapply m_hoare_bind; [by apply create_made|intros k].
    apply (m_hoare_bind _ _ _ (fun _ => reached (k :: refs))).
    { eapply m_hoare_conseq; [apply (attach_made_reached refs k None (fun _ => False))| |done|done]. intros w Hw. by apply Hw. }
    intros ?. eapply m_hoare_bind; [apply reached_more_l; [apply reached_quiet, acquire_new_registry|apply Hmore]|intros ?].
    by apply m_hoare_ret.
Qed.

(** *** Opening a file *)

Lemma open_undo_quiet fd koa result : m_pres same_registry (register_open_undo txd fd koa result).
Proof. unfold register_open_undo, malloc_or_exit. m_pres_auto. Qed.

Lemma libc_registry {A} (c : syscall kstate A) : m_pres same_registry (libc c).
Proof. by apply libc_pres. Qed.

Lemma lock_fd_registry fd : m_pres same_registry (txc_koa_lock_fd fd) /\ m_pres same_registry (txc_koa_unlock_fd fd).
Proof. split; m_pres_auto. Qed.
Lemma get_sentinel_registry k : m_pres same_registry (txc_koa_get_sentinel k).
Proof. unfold txc_koa_get_sentinel. m_pres_auto. Qed.

Lemma open_alias_references refs ino fd k result :
  m_hoare (looked_up refs ino (TXC_R_SUCCESS, Some k)) (x_open_alias txd fd k result)
    (fun _ => reached (k :: refs)) (at_most_one_more refs).
Proof.
  assert (forall w, reached (k :: refs) w -> at_most_one_more refs w) as Hmore by (intros; right; eauto).
  destruct (lock_fds_registry k) as [Hl Hu], (lock_fd_registry fd) as [Hl1 Hu1]. unfold x_open_alias.
  assert (forall w w', looked_up refs ino (TXC_R_SUCCESS, Some k) w -> same_registry w w' ->
    looked_up refs ino (TXC_R_SUCCESS, Some k) w') as Hsame.
  { intros w w' (w0 & w1 & H1 & H2 & H3) Hs. exists w0, w1. split_and!; [done|done|by etrans]. }
  eapply m_hoare_bind; [eapply m_hoare_quiet; [exact Hl|m_noabort_auto|exact Hsame]|intros ?].
  eapply m_hoare_bind; [eapply m_hoare_quiet; [exact Hl1|m_noabort_auto|exact Hsame]|intros ?].
  eapply m_hoare_bind; [apply (attach_known_reached refs ino k (Some (fd, false)))|intros ?].
  eapply m_hoare_bind; [apply reached_more_l; [apply reached_quiet, get_sentinel_registry|apply Hmore]|intros sent].
  eapply m_hoare_bind; [apply reached_more_l; [apply reached_quiet; m_pres_auto|apply Hmore]|intros xret]. case_bool_decide.
  - eapply m_hoare_bind; [apply reached_more_l; [apply reached_quiet, libc_registry|apply Hmore]|intros ?].
    eapply m_hoare_bind; [apply (detach_fd_reached [] k refs)|intros ret]. simpl.
    set (refs' := if bool_decide (ret = TXC_R_SUCCESS) then refs else k :: refs).
    assert (forall w, reached refs' w -> at_most_one_more refs w) as Hmore' by (unfold refs'; case_bool_decide; [by left|done]).
    eapply m_hoare_bind; [apply reached_more_l; [by apply reached_quiet|apply Hmore']|intros ?].
    eapply m_hoare_bind; [apply reached_more_l; [by apply reached_quiet|apply Hmore']|intros ?].
    eapply m_hoare_bind; [apply reached_more_l; [apply reached_quiet, unlock_alias_registry|apply Hmore']|intros ?].
    by apply (abort_reached refs').
  - eapply m_hoare_bind; [apply reached_more_l; [apply reached_quiet, open_undo_quiet|apply Hmore]|intros ?].
    eapply m_hoare_bind; [apply reached_more_l; [by apply reached_quiet|apply Hmore]|intros ?].
    eapply m_hoare_bind; [apply reached_more_l; [apply reached_quiet, unlock_alias_registry|apply Hmore]|intros ?].
    by apply m_hoare_ret.
Qed.

Lemma open_new_references refs ino r fd result :
  r.1 <> TXC_R_SUCCESS ->
  m_hoare (looked_up refs ino r) (x_open_new txd fd ino result)
    (fun _ w => exists k, reached (k :: refs) w) (at_most_one_more refs).
Proof.
  intros Hr. destruct (lock_fd_registry fd) as [Hl1 Hu1]. unfold x_open_new.
  eapply m_hoare_bind; [by apply create_made|intros k].
  assert (forall w, reached (k :: refs) w -> at_most_one_more refs w) as Hmore by (intros; right; eauto).
  eapply m_hoare_bind.
  { eapply (m_hoare_quiet same_registry); [exact Hl1|m_noabort_auto|]. intros w w' H Hs w'' Hs'. apply H. by etrans. }
  intros ?. apply (m_hoare_bind _ _ _ (fun _ => reached (k :: refs))).
  { eapply m_hoare_conseq; [apply (attach_made_reached refs k (Some (fd, false)) (fun _ => False))| |done|done]. intros w Hw. by apply Hw. }
  intros ?. eapply m_hoare_bind; [apply reached_more_l; [apply reached_quiet, acquire_new_registry|apply Hmore]|intros ?].
  eapply m_hoare_bind; [apply reached_more_l; [apply reached_quiet, open_undo_quiet|apply Hmore]|intros ?].
  eapply m_hoare_bind; [apply reached_more_l; [by apply reached_quiet|apply Hmore]|intros ?].
  eapply m_hoare_bind; [apply reached_more_l; [apply reached_quiet, unlock_alias_registry|apply Hmore]|intros ?].
  apply m_hoare_ret. eauto.
Qed.

(** [x_open] in a transaction takes at most one reference. *)
Lemma open_references refs p flags mode result :
  m_hoare (reached refs) (x_open_tx txd p flags mode result)
    (fun _ => at_most_one_more refs) (at_most_one_more refs).
Proof.
  assert (forall w, reached refs w -> at_most_one_more refs w) as Hnone by (by left).
  unfold x_open_tx.
  eapply m_hoare_bind; [apply reached_more_l; [apply reached_quiet|apply Hnone]|intros ?].
  { unfold txc_koa_lock_alias_cache. intros w. unfold m_bind, m_get. by destruct (alias_mutex (w_koamgr w)). }
  eapply m_hoare_bind; [apply reached_more_l; [apply reached_quiet|apply Hnone]|intros inode].
  { unfold txc_koa_path2inode. pose proof @libc_registry. m_pres_auto. }
  case_bool_decide.
  { eapply m_hoare_bind; [apply reached_more_l; [apply reached_quiet, unlock_alias_registry|apply Hnone]|intros ?].
    apply m_hoare_ret. apply Hnone. }
  eapply m_hoare_bind; [apply reached_more_l; [apply reached_quiet, libc_registry|apply Hnone]|intros fildes].
  destruct (neg fildes).
  { eapply m_hoare_bind; [apply reached_more_l; [apply reached_quiet, unlock_alias_registry|apply Hnone]|intros ?].
    eapply m_hoare_bind; [apply reached_more_l; [apply reached_quiet; unfold get_errno; m_pres_auto|apply Hnone]|intros ?].
    apply m_hoare_ret. apply Hnone. }
  eapply m_hoare_bind; [apply lookup_looked_up|intros [xret o]]. cbv beta iota.
  case_bool_decide as Hx; [subst xret|].
  - destruct o as [k|]; [|by intros w _]. simpl. apply (m_hoare_bind _ _ _ (fun x w => looked_up refs inode (TXC_R_SUCCESS, Some k) w /\ x = k)).
    { by apply m_hoare_ret. }
    intros x. apply m_hoare_pure. intros ->. eapply m_hoare_conseq; [apply open_alias_references|done| |done].
    intros ? w Hw. right. by exists k.
  - eapply m_hoare_conseq; [by apply (open_new_references refs inode (xret, o))|done| |done]. intros ? w Hw. by right.
Qed.
End calls.
End registry.

(** ** The theorem *)

(** C19: Clients take and drop references to KOAs, in any order, by the operations of
    [core/koa.c] as the calls make them: they look an inode up first, and make the
    KOA of a file when there is none. Then the KOAs that exist are those with
    references, each counting its own, and no others are taken from the pool; two
    references to files with one inode are references to one KOA; and looking an
    inode up finds exactly the KOA of the file that is referenced. *)
Theorem one_koa_per_file `{PF : Platform} w0 w refs :
  registry ∅ w0 -> rtc koa_step (w0, []) (w, refs) ->
  (forall k, k ∈ refs -> exists c, koas (w_koamgr w) !! k = Some c /\ koa_refcnt c = held refs k) /\
  obj_allocated_num (pool_koa_obj (w_koamgr w)) = Z.of_nat (length (remove_dups refs)) /\
  (forall k1 k2 c1 c2, k1 ∈ refs -> k2 ∈ refs ->
    koas (w_koamgr w) !! k1 = Some c1 -> koas (w_koamgr w) !! k2 = Some c2 ->
    koa_type c1 = TXC_KOA_IS_FILE -> koa_type c2 = TXC_KOA_IS_FILE ->
    u32 (koa_word c1) = u32 (koa_word c2) -> k1 = k2) /\
  (forall ino, exists o w', txc_koa_alias_cache_lookup_inode ino w =
      Ret (match o with Some _ => TXC_R_SUCCESS | None => TXC_R_NOTEXISTS end, o) w' /\
    forall k, o = Some k <-> k ∈ refs /\ exists c, koas (w_koamgr w) !! k = Some c /\
      koa_type c = TXC_KOA_IS_FILE /\ u32 (koa_word c) = u32 ino).
Proof.
  intros H0 Hs. assert (client_inv (w, refs)) as (R & Hw & Hc).
  { assert (client_inv (w0, [])) as Hi.
    { exists ∅. split; [done|]. split; [|apply map_Forall_empty]. intros k. rewrite lookup_empty. simpl.
      split; [by intros [? ?]|by intros ?%not_elem_of_nil]. }
    revert Hi. generalize dependent (w, refs). generalize (w0, [] : list Z). intros s s' Hs. induction Hs as [|x y z Hxy _ IH]; [done|].
    intros Hx. apply IH. by eapply koa_step_inv. }
  simpl in Hw, Hc. pose proof Hw as (C & (Hp & Hm & Hh) & Hcoh).
  assert (forall k, k ∈ refs -> exists r c, R !! k = Some r /\ 0 < kr_refs r /\ koas (w_koamgr w) !! k = Some c /\ koa_is r c) as Hlive.
  { intros k Hk. apply Hc in Hk as [r Hr]. destruct (Hm k r Hr) as (_ & c & Hck & Hi). exists r, c.
    split_and!; [done|by eapply counts_pos|done|done]. }
  assert (forall k c, k ∈ refs -> koas (w_koamgr w) !! k = Some c -> koa_type c = TXC_KOA_IS_FILE ->
    cached R (u32 (koa_word c)) k) as Hfile.
  { intros k c Hk Hck Ht. destruct (Hlive k Hk) as (r & c' & Hr & Hpos & Hck' & (H1 & H2 & _)). simplify_eq.
    exists r. rewrite <- H1, <- H2. done. }
  split_and!.
  - intros k Hk. destruct (Hlive k Hk) as (r & c & Hr & _ & Hck & (_ & _ & H3)). exists c. split; [done|].
    rewrite H3. by apply (proj2 Hc k r).
  - destruct Hp as (fr & al & Hp & Hd & _). rewrite (rep_alloc_num _ _ _ Hp). f_equal.
    rewrite <- (length_fmap (obj_addr (pool_koa_obj (w_koamgr w))) al). apply Permutation_length.
    apply NoDup_Permutation; [by eapply pool_live_nodup|apply NoDup_remove_dups|]. intros k.
    rewrite elem_of_remove_dups, <- Hd. apply Hc.
  - intros k1 k2 c1 c2 Hk1 Hk2 H1 H2 Ht1 Ht2 Hi. eapply registry_unique; [exact Hw|by apply Hfile|]. rewrite Hi. by apply Hfile.
  - intros ino. destruct (lookup_registry R ino w Hw) as (o & w' & E & _ & Ho). exists o, w'. split; [done|].
    intros k. rewrite Ho. split.
    + intros (r & Hr & Ht & Hpos & Hu). assert (k ∈ refs) as Hk by (apply Hc; by eexists). split; [done|].
      destruct (Hlive k Hk) as (r' & c & Hr' & _ & Hck & (H1 & H2 & _)). simplify_eq. exists c. rewrite H1, H2. done.
    + intros (Hk & c & Hck & Ht & Hu). rewrite <- Hu. by apply Hfile.
Qed.

(** *** A run *)

Definition w_reg0 : world := mem_world (mf_one_file [] 0) 4.
Definition w_reg1 : world := after (txc_koa_alias_cache_lookup_inode 1) w_reg0.
Definition w_reg2 : world := after (txc_koa_create TXC_KOA_IS_FILE 1) w_reg1.
Definition w_reg3 : world := after (txc_koa_attach 3000) w_reg2.
Definition w_reg4 : world := after (txc_koa_alias_cache_lookup_inode 1) w_reg3.
Definition w_reg5 : world := after (txc_koa_attach_fd 3000 3 true) w_reg4.
Definition w_reg6 : world := after (txc_koa_create TXC_KOA_IS_PIPE_READ_END 0) w_reg5.
Definition w_reg7 : world := after (txc_koa_attach_fd 3016 4 true) w_reg6.
Definition w_reg8 : world := after (txc_koa_detach 3000) w_reg7.

Lemma w_reg0_registry : registry ∅ w_reg0.
Proof.
  exists ∅. split; [|intros i j; split; [done|by intros (r & Hr & _)]]. split; [|split; [apply map_Forall_empty|apply table4_rep]].
  exists [0; 1; 2; 3]%nat, []. split; [by apply (pool_create_rep 3000 16 4)|]. split.
  - intros j. rewrite lookup_empty. split; [by intros [? ?]|by intros ?%not_elem_of_nil].
  - intros i Hi. repeat (apply elem_of_cons in Hi as [->|Hi]); [eexists; vm_compute; reflexivity..|by apply not_elem_of_nil in Hi].
Defined.

Lemma w_reg8_steps : rtc koa_step (w_reg0, []) (w_reg8, [3016; 3000]).
Proof.
  eapply rtc_l; [eapply (step_new_file w_reg0 [] 1 None w_reg1 w_reg1 3000 w_reg2 w_reg2 None TXC_R_SUCCESS w_reg3);
    [runs_to w_reg1|done|runs_to w_reg2|done|runs_to w_reg3]|].
  eapply rtc_l; [eapply (step_known_file w_reg3 [3000] 1 3000 w_reg4 w_reg4 (Some (3, true)) TXC_R_SUCCESS w_reg5);
    [runs_to w_reg4|done|runs_to w_reg5]|].
  eapply rtc_l; [eapply (step_new_other w_reg5 _ TXC_KOA_IS_PIPE_READ_END 3016 w_reg6 w_reg6 (Some (4, true)) TXC_R_SUCCESS w_reg7);
    [done|runs_to w_reg6|done|runs_to w_reg7]|].
  eapply rtc_l; [eapply (step_detach w_reg7 [3016] 3000 [3000] TXC_R_SUCCESS w_reg8); runs_to w_reg8|]. apply rtc_refl.
Defined.

Lemma one_koa_per_file_witness :
  obj_allocated_num (pool_koa_obj (w_koamgr w_reg8)) = 2 /\
  exists c, koas (w_koamgr w_reg8) !! 3000 = Some c /\ koa_refcnt c = 1.
Proof.
  destruct (one_koa_per_file w_reg0 w_reg8 [3016; 3000] w_reg0_registry w_reg8_steps) as (H1 & H2 & _ & _).
  split; [exact H2|]. apply H1. by right; left.
Defined.

(** C20: What the calls of a transaction do to the registry is made of those steps:
    [x_open] and the reference by inode that [x_unlink] and [x_rename] start with
    take at most one reference, whether they return or abort the transaction. *)
Theorem calls_take_references `{PF : Platform} (s : world * list Z) txd refs ino flags p oflags mode result :
  m_hoare (reached s refs) (attach_inode txd ino flags) (fun k => reached s (k :: refs)) (at_most_one_more s refs) /\
  m_hoare (reached s refs) (x_open_tx txd p oflags mode result)
    (fun _ => at_most_one_more s refs) (at_most_one_more s refs).
Proof. split; [apply attach_inode_references|apply open_references]. Qed.

(** ** The descriptors of a KOA *)

Section fds.
Context {PF : Platform}.

Lemma fd_get_run fd e w : fd_map (w_koamgr w) !! fd = Some e -> fd_get fd w = Ret e w.
Proof. unfold fd_get, m_bind. simpl. by intros ->. Qed.

Lemma fd_upd_run fd e f w : fd_map (w_koamgr w) !! fd = Some e -> fd_upd fd f w = Ret tt (put_fd fd (f e) w).
Proof. intros H. unfold fd_upd. by rewrite (m_bind_run _ _ _ _ _ (fd_get_run _ _ _ H)). Qed.

Lemma fdref_index_app l1 fd l2 n l :
  take (Z.to_nat n) l = l1 ++ fd :: l2 -> fd ∉ l1 -> fdref_index l n fd = Some (Z.of_nat (length l1)).
Proof.
  intros E Hn. unfold fdref_index. rewrite E, list_find_app_r.
  - simpl. rewrite decide_True by done. simpl. f_equal.
  - apply list_find_None, Forall_forall. intros x Hx ->. done.
Qed.

Lemma fdref_index_none fd n l : fd ∉ take (Z.to_nat n) l -> fdref_index l n fd = None.
Proof.
  intros H. unfold fdref_index. assert (list_find (fun x => x = fd) (take (Z.to_nat n) l) = None) as ->; [|done].
  apply list_find_None, Forall_forall. intros x Hx ->. done.
Qed.
(** A descriptor that is not listed cannot be detached. *)
Lemma detach_fd_unlisted koa fd c e w :
  koas (w_koamgr w) !! koa = Some c -> fd_map (w_koamgr w) !! fd = Some e -> fd_koa e <> 0 -> fd ∉ koa_fds c ->
  txc_koa_detach_fd koa fd false w = Ret TXC_R_FAILURE (put_fd fd (Fd2Koa (fd_mutex e) 0) w).
Proof.
  intros Hc He H0 Hn. unfold txc_koa_detach_fd. m_next by (by apply koa_get_run). m_next.
  m_next by (by apply fd_get_run). rewrite bool_decide_eq_false_2 by done.
  m_next by (by apply fd_upd_run). m_next by (by apply koa_get_run). by rewrite fdref_index_none.
Qed.

(** One that is listed, while the KOA has references besides. *)
Lemma detach_fd_listed koa fd c e w l1 l2 last :
  koas (w_koamgr w) !! koa = Some c -> fd_map (w_koamgr w) !! fd = Some e -> fd_koa e <> 0 ->
  koa_fds c = l1 ++ fd :: l2 -> fd ∉ l1 -> 0 <= fdref_refcnt c -> fdref_fd c !! Z.to_nat (fdref_refcnt c) = Some last ->
  1 < koa_refcnt c ->
  txc_koa_detach_fd koa fd false w = Ret TXC_R_SUCCESS
    (put_koa koa (k_set_refcnt (koa_refcnt c - 1) (k_set_fdref (<[length l1 := last]> (fdref_fd c)) (fdref_refcnt c - 1) c))
      (put_fd fd (Fd2Koa (fd_mutex e) 0) w)).
Proof.
  intros Hc He H0 Hl Hn Hpos Hlast Hr. unfold txc_koa_detach_fd. m_next by (by apply koa_get_run). m_next.
  m_next by (by apply fd_get_run). rewrite bool_decide_eq_false_2 by done.
  m_next by (by apply fd_upd_run). m_next by (by apply koa_get_run). rewrite (fdref_index_app l1 fd l2) by done.
  assert (arr_get (fdref_fd c) (fdref_refcnt c) = Some last) as ->.
  { unfold arr_get. rewrite bool_decide_eq_true_2 by done. done. }
  m_next. assert (length l1 < length (fdref_fd c))%nat as Hlt.
  { pose proof (f_equal length Hl) as Hlen. unfold koa_fds in Hlen. rewrite length_take, length_app in Hlen. simpl in Hlen. lia. }
  unfold fdref_set. rewrite bool_decide_eq_true_2 by lia. m_next. rewrite Nat2Z.id.
  m_next by (by apply (koa_upd_run koa c)). unfold koa_decref. rewrite !m_bind_assoc.
  m_next by (apply koa_upd_run; simpl; apply lookup_insert_eq).
  rewrite m_bind_assoc. m_next by (apply koa_get_run; simpl; apply lookup_insert_eq). simpl.
  rewrite bool_decide_eq_false_2 by lia. m_next. m_next. unfold put_koa, put_fd. simpl. by rewrite insert_insert_eq.
Qed.
End fds.

(** C21: Detaching a descriptor of a KOA other than the last one listed drops that last
    one from the list, and puts in the place of the first the stale number in the
    cell after the list. Detaching the dropped descriptor then fails, and the
    reference it stands for is never given back. *)
Theorem detach_fd_forgets_last `{PF : Platform} koa fd z c e ez w l1 l2 stale :
  koas (w_koamgr w) !! koa = Some c -> koa_fds c = l1 ++ fd :: l2 ++ [z] -> 0 <= fdref_refcnt c ->
  NoDup (koa_fds c) -> fdref_fd c !! Z.to_nat (fdref_refcnt c) = Some stale -> stale <> z -> 1 < koa_refcnt c ->
  fd_map (w_koamgr w) !! fd = Some e -> fd_koa e = koa -> fd_map (w_koamgr w) !! z = Some ez -> fd_koa ez = koa -> koa <> 0 ->
  exists w1 c1, txc_koa_detach_fd koa fd false w = Ret TXC_R_SUCCESS w1 /\ koas (w_koamgr w1) !! koa = Some c1 /\
    koa_fds c1 = l1 ++ stale :: l2 /\ koa_refcnt c1 = koa_refcnt c - 1 /\
    exists w2, txc_koa_detach_fd koa z false w1 = Ret TXC_R_FAILURE w2 /\ koas (w_koamgr w2) !! koa = Some c1.
Proof.
  intros Hc Hl Hpos Hnd Hs Hz Hr He Hek Hez Hezk H0. pose proof Hnd as Hnd'. rewrite Hl in Hnd'.
  apply NoDup_app in Hnd' as (_ & Hd & [Hn1 Hnd2]%NoDup_cons). apply NoDup_app in Hnd2 as (_ & Hd2 & _).
  assert (fd ∉ l1) as Hfd by (intros H; apply (Hd fd); set_solver).
  assert (fd <> z) as Hne by (intros ->; apply Hn1; set_solver).
  pose proof (detach_fd_listed koa fd c e w l1 (l2 ++ [z]) stale Hc He ltac:(congruence) Hl Hfd Hpos Hs Hr) as E.
  eexists _, _. split; [exact E|]. split; [simpl; apply lookup_insert_eq|].
  assert (koa_fds (k_set_refcnt (koa_refcnt c - 1) (k_set_fdref (<[length l1:=stale]> (fdref_fd c)) (fdref_refcnt c - 1) c)) =
    l1 ++ stale :: l2) as Hfds.
  { unfold koa_fds in *. simpl. set (n := Z.to_nat (fdref_refcnt c)) in *.
    transitivity (take (length (l1 ++ stale :: l2)) ((l1 ++ stale :: l2) ++ z :: drop n (fdref_fd c))); [|by rewrite take_app_length].
    f_equal.
    - apply (f_equal length) in Hl. rewrite length_take, !length_app in Hl. simpl in Hl. rewrite length_app in Hl. simpl in Hl.
      apply lookup_lt_Some in Hs. rewrite length_app. simpl. lia.
    - rewrite <- (take_drop n (fdref_fd c)) at 1. rewrite Hl, <- app_assoc, insert_app_r_alt, Nat.sub_diag by done. simpl.
      by rewrite <- !app_assoc. }
  split; [exact Hfds|]. split; [done|].
  eexists. split; [eapply detach_fd_unlisted|simpl; apply lookup_insert_eq].
  - simpl. apply lookup_insert_eq.
  - simpl. by rewrite lookup_insert_ne.
  - congruence.
  - rewrite Hfds. intros [H|[->|H]%elem_of_cons]%elem_of_app; [apply (Hd z); set_solver|done|apply (Hd2 z); set_solver].
Qed.

(** A pipe end that is [dup]ed twice, and whose first descriptor is closed. *)
Definition w_fds1 : world := after (txc_koa_create TXC_KOA_IS_PIPE_WRITE_END 0) w_reg0.
Definition w_fds2 : world :=
  after (m_iter (fun fd => do _ <- txc_koa_attach_fd 3000 fd false ;; m_ret tt) [5; 6; 7]) w_fds1.

Lemma detach_fd_forgets_last_witness :
  (koa_fds <$> koas (w_koamgr w_fds2) !! 3000) = Some [5; 6; 7] /\
  exists w1 c1, txc_koa_detach_fd 3000 5 false w_fds2 = Ret TXC_R_SUCCESS w1 /\ koas (w_koamgr w1) !! 3000 = Some c1 /\
    koa_fds c1 = [-1; 6] /\ koa_refcnt c1 = 2 /\
    exists w2, txc_koa_detach_fd 3000 7 false w1 = Ret TXC_R_FAILURE w2 /\ koas (w_koamgr w2) !! 3000 = Some c1.
Proof.
  split; [vm_compute; reflexivity|].
  apply (detach_fd_forgets_last 3000 5 7 (Koa false 2000 [5; 6; 7; -1; -1; -1; -1; -1] 3 3 TXC_KOA_IS_PIPE_WRITE_END 0)
    (Fd2Koa false 3000) (Fd2Koa false 3000) w_fds2 [] [6] (-1)); try done; try lia; try (vm_compute; reflexivity).
  change (NoDup [5; 6; 7]). apply (bool_decide_unpack _). vm_compute. exact I.
Defined.
