(* ===== verification/Condvar.v ===== *)
(** * Condition variables ([xcalls/condvar])

    An event is a counter that a waiter reads in its transaction and sleeps on after
    the commit, and that a signal increments before it wakes a sleeper. The
    functions of [futex.c] run over an event and the kernel's queue of the threads
    that sleep on it; a step relation interleaves their loads, stores and system
    calls; and the macros of [condvar.h], which jump between labels, are a loop
    over a record of the variables they declare. *)

From S2P Require Import Prelude.

Definition INT_MAX : Z := 2 ^ 31 - 1.

(** [struct txc_cond_event_s] *)
Record txc_cond_event_t := CondEvent { event : Z; loops : Z }.

(** The futex system calls on one word: who sleeps on it, what FUTEX_WAIT does for a
    thread when the word has a value, and FUTEX_WAKE. *)
Class Futex := {
  fqueue : Type;
  asleep : fqueue -> gset Z;
  FUTEX_WAIT : Z -> Z -> Z -> fqueue -> fqueue;   (* thread, word, val *)
  wait_result : Z -> Z -> Z -> fqueue -> Z;       (* what the call returns, some day *)
  FUTEX_WAKE : Z -> fqueue -> fqueue;
}.

(** What the manual says of them. *)
Class FutexLaws `{Futex} := {
  wait_sleeps t w q : asleep (FUTEX_WAIT t w w q) = {[t]} ∪ asleep q;
  wait_returns t w v q : w <> v -> asleep (FUTEX_WAIT t w v q) = asleep q;
  wake_subset nr q : asleep (FUTEX_WAKE nr q) ⊆ asleep q;
  wake_size nr q : 0 <= nr ->
    Z.of_nat (size (asleep q)) - Z.of_nat (size (asleep (FUTEX_WAKE nr q))) = Z.min nr (Z.of_nat (size (asleep q)));
}.

Section condvar.
Context {FX : Futex}.

(** ** The functions of [futex.c], run alone by the thread [t]

    A thread that went to sleep is in the queue; [futex_wait] returns when it has
    left it. *)

Record cstate := CState { cs_ev : txc_cond_event_t; cs_queue : fqueue }.

Definition ev_upd (f : txc_cond_event_t -> txc_cond_event_t) : M cstate unit :=
  m_modify (fun s => CState (f (cs_ev s)) (cs_queue s)).

(** [++] of an [int]. *)
Definition int_inc (x : Z) : M cstate Z := if bool_decide (x < INT_MAX) then m_ret (x + 1) else m_undef.

Definition futex_wait (t val : Z) : M cstate Z :=
  do s <- m_get ;;
  do _ <- m_modify (fun s => CState (cs_ev s) (FUTEX_WAIT t (event (cs_ev s)) val (cs_queue s))) ;;
  m_ret (wait_result t (event (cs_ev s)) val (cs_queue s)).
Definition futex_wake (nwake : Z) : M cstate Z :=
  m_modify (fun s => CState (cs_ev s) (FUTEX_WAKE nwake (cs_queue s))) ;;; m_ret 0.

Definition txc_cond_event_init : M cstate Z := ev_upd (fun _ => CondEvent 0 0) ;;; m_ret 0.

Definition event_inc : M cstate unit :=
  do s <- m_get ;;
  do x <- int_inc (event (cs_ev s)) ;;
  ev_upd (fun e => CondEvent x (loops e)).

Definition txc_cond_event_signal : M cstate Z := event_inc ;;; do _ <- futex_wake 1 ;; m_ret 0.
Definition txc_cond_event_tm_signal_body : M cstate Z := do _ <- futex_wake 1 ;; m_ret 0.
Definition txc_cond_event_tm_signal : M cstate Z :=
  event_inc ;;; do _ <- txc_cond_event_tm_signal_body ;; m_ret 0.
Definition txc_cond_event_broadcast : M cstate Z := event_inc ;;; do _ <- futex_wake INT_MAX ;; m_ret 0.

Definition txc_cond_event_wait (t : Z) : M cstate Z :=
  do s <- m_get ;; do _ <- futex_wait t (event (cs_ev s)) ;; m_ret 0.
Definition txc_cond_event_get : M cstate Z := do s <- m_get ;; m_ret (event (cs_ev s)).

Definition txc_cond_event_deferred_wait (t val : Z) : M cstate Z :=
  do s <- m_get ;;
  (if bool_decide (val = event (cs_ev s)) then do _ <- futex_wait t val ;; m_ret tt else m_ret tt) ;;;
  m_ret 0.

Definition txc_cond_event_inc : M cstate unit :=
  do s <- m_get ;;
  do x <- int_inc (loops (cs_ev s)) ;;
  ev_upd (fun e => CondEvent (event e) x).
(** ** Threads that wait and signal at once

    Where a thread is between its accesses to the event. A waiter carries the value
    it read and, for the record, how many threads had been released then; a signal
    the value it gave the event, which numbers it. *)
Inductive cpc :=
  | Idle
  | Saved (val w0 : Z)      (* [__cond_val] is read, the transaction has committed *)
  | Tested (val w0 : Z)     (* [deferred_wait] found [val == ev->event] *)
  | Blocked (val w0 : Z)    (* it has made the FUTEX_WAIT call *)
  | Loaded (x nr : Z)       (* [ev->event++] has loaded [x] *)
  | Signalled (x nr : Z)    (* it is done, and the FUTEX_WAKE call to make *)
  | TxSignalled (x : Z)     (* the same in a transaction *)
  | TxWoken (x : Z).        (* and the call is made, before the commit *)

(** The word, the queue, the threads; how many threads FUTEX_WAKE has released, and
    the numbers of the signals that were completed. *)
Record sys := Sys {
  sys_event : Z;
  sys_queue : fqueue;
  sys_pc : gmap Z cpc;
  released : Z;
  completed : gset Z;
}.

Definition pc (s : sys) (t : Z) : cpc := default Idle (sys_pc s !! t).
Definition set_pc (t : Z) (c : cpc) (s : sys) : sys :=
  Sys (sys_event s) (sys_queue s) (<[t := c]> (sys_pc s)) (released s) (completed s).
Definition set_event (x : Z) (s : sys) : sys := Sys x (sys_queue s) (sys_pc s) (released s) (completed s).
Definition set_queue (q : fqueue) (s : sys) : sys := Sys (sys_event s) q (sys_pc s) (released s) (completed s).
Definition complete (x : Z) (s : sys) : sys :=
  Sys (sys_event s) (sys_queue s) (sys_pc s) (released s) ({[x]} ∪ completed s).

(** [futex_wake], and the threads it releases. *)
Definition do_wake (nr : Z) (s : sys) : sys :=
  let q := FUTEX_WAKE nr (sys_queue s) in
  Sys (sys_event s) q (sys_pc s)
    (released s + (Z.of_nat (size (asleep (sys_queue s))) - Z.of_nat (size (asleep q)))) (completed s).

(** A transaction has changed the event and is not done. *)
Definition in_tx (s : sys) (x : Z) : Prop := exists u, pc s u = TxSignalled x \/ pc s u = TxWoken x.
Definition no_tx (s : sys) : Prop := forall x, ~ in_tx s x.

(** One access of a thread, as the functions make them. [ev->event++] of
    [txc_cond_event_signal] and [_broadcast], which are [TM_PURE], is a load and a store
    that the transactional memory does not see: they go on while a transaction that has
    changed the event is open, as do the reads of [txc_cond_event_wait] and
    [_deferred_wait]. The memory isolates the accesses of [txc_cond_event_get] and
    [_tm_signal] from each other. It stores the new value at once, and the old one again
    at an abort, when it is [in_place], and else at the commit. A transaction signals an
    event once. *)
Inductive cstep (in_place : bool) : sys -> sys -> Prop :=
  | s_get t s : pc s t = Idle -> no_tx s ->
      cstep in_place s (set_pc t (Saved (sys_event s) (released s)) s)
  | s_test t v w0 s : pc s t = Saved v w0 ->
      cstep in_place s (set_pc t (if bool_decide (v = sys_event s) then Tested v w0 else Idle) s)
  | s_event_wait t s : pc s t = Idle ->     (* txc_cond_event_wait *)
      cstep in_place s (set_pc t (Tested (sys_event s) (released s)) s)
  | s_wait t v w0 s : pc s t = Tested v w0 ->
      cstep in_place s
        (set_pc t (if bool_decide (v = sys_event s) then Blocked v w0 else Idle)
          (set_queue (FUTEX_WAIT t (sys_event s) v (sys_queue s)) s))
  | s_return t v w0 s : pc s t = Blocked v w0 -> t ∉ asleep (sys_queue s) ->
      cstep in_place s (set_pc t Idle s)
  | s_interrupt q s : asleep q ⊆ asleep (sys_queue s) -> cstep in_place s (set_queue q s)
  | s_load t nr s : pc s t = Idle -> 1 <= nr ->
      cstep in_place s (set_pc t (Loaded (sys_event s) nr) s)
  | s_store t x nr s : pc s t = Loaded x nr -> x < INT_MAX ->
      cstep in_place s (set_pc t (Signalled (x + 1) nr) (set_event (x + 1) s))
  | s_wake t x nr s : pc s t = Signalled x nr ->
      cstep in_place s (set_pc t Idle (complete x (do_wake nr s)))
  | s_tm_inc t s : pc s t = Idle -> no_tx s -> sys_event s < INT_MAX ->
      cstep in_place s (set_pc t (TxSignalled (sys_event s + 1))
        (if in_place then set_event (sys_event s + 1) s else s))
  | s_tm_wake t x s : pc s t = TxSignalled x ->
      cstep in_place s (set_pc t (TxWoken x) (do_wake 1 s))
  | s_tm_commit t x s : pc s t = TxWoken x ->
      cstep in_place s (set_pc t Idle (complete x (if in_place then s else set_event x s)))
  | s_tm_abort t x s : pc s t = TxSignalled x \/ pc s t = TxWoken x ->
      cstep in_place s (set_pc t Idle (if in_place then set_event (x - 1) s else s)).

(** What the code leaves to its clients: a step keeps the accesses outside transactions
    apart when [ev->event++] does not overlap another one or a transaction that has
    changed the event, and [txc_cond_event_wait] does not read in such a transaction.
    Clients that signal in transactions and wait with the macros do so. *)
Definition apart (s s' : sys) : Prop :=
  (forall t v w0, pc s t = Idle -> pc s' t = Tested v w0 -> no_tx s) /\
  (forall t x nr, pc s' t = Loaded x nr -> no_tx s' /\ forall u y m, pc s' u = Loaded y m -> u = t).
Definition apart_step (in_place : bool) (s s' : sys) : Prop := cstep in_place s s' /\ apart s s'.

(** Nobody waits or signals. *)
Definition quiet_sys (s : sys) : Prop := (forall t, pc s t = Idle) /\ asleep (sys_queue s) = ∅ /\ completed s = ∅.

(** ** What the steps keep *)

(** The value of the event that transactions have committed. *)
Definition committed (s : sys) (c : Z) : Prop :=
  (no_tx s /\ c = sys_event s) \/ exists x, in_tx s x /\ sys_event s = x /\ c = x - 1.

(** The value a waiter read. *)
Definition waits (s : sys) (t v w0 : Z) : Prop := pc s t = Saved v w0 \/ pc s t = Tested v w0 \/ pc s t = Blocked v w0.

(** The signals after the one numbered [v]. *)
Definition later (v : Z) (done : gset Z) : Z := Z.of_nat (size (filter (fun x => v < x) done)).

Record cinv (s : sys) (c : Z) : Prop := {
  ci_committed : committed s c;
  ci_one_tx u1 u2 x1 x2 : (pc s u1 = TxSignalled x1 \/ pc s u1 = TxWoken x1) ->
    (pc s u2 = TxSignalled x2 \/ pc s u2 = TxWoken x2) -> u1 = u2;
  ci_waits t v w0 : waits s t v w0 -> v <= c /\ w0 <= released s;
  ci_done x : x ∈ completed s -> x <= c;
  ci_signalled t x nr : pc s t = Signalled x nr -> x <= c /\ 1 <= nr;
  ci_asleep t : t ∈ asleep (sys_queue s) -> exists v w0, pc s t = Blocked v w0;
  ci_released t v w0 : t ∈ asleep (sys_queue s) -> pc s t = Blocked v w0 -> later v (completed s) <= released s - w0;
  ci_woken u x t v w0 : pc s u = TxWoken x -> t ∈ asleep (sys_queue s) -> pc s t = Blocked v w0 ->
    later v ({[x]} ∪ completed s) <= released s - w0;
}.

Lemma pc_set t c s u : pc (set_pc t c s) u = if decide (t = u) then c else pc s u.
Proof. unfold pc, set_pc. simpl. destruct (decide (t = u)) as [->|]; [by rewrite lookup_insert_eq|by rewrite lookup_insert_ne]. Qed.

Lemma later_none v done : (forall x, x ∈ done -> x <= v) -> later v done = 0.
Proof.
  intros H. unfold later. assert (filter (fun x => v < x) done = ∅) as ->; [|done].
  apply set_eq. intros x. rewrite elem_of_filter. split; [|by intros ?%not_elem_of_empty]. intros [H1 H2%H]. lia.
Qed.

Lemma later_mono v done1 done2 : done1 ⊆ done2 -> later v done1 <= later v done2.
Proof. intros H. unfold later. apply inj_le, subseteq_size. intros x. rewrite !elem_of_filter. set_solver. Qed.

Lemma later_add v x done : later v ({[x]} ∪ done) <= later v done + 1.
Proof.
  unfold later. set (P := fun y => v < y).
  assert (size (filter P ({[x]} ∪ done)) ≤ size ({[x]} ∪ filter P done))%nat as H.
  { apply subseteq_size. intros y. rewrite elem_of_union, !elem_of_filter. set_solver. }
  rewrite size_union_alt, size_singleton in H.
  assert (size (filter P done ∖ {[x]}) ≤ size (filter P done))%nat by (apply subseteq_size; set_solver).
  lia.
Qed.
(** A thread's place. *)
Definition tx_pc (k : cpc) (x : Z) : Prop := k = TxSignalled x \/ k = TxWoken x.
Definition plain_pc (k : cpc) : Prop := forall x, ~ tx_pc k x.

Lemma in_tx_set_pc s t k x : plain_pc (pc s t) -> plain_pc k -> in_tx (set_pc t k s) x <-> in_tx s x.
Proof.
  intros H1 H2. split; intros [u Hu]; exists u; revert Hu; rewrite pc_set; case_decide as Hd; try done; [|subst u]; intros Hu.
  - by apply H2 in Hu.
  - subst. by apply H1 in Hu.
Qed.

(** The places that hold nothing. *)
Definition rests (s : sys) (k : cpc) (c : Z) : Prop :=
  match k with
  | Idle => True
  | Saved v w0 | Tested v w0 => v <= c /\ w0 <= released s
  | Loaded _ _ => True
  | _ => False
  end.

Lemma rests_plain s k c : rests s k c -> plain_pc k.
Proof. intros Hk y [->| ->]; done. Qed.

Lemma committed_set_pc s t k c : plain_pc (pc s t) -> plain_pc k -> committed (set_pc t k s) c <-> committed s c.
Proof.
  intros H1 H2. unfold committed, no_tx. simpl. split; intros [[Hn ->]|(x & Hx & H)].
  - left. split; [|done]. intros x Hx. eapply Hn. by apply in_tx_set_pc.
  - right. exists x. split; [|done]. by rewrite in_tx_set_pc in Hx.
  - left. split; [|done]. intros x Hx. eapply Hn. by rewrite in_tx_set_pc in Hx.
  - right. exists x. split; [|done]. by rewrite in_tx_set_pc.
Qed.

Ltac pcs := intros *; rewrite ?pc_set in *; repeat case_decide; subst; try (by eauto); try done.

(** A thread that is not asleep goes to a place that holds nothing. *)
Lemma set_pc_inv s c t k :
  cinv s c -> plain_pc (pc s t) -> t ∉ asleep (sys_queue s) -> rests s k c -> cinv (set_pc t k s) c.
Proof.
  intros [H1 H2 H3 H4 H5 H7 H8 H9] Hp Hs Hk. pose proof (rests_plain _ _ _ Hk) as Hp'. split; simpl.
  - by apply committed_set_pc.
  - intros u1 u2 x1 x2. rewrite !pc_set. repeat case_decide; subst; try done; eauto; by intros ? ?%Hp' || intros ?%Hp' ?.
  - intros u v w0. unfold waits. rewrite !pc_set. case_decide; [subst|apply H3].
    intros [-> | [-> | ->]]; simpl in Hk; tauto.
  - done.
  - intros u x nr. rewrite pc_set. case_decide; [subst|eauto]. intros ->. done.
  - intros u Hu. rewrite pc_set, decide_False by congruence. eauto.
  - intros u v w0 Hu. rewrite pc_set, decide_False by congruence. eauto.
  - intros u x u' v w0. rewrite !pc_set. intros Hx Hu'. rewrite (decide_False (P := t = u')) by congruence.
    destruct (decide (t = u)); [subst|by eapply H9]. exfalso. apply (Hp' x). by right.
Qed.

(** A step of the queue after which fewer sleep. *)
Lemma set_queue_inv s c q : cinv s c -> asleep q ⊆ asleep (sys_queue s) -> cinv (set_queue q s) c.
Proof. intros [H1 H2 H3 H4 H5 H7 H8 H9] Hq. split; try done; simpl; eauto. Qed.

Lemma no_tx_committed s c : no_tx s -> committed s c -> c = sys_event s.
Proof. intros Hn [[_ ->]|(x & Hx & _)]; [done|by apply Hn in Hx]. Qed.

Lemma not_asleep s c t : cinv s c -> (forall v w0, pc s t <> Blocked v w0) -> t ∉ asleep (sys_queue s).
Proof. intros H Ht Ha. destruct (ci_asleep _ _ H _ Ha) as (v & w0 & E). by apply (Ht v w0). Qed.

(** [Idle] and the places of a waiter are not in a transaction. *)
Ltac plain := let H := fresh in intros ? [H|H]; congruence.

Context {FL : FutexLaws}.

(** A waiter goes to sleep: no signal came since it read the event. *)
Lemma sleep_inv s c t v w0 :
  cinv s c -> pc s t = Tested v w0 -> v = sys_event s ->
  cinv (set_pc t (Blocked v w0) (set_queue (FUTEX_WAIT t (sys_event s) v (sys_queue s)) s)) c.
Proof.
  intros Hi Hp Hv. pose proof Hi as [H1 H2 H3 H4 H5 H7 H8 H9].
  assert (v <= c /\ w0 <= released s) as [Hc Hw] by (eapply H3; right; left; exact Hp).
  destruct H1 as [[Hno Hce]|(x & _ & Hx & Hcx)]; [|lia].
  assert (asleep (FUTEX_WAIT t (sys_event s) v (sys_queue s)) = {[t]} ∪ asleep (sys_queue s)) as Hq by (subst v; apply wait_sleeps).
  assert (plain_pc (pc s t)) as Hpl by plain. assert (forall x, ~ in_tx s x) as Hno' by exact Hno.
  assert (later v (completed s) = 0) as Hl by (apply later_none; intros x Hx; specialize (H4 x Hx); lia).
  assert (forall u x, pc s u <> TxSignalled x /\ pc s u <> TxWoken x) as Hnone.
  { intros u x. split; intros E; apply (Hno x); exists u; auto. }
  split; simpl.
  - left. split; [|done]. intros x [u Hu]. revert Hu. rewrite !pc_set. case_decide; [by intros [?|?]|]. intros Hu. by apply (Hno x); exists u.
  - intros u1 u2 x1 x2. rewrite !pc_set. repeat case_decide; subst; try done; try (by intros [?|?]); try (by intros ? [?|?]). eauto.
  - intros u v' w'. unfold waits. rewrite !pc_set. case_decide; [|apply H3]. intros [?|[?|?]]; simplify_eq. lia.
  - done.
  - intros u x nr. rewrite pc_set. case_decide; [done|apply H5].
  - intros u. rewrite Hq, pc_set. case_decide; [eauto|]. intros [->%elem_of_singleton|Hu]%elem_of_union; [done|]. by apply H7.
  - intros u v' w'. rewrite Hq, pc_set. case_decide; [|intros [->%elem_of_singleton|Hu]%elem_of_union; [done|by apply H8]].
    intros _ [= <- <-]. lia.
  - intros u x u' v' w'. rewrite !pc_set. case_decide; [done|]. intros E. by apply Hnone in E.
Qed.

(** A signal outside a transaction, its store: its number is the new value. *)
Lemma inc_inv s c t nr :
  cinv s c -> pc s t = Loaded (sys_event s) nr -> no_tx s -> 1 <= nr ->
  cinv (set_pc t (Signalled (sys_event s + 1) nr) (set_event (sys_event s + 1) s)) (c + 1).
Proof.
  intros Hi Hp Hno Hnr. pose proof Hi as [H1 H2 H3 H4 H5 H7 H8 H9]. pose proof (no_tx_committed _ _ Hno H1) as ->.
  assert (forall u x, pc s u <> TxSignalled x /\ pc s u <> TxWoken x) as Hnone.
  { intros u x. split; intros E; apply (Hno x); exists u; auto. }
  assert (forall u v w0, pc s u = Blocked v w0 -> t <> u) as Hne by congruence.
  split; simpl.
  - left. split; [|done]. intros x [u Hu]. revert Hu. rewrite !pc_set. case_decide; [by intros [?|?]|].
    intros Hu. by apply (Hno x); exists u.
  - intros u1 u2 x1 x2. rewrite !pc_set. repeat case_decide; subst; try done; try (by intros [?|?]); try (by intros ? [?|?]).
    intros [E|E]; by apply Hnone in E.
  - intros u v w0. unfold waits. rewrite !pc_set. case_decide; [by intros [?|[?|?]]|]. intros [? ?]%H3. lia.
  - intros x Hx%H4. lia.
  - intros u x n. rewrite pc_set. case_decide; [intros [= <- <-]; lia|]. intros [? ?]%H5. lia.
  - intros u Hu. destruct (H7 u Hu) as (v & w0 & E). rewrite pc_set, decide_False by (by eapply Hne). eauto.
  - intros u v w0 Hu. rewrite pc_set. case_decide; [done|]. by apply H8.
  - intros u x u' v' w'. rewrite !pc_set. case_decide; [done|]. intros E. by apply Hnone in E.
Qed.

(** A system call that wakes: somebody is released when somebody sleeps. *)
Lemma wake_counts nr s : 1 <= nr ->
  released s <= released (do_wake nr s) /\
  (forall t, t ∈ asleep (sys_queue (do_wake nr s)) -> t ∈ asleep (sys_queue s) /\ released s + 1 <= released (do_wake nr s)).
Proof.
  intros Hnr. pose proof (wake_size nr (sys_queue s) ltac:(lia)) as Hs. simpl. split; [lia|]. intros t Ht. split.
  - by apply (wake_subset nr).
  - assert (1 <= Z.of_nat (size (asleep (sys_queue s)))) as Hpos; [|lia].
    assert (asleep (sys_queue s) ≢ ∅) as Hne%size_non_empty_iff; [|lia]. intros H. apply (wake_subset nr) in Ht. set_solver.
Qed.

Lemma wake_inv s c t x nr :
  cinv s c -> pc s t = Signalled x nr -> cinv (set_pc t Idle (complete x (do_wake nr s))) c.
Proof.
  intros Hi Hp. pose proof Hi as [H1 H2 H3 H4 H5 H7 H8 H9]. destruct (H5 _ _ _ Hp) as [Hx Hnr].
  destruct (wake_counts nr s Hnr) as [Hw1 Hw2].
  assert (forall u v w0, pc s u = Blocked v w0 -> t <> u) as Hne by congruence.
  change (cinv (set_pc t Idle (complete x (do_wake nr s))) c).
  assert (forall u, pc (complete x (do_wake nr s)) u = pc s u) as Hpc by done.
  assert (plain_pc (pc s t)) as Hpl by plain.
  split.
  - apply committed_set_pc; [by rewrite Hpc|plain|]. exact H1.
  - intros u1 u2 x1 x2. rewrite !pc_set, !Hpc. repeat case_decide; subst; try done; try (by intros [?|?]); try (by intros ? [?|?]). eauto.
  - intros u v w0. unfold waits. rewrite !pc_set, !Hpc. case_decide; [by intros [?|[?|?]]|]. intros [? ?]%H3. simpl in *. lia.
  - intros y. simpl. intros [->%elem_of_singleton|Hy]%elem_of_union; [done|by apply H4].
  - intros u y n. rewrite pc_set, Hpc. case_decide; [done|apply H5].
  - intros u Hu. apply Hw2 in Hu as [Hu _]. destruct (H7 u Hu) as (v & w0 & E). rewrite pc_set, Hpc, decide_False by (by eapply Hne). eauto.
  - intros u v w0 Hu. rewrite pc_set, Hpc. case_decide; [done|]. apply Hw2 in Hu as [Hu Hr]. intros E.
    specialize (H8 u v w0 Hu E). pose proof (later_add v x (completed s)). simpl in *. lia.
  - intros u y u' v w0 E Hu. rewrite pc_set, Hpc in *. case_decide; [done|]. case_decide; [done|].
    apply Hw2 in Hu as [Hu Hr]. intros E'. specialize (H9 u y u' v w0 E Hu E'). simpl in *.
    assert ({[y]} ∪ ({[x]} ∪ completed s) = {[x]} ∪ ({[y]} ∪ completed s)) as -> by set_solver.
    pose proof (later_add v x ({[y]} ∪ completed s)). lia.
Qed.

(** A transaction increments the event, in place. *)
Lemma tm_inc_inv s c t :
  cinv s c -> pc s t = Idle -> no_tx s ->
  cinv (set_pc t (TxSignalled (sys_event s + 1)) (set_event (sys_event s + 1) s)) c.
Proof.
  intros Hi Hp Hno. pose proof Hi as [H1 H2 H3 H4 H5 H7 H8 H9]. pose proof (no_tx_committed _ _ Hno H1) as ->.
  assert (forall u x, pc s u <> TxSignalled x /\ pc s u <> TxWoken x) as Hnone.
  { intros u x. split; intros E; apply (Hno x); exists u; auto. }
  assert (forall u v w0, pc s u = Blocked v w0 -> t <> u) as Hne by congruence.
  split; simpl; try done.
  - right. exists (sys_event s + 1). split_and!; [|done|lia]. exists t. left. by rewrite pc_set, decide_True.
  - intros u1 u2 x1 x2. rewrite !pc_set. repeat case_decide; subst; try done; try (intros _ [E|E]; by apply Hnone in E);
      intros [E|E]; by apply Hnone in E.
  - intros u v w0. unfold waits. rewrite !pc_set. case_decide; [by intros [?|[?|?]]|]. apply H3.
  - intros u x n. rewrite pc_set. case_decide; [done|apply H5].
  - intros u Hu. destruct (H7 u Hu) as (v & w0 & E). rewrite pc_set, decide_False by (by eapply Hne). eauto.
  - intros u v w0 Hu. rewrite pc_set. case_decide; [done|]. by apply H8.
  - intros u x u' v w'. rewrite !pc_set. case_decide; [done|]. intros E. by apply Hnone in E.
Qed.

Lemma tm_wake_inv s c t x :
  cinv s c -> pc s t = TxSignalled x -> cinv (set_pc t (TxWoken x) (do_wake 1 s)) c.
Proof.
  intros Hi Hp. pose proof Hi as [H1 H2 H3 H4 H5 H7 H8 H9]. destruct (wake_counts 1 s ltac:(lia)) as [Hw1 Hw2].
  assert (forall u v w0, pc s u = Blocked v w0 -> t <> u) as Hne by congruence.
  assert (forall u, pc (do_wake 1 s) u = pc s u) as Hpc by done.
  assert (forall u y, pc s u = TxSignalled y \/ pc s u = TxWoken y -> u = t) as Hone.
  { intros u y E. by apply (H2 u t y x E); left. }
  split.
  - destruct H1 as [[Hno _]|(y & [u Hu] & He & Hc)]; [exfalso; apply (Hno x); exists t; by left|].
    right. exists y. assert (u = t) as -> by (by eapply Hone). destruct Hu as [Hu|Hu]; [|congruence].
    split_and!; [|done..]. exists t. right. rewrite pc_set, decide_True by done. congruence.
  - intros u1 u2 x1 x2. rewrite !pc_set, !Hpc. intros E1 E2.
    assert (forall u y, (if decide (t = u) then TxWoken x else pc s u) = TxSignalled y \/
      (if decide (t = u) then TxWoken x else pc s u) = TxWoken y -> u = t) as Ht.
    { intros u y E. destruct (decide (t = u)); [done|by eapply Hone]. }
    by rewrite (Ht _ _ E1), (Ht _ _ E2).
  - intros u v w0. unfold waits. rewrite !pc_set, !Hpc. case_decide; [by intros [?|[?|?]]|]. intros [? ?]%H3. simpl in *. lia.
  - done.
  - intros u y n. rewrite pc_set, Hpc. case_decide; [done|apply H5].
  - intros u Hu. apply Hw2 in Hu as [Hu _]. destruct (H7 u Hu) as (v & w0 & E). rewrite pc_set, Hpc, decide_False by (by eapply Hne). eauto.
  - intros u v w0 Hu. rewrite pc_set, Hpc. case_decide; [done|]. apply Hw2 in Hu as [Hu Hr]. intros E.
    specialize (H8 u v w0 Hu E). simpl in *. lia.
  - intros u y u' v w0 E Hu. apply Hw2 in Hu as [Hu Hr]. destruct (H7 u' Hu) as (v' & w' & Eb).
    rewrite !pc_set, !Hpc in *. rewrite (decide_False (P := t = u')) by (by eapply Hne). intros E'. assert (y = x) as ->.
    { destruct (decide (t = u)); [congruence|]. assert (u = t) by (apply (Hone u y); by right). congruence. }
    specialize (H8 u' v w0 Hu E'). pose proof (later_add v x (completed s)). simpl in *. lia.
Qed.

(** A transaction that is done, either way. *)
Lemma tx_end_inv s c t x k e done' :
  cinv s c -> tx_pc (pc s t) x -> k = Idle -> c <= e -> completed s ⊆ done' -> (forall y, y ∈ done' -> y <= e) ->
  (forall u v w0, u ∈ asleep (sys_queue s) -> pc s u = Blocked v w0 -> later v done' <= released s - w0) ->
  cinv (set_pc t k (Sys e (sys_queue s) (sys_pc s) (released s) done')) e.
Proof.
  intros Hi Hp -> Hce Hsub Hd Hrel. pose proof Hi as [H1 H2 H3 H4 H5 H7 H8 H9].
  assert (forall u v w0, pc s u = Blocked v w0 -> t <> u) as Hne by (intros u v w0 E ->; destruct Hp; congruence).
  assert (forall u, pc (Sys e (sys_queue s) (sys_pc s) (released s) done') u = pc s u) as Hpc by done.
  assert (forall u y, tx_pc (pc s u) y -> u = t) as Hone by (intros u y E; by eapply H2).
  split.
  - left. split; [|done]. intros y [u Hu]. revert Hu. rewrite pc_set, Hpc. case_decide as Hdd; [by intros [?|?]|].
    intros Hu. by apply Hone in Hu.
  - intros u1 u2 x1 x2. rewrite !pc_set, !Hpc. repeat case_decide; subst; try done; try (by intros [?|?]); try (by intros ? [?|?]). eauto.
  - intros u v w0. unfold waits. rewrite !pc_set, !Hpc. case_decide; [by intros [?|[?|?]]|]. intros [? ?]%H3. simpl. lia.
  - exact Hd.
  - intros u y n. rewrite pc_set, Hpc. case_decide; [done|]. intros [? ?]%H5. lia.
  - intros u Hu. destruct (H7 u Hu) as (v & w0 & E). rewrite pc_set, Hpc, decide_False by (by eapply Hne). eauto.
  - intros u v w0 Hu. rewrite pc_set, Hpc. case_decide; [done|]. by apply Hrel.
  - intros u y u' v w0. rewrite !pc_set, !Hpc. case_decide as Hdd; [done|]. intros E. exfalso. apply Hdd. symmetry. eapply Hone. by right.
Qed.

Lemma in_tx_event s c t x : cinv s c -> tx_pc (pc s t) x -> sys_event s = x /\ c = x - 1.
Proof.
  intros Hi Hp. pose proof Hi as [H1 H2 _ _ _ _ _ _]. destruct H1 as [[Hno _]|(y & [u Hu] & He & Hc)].
  - exfalso. apply (Hno x). by exists t.
  - assert (u = t) as -> by (by eapply H2). unfold tx_pc in Hp. destruct Hp as [Hp|Hp], Hu as [Hu|Hu]; rewrite Hp in Hu; simplify_eq; done.
Qed.

(** A load that is not stored: nothing else has changed the event since. *)
Definition loads_ok (s : sys) : Prop := forall t x nr, pc s t = Loaded x nr ->
  no_tx s /\ x = sys_event s /\ 1 <= nr /\ forall u y m, pc s u = Loaded y m -> u = t.

Ltac loaded_case :=
  repeat match goal with
    | H : context [if bool_decide _ then _ else _] |- _ => case_bool_decide
    | H : Loaded _ _ = Loaded _ _ |- _ => injection H as <- <-
    end; try done.

Lemma loads_step s s' : loads_ok s -> apart_step true s s' -> loads_ok s'.
Proof.
  intros Hl [Hs [_ Ha]] u x nr Hu. destruct (Ha _ _ _ Hu) as [Hn Ho]. split; [done|].
  cut (x = sys_event s' /\ 1 <= nr); [tauto|].
  destruct Hs as [t s Hp Hno|t v w0 s Hp|t s Hp|t v w0 s Hp|t v w0 s Hp Hq|q s Hq|t n s Hp Hnr|
    t y n s Hp Hlt|t y n s Hp|t s Hp Hno Hlt|t y s Hp|t y s Hp|t y s Hp]; rewrite ?pc_set in Hu; try case_decide as Hd; loaded_case;
    try (destruct (Hl _ _ _ Hu) as (Hno' & -> & Hnr' & Ho'); simpl; try done).
  - exfalso. apply Hd. by apply (Ho' _ _ _ Hp).
  - exfalso. apply (Hn (sys_event s + 1)). exists t. left. by rewrite pc_set, decide_True.
  - exfalso. apply (Hno' y). by exists t.
Qed.

Lemma cstep_inv s s' : loads_ok s -> (exists c, cinv s c) -> apart_step true s s' -> exists c, cinv s' c.
Proof.
  intros Hl [c Hi] [Hs [Ha _]]. destruct Hs as [t s Hp Hno|t v w0 s Hp|t s Hp|t v w0 s Hp|t v w0 s Hp Hq|q s Hq|t nr s Hp Hnr|
    t x nr s Hp Hlt|t x nr s Hp|t s Hp Hno Hlt|t x s Hp|t x s Hp|t x s Hp].
  - exists c. apply set_pc_inv; [done|plain|apply (not_asleep _ _ _ Hi); intros; congruence|]. simpl.
    rewrite (no_tx_committed _ _ Hno (ci_committed _ _ Hi)). lia.
  - exists c. assert (waits s t v w0) as Hw by (by left). apply (ci_waits _ _ Hi) in Hw.
    apply set_pc_inv; [done|plain|apply (not_asleep _ _ _ Hi); intros; congruence|]. by case_bool_decide.
  - assert (no_tx s) as Hno by (apply (Ha t (sys_event s) (released s) Hp); by rewrite pc_set, decide_True).
    exists c. apply set_pc_inv; [done|plain|apply (not_asleep _ _ _ Hi); intros; congruence|]. simpl.
    rewrite (no_tx_committed _ _ Hno (ci_committed _ _ Hi)). lia.
  - exists c. case_bool_decide as Hv; [by apply sleep_inv|].
    assert (asleep (FUTEX_WAIT t (sys_event s) v (sys_queue s)) = asleep (sys_queue s)) as Hq.
    { apply wait_returns. intros E. by apply Hv. }
    apply set_pc_inv; [|change (plain_pc (pc s t)); plain| |done].
    + apply set_queue_inv; [done|]. by rewrite Hq.
    + simpl. rewrite Hq. apply (not_asleep _ _ _ Hi). intros. congruence.
  - exists c. apply set_pc_inv; [done|plain|done|done].
  - exists c. by apply set_queue_inv.
  - exists c. apply set_pc_inv; [done|plain|apply (not_asleep _ _ _ Hi); intros; congruence|done].
  - destruct (Hl _ _ _ Hp) as (Hno & -> & Hnr & _). exists (c + 1). by apply inc_inv.
  - exists c. by apply wake_inv.
  - exists c. by apply tm_inc_inv.
  - exists c. by apply tm_wake_inv.
  - destruct (in_tx_event s c t x Hi) as [He Hc]; [by right|]. exists x.
    replace (complete x s) with (Sys x (sys_queue s) (sys_pc s) (released s) ({[x]} ∪ completed s)) by (unfold complete; congruence).
    apply (tx_end_inv s c t x); [done|by right|done|lia|set_solver| |].
    + intros y [->%elem_of_singleton|Hy%(ci_done _ _ Hi)]%elem_of_union; lia.
    + intros u v w0 Hu E. by apply (ci_woken _ _ Hi t x u v w0).
  - destruct (in_tx_event s c t x Hi Hp) as [He Hc]. exists (x - 1).
    apply (tx_end_inv s c t x); [done|done|done|lia|done| |apply (ci_released _ _ Hi)].
    intros y Hy%(ci_done _ _ Hi). lia.
Qed.

Lemma quiet_inv s : quiet_sys s -> cinv s (sys_event s).
Proof.
  intros (Hp & Ha & Hd). split.
  - left. split; [|done]. intros x [u [E|E]]; by rewrite Hp in E.
  - intros u1 u2 x1 x2. rewrite Hp. by intros [?|?].
  - intros t v w0. unfold waits. rewrite Hp. by intros [?|[?|?]].
  - intros x. rewrite Hd. by intros ?%not_elem_of_empty.
  - intros t x nr. by rewrite Hp.
  - intros t. rewrite Ha. by intros ?%not_elem_of_empty.
  - intros t v w0. rewrite Ha. by intros ?%not_elem_of_empty.
  - intros u x t v w0. by rewrite Hp.
Qed.

Lemma quiet_loads s : quiet_sys s -> loads_ok s.
Proof. intros (Hp & _) t x nr. by rewrite Hp. Qed.

Lemma steps_inv s0 s : rtc (apart_step true) s0 s -> loads_ok s0 -> (exists c, cinv s0 c) -> exists c, cinv s c.
Proof.
  induction 1 as [|x y z Hxy _ IH]; [done|]. intros Hl Hi. apply IH; [by eapply loads_step|by apply (cstep_inv x)].
Qed.

(** *** The functions are made of these steps *)

Definition view (s : sys) (l : Z) : cstate := CState (CondEvent (sys_event s) l) (sys_queue s).

Lemma event_signal_steps in_place t nr s l :
  pc s t = Idle -> 1 <= nr ->
  match (event_inc ;;; do _ <- futex_wake nr ;; m_ret 0) (view s l) with
  | Ret _ s1 => exists s', rtc (cstep in_place) s s' /\ view s' l = s1 /\ pc s' t = Idle
  | _ => True
  end.
Proof.
  intros Hp Hnr. unfold event_inc, int_inc, m_bind, m_get. simpl. case_bool_decide as Hlt; [|done]. simpl.
  set (s1 := set_pc t (Loaded (sys_event s) nr) s).
  set (s2 := set_pc t (Signalled (sys_event s + 1) nr) (set_event (sys_event s + 1) s1)).
  exists (set_pc t Idle (complete (sys_event s + 1) (do_wake nr s2))). split; [|split; [reflexivity|]].
  - eapply rtc_l; [by apply (s_load _ t nr)|]. eapply rtc_l; [apply (s_store _ t (sys_event s) nr s1); [|done]|apply rtc_once].
    + unfold s1. by rewrite pc_set, decide_True.
    + apply (s_wake _ t (sys_event s + 1) nr). unfold s2. by rewrite pc_set, decide_True.
  - by rewrite pc_set, decide_True.
Qed.

Lemma get_steps in_place t s l :
  pc s t = Idle -> no_tx s -> txc_cond_event_get (view s l) = Ret (sys_event s) (view s l) /\
  exists s', cstep in_place s s' /\ view s' l = view s l /\ pc s' t = Saved (sys_event s) (released s).
Proof.
  intros Hp Hno. split; [done|]. eexists. split; [by apply s_get|]. split; [done|]. by rewrite pc_set, decide_True.
Qed.

Lemma deferred_wait_steps in_place t v w0 s l :
  pc s t = Saved v w0 ->
  match txc_cond_event_deferred_wait t v (view s l) with
  | Ret _ s1 => exists s', rtc (cstep in_place) s s' /\ view s' l = s1 /\
      pc s' t = if bool_decide (v = sys_event s) then Blocked v w0 else Idle
  | _ => True
  end.
Proof.
  intros Hp. unfold txc_cond_event_deferred_wait, futex_wait, m_bind, m_get. simpl. pose proof (s_test in_place t v w0 s Hp) as H1.
  case_bool_decide as Hv; simpl.
  - exists (set_pc t (Blocked v w0) (set_queue (FUTEX_WAIT t (sys_event s) v (sys_queue s)) (set_pc t (Tested v w0) s))).
    split; [|split; [reflexivity|]].
    + eapply rtc_l; [exact H1|]. apply rtc_once.
      pose proof (s_wait in_place t v w0 (set_pc t (Tested v w0) s)) as H2. rewrite pc_set, decide_True in H2 by done.
      specialize (H2 eq_refl). simpl in H2. rewrite bool_decide_eq_true_2 in H2 by done. exact H2.
    + by rewrite pc_set, decide_True.
  - eexists. split; [by apply rtc_once|]. split; [done|]. by rewrite pc_set, decide_True.
Qed.
End condvar.

(** C16: Threads wait and signal at once, in any order of their accesses, where the
    transactional memory stores in place, and where the accesses outside transactions are
    kept apart ([apart]: the increment of [txc_cond_event_signal] and [_broadcast] from
    each other and from transactions that signal, and the read of [txc_cond_event_wait]
    from the latter). Then a thread that sleeps, having read the value [v] of the event
    when [w0] threads had been released, has lost no signal: every signal after
    that value that was completed, by [txc_cond_event_signal], [_broadcast] or, in
    a transaction that committed, [_tm_signal], has released some thread since. *)
Theorem signals_release_waiters `{FutexLaws} s0 s t v w0 :
  quiet_sys s0 -> rtc (apart_step true) s0 s ->
  pc s t = Blocked v w0 -> t ∈ asleep (sys_queue s) -> later v (completed s) <= released s - w0.
Proof.
  intros Hq Hs Hp Ha. destruct (steps_inv _ _ Hs (quiet_loads _ Hq)) as [c Hi]; [eexists; by apply quiet_inv|].
  by apply (ci_released _ _ Hi t).
Qed.

(** *** Runs *)

#[export] Instance set_futex : Futex := {|
  fqueue := gset Z;
  asleep q := q;
  FUTEX_WAIT t w v q := if bool_decide (v = w) then {[t]} ∪ q else q;
  wait_result t w v q := if bool_decide (v = w) then 0 else -11;
  FUTEX_WAKE nr q := list_to_set (drop (Z.to_nat nr) (elements q));
|}.

#[export] Instance set_futex_laws : FutexLaws.
Proof.
  split; simpl.
  - intros t w q. by rewrite bool_decide_eq_true_2.
  - intros t w v q Hw. by rewrite bool_decide_eq_false_2 by congruence.
  - intros nr q x Hx. apply elem_of_list_to_set in Hx. rewrite <- elem_of_elements.
    rewrite <- (take_drop (Z.to_nat nr) (elements q)). apply elem_of_app. by right.
  - intros nr q Hn. rewrite (size_list_to_set (C := gset Z)).
    + rewrite length_drop. change (size q) with (length (elements (C := gset Z) q)). lia.
    + eapply sublist_NoDup; [apply (NoDup_elements (C := gset Z))|]. apply sublist_drop.
Qed.

Definition sys0 : sys := Sys 0 ∅ ∅ 0 ∅.

Lemma sys0_quiet : quiet_sys sys0.
Proof. done. Qed.

(** A step by the thread's next access. *)
Inductive access := AGet | ATest | AEventWait | AWait | ALoad (nr : Z) | AStore | AWake | ATmInc | ATmWake | ATmCommit | ATmAbort.

Definition plain_pcb (k : cpc) : bool := match k with TxSignalled _ | TxWoken _ => false | _ => true end.
Definition no_txb `{Futex} (s : sys) : bool := forallb (fun p => plain_pcb p.2) (map_to_list (sys_pc s)).

Definition step_by `{Futex} (in_place : bool) (s : sys) (ta : Z * access) : option sys :=
  let '(t, a) := ta in
  match a, pc s t with
  | AGet, Idle => if no_txb s then Some (set_pc t (Saved (sys_event s) (released s)) s) else None
  | ATest, Saved v w0 => Some (set_pc t (if bool_decide (v = sys_event s) then Tested v w0 else Idle) s)
  | AEventWait, Idle => Some (set_pc t (Tested (sys_event s) (released s)) s)
  | AWait, Tested v w0 => Some (set_pc t (if bool_decide (v = sys_event s) then Blocked v w0 else Idle)
      (set_queue (FUTEX_WAIT t (sys_event s) v (sys_queue s)) s))
  | ALoad nr, Idle => if bool_decide (1 <= nr) then Some (set_pc t (Loaded (sys_event s) nr) s) else None
  | AStore, Loaded x nr => if bool_decide (x < INT_MAX)
      then Some (set_pc t (Signalled (x + 1) nr) (set_event (x + 1) s)) else None
  | AWake, Signalled x nr => Some (set_pc t Idle (complete x (do_wake nr s)))
  | ATmInc, Idle => if no_txb s && bool_decide (sys_event s < INT_MAX)
      then Some (set_pc t (TxSignalled (sys_event s + 1)) (if in_place then set_event (sys_event s + 1) s else s)) else None
  | ATmWake, TxSignalled x => Some (set_pc t (TxWoken x) (do_wake 1 s))
  | ATmCommit, TxWoken x => Some (set_pc t Idle (complete x (if in_place then s else set_event x s)))
  | ATmAbort, TxSignalled x | ATmAbort, TxWoken x => Some (set_pc t Idle (if in_place then set_event (x - 1) s else s))
  | _, _ => None
  end.

Fixpoint steps_by `{Futex} (in_place : bool) (l : list (Z * access)) (s : sys) : option sys :=
  match l with
  | [] => Some s
  | ta :: l' => s' ← step_by in_place s ta; steps_by in_place l' s'
  end.

Lemma no_txb_sound `{Futex} s : no_txb s = true -> no_tx s.
Proof.
  unfold no_txb. rewrite forallb_forall. intros Hb x [u Hu]. unfold pc in Hu.
  destruct (sys_pc s !! u) as [k|] eqn:E; [|by destruct Hu].
  apply elem_of_map_to_list, list_elem_of_In, Hb in E. simpl in *. by destruct Hu as [-> | ->].
Qed.

Lemma step_by_sound `{Futex} in_place s ta s' : step_by in_place s ta = Some s' -> cstep in_place s s'.
Proof.
  destruct ta as [t a]. unfold step_by. intros E. destruct a, (pc s t) eqn:Hp; try done;
    repeat match type of E with
      | (if ?b then _ else _) = _ => destruct b eqn:?; [|done]
      | Some _ = Some _ => injection E as <-
      end;
    repeat match goal with
      | H : _ && _ = true |- _ => apply andb_true_iff in H as [? ?]
      | H : bool_decide _ = true |- _ => apply bool_decide_eq_true_1 in H
      | H : no_txb _ = true |- _ => apply no_txb_sound in H
      end; eauto using cstep.
Qed.

Lemma steps_by_sound `{Futex} in_place l s s' : steps_by in_place l s = Some s' -> rtc (cstep in_place) s s'.
Proof.
  revert s. induction l as [|ta l IH]; intros s; simpl; [by intros [= <-]|].
  intros (s1 & E1 & E2)%bind_Some. eapply rtc_l; [by eapply step_by_sound|by apply IH].
Qed.

(** Is the step apart? *)
Definition loadedb (k : cpc) : bool := match k with Loaded _ _ => true | _ => false end.
Definition loading `{Futex} (s : sys) : list Z := fst <$> filter (fun p => loadedb p.2 = true) (map_to_list (sys_pc s)).
Definition apartb `{Futex} (ta : Z * access) (s s' : sys) : bool :=
  match ta.2 with AEventWait => no_txb s | _ => true end &&
  match loading s' with [] => true | [_] => no_txb s' | _ => false end.

Lemma loading_elem `{Futex} s t x nr : pc s t = Loaded x nr -> t ∈ loading s.
Proof.
  unfold pc, loading. destruct (sys_pc s !! t) as [k|] eqn:E; [|done]. simpl. intros ->.
  apply list_elem_of_fmap. exists (t, Loaded x nr). split; [done|]. apply list_elem_of_filter. split; [done|].
  by apply elem_of_map_to_list.
Qed.

Lemma tested_by `{Futex} in_place s t a s' u v w0 :
  step_by in_place s (t, a) = Some s' -> pc s u = Idle -> pc s' u = Tested v w0 -> a = AEventWait.
Proof.
  intros E Hu Hu'. unfold step_by in E. destruct (decide (t = u)) as [->|Hne].
  - rewrite Hu in E. destruct a; try done; repeat case_match; try done; injection E as <-; rewrite pc_set, decide_True in Hu' by done; done.
  - destruct a, (pc s t) eqn:Hp; try done; repeat case_match; try done; injection E as <-;
      rewrite pc_set, decide_False in Hu' by done; unfold pc in Hu, Hu'; simpl in Hu'; congruence.
Qed.

Lemma apartb_sound `{Futex} in_place s ta s' :
  step_by in_place s ta = Some s' -> apartb ta s s' = true -> apart_step in_place s s'.
Proof.
  intros E [Hw Hl]%andb_true_iff. split; [by eapply step_by_sound|]. split.
  - intros t v w0 Hp Hp'. destruct ta as [u a]. rewrite (tested_by _ _ _ _ _ _ _ _ E Hp Hp') in Hw. by apply no_txb_sound.
  - intros t x nr Hp. pose proof (loading_elem _ _ _ _ Hp) as Ht. destruct (loading s') as [|u [|]] eqn:El; [set_solver| |done].
    split; [by apply no_txb_sound|]. intros u' y m Hu'. pose proof (loading_elem _ _ _ _ Hu') as Hu. rewrite El in Hu. set_solver.
Qed.

Fixpoint apart_by `{Futex} (in_place : bool) (l : list (Z * access)) (s : sys) : option sys :=
  match l with
  | [] => Some s
  | ta :: l' => s' ← step_by in_place s ta; if apartb ta s s' then apart_by in_place l' s' else None
  end.

Lemma apart_by_sound `{Futex} in_place l s s' : apart_by in_place l s = Some s' -> rtc (apart_step in_place) s s'.
Proof.
  revert s. induction l as [|ta l IH]; intros s; simpl; [by intros [= <-]|].
  intros (s1 & E1 & E2)%bind_Some. destruct (apartb ta s s1) eqn:Ha; [|done].
  eapply rtc_l; [by eapply apartb_sound|by apply IH].
Qed.

(** Three threads go to sleep; a transaction signals, and then a thread outside. *)
Definition three_sleep : list (Z * access) :=
  [(1, AGet); (2, AGet); (1, ATest); (2, ATest); (1, AWait); (2, AWait); (4, AEventWait); (4, AWait);
   (3, ATmInc); (3, ATmWake); (3, ATmCommit); (3, ALoad 1); (3, AStore); (3, AWake)].
Definition sys_three : sys := default sys0 (apart_by true three_sleep sys0).

Lemma signals_release_waiters_witness : exists t,
  pc sys_three t = Blocked 0 0 /\ completed sys_three = {[1; 2]} /\ released sys_three = 2 /\
  later 0 (completed sys_three) <= released sys_three - 0.
Proof.
  exists 1. split_and!; [vm_compute; reflexivity..|].
  apply (signals_release_waiters sys0 sys_three 1 0 0 sys0_quiet); [|vm_compute; reflexivity|].
  - apply (apart_by_sound true three_sleep). vm_compute. reflexivity.
  - apply (bool_decide_unpack (1 ∈ (sys_queue sys_three : gset Z))). vm_compute. exact I.
Defined.

(** C18: Without these assumptions a signal can be lost. When the transactional memory
    stores at the commit, a transaction signals before the new value can be seen: a
    thread that read the old value finds it unchanged and sleeps, although the
    signal is completed and has released nobody. The increment of
    [txc_cond_event_signal] is a load and a store: the store of one thread can hide
    the signal of another, and a thread that read the event before the store finds the
    value it read, and sleeps when both have signalled. And when a transaction that has
    signalled aborts, it puts the old value back over a signal made outside meanwhile. *)
Theorem signals_lost :
  (exists s, rtc (apart_step false) sys0 s /\ pc s 1 = Blocked 0 0 /\ asleep (sys_queue s) = {[1]} /\
    completed s = {[1]} /\ released s = 0 /\ pc s 2 = Idle) /\
  (exists s1 s2 s3, rtc (cstep true) sys0 s1 /\ pc s1 1 = Saved 1 0 /\ pc s1 2 = Loaded 0 1 /\
    cstep true s1 s2 /\ pc s2 2 = Signalled 1 1 /\
    rtc (cstep true) s2 s3 /\ pc s3 1 = Blocked 1 0 /\ asleep (sys_queue s3) = {[1]} /\ released s3 = 0 /\
    pc s3 2 = Idle /\ pc s3 3 = Idle) /\
  (exists s, rtc (cstep true) sys0 s /\ pc s 1 = Blocked 0 0 /\ asleep (sys_queue s) = {[1]} /\
    completed s = {[2]} /\ released s = 0 /\ pc s 2 = Idle /\ pc s 3 = Idle).
Proof.
  split_and!.
  - eexists. split; [apply (apart_by_sound _ [(1, AGet); (2, ATmInc); (2, ATmWake); (1, ATest); (1, AWait); (2, ATmCommit)]); vm_compute; reflexivity|].
    split_and!; vm_compute; reflexivity.
  - eexists _, _, _. split; [apply (steps_by_sound _ [(2, ALoad 1); (3, ALoad 1); (3, AStore); (3, AWake); (1, AGet)]); vm_compute; reflexivity|].
    split; [vm_compute; reflexivity|]. split; [vm_compute; reflexivity|].
    split; [apply (step_by_sound _ _ (2, AStore)); vm_compute; reflexivity|]. split; [vm_compute; reflexivity|].
    split; [apply (steps_by_sound _ [(2, AWake); (1, ATest); (1, AWait)]); vm_compute; reflexivity|].
    split_and!; vm_compute; reflexivity.
  - eexists. split; [apply (steps_by_sound _ [(1, AGet); (2, ATmInc); (3, ALoad 1); (3, AStore); (3, AWake); (2, ATmAbort); (1, ATest); (1, AWait)]); vm_compute; reflexivity|].
    split_and!; vm_compute; reflexivity.
Qed.

(** ** The macros of [condvar.h] *)

Section cond_xact.
Context {S : Type}.

(** The code between [COND_XACT_BEGIN] and [COND_XACT_END] from a label on, the
    start being 0: it ends, or comes to [txc_cond_wait] on an event, with the label
    after it. *)
Inductive xact_exit := XEnd | XWait (cvar : Z) (label : nat).
Context (code : nat -> M S xact_exit).
(** [__tm_atomic], the functions of [futex.c] on an event of the program. *)
Context (tm_atomic : forall {A}, M S A -> M S A) (event_get : Z -> M S Z) (inc_loops : Z -> M S unit)
  (deferred_wait : Z -> Z -> M S unit).

(** The variables [COND_XACT_BEGIN] declares. *)
Record cond_vars := CondVars {
  do_wait : bool;
  cond_val : Z;
  do_exit : bool;
  cond_var : Z;
  wait_label : nat;
}.

(** [txc_cond_wait], up to its jump to [__begin_label]. *)
Definition txc_cond_wait (cvar : Z) (next : nat) : M S cond_vars :=
  inc_loops cvar ;;;
  do v <- event_get cvar ;;
  m_ret (CondVars true v true cvar next).

(** From [__begin_label] on: once to run the code, and once more when it jumps back
    from a wait, with [__do_exit] set. *)
Fixpoint at_begin_label (jumps : nat) (c : cond_vars) : M S cond_vars :=
  if do_exit c then m_ret (CondVars (do_wait c) (cond_val c) false (cond_var c) (wait_label c))
  else match jumps with
    | O => m_nofuel
    | Datatypes.S jumps' =>
        let label := if do_wait c then wait_label c else 0%nat in
        let c := CondVars false (cond_val c) (do_exit c) (cond_var c) (wait_label c) in
        do x <- code label ;;
        match x with
        | XEnd => m_ret c
        | XWait cvar next =>
            do c <- txc_cond_wait cvar next ;;
            at_begin_label jumps' c
        end
    end.

Fixpoint cond_xact_loop (fuel : nat) (c : cond_vars) : M S unit :=
  match fuel with
  | O => m_nofuel
  | Datatypes.S fuel' =>
      (if do_wait c then deferred_wait (cond_var c) (cond_val c) else m_ret tt) ;;;
      do c <- tm_atomic _ (at_begin_label 1 c) ;;
      if do_wait c then cond_xact_loop fuel' c else m_ret tt
  end.

(** [stale] are the variables that are not initialised. *)
Definition cond_xact (fuel : nat) (stale : cond_vars) : M S unit :=
  cond_xact_loop fuel (CondVars false (cond_val stale) false (cond_var stale) (wait_label stale)).

(** What the macros mean: the code is cut at its waits into transactions, and between
    two of them, outside, the thread waits for the event to change. *)
Definition transaction_from (label : nat) : M S (option (Z * Z * nat)) :=
  do x <- code label ;;
  match x with
  | XEnd => m_ret None
  | XWait cvar next => inc_loops cvar ;;; do v <- event_get cvar ;; m_ret (Some (cvar, v, next))
  end.

Fixpoint cut_transactions (fuel : nat) (before : M S unit) (label : nat) : M S unit :=
  match fuel with
  | O => m_nofuel
  | Datatypes.S fuel' =>
      before ;;;
      do r <- tm_atomic _ (transaction_from label) ;;
      match r with
      | None => m_ret tt
      | Some (cvar, v, next) => cut_transactions fuel' (deferred_wait cvar v) next
      end
  end.

(** What the variables are after a transaction that started at the label [c] says. *)
Definition vars_after (c : cond_vars) (r : option (Z * Z * nat)) : cond_vars :=
  match r with
  | None => CondVars false (cond_val c) false (cond_var c) (wait_label c)
  | Some (cvar, v, next) => CondVars true v false cvar next
  end.

Lemma at_begin_label_run c s :
  do_exit c = false ->
  at_begin_label 1 c s =
    m_bind (transaction_from (if do_wait c then wait_label c else 0%nat)) (fun r => m_ret (vars_after c r)) s.
Proof.
  intros Hc. cbn [at_begin_label]. rewrite Hc. unfold transaction_from. rewrite m_bind_assoc.
  apply m_bind_ext; [done|]. intros [|cvar next] s1; [done|].
  unfold txc_cond_wait. rewrite !m_bind_assoc. apply m_bind_ext; [done|]. intros [] s2. rewrite !m_bind_assoc. by apply m_bind_ext.
Qed.

(** The memory's transactions run their body: nothing depends on how it is written, and
    what is computed from its result is the same inside and after. *)
Context (atomic_ext : forall A (m1 m2 : M S A), (forall s, m1 s = m2 s) -> forall s, tm_atomic _ m1 s = tm_atomic _ m2 s)
  (atomic_result : forall A B (m : M S A) (f : A -> B) s,
    tm_atomic _ (m_bind m (fun a => m_ret (f a))) s = m_bind (tm_atomic _ m) (fun a => m_ret (f a)) s).

Lemma loop_cuts fuel c s :
  do_exit c = false ->
  cond_xact_loop fuel c s =
    cut_transactions fuel (if do_wait c then deferred_wait (cond_var c) (cond_val c) else m_ret tt)
      (if do_wait c then wait_label c else 0%nat) s.
Proof.
  revert c s. induction fuel as [|fuel IH]; intros c s Hc; [done|]. cbn [cond_xact_loop cut_transactions].
  apply m_bind_ext; [done|]. intros [] s1.
  transitivity (m_bind (m_bind (tm_atomic _ (transaction_from (if do_wait c then wait_label c else 0%nat)))
    (fun r => m_ret (vars_after c r))) (fun c => if do_wait c then cond_xact_loop fuel c else m_ret tt) s1).
  { apply m_bind_ext; [|done]. rewrite <- atomic_result. apply atomic_ext. intros s2. by apply at_begin_label_run. }
  rewrite m_bind_assoc. apply m_bind_ext; [done|]. intros [[[cvar v] next]|] s2; [|done].
  unfold m_bind at 1. cbn [m_ret vars_after do_wait]. by rewrite IH.
Qed.
End cond_xact.

(** C17: [COND_XACT_BEGIN], [COND_XACT_END] and [txc_cond_wait], with their flags and
    their jumps between labels, run the code between them as a sequence of
    transactions, cut at the waits; between two of them the thread waits, outside
    any transaction, for the event to change from the value the first one read.
    The variables that are not initialised do not matter. *)
Theorem cond_xact_cuts_at_waits {S : Type} (code : nat -> M S xact_exit) (tm_atomic : forall {A}, M S A -> M S A)
    (event_get : Z -> M S Z) (inc_loops : Z -> M S unit) (deferred_wait : Z -> Z -> M S unit) fuel stale s :
  (forall A (m1 m2 : M S A), (forall s, m1 s = m2 s) -> forall s, tm_atomic m1 s = tm_atomic m2 s) ->
  (forall A B (m : M S A) (f : A -> B) s,
    tm_atomic (m_bind m (fun a => m_ret (f a))) s = m_bind (tm_atomic m) (fun a => m_ret (f a)) s) ->
  cond_xact code (@tm_atomic) event_get inc_loops deferred_wait fuel stale s =
    cut_transactions code (@tm_atomic) event_get inc_loops deferred_wait fuel (m_ret tt) 0 s.
Proof. intros He Hr. unfold cond_xact. by rewrite loop_cuts. Qed.

(** A consumer that waits once, for event 7; the state records what runs. *)
Definition demo_code (label : nat) : M (list Z) xact_exit :=
  m_modify (app [Z.of_nat label]) ;;; m_ret (if bool_decide (label = 0%nat) then XWait 7 1 else XEnd).

Lemma cond_xact_cuts_at_waits_witness :
  cond_xact demo_code (fun _ m => m) (fun _ => m_ret 5) (fun _ => m_ret tt) (fun cv v => m_modify (app [100 + cv; v]))
    3 (CondVars true 9 true 9 9) [] = Ret tt [1; 107; 5; 0].
Proof.
  rewrite (cond_xact_cuts_at_waits demo_code (fun _ m => m)); [reflexivity|done|done].
Defined.
