(* ===== verification/Boot.v ===== *)
(** * The start of the library ([_TXC_global_init], [_TXC_thread_init])

    The managers are created in the order of [core/interface.c], on top of each
    other; then each thread gets its descriptor. The theorem of this file is that
    what they leave is where the theorems on the sentinels ([Protocol]) and on the
    KOAs ([Registry]) start from. *)

From S2P Require Import Prelude Dll Pool HashTable Buffer Actions World MemFs Tx Sentinel Views Locks Protocol Koa XFile XDir System Frames KoaFrames Registry.

(** ** The code *)

Section boot.
Context {PF : Platform}.

(** What the allocations of [_TXC_global_init] return, and the sizes of the headers of
    the two kinds of buffers. *)
Record boot_allocs := BootAllocs {
  ba_sentinelmgr : option Z; ba_sentinels : pool_allocs;
  ba_buffermgr : option Z; ba_circulars : pool_allocs; ba_linears : pool_allocs;
  header_circular : Z; header_linear : Z;
  ba_txmgr : option Z; ba_txds : pool_allocs; ba_lists : bool;
  ba_koamgr : option Z; ba_koas : pool_allocs; ba_hp : option Z; ba_tbl : option Z;
}.

(** A manager that is not created leaves its pointer null, which is not looked at. *)
Definition created {A} (r : option (Z * option A)) : M world A :=
  do r <- m_deref r ;; m_deref (r.2).
Definition created_in (m : M world Z) : M world unit :=
  do r <- m ;; if bool_decide (r <> TXC_R_SUCCESS) then m_undef else m_ret tt.

(** [cfg] is what [txc_config_init] reads. *)
Definition _TXC_global_init (al : boot_allocs) (cfg : settings) : M world Z :=
  m_modify (fun w => World (w_kernel w) (w_errno w) (w_txmgr w) (w_sentinelmgr w) (w_buffermgr w) (w_koamgr w)
    (w_ints w) cfg (w_blocks w)) ;;;
  do g <- created (txc_sentinelmgr_create (ba_sentinelmgr al) (sizeof sz_txc_sentinel_t) (ba_sentinels al)) ;;
  m_modify (set_sentinelmgr g) ;;;
  do b <- created (txc_buffermgr_create (ba_buffermgr al) (header_circular al) (header_linear al)
    (ba_circulars al) (ba_linears al)) ;;
  m_modify (set_buffermgr b) ;;;
  created_in (txc_txmgr_create (ba_txmgr al) (ba_txds al) (sizeof sz_txc_tx_t) (ba_lists al)) ;;;
  created_in (txc_koamgr_create (ba_koamgr al) (ba_koas al) (ba_hp al) (ba_tbl al) (sizeof sz_txc_koa_t)) ;;;
  m_ret TXC_R_SUCCESS.

(** Threads that call [_TXC_thread_init], each with its number and the one the TM library
    gives it: their descriptors, the last one's first. *)
Fixpoint thread_inits (threads : list (Z * Z)) (ids : list Z) : M world (list Z) :=
  match threads with
  | [] => m_ret ids
  | (self, itm_tid) :: threads => do txd <- _TXC_thread_init self itm_tid ;; thread_inits threads (txd :: ids)
  end.

(** ** Pools with room *)

(** The pool has [n] free objects and has given out [live]; each object is in [m]. *)
Definition room {A} (p : txc_pool_t) (m : gmap Z A) (live : list Z) (n : nat) : Prop := exists fr al,
  pool_rep p fr al /\ 0 < full_buf p /\ live = obj_addr p <$> al /\ (n <= length fr)%nat /\
  forall i, i ∈ fr ++ al -> is_Some (m !! obj_addr p i).

Lemma room_alloc {A} p (m : gmap Z A) live n : room p m live (S n) ->
  exists a p', txc_pool_object_alloc true p = Ret (TXC_R_SUCCESS, Some a) p' /\ room p' m (a :: live) n /\
    is_Some (m !! a) /\ 0 < a.
Proof.
  intros (fr & al & H & Hb & -> & Hn & Hm). destruct fr as [|i fr]; [simpl in Hn; lia|].
  exists (obj_addr p i), (pool_after_alloc p i (head fr)). split_and!.
  - by eapply pool_alloc_run.
  - exists fr, (i :: al). assert (obj_addr (pool_after_alloc p i (head fr)) = obj_addr p) as -> by by apply obj_addr_ext.
    split_and!; [by apply pool_after_alloc_rep|done|done|simpl in Hn; lia|intros j Hj; apply Hm; set_solver].
  - apply Hm. set_solver.
  - unfold obj_addr. pose proof (u32_range (Z.of_nat i * obj_size p)). lia.
Qed.

Lemma room_insert {A} p (m : gmap Z A) live n a x : room p m live n -> room p (<[a := x]> m) live n.
Proof.
  intros (fr & al & H1 & H2 & H3 & H4 & H5). exists fr, al. split_and!; [done..|]. intros i Hi.
  rewrite lookup_insert_is_Some. destruct (decide (a = obj_addr p i)); [by left|right; split; [done|by apply H5]].
Qed.

Lemma room_nodup {A} p (m : gmap Z A) live n : room p m live n -> NoDup live.
Proof. intros (fr & al & H & _ & -> & _). by eapply pool_live_nodup. Qed.

(** A new pool. *)
Definition new_pool (base size num : Z) : txc_pool_t := Pool false base (create_objs base size num) (Some 0%nat) None num 0 size num.
Definition new_objs (base size num : Z) : list Z := obj_addr (new_pool base size num) <$> seq 0 (Z.to_nat num).

Definition fits (base size num : Z) : Prop := 0 < base /\ 0 < num < 2 ^ 32 /\ 0 < size /\ num * size <= 2 ^ 32.

(** The allocations of a pool at [base]. *)
Definition pa_granted (pa : pool_allocs) (size num : Z) : Prop := exists a b base,
  pa = PoolAllocs (Some a) (Some b) (Some base) 0 /\ fits base size num.

Lemma new_pool_created {Mem} pa size num (c : option (Z -> Mem -> Mem)) mem : pa_granted pa size num ->
  exists base, fits base size num /\
    txc_pool_create (pa_pool pa) (pa_list pa) (pa_buf pa) (pa_mutex pa) size num c mem =
      Some (TXC_R_SUCCESS, Some (new_pool base size num),
        match c with None => mem | Some c => foldl (fun m a => c a m) mem (new_objs base size num) end).
Proof.
  intros (a & b & base & -> & Hf). exists base. split; [done|]. destruct Hf as (Hb & Hn & Hs & Hm). simpl.
  unfold txc_pool_create. rewrite !bool_decide_eq_false_2 by lia.
  do 2 f_equal. destruct c as [c|]; [|done]. unfold new_objs, seqZ. generalize mem.
  induction (seq 0 (Z.to_nat num)) as [|k l IH]; [done|]. intros m'. simpl. rewrite IH.
  unfold obj_addr; simpl. by rewrite Z.add_0_r.
Qed.

Lemma new_rep base size num : fits base size num -> pool_rep (new_pool base size num) (seq 0 (Z.to_nat num)) [].
Proof. intros (Hb & Hn & Hs & Hm). apply pool_create_rep; lia. Qed.

Lemma new_room {A} base size num (m : gmap Z A) : fits base size num -> (forall a, a ∈ new_objs base size num -> is_Some (m !! a)) ->
  room (new_pool base size num) m [] (Z.to_nat num).
Proof.
  intros Hf Hx. exists (seq 0 (Z.to_nat num)), []. split_and!; [by apply new_rep|apply Hf|done|by rewrite length_seq|].
  rewrite app_nil_r. intros i Hi. apply Hx. by apply list_elem_of_fmap_2.
Qed.

Lemma new_each base size num : fits base size num ->
  pool_for_each (length (obj_list (new_pool base size num))) 0 (new_pool base size num) =
    Ret (new_objs base size num) (new_pool base size num).
Proof.
  intros Hf. pose proof (new_rep _ _ _ Hf) as H. destruct Hf as (_ & Hn & _).
  apply pool_for_each_spec in H as (_ & _ & H). specialize (H (Nat.pred (Z.to_nat num)) eq_refl).
  etransitivity; [apply H; f_equal; lia|]. unfold new_objs. simpl. by rewrite create_objs_length.
Qed.

Lemma new_objs_nodup base size num : fits base size num -> NoDup (new_objs base size num).
Proof.
  intros H%new_rep.
  apply NoDup_fmap_2_strong; [|apply NoDup_seq]. intros i j Hi Hj.
  apply (obj_addr_inj _ _ _ i j H); by rewrite app_nil_r.
Qed.

Lemma new_objs_length base size num : length (new_objs base size num) = Z.to_nat num.
Proof. unfold new_objs. by rewrite length_fmap, length_seq. Qed.

Lemma new_bufs base size num : fits base size num -> po_buf <$> obj_list (new_pool base size num) = new_objs base size num.
Proof.
  intros H%new_rep.
  apply list_eq. intros i. unfold new_objs. rewrite !list_lookup_fmap. destruct (obj_list _ !! i) as [o|] eqn:E.
  - pose proof (lookup_lt_Some _ _ _ E) as Hi. simpl in Hi. rewrite create_objs_length in Hi.
    rewrite lookup_seq_lt by done. simpl. f_equal. exact (rep_buf _ _ _ H i o E).
  - apply lookup_ge_None in E. simpl in E. rewrite create_objs_length in E. by rewrite lookup_seq_ge.
Qed.

Lemma new_obj_in base size num i : i ∈ seq 0 (Z.to_nat num) -> obj_addr (new_pool base size num) i ∈ new_objs base size num.
Proof. apply list_elem_of_fmap_2. Qed.

#[local] Opaque new_pool new_objs.


Lemma keys_mapped {A} (l : list (Z * A)) a : a ∈ l.*1 -> is_Some ((list_to_map l : gmap Z A) !! a).
Proof.
  intros Ha. apply not_eq_None_Some. intros Hn. by apply not_elem_of_list_to_map_2 in Hn.
Qed.

Lemma keys_id {A} (f : Z -> A) l : ((fun a => (a, f a)) <$> l).*1 = l.
Proof. rewrite <- list_fmap_compose. by rewrite list_fmap_id. Qed.

Lemma objs_mapped {A} base size num (f : Z -> A) : fits base size num ->
  forall a, a ∈ new_objs base size num -> is_Some ((list_to_map ((fun a => (a, f a)) <$> new_objs base size num) : gmap Z A) !! a).
Proof. intros _ a Ha. apply keys_mapped. by rewrite keys_id. Qed.

(** A constructor that puts something at each object. *)
Lemma constructed_mapped {A} (f : Z -> A) l (m : gmap Z A) a :
  a ∈ l \/ is_Some (m !! a) -> is_Some (foldl (fun m a => <[a := f a]> m) m l !! a).
Proof.
  revert m. induction l as [|b l IH]; intros m Ha; simpl; [destruct Ha as [Ha|Ha]; [by apply elem_of_nil in Ha|done]|].
  apply IH. rewrite lookup_insert_is_Some. destruct Ha as [[->|Ha]%elem_of_cons|Ha]; [by right; left|by left|].
  right. destruct (decide (b = a)); [by left|by right].
Qed.

(** *** The sentinels *)

(** All the locks are free, and every sentinel has an id of its own. *)
Definition free_sentinels (m : gmap Z txc_sentinel_t) : Prop :=
  Z.of_nat (size m) < 2 ^ 29 /\
  (forall a s, m !! a = Some s -> sentinel_mutex s = false /\ synch_mutex s = false /\ s_owner s = TXC_SENTINEL_NOOWNER) /\
  (forall a b s s', m !! a = Some s -> m !! b = Some s' -> s_id s = s_id s' -> a = b).

Definition boot_sentinels (g : txc_sentinelmgr_t) (live : list Z) (n : nat) : Prop :=
  room (pool_sentinel g) (sentinels g) live n /\ free_sentinels (sentinels g).

Lemma sentinelmgr_created m_mgr size pa w : is_Some m_mgr -> pa_granted pa size TXC_SENTINEL_NUM ->
  exists g, created (txc_sentinelmgr_create m_mgr size pa) w = Ret g w /\ boot_sentinels g [] 512.
Proof.
  intros [x ->] Hp. unfold txc_sentinelmgr_create, created. destruct (new_pool_created pa size TXC_SENTINEL_NUM None tt Hp) as (base & Hf & ->).
  unfold mbind, option_bind. cbv beta iota. rewrite new_each by done. eexists. split; [reflexivity|].
  assert ((imap (fun i a => (a, Sentinel false false (Z.of_nat i) 0 TXC_SENTINEL_NOOWNER)) (new_objs base size TXC_SENTINEL_NUM)).*1
    = new_objs base size TXC_SENTINEL_NUM) as Hk.
  { apply list_eq. intros i. rewrite list_lookup_fmap, list_lookup_imap. by destruct (_ !! i). }
  split; simpl.
  - apply (new_room base size 512); [done|]. intros a Ha. apply keys_mapped. by rewrite Hk.
  - unfold sentinelmgr_init. split_and!.
    + rewrite map_size_list_to_map, length_imap by (rewrite Hk; by apply new_objs_nodup).
      rewrite new_objs_length. unfold TXC_SENTINEL_NUM. lia.
    + intros a s Hs. apply elem_of_list_to_map_2, elem_of_lookup_imap in Hs as (i & y & [= -> ->] & Hi). done.
    + intros a b s s' Ha Hb. apply elem_of_list_to_map_2, elem_of_lookup_imap in Ha as (i & y & [= -> ->] & Hi).
      apply elem_of_list_to_map_2, elem_of_lookup_imap in Hb as (j & z & [= -> ->] & Hj). simpl. intros E.
      assert (i = j) as -> by lia. congruence.
Qed.

(** *** The buffers *)

Definition boot_buffers (b : txc_buffermgr_t) (lc ll : list Z) (nc nl : nat) : Prop :=
  room (pool_buffer_circular b) (circulars b) lc nc /\ room (pool_buffer_linear b) (linears b) ll nl.

Lemma buffermgr_created m_mgr hc hl pac pal w : is_Some m_mgr ->
  pa_granted pac (u32 (TXC_BUFFER_CIRCULAR_SIZE + hc)) TXC_BUFFER_CIRCULAR_NUM ->
  pa_granted pal (u32 (TXC_BUFFER_LINEAR_SIZE + hl)) TXC_BUFFER_LINEAR_NUM ->
  exists b, created (txc_buffermgr_create m_mgr hc hl pac pal) w = Ret b w /\ boot_buffers b [] [] 32 32.
Proof.
  intros [x ->] Hc Hl. unfold txc_buffermgr_create, created.
  destruct (new_pool_created pac _ _ (Some (circular_buffer_constructor hc)) ∅ Hc) as (bc & Hfc & ->).
  destruct (new_pool_created pal _ _ (Some (linear_buffer_constructor hl)) ∅ Hl) as (bl & Hfl & El).
  simpl. rewrite El. simpl. eexists. split; [done|]. split; simpl.
  - apply (new_room bc _ 32); [done|]. intros a Ha. apply constructed_mapped. by left.
  - apply (new_room bl _ 32); [done|]. intros a Ha. apply constructed_mapped. by left.
Qed.

Lemma linear_created b lc ll nc nl : boot_buffers b lc ll nc (S nl) ->
  exists a b', txc_buffer_linear_create b = Ret a b' /\ boot_buffers b' lc (a :: ll) nc nl /\ is_Some (linears b' !! a) /\
    (forall x, is_Some (linears b !! x) -> is_Some (linears b' !! x)).
Proof.
  intros [Hc Hl]. destruct (room_alloc _ _ _ _ Hl) as (a & p' & E & Hl' & [x Hx] & _).
  unfold txc_buffer_linear_create, in_pool_linear, m_zoom, m_bind. rewrite E. simpl.
  unfold linear_get, m_bind, m_get, m_deref. simpl. rewrite Hx. simpl. eexists _, _. split; [done|].
  split_and!; simpl; [split; [done|by apply room_insert]|by rewrite lookup_insert_eq; eexists|].
  intros y Hy. rewrite lookup_insert_is_Some. destruct (decide (a = y)); [by left|by right].
Qed.

Lemma circular_created b lc ll nc nl : boot_buffers b lc ll (S nc) nl ->
  exists a b', txc_buffer_circular_create b = Ret a b' /\ boot_buffers b' (a :: lc) ll nc nl /\ linears b' = linears b.
Proof.
  intros [Hc Hl]. destruct (room_alloc _ _ _ _ Hc) as (a & p' & E & Hc' & [x Hx] & _).
  unfold txc_buffer_circular_create, in_pool_circular, m_zoom, m_bind. rewrite E. simpl.
  unfold circular_get, m_bind, m_get, m_deref. simpl. rewrite Hx. simpl. eexists _, _. split; [done|].
  split; [|done]. split; simpl; [by apply room_insert|done].
Qed.

(** *** The transaction descriptors *)

Definition ready (lin : gmap Z txc_buffer_linear_t) (t : txc_tx_t) : Prop :=
  sl_good (sentinel_list t) /\ sl_good (sentinel_list_preacquire t) /\ sl_num_entries (sentinel_list t) = 0 /\
  is_Some (lin !! buffer_linear t).

(** The transaction manager while its descriptors [l] are to be prepared; it has [n] more
    for threads, and those of [live] are in use. *)
Record boot_txs (l live : list Z) (n : nat) (w : world) : Prop := {
  bt_room : room (pool_txd (w_txmgr w)) (txds (w_txmgr w)) live n;
  bt_mutex : tm_mutex (w_txmgr w) = false;
  bt_tail : alloc_txd_list_head (w_txmgr w) = 0 \/ is_Some (txds (w_txmgr w) !! alloc_txd_list_tail (w_txmgr w));
  bt_ready a t : txds (w_txmgr w) !! a = Some t -> a ∈ l \/ ready (linears (w_buffermgr w)) t;
}.

Definition init_loop (g : txc_sentinelmgr_t) (l : list Z) (w : world) : Prop :=
  w_sentinelmgr w = g /\ (exists ll, boot_buffers (w_buffermgr w) [] ll 32 (length l)) /\ boot_txs l [] 32 w /\
  forall a, a ∈ l -> is_Some (txds (w_txmgr w) !! a).

Lemma txmgr_init_txd_total g a l : m_total (init_loop g (a :: l)) (txmgr_init_txd true a) (fun _ => init_loop g l).
Proof.
  intros w (Hg & [ll Hb] & [H1 H2 H3 H4] & Hl). destruct (Hl a ltac:(set_solver)) as [t Ht].
  destruct (linear_created _ _ _ _ _ Hb) as (b & bm & Eb & Hb' & Hbm & Hmono).
  unfold txmgr_init_txd. set (sl := SentinelList (Some []) 0 TXC_SENTINEL_LIST_SIZE).
  cbv iota. change (txc_sentinel_list_create (Some 0) true) with (TXC_R_SUCCESS, Some sl). cbv beta iota.
  assert (forall w t, txds (w_txmgr (put_txd a t w)) !! a = Some t) as Hp by (intros; simpl; apply lookup_insert_eq).
    rewrite (m_bind_run _ _ _ _ _ (txd_upd_run a t _ w Ht)).
  do 3 rewrite (m_bind_run _ _ _ _ _ (txd_upd_run a _ _ _ (Hp _ _))).
  set (w1 := put_txd a _ (put_txd a _ _)).
  assert (in_buffermgr txc_buffer_linear_create w1 = Ret b (set_buffermgr bm w1)) as E1
    by (unfold in_buffermgr, m_zoom; change (w_buffermgr w1) with (w_buffermgr w); by rewrite Eb).
  rewrite (m_bind_run _ _ _ _ _ E1).
  eexists _, _. split; [apply txd_upd_run; simpl; apply lookup_insert_eq|].
  unfold w1, put_txd. simpl. rewrite !insert_insert_eq. clear w1 E1.
  assert (sl_good sl) as Hsl by (exists []; unfold sl; simpl; split; [done|unfold TXC_SENTINEL_LIST_SIZE; lia]).
  split_and!; simpl; [done|by exists (b :: ll)| |].
  - split; simpl; [by apply room_insert|done| |].
    + destruct H3 as [H3|H3]; [by left|right]. rewrite lookup_insert_is_Some. destruct (decide (a = alloc_txd_list_tail (w_txmgr w))); [by left|by right].
    + intros x t'. rewrite lookup_insert_Some. intros [[<- <-]|[Hne Hx]]; [right; by split_and!|].
      destruct (H4 _ _ Hx) as [[Hx'|Hx']%elem_of_cons|(R1 & R2 & R3 & R4)]; [done|by left|right]. split_and!; [done..|by apply Hmono].
  - intros x Hx. rewrite lookup_insert_is_Some. destruct (decide (a = x)); [by left|right; split; [done|]]. apply Hl. set_solver.
Qed.

Definition boot2 (g : txc_sentinelmgr_t) (n : nat) (live : list Z) (w : world) : Prop :=
  w_sentinelmgr w = g /\ (exists ll, boot_buffers (w_buffermgr w) [] ll 32 0) /\ boot_txs [] live n w.

Lemma created_in_total P (m : M world Z) (Q : world -> Prop) :
  m_total P m (fun r w => r = TXC_R_SUCCESS /\ Q w) -> m_total P (created_in m) (fun _ => Q).
Proof.
  intros Hm. eapply m_total_bind; [exact Hm|]. intros r w [-> Hw]. rewrite bool_decide_eq_false_2 by (intros H; by apply H).
  by exists tt, w.
Qed.

Lemma txmgr_created g m_mgr pa size :
  is_Some m_mgr -> pa_granted pa size TXC_MAX_NUM_THREADS ->
  m_total (fun w => w_sentinelmgr w = g /\ boot_buffers (w_buffermgr w) [] [] 32 32)
    (created_in (txc_txmgr_create m_mgr pa size true)) (fun _ => boot2 g 32 []).
Proof.
  intros [x ->] Hp. apply created_in_total. unfold txc_txmgr_create.
  destruct (new_pool_created pa size TXC_MAX_NUM_THREADS None tt Hp) as (base & Hf & ->).
  intros w [Hg Hb]. rewrite bind_deref. cbv beta iota. rewrite new_each by done.
  pose proof (new_objs_length base size TXC_MAX_NUM_THREADS) as Hlen. pose proof (objs_mapped _ _ _ (fun _ => zero_txd) Hf) as Hmap.
  set (objs := new_objs base size TXC_MAX_NUM_THREADS) in *. change (Z.to_nat TXC_MAX_NUM_THREADS) with 32%nat in Hlen.
  rewrite bind_modify.
  set (w1 := set_txmgr _ w). assert (init_loop g objs w1) as Hw1.
  { split_and!; [done|exists []; by rewrite Hlen| |exact Hmap]. split; simpl; [|done|by left|].
    - apply (new_room base size 32); [done|exact Hmap].
    - intros a t Ht. left. apply elem_of_list_to_map_2, list_elem_of_fmap in Ht as (y & [= -> ->] & Hy). done. }
  destruct (m_total_iter (init_loop g) _ objs (txmgr_init_txd_total g) w1 Hw1) as ([] & w2 & E2 & H1 & H2 & H3 & _).
  rewrite (m_bind_run _ _ _ _ _ E2). by exists TXC_R_SUCCESS, w2.
Qed.

(** *** The KOAs of the standard descriptors *)

Lemma free_sentinels_insert m a s s' :
  free_sentinels m -> m !! a = Some s -> sentinel_mutex s' = sentinel_mutex s -> synch_mutex s' = synch_mutex s ->
  s_id s' = s_id s -> s_owner s' = TXC_SENTINEL_NOOWNER -> free_sentinels (<[a := s']> m).
Proof.
  intros (H1 & H2 & H3) Ha Hm Hs Hi Ho. destruct (H2 _ _ Ha) as (Hm0 & Hs0 & Ho0). split_and!.
  - by rewrite map_size_insert_Some.
  - intros b x. rewrite lookup_insert_Some. intros [[<- <-]|[_ Hx]]; [|by eapply H2]. rewrite Hm, Hs. done.
  - assert (forall b x, <[a := s']> m !! b = Some x -> exists y, m !! b = Some y /\ s_id y = s_id x) as Hid.
    { intros b x. rewrite lookup_insert_Some. intros [[<- <-]|[_ Hx]]; [by exists s|by exists x]. }
    intros b c x y (x' & Hx & Ex)%Hid (y' & Hy & Ey)%Hid E. eapply H3; [exact Hx|exact Hy|congruence].
Qed.

Lemma sentinel_created w ls n : boot_sentinels (w_sentinelmgr w) ls (S n) ->
  exists a g, txc_sentinel_create w = Ret a (set_sentinelmgr g w) /\ boot_sentinels g (a :: ls) n.
Proof.
  intros [Hr Hf]. destruct (room_alloc _ _ _ _ Hr) as (a & p' & E & Hr' & [s Hs] & _).
  set (w1 := set_sentinelmgr (set_pool_sentinel p' (w_sentinelmgr w)) w).
  assert (in_pool_sentinel (txc_pool_object_alloc true) w = Ret (TXC_R_SUCCESS, Some a) w1) as E1
    by (unfold in_pool_sentinel, m_zoom; by rewrite E).
  unfold txc_sentinel_create. rewrite (m_bind_run _ _ _ _ _ E1). cbv beta iota. rewrite bool_decide_eq_false_2 by (intros H; by apply H).
  rewrite bind_deref. rewrite (m_bind_run _ _ _ _ _ (sentinel_upd_run a s _ w1 Hs)).
  rewrite (m_bind_run _ _ _ _ _ (sentinel_upd_run a _ _ (put_sentinel a _ w1) (lookup_insert_eq _ _ _))).
  eexists a, _. split; [reflexivity|]. split; simpl; [by apply room_insert, room_insert|]. unfold sview. simpl.
  rewrite insert_insert_eq. by eapply free_sentinels_insert.
Qed.

Definition koa_cells (m : gmap Z txc_koa_t) : Prop := map_Forall (fun _ c => length (fdref_fd c) = 8%nat) m.

(** The library while [n] more KOAs are to be made. *)
Record boot_koas (n : nat) (w : world) : Prop := {
  bk_sentinels : exists ls, boot_sentinels (w_sentinelmgr w) ls n;
  bk_buffers : exists lc ll, boot_buffers (w_buffermgr w) lc ll n 0;
  bk_txs : boot_txs [] [] 32 w;
  bk_room : exists lk, room (pool_koa_obj (w_koamgr w)) (koas (w_koamgr w)) lk n;
  bk_cells : koa_cells (koas (w_koamgr w));
  bk_fds fd : 0 <= fd < TXC_KOA_MAP_SIZE -> is_Some (fd_map (w_koamgr w) !! fd);
}.

Definition unreferenced (k t : Z) (w : world) : Prop := exists c, koas (w_koamgr w) !! k = Some c /\ koa_type c = t /\
  koa_refcnt c = 0 /\ fdref_refcnt c = 0.

Lemma room_less {A} p (m : gmap Z A) live n n' : room p m live n -> (n' <= n)%nat -> room p m live n'.
Proof. intros (fr & al & H1 & H2 & H3 & H4 & H5) Hn. exists fr, al. split_and!; [done..|lia|done]. Qed.

Lemma koa_created t n fds : t <> TXC_KOA_IS_FILE ->
  m_total (fun w => boot_koas (S n) w /\ fd_map (w_koamgr w) = fds) (txc_koa_create t 0)
    (fun k w => boot_koas n w /\ fd_map (w_koamgr w) = fds /\ unreferenced k t w).
Proof.
  intros Ht w [[[ls H1] (lc & ll & H2) [T1 T2 T3 T4] [lk H4] H5 H6] Hfd].
  destruct (room_alloc _ _ _ _ H4) as (k & p' & E & H4' & [c Hc] & _).
  unfold txc_koa_create. rewrite (m_bind_run _ _ _ _ _ (in_pool_koa_run _ _ _ _ E)). cbv beta iota.
  rewrite bool_decide_eq_false_2 by (intros H; by apply H). rewrite bind_deref.
  set (w1 := set_koamgr _ w). destruct (sentinel_created w1 ls n H1) as (s & g & E1 & H1').
  rewrite (m_bind_run _ _ _ _ _ E1). set (w2 := set_sentinelmgr g w1).
  rewrite (m_bind_run _ _ _ _ _ (koa_upd_run k c _ w2 Hc)). rewrite (bool_decide_eq_false_2 (t = TXC_KOA_IS_FILE)) by done.
  set (c' := Koa _ _ _ _ _ _ _). set (w3 := put_koa k c' w2).
  destruct (bool_decide _ || bool_decide _).
  - destruct (circular_created _ _ _ _ _ H2) as (b & bm & E2 & H2' & Hlin).
    assert (in_buffermgr txc_buffer_circular_create w3 = Ret b (set_buffermgr bm w3)) as E3
      by (unfold in_buffermgr, m_zoom; change (w_buffermgr w3) with (w_buffermgr w); by rewrite E2).
    rewrite m_bind_assoc. rewrite (m_bind_run _ _ _ _ _ E3).
    rewrite (m_bind_run _ _ _ _ _ (koa_upd_run k c' _ (set_buffermgr bm w3) (lookup_insert_eq _ _ _))).
    eexists k, _. split; [reflexivity|]. split; [split; simpl|split; [done|]].
    + by eexists.
    + by eexists _, _.
    + split; simpl; try done. by rewrite Hlin.
    + eexists. by apply room_insert, room_insert.
    + unfold koa_cells. rewrite insert_insert_eq. apply map_Forall_insert_2; [|done]. simpl. by apply (H5 k).
    + done.
    + eexists. split; [simpl; apply lookup_insert_eq|]. done.
  - rewrite (m_bind_run _ _ _ _ _ (eq_refl : m_ret tt w3 = Ret tt w3)).
    eexists k, _. split; [reflexivity|]. split; [split; simpl|split; [done|]].
    + by eexists.
    + destruct H2 as [H2 H3]. eexists _, _. split; [eapply room_less; [exact H2|lia]|done].
    + by split.
    + eexists. by apply room_insert.
    + apply map_Forall_insert_2; [|done]. simpl. by apply (H5 k).
    + done.
    + eexists. split; [simpl; apply lookup_insert_eq|]. done.
Qed.

Lemma std_attached k t n fds fd : t <> TXC_KOA_IS_FILE -> 0 <= fd < TXC_KOA_MAP_SIZE ->
  m_total (fun w => boot_koas n w /\ fd_map (w_koamgr w) = fds /\ unreferenced k t w) (txc_koa_attach_fd k fd false)
    (fun _ w => boot_koas n w /\ exists e, fd_map (w_koamgr w) = <[fd := e]> fds /\ fd_koa e = k).
Proof.
  intros Ht Hfd w ([H1 H2 T [lk H4] H5 H6] & Hf & c & Hc & Htype & Hr & Hn). destruct (H6 fd Hfd) as [e He].
  unfold txc_koa_attach_fd. rewrite (m_bind_run _ _ _ _ _ (eq_refl : m_when false _ w = Ret tt w)).
  rewrite (m_bind_run _ _ _ _ _ (fd_upd_run fd e _ w He)). set (w1 := put_fd fd _ w).
  unfold koa_incref. rewrite !m_bind_assoc. rewrite (m_bind_run _ _ _ _ _ (koa_upd_run k c _ w1 Hc)).
  set (c1 := k_set_refcnt _ c). set (w2 := put_koa k c1 w1). assert (koas (w_koamgr w2) !! k = Some c1) as Hc1 by apply lookup_insert_eq.
  rewrite m_bind_assoc. rewrite (m_bind_run _ _ _ _ _ (koa_get_run k c1 w2 Hc1)).
  assert (koa_type c1 <> TXC_KOA_IS_FILE) as Ht1 by (change (koa_type c <> TXC_KOA_IS_FILE); congruence).
  rewrite (bool_decide_eq_false_2 (koa_type c1 = TXC_KOA_IS_FILE)), andb_false_r by exact Ht1.
  rewrite (m_bind_run _ _ _ _ _ (eq_refl : m_ret tt w2 = Ret tt w2)). rewrite (m_bind_run _ _ _ _ _ (koa_get_run k c1 w2 Hc1)).
  change (fdref_refcnt c1) with (fdref_refcnt c). rewrite Hn. rewrite bool_decide_eq_false_2 by (unfold TXC_MAX_NUM_FDREFS_PER_KOA; lia).
  change (fdref_fd c1) with (fdref_fd c). unfold fdref_set. rewrite bool_decide_eq_true_2 by (rewrite (H5 k c Hc); lia).
  rewrite bind_deref. rewrite (m_bind_run _ _ _ _ _ (koa_upd_run k c1 _ w2 Hc1)).
  eexists _, _. split; [reflexivity|]. split; [split; simpl|].
  - done.
  - done.
  - by destruct T; split.
  - eexists. by apply room_insert, room_insert.
  - unfold koa_cells. rewrite insert_insert_eq. apply map_Forall_insert_2; [|done]. cbn [fdref_fd k_set_fdref].
    rewrite length_insert. by apply (H5 k).
  - intros x Hx. rewrite lookup_insert_is_Some. destruct (decide (fd = x)); [by left|right; split; [done|by apply H6]].
  - eexists. simpl. split; [by rewrite Hf|done].
Qed.

(** What has been done with the registry since it was empty: the KOAs [refs], latest
    first, are referenced by the descriptors [fds]. *)
Definition booted_koas (fds refs : list Z) (w : world) : Prop :=
  (exists w0, registry ∅ w0 /\ rtc koa_step (w0, []) (w, refs)) /\
  Forall2 (fun fd k => exists e, fd_map (w_koamgr w) !! fd = Some e /\ fd_koa e = k) fds refs.

Lemma koamgr_std_total t fd n fds refs : t <> TXC_KOA_IS_FILE -> 0 <= fd < TXC_KOA_MAP_SIZE -> fd ∉ fds ->
  m_total (fun w => boot_koas (S n) w /\ booted_koas fds refs w) (koamgr_std t fd)
    (fun _ w => exists k, boot_koas n w /\ booted_koas (fd :: fds) (k :: refs) w).
Proof.
  intros Ht Hfd Hn w (Hw & (w0 & H0 & Hs) & Hf).
  destruct (koa_created t n (fd_map (w_koamgr w)) Ht w) as (k & w1 & E1 & H1 & Hm1 & Hu); [done|].
  destruct (std_attached k t n (fd_map (w_koamgr w)) fd Ht Hfd w1) as (r & w2 & E2 & H2 & e & Hm2 & He); [done|].
  unfold koamgr_std. rewrite (m_bind_run _ _ _ _ _ E1), (m_bind_run _ _ _ _ _ E2). exists tt, w2. split; [done|].
  exists k. split; [done|]. split.
  - exists w0. split; [done|]. eapply rtc_r; [exact Hs|]. by apply (step_new_other w refs t k w1 w1 (Some (fd, false)) r w2).
  - rewrite Hm2. constructor; [exists e; by rewrite lookup_insert_eq|].
    apply Forall2_same_length_lookup_2; [by eapply Forall2_length|]. intros i x y Hx Hy.
    destruct (Forall2_lookup_lr _ _ _ _ _ _ Hf Hx Hy) as (e' & Hx' & He'). exists e'. split; [|done].
    rewrite lookup_insert_ne; [done|]. intros <-. apply Hn. by eapply list_elem_of_lookup_2.
Qed.

Lemma koamgr_created m_mgr pa size hp tbl : is_Some m_mgr -> is_Some hp -> is_Some tbl -> pa_granted pa size TXC_KOA_NUM ->
  m_total (fun w => (exists g, boot2 g 32 [] w /\ boot_sentinels g [] 512)) (created_in (txc_koamgr_create m_mgr pa hp tbl size))
    (fun _ w => exists k2 k1 k0, boot_koas 29 w /\ booted_koas [2; 1; 0] [k2; k1; k0] w).
Proof.
  intros [x ->] [y ->] [z ->] Hp. apply created_in_total. unfold txc_koamgr_create.
  destruct (new_pool_created pa size TXC_KOA_NUM None tt Hp) as (base & Hf & ->).
  intros w (g & (Hg & [ll Hb] & Ht) & Hsg). rewrite bind_deref. cbv beta iota.
  destruct (create_rep y z TXC_KOA_CACHE_HASHTBL_SIZE false ltac:(done)) as (h & -> & Hh & _). cbv beta iota.
  rewrite bind_modify. set (w1 := set_koamgr _ w).
  assert (forall a, a ∈ new_objs base size TXC_KOA_NUM -> is_Some (koas (w_koamgr w1) !! a)) as Hcells.
  { intros a Ha. simpl. apply keys_mapped. rewrite <- list_fmap_compose. unfold compose. simpl. by rewrite new_bufs. }
  assert (boot_koas 32 w1 /\ booted_koas [] [] w1) as [Hk Hbk].
  { split; [split|].
    - exists []. simpl. rewrite Hg. destruct Hsg as [Hr ?]. split; [|done]. eapply room_less; [exact Hr|lia].
    - by exists [], ll.
    - by destruct Ht; split.
    - exists []. eapply room_less; [apply (new_room base size 512); [done|exact Hcells]|lia].
    - intros a c Hc. simpl in Hc. apply elem_of_list_to_map_2, list_elem_of_fmap in Hc as (o & [= -> ->] & _).
      reflexivity.
    - intros fd Hfd. apply (keys_mapped ((fun i => (i, Fd2Koa false 0)) <$> seqZ 0 TXC_KOA_MAP_SIZE)).
      rewrite (keys_id (fun _ => Fd2Koa false 0)). by apply elem_of_seqZ.
    - split; [|constructor]. exists w1. split; [|apply rtc_refl]. exists ∅. split.
      + split_and!; [|apply map_Forall_empty|exact Hh]. exists (seq 0 (Z.to_nat TXC_KOA_NUM)), [].
        assert (pool_rep (new_pool base size TXC_KOA_NUM) (seq 0 (Z.to_nat TXC_KOA_NUM)) []) as Hrep
          by by apply new_rep.
        split_and!; [exact Hrep| |].
        * intros k. rewrite lookup_empty. split; [by intros [? ?]|by intros ?%elem_of_nil].
        * rewrite app_nil_r. intros i Hi. apply Hcells. by apply (new_obj_in base size TXC_KOA_NUM i).
      + intros i k. rewrite lookup_empty. split; [done|]. by intros (r & Hr & _). }
  clearbody w1. clear Hcells.
  destruct (koamgr_std_total TXC_KOA_IS_PIPE_READ_END 0 31 [] [] ltac:(done) ltac:(done) ltac:(set_solver) w1) as ([] & w2 & E2 & k0 & H2 & B2); [done|].
  destruct (koamgr_std_total TXC_KOA_IS_PIPE_WRITE_END 1 30 [0] [k0] ltac:(done) ltac:(done) ltac:(set_solver) w2 (conj H2 B2)) as ([] & w3 & E3 & k1 & H3 & B3).
  destruct (koamgr_std_total TXC_KOA_IS_PIPE_WRITE_END 2 29 [1; 0] [k1; k0] ltac:(done) ltac:(done) ltac:(set_solver) w3 (conj H3 B3)) as ([] & w4 & E4 & k2 & H4 & B4).
  rewrite (m_bind_run _ _ _ _ _ E2), (m_bind_run _ _ _ _ _ E3), (m_bind_run _ _ _ _ _ E4).
  exists TXC_R_SUCCESS, w4. split; [done|]. split; [done|]. by exists k2, k1, k0.
Qed.

(** *** The threads *)

(** The library as [_TXC_global_init] left it but for descriptors, of which [n] are free;
    [g] and [km] are the managers that the threads do not touch. *)
Definition boot_threads (g : txc_sentinelmgr_t) (km : txc_koamgr_t) (live : list Z) (n : nat) (w : world) : Prop :=
  w_sentinelmgr w = g /\ w_koamgr w = km /\ boot_txs [] live n w /\ Forall (fun a => 0 < a /\ is_Some (txds (w_txmgr w) !! a)) live.

(** While the descriptor [a] is set up. *)
Definition thread_setup g km live n (lock : bool) (a : Z) (w : world) : Prop :=
  w_sentinelmgr w = g /\ w_koamgr w = km /\ room (pool_txd (w_txmgr w)) (txds (w_txmgr w)) live n /\
  tm_mutex (w_txmgr w) = lock /\
  (alloc_txd_list_head (w_txmgr w) = 0 \/ is_Some (txds (w_txmgr w) !! alloc_txd_list_tail (w_txmgr w))) /\
  (forall a t, txds (w_txmgr w) !! a = Some t -> ready (linears (w_buffermgr w)) t) /\
  Forall (fun a => 0 < a /\ is_Some (txds (w_txmgr w) !! a)) live /\ is_Some (txds (w_txmgr w) !! a).

Lemma upd_setup g km live n lock a b f :
  (forall lin t, ready lin t -> ready lin (f t)) ->
  m_total (fun w => thread_setup g km live n lock a w /\ is_Some (txds (w_txmgr w) !! b)) (txd_upd b f)
    (fun _ w => thread_setup g km live n lock a w /\ is_Some (txds (w_txmgr w) !! b)).
Proof.
  intros Hf w ((H1 & H2 & H3 & H4 & H5 & H6 & H7 & H8) & [t Ht]). eexists _, _. split; [by apply txd_upd_run|].
  assert (forall x, is_Some (txds (w_txmgr w) !! x) -> is_Some (<[b := f t]> (txds (w_txmgr w)) !! x)) as Hx.
  { intros x Hx. rewrite lookup_insert_is_Some. destruct (decide (b = x)); [by left|by right]. }
  split; [|by apply Hx]. split_and!; simpl; try done.
  - by apply room_insert.
  - destruct H5 as [H5|H5]; [by left|right; by apply Hx].
  - intros x t'. rewrite lookup_insert_Some. intros [[<- <-]|[_ Hx']]; [apply Hf; by eapply H6|by eapply H6].
  - eapply Forall_impl; [exact H7|]. intros x [? ?]. split; [done|by apply Hx].
  - by apply Hx.
Qed.

Lemma upd_own g km live n lock a f :
  (forall lin t, ready lin t -> ready lin (f t)) ->
  m_total (thread_setup g km live n lock a) (txd_upd a f) (fun _ => thread_setup g km live n lock a).
Proof.
  intros Hf. eapply m_total_conseq; [by apply (upd_setup g km live n lock a a)| |by intros ? w [? _]].
  intros w Hw. split; [done|]. apply Hw.
Qed.

Lemma set_list_setup g km live n a num head tail w :
  thread_setup g km live n true a w -> head = 0 \/ is_Some (txds (w_txmgr w) !! tail) ->
  exists w', txmgr_set_list num head tail w = Ret tt w' /\ thread_setup g km live n true a w'.
Proof. intros (H1 & H2 & H3 & H4 & H5 & H6 & H7 & H8) Ht. eexists. split; [done|]. by split_and!. Qed.

Lemma list_append_setup g km live n a :
  m_total (thread_setup g km live n true a) (txd_list_append a) (fun _ => thread_setup g km live n true a).
Proof.
  eapply (m_total_bind _ m_get _ (fun x w => x = w /\ thread_setup g km live n true a w)); [by intros w Hw; exists w, w|].
  intros w0 w1 [<- Hw0]. revert w0 Hw0. set (m0 := w_txmgr). intros w0 Hw0.
  apply (m_total_bind (fun w => w = w0) _ _ (fun _ => thread_setup g km live n true a)); [|clear w0 Hw0; intros []|done].
  - intros w ->. pose proof Hw0 as (_ & _ & _ & _ & Ht & _ & _ & Ha). case_bool_decide as Hh.
    + destruct (set_list_setup g km live n a (alloc_txd_num (m0 w0)) a a w0) as (w1 & E1 & H1); [done|by right|].
      destruct (upd_own g km live n true a (tx_set_tx_next 0) ltac:(done) w1 H1) as ([] & w2 & E2 & H2).
      destruct (upd_own g km live n true a (tx_set_tx_prev 0) ltac:(done) w2 H2) as ([] & w3 & E3 & H3).
      rewrite (m_bind_run _ _ _ _ _ E1), (m_bind_run _ _ _ _ _ E2). by exists tt, w3.
    + destruct Ht as [Ht|Ht]; [done|].
      destruct (upd_setup g km live n true a _ (tx_set_tx_next a) ltac:(done) w0 (conj Hw0 Ht)) as ([] & w1 & E1 & H1 & Ht1).
      destruct (upd_own g km live n true a (tx_set_tx_prev (alloc_txd_list_tail (m0 w0))) ltac:(done) w1 H1) as ([] & w2 & E2 & H2).
      destruct (set_list_setup g km live n a (alloc_txd_num (m0 w0)) (alloc_txd_list_head (m0 w0)) a w2) as (w3 & E3 & H3);
        [done|right; apply H2|].
      rewrite (m_bind_run _ _ _ _ _ E1), (m_bind_run _ _ _ _ _ E2). by exists tt, w3.
  - intros w Hw. destruct (set_list_setup g km live n a (u32 (alloc_txd_num (m0 w) + 1)) (alloc_txd_list_head (m0 w))
      (alloc_txd_list_tail (m0 w)) w) as (w1 & E1 & H1); [done|apply Hw|]. by exists tt, w1.
Qed.

Lemma ready_init lin b x t : ready lin t -> ready (<[b := x]> lin) t.
Proof.
  intros (R1 & R2 & R3 & R4). split_and!; [done..|]. rewrite lookup_insert_is_Some.
  destruct (decide (b = buffer_linear t)); [by left|by right].
Qed.

Lemma tx_init_setup g km live n a :
  m_total (thread_setup g km live n false a) (txc_tx_init a) (fun _ => thread_setup g km live n false a).
Proof.
  unfold txc_tx_init. eapply m_total_bind; [apply upd_own; by intros lin t (? & ? & ? & ?)|]. intros [] w Hw.
  pose proof Hw as (H1 & H2 & H3 & H4 & H5 & H6 & H7 & [t Ht]). destruct (H6 _ _ Ht) as (_ & _ & _ & [b Hb]).
  unfold linear_upd. rewrite (m_bind_run _ _ _ _ _ (txd_get_run a t w Ht)).
  unfold in_buffermgr, m_zoom, m_bind, linear_get, m_bind, m_get, m_deref. rewrite Hb. simpl. eexists _, _. split; [done|].
  split_and!; simpl; try done. intros x t' Hx. apply ready_init. by eapply H6.
Qed.

Lemma thread_init_total g km live n self itm_tid :
  m_total (boot_threads g km live (S n)) (_TXC_thread_init self itm_tid)
    (fun a => boot_threads g km (a :: live) n).
Proof.
  intros w (H1 & H2 & [T1 T2 T3 T4] & H5). destruct (room_alloc _ _ _ _ T1) as (a & p' & E & Hr & Ha & Hpos).
  unfold _TXC_thread_init, txc_tx_create. set (w1 := set_txmgr (set_pool_txd p' (w_txmgr w)) w).
  assert (in_pool_txd (txc_pool_object_alloc true) w = Ret (TXC_R_SUCCESS, Some a) w1) as E1
    by (unfold in_pool_txd, m_zoom; by rewrite E).
  rewrite (m_bind_run _ _ _ _ _ E1). cbv beta iota. rewrite bool_decide_eq_false_2 by (intros H; by apply H). rewrite bind_deref.
  set (w2 := set_txmgr (TxMgr true (alloc_txd_num (w_txmgr w1)) (alloc_txd_list_head (w_txmgr w1)) (alloc_txd_list_tail (w_txmgr w1))
    (pool_txd (w_txmgr w1)) (txds (w_txmgr w1))) w1).
  assert (txmgr_lock w1 = Ret tt w2) as E2 by (unfold txmgr_lock, m_bind, m_get; simpl; by rewrite T2).
  rewrite (m_bind_run _ _ _ _ _ E2).
  assert (thread_setup g km (a :: live) n true a w2) as Hw2.
  { split_and!; simpl; try done; [|by constructor]. intros x t Hx. by destruct (T4 _ _ Hx) as [?%elem_of_nil|?]. }
  clearbody w2. clear w1 E1 E2 T1 T2 T3 T4 H1 H2 H5 E Hr Ha w. revert w2 Hw2.
  eapply m_total_bind; [apply list_append_setup|intros []].
  apply (m_total_bind _ _ _ (fun _ => thread_setup g km (a :: live) n false a)).
  { intros w (H1 & H2 & H3 & H4 & H5 & H6 & H7 & H8). eexists _, _. split; [done|]. by split_and!. }
  intros []. do 2 (eapply m_total_bind; [by apply upd_own|intros []]).
  eapply m_total_bind; [apply tx_init_setup|intros []].
  eapply m_total_bind; [apply upd_own|intros []].
  { intros lin t (R1 & R2 & R3 & R4). split_and!; [by apply sl_good_init|done..]. }
  eapply m_total_bind; [apply upd_own|intros []].
  { intros lin t (R1 & R2 & R3 & R4). split_and!; [done|by apply sl_good_init|done..]. }
  do 2 (eapply m_total_bind; [by apply upd_own|intros []]).
  eapply m_total_bind; [unfold txc_fm_init; do 2 (eapply m_total_bind; [by apply upd_own|intros []]); by apply upd_own|intros []].
  apply m_total_ret. intros w (H1 & H2 & H3 & H4 & H5 & H6 & H7 & H8). split_and!; [done|done| |done].
  split; [done|done|done|]. intros x t Hx. right. by eapply H6.
Qed.

Lemma thread_inits_total g km threads live n : (length threads <= n)%nat ->
  m_total (boot_threads g km live n) (thread_inits threads live)
    (fun ids w => length ids = (length threads + length live)%nat /\ boot_threads g km ids (n - length threads) w).
Proof.
  revert live n. induction threads as [|[self itm_tid] threads IH]; intros live n Hn; simpl in *.
  - apply m_total_ret. intros w Hw. by rewrite Nat.sub_0_r.
  - destruct n as [|n]; [lia|]. eapply m_total_bind; [apply thread_init_total|]. intros a.
    eapply m_total_conseq; [apply (IH (a :: live) n); lia|done|]. simpl. intros ids w [-> Hw]. split; [lia|done].
Qed.

(** Memory is granted, in pools that [unsigned int] can count the bytes of. *)
Definition granted (al : boot_allocs) : Prop :=
  is_Some (ba_sentinelmgr al) /\ pa_granted (ba_sentinels al) (sizeof sz_txc_sentinel_t) TXC_SENTINEL_NUM /\
  is_Some (ba_buffermgr al) /\
  pa_granted (ba_circulars al) (u32 (TXC_BUFFER_CIRCULAR_SIZE + header_circular al)) TXC_BUFFER_CIRCULAR_NUM /\
  pa_granted (ba_linears al) (u32 (TXC_BUFFER_LINEAR_SIZE + header_linear al)) TXC_BUFFER_LINEAR_NUM /\
  is_Some (ba_txmgr al) /\ pa_granted (ba_txds al) (sizeof sz_txc_tx_t) TXC_MAX_NUM_THREADS /\ ba_lists al = true /\
  is_Some (ba_koamgr al) /\ pa_granted (ba_koas al) (sizeof sz_txc_koa_t) TXC_KOA_NUM /\
  is_Some (ba_hp al) /\ is_Some (ba_tbl al).

Lemma boot_total al cfg : granted al ->
  m_total (fun _ => True) (_TXC_global_init al cfg)
    (fun r w => r = TXC_R_SUCCESS /\ exists k2 k1 k0, boot_koas 29 w /\ booted_koas [2; 1; 0] [k2; k1; k0] w).
Proof.
  intros (G1 & G2 & G3 & G4 & G5 & G6 & G7 & G8 & G9 & G10 & G11 & G12) w0 _. unfold _TXC_global_init. rewrite bind_modify.
  set (w1 := World _ _ _ _ _ _ _ _ _). clearbody w1.
  destruct (sentinelmgr_created _ _ _ w1 G1 G2) as (g & E1 & Hg). rewrite (m_bind_run _ _ _ _ _ E1), bind_modify.
  set (w2 := set_sentinelmgr g w1).
  destruct (buffermgr_created _ _ _ _ _ w2 G3 G4 G5) as (b & E2 & Hb). rewrite (m_bind_run _ _ _ _ _ E2), bind_modify.
  set (w3 := set_buffermgr b w2). rewrite G8.
  destruct (txmgr_created g _ _ _ G6 G7 w3 (conj eq_refl Hb)) as ([] & w4 & E4 & H4). rewrite (m_bind_run _ _ _ _ _ E4).
  destruct (koamgr_created _ _ _ _ _ G9 G11 G12 G10 w4) as ([] & w5 & E5 & H5); [by exists g|].
  rewrite (m_bind_run _ _ _ _ _ E5). by exists TXC_R_SUCCESS, w5.
Qed.
End boot.

(** C22: From any state of the process, when memory is granted, [_TXC_global_init] and up
    to 32 calls of [_TXC_thread_init] return. The descriptors they give are distinct,
    and the library is where the theorems on its protocols start: every sentinel is
    free and each thread runs with an empty list; and the registry was empty before it
    took the KOAs of the descriptors 0, 1 and 2, which these refer to. So neither call is
    idempotent, as the documentation has them ([core/mainpage.h]): a second
    [_TXC_global_init], which is a start from a state where the library runs, replaces the
    managers and forgets what was held, and a thread that calls [_TXC_thread_init] twice
    has two descriptors of the 32. *)
Theorem library_starts `{PF : Platform} al cfg threads w0 :
  granted al -> (length threads <= 32)%nat ->
  exists ids w, (do _ <- _TXC_global_init al cfg ;; thread_inits threads []) w0 = Ret ids w /\
    NoDup ids /\ length ids = length threads /\
    pstart w (list_to_map ((fun txd => (txd, Running)) <$> ids)) /\
    exists k2 k1 k0, booted_koas [2; 1; 0] [k2; k1; k0] w.
Proof.
  intros Hg Hn. destruct (boot_total al cfg Hg w0 I) as (r & w1 & E1 & _ & k2 & k1 & k0 & [[ls [Hs Hf]] _ Ht _ _ _] & (wr & Hr & Hk) & Hfd).
  destruct (thread_inits_total (w_sentinelmgr w1) (w_koamgr w1) threads [] 32 Hn w1) as (ids & w2 & E2 & Hl & H1 & H2 & [T _ _ Hready] & Hids);
    [by split_and!|].
  exists ids, w2. rewrite (m_bind_run _ _ _ _ _ E1). split_and!; [done|by eapply room_nodup|simpl in Hl; lia| |exists k2, k1, k0; split].
  - unfold free_sentinels in Hf. rewrite <- H1 in Hf. destruct Hf as (F1 & F2 & F3). split; [done..|].
    intros txd p Hp. apply elem_of_list_to_map_2, list_elem_of_fmap in Hp as (a & [= -> ->] & Ha).
    rewrite Forall_forall in Hids. destruct (Hids a Ha) as [Hpos [t Hta]]. split; [lia|]. split; [done|].
    exists (sentinel_list t), (sentinel_list_preacquire t). destruct (Hready a t Hta) as [?%elem_of_nil|(R1 & R2 & R3 & _)]; [done|].
    unfold tview. by rewrite Hta.
  - exists wr. split; [done|]. eapply rtc_r; [exact Hk|]. apply step_other. unfold same_registry. by rewrite H2.
  - by rewrite H2.
Qed.

(** Each pool at a place of its own. *)
Definition mem_pool (base : Z) : pool_allocs := PoolAllocs (Some (base - 8)) (Some (base - 4)) (Some base) 0.
Definition mem_allocs : boot_allocs := BootAllocs (Some 8) (mem_pool 4096) (Some 16) (mem_pool (2 ^ 28)) (mem_pool (2 ^ 24)) 48 16
  (Some 24) (mem_pool 65536) true (Some 32) (mem_pool 131072) (Some 40) (Some 48).

Lemma library_starts_witness : exists ids w,
  (do _ <- _TXC_global_init mem_allocs (Settings 100 100) ;; thread_inits [(7, 1); (9, 2)] []) w_reg0 = Ret ids w /\
  NoDup ids /\ length ids = 2%nat /\ pstart w (list_to_map ((fun txd => (txd, Running)) <$> ids)) /\
  exists k2 k1 k0, booted_koas [2; 1; 0] [k2; k1; k0] w.
Proof.
  apply (library_starts mem_allocs (Settings 100 100) [(7, 1); (9, 2)] w_reg0); [|simpl; lia].
  assert (forall base size num, fits base size num -> pa_granted (mem_pool base) size num) as Hp.
  { intros base size num Hf. by exists (base - 8), (base - 4), base. }
  split_and!; try (by eexists); try (by apply Hp).
Defined.
