(* ===== verification/Teardown.v ===== *)
(** * Destruction

    The functions that give memory back, over the set of the blocks that [malloc] has
    given out: freeing a block that is not in it, twice for instance, and reading one
    that has been freed, are undefined. The program itself ends without calling them.

    The structures of the other files do not have the addresses of all their blocks; the
    ones that are freed are given here by records. Setting the caller's pointer to null
    afterwards, and [txd->manager], the process's only manager, are left out. *)

From S2P Require Import Prelude Dll Pool HashTable Buffer Actions Stats World Tx Sentinel Views.

(** The blocks that are allocated. *)
Definition heap : Type := gset Z.

Definition FREE (p : Z) : M heap unit :=
  if bool_decide (p = 0) then m_ret tt else
  do live <- m_get ;;
  if bool_decide (p ∈ live) then m_put (live ∖ {[p]}) else m_undef.

(** Reading from a block. *)
Definition from_block {A} (p : Z) (o : option A) : M heap A :=
  do live <- m_get ;; if bool_decide (p ∈ live) then m_deref o else m_undef.

(** ** [misc/pool.c] *)

(** The pool and its array of headers; the objects are at [full_buf]. *)
Record pool_blocks := PoolBlocks { pb_pool : Z; pb_obj_list : Z }.

Definition txc_pool_destroy (pb : pool_blocks) (p : txc_pool_t) : M heap Z :=
  FREE (full_buf p) ;;; FREE (pb_obj_list pb) ;;; FREE (pb_pool pb) ;;; m_ret TXC_R_SUCCESS.

(** ** [misc/hash_table.c] *)

Record table_blocks := TableBlocks { tb_table : Z; tb_tbl : Z; tb_bucket : nat -> Z }.

Section hash_table.
Variables (tb : table_blocks) (h : txc_hash_table_t).

(** [for (; bucket; bucket = next_bucket)] *)
Definition free_bucket (bucket : option nat) : M heap (option nat + unit) :=
  match bucket with
  | None => m_ret (inr tt)
  | Some x =>
      do b <- from_block (tb_bucket tb x) (bh_mem (bheap h) !! x) ;;
      FREE (tb_bucket tb x) ;;;
      m_ret (inl (b_next b))
  end.
Definition free_chain (bucket : option nat) : M heap unit := m_loop (S (size (bh_mem (bheap h)))) free_bucket bucket.

Definition free_list (i : nat) : M heap unit :=
  do l <- m_deref (tbl h !! i) ;; free_chain (bl_head l) ;;; free_chain (bl_free l).
End hash_table.

Definition txc_hash_table_destroy (tb : table_blocks) (hp : option txc_hash_table_t) : M heap Z :=
  match hp with
  | None => m_ret TXC_R_SUCCESS
  | Some h =>
      m_iter (free_list tb h) (seq 0 (Z.to_nat (tbl_size h))) ;;;
      FREE (tb_tbl tb) ;;; FREE (tb_table tb) ;;; m_ret TXC_R_SUCCESS
  end.

(** ** The managers *)

Definition txc_sentinelmgr_destroy (sentinelmgr : Z) (pb : pool_blocks) (p : txc_pool_t) : M heap unit :=
  do _ <- txc_pool_destroy pb p ;; FREE sentinelmgr.

Definition txc_buffermgr_destroy (buffermgr : Z) (pc pl : pool_blocks) (m : txc_buffermgr_t) : M heap unit :=
  do _ <- txc_pool_destroy pc (pool_buffer_circular m) ;;
  do _ <- txc_pool_destroy pl (pool_buffer_linear m) ;;
  FREE buffermgr.

Definition txc_koamgr_destroy (koamgr : Z) (pb : pool_blocks) (tb : table_blocks) (m : txc_koamgr_t) : M heap unit :=
  do _ <- txc_pool_destroy pb (pool_koa_obj m) ;;
  do _ <- txc_hash_table_destroy tb (Some (alias_hash_tbl m)) ;;
  FREE koamgr.

(** The structures of the threads are blocks; their tables of transactions are not freed. *)
Definition free_threadstat (st : stats_st) (threadstat : option Z) : M heap (option Z + unit) :=
  match threadstat with
  | None => m_ret (inr tt)
  | Some a =>
      do t <- from_block a (st_threads st !! a) ;;
      FREE a ;;;
      m_ret (inl (th_next t))
  end.

Definition txc_statsmgr_destroy (statsmgr : Z) (fuel : nat) (st : stats_st) : M heap Z :=
  m_loop fuel (free_threadstat st) (alloc_threadstat_list_head (st_mgr st)) ;;;
  FREE statsmgr ;;;
  m_ret TXC_R_SUCCESS.

Definition txc_stats_txstat_destroy (txstat : Z) : M heap Z := FREE txstat ;;; m_ret TXC_R_SUCCESS.

(** ** [core/tx.c] *)

(** A list of actions or of sentinels: its header and its array. *)
Record list_blocks := ListBlocks { lb_list : Z; lb_entries : Z }.
(** The lists of a descriptor. *)
Record txd_blocks := TxdBlocks {
  tx_commit : list_blocks;
  tx_undo : list_blocks;
  tx_sentinels : list_blocks;
  tx_preacquire : list_blocks;
}.

Definition deallocate_action_list_entries (la : list_blocks) : M heap Z := FREE (lb_entries la) ;;; m_ret TXC_R_SUCCESS.
Definition deallocate_sentinel_list_entries (la : list_blocks) : M heap Z := FREE (lb_entries la) ;;; m_ret TXC_R_SUCCESS.
Definition txc_sentinel_list_destroy (sl : list_blocks) : M heap Z :=
  do result <- deallocate_sentinel_list_entries sl ;;
  if bool_decide (result <> TXC_R_SUCCESS) then m_ret result
  else FREE (lb_list sl) ;;; m_ret TXC_R_SUCCESS.

Section txmgr.
Context {PF : Platform}.

Record td := Td { td_heap : heap; td_world : world }.
Definition freeing {A} (m : M heap A) : M td A := m_zoom td_heap (fun h d => Td h (td_world d)) m.
Definition in_world {A} (m : M world A) : M td A := m_zoom td_world (fun w d => Td (td_heap d) w) m.

Variables (txmgr : Z) (pb : pool_blocks) (blocks : Z -> txd_blocks).

Definition destroy_txd (txd : Z) : M td unit :=
  let b := blocks txd in
  do t <- in_world (txd_get txd) ;;
  do _ <- freeing (deallocate_action_list_entries (tx_commit b)) ;;
  do _ <- freeing (deallocate_action_list_entries (tx_undo b)) ;;
  do _ <- freeing (txc_sentinel_list_destroy (tx_sentinels b)) ;;
  do _ <- freeing (txc_sentinel_list_destroy (tx_preacquire b)) ;;
  in_world (in_buffermgr (txc_buffer_linear_destroy (buffer_linear t)) ;;; txd_upd txd (tx_set_buffer_linear 0)).

Definition destroy_txds (pool_object : option nat) : M td (option nat + unit) :=
  match pool_object with
  | None => m_ret (inr tt)
  | Some i =>
      do txd <- in_world (in_pool_txd (txc_pool_object_of i)) ;;
      destroy_txd txd ;;;
      do n <- in_world (in_pool_txd (txc_pool_object_next i)) ;;
      m_ret (inl n)
  end.

Definition txc_txmgr_destroy (fuel : nat) : M td Z :=
  do pool_object <- in_world (in_pool_txd (txc_pool_object_first (Z.land TXC_POOL_OBJECT_ALLOCATED TXC_POOL_OBJECT_FREE))) ;;
  m_loop fuel destroy_txds pool_object ;;;
  do d <- m_get ;;
  do _ <- freeing (txc_pool_destroy pb (pool_txd (w_txmgr (td_world d)))) ;;
  freeing (FREE txmgr) ;;;
  m_ret TXC_R_SUCCESS.
End txmgr.

(** ** Freeing blocks once *)

(** [m] frees the blocks [l] and returns [a]. *)
Definition frees {A} (l : list Z) (m : M heap A) (a : A) : Prop :=
  forall live, list_to_set l ⊆ live -> m live = Ret a (live ∖ list_to_set l).

Lemma frees_ret {A} (a : A) : frees [] (m_ret a) a.
Proof. intros live _. unfold m_ret. f_equal. set_solver. Qed.

Lemma frees_FREE p : p <> 0 -> frees [p] (FREE p) tt.
Proof.
  intros Hp live Hl. unfold FREE. rewrite bool_decide_eq_false_2 by done. unfold m_bind, m_get.
  rewrite bool_decide_eq_true_2 by set_solver. unfold m_put. f_equal. set_solver.
Qed.

Lemma frees_bind {A B} l1 l2 (m : M heap A) (f : A -> M heap B) a b :
  frees l1 m a -> frees l2 (f a) b -> NoDup (l1 ++ l2) -> frees (l1 ++ l2) (m_bind m f) b.
Proof.
  intros H1 H2 (_ & Hd & _)%NoDup_app live Hl. rewrite list_to_set_app_L in *.
  rewrite (m_bind_run _ _ _ _ _ (H1 live ltac:(set_solver))), H2 by set_solver. f_equal. set_solver.
Qed.

Lemma frees_then {A} p l (m : M heap A) b : p <> 0 -> p ∉ l -> NoDup l -> frees l m b -> frees (p :: l) (FREE p ;;; m) b.
Proof. intros Hp Hn Hd H. apply (frees_bind [p] l _ _ tt); [by apply frees_FREE|done|]. by apply NoDup_cons. Qed.

Lemma from_block_run {A} p (o : option A) a live : p ∈ live -> o = Some a -> from_block p o live = Ret a live.
Proof. intros Hp ->. unfold from_block, m_bind, m_get. by rewrite bool_decide_eq_true_2. Qed.

Definition pool_owns (pb : pool_blocks) (p : txc_pool_t) : list Z := [full_buf p; pb_obj_list pb; pb_pool pb].

Lemma pool_destroy_frees pb p : NoDup (pool_owns pb p) -> 0 ∉ pool_owns pb p -> frees (pool_owns pb p) (txc_pool_destroy pb p) TXC_R_SUCCESS.
Proof.
  intros Hd Hz. unfold txc_pool_destroy, pool_owns in *. rewrite !NoDup_cons in Hd. destruct Hd as (? & ? & ? & ?).
  repeat (apply frees_then; [set_solver|done|by rewrite ?NoDup_cons|]). apply frees_ret.
Qed.

Lemma owned_split (l1 l2 : list Z) (live : heap) :
  list_to_set l1 ∪ list_to_set l2 ⊆ live -> (forall y, y ∈ l1 -> y ∉ l2) ->
  list_to_set l1 ⊆ live /\ list_to_set l2 ⊆ live ∖ list_to_set l1.
Proof. set_solver. Qed.

Lemma owned_diff (l1 l2 : list Z) (live : heap) : live ∖ list_to_set l1 ∖ list_to_set l2 = live ∖ (list_to_set l1 ∪ list_to_set l2).
Proof. set_solver. Qed.

(** *** The table *)

Section table.
Variables (tb : table_blocks) (h : txc_hash_table_t).

Lemma free_chain_frees fuel o xs P :
  dseg (hlk (bheap h)) P o xs -> NoDup (tb_bucket tb <$> xs) -> 0 ∉ tb_bucket tb <$> xs -> (length xs < fuel)%nat ->
  frees (tb_bucket tb <$> xs) (m_loop fuel (free_bucket tb h) o) tt.
Proof.
  revert fuel o P. induction xs as [|x xs IH]; intros fuel o P Hc Hd Hz Hf live Hl; destruct fuel as [|fuel]; simpl in Hf; try lia.
  - simpl in Hc. subst o. rewrite m_loop_S. simpl. unfold m_bind, m_ret. f_equal. set_solver.
  - destruct Hc as (-> & n & q & Hx & _ & Hc). unfold hlk in Hx. apply fmap_Some in Hx as (b & Hb & E). simplify_eq.
    rewrite fmap_cons in *. apply NoDup_cons in Hd as [Hx Hd]. rewrite list_to_set_cons in *.
    rewrite m_loop_S. unfold free_bucket at 1. rewrite m_bind_assoc.
    rewrite (m_bind_run _ _ _ _ _ (from_block_run (tb_bucket tb x) _ _ live ltac:(set_solver) Hb)). rewrite m_bind_assoc.
    rewrite (m_bind_run _ _ _ _ _ (frees_FREE (tb_bucket tb x) ltac:(set_solver) live ltac:(set_solver))).
    unfold m_bind at 1, m_ret at 1. rewrite (IH fuel _ _ Hc Hd ltac:(set_solver) ltac:(lia)) by set_solver. f_equal. set_solver.
Qed.

(** The blocks of bucket list [i], and of the table. *)
Definition list_owns (hs fs : nat -> list nat) (i : nat) : list Z := tb_bucket tb <$> hs i ++ fs i.
Definition lists_own (hs fs : nat -> list nat) (l : list nat) : list Z := l ≫= list_owns hs fs.
Definition table_owns (hs fs : nat -> list nat) : list Z :=
  lists_own hs fs (seq 0 (Z.to_nat (tbl_size h))) ++ [tb_tbl tb; tb_table tb].

Lemma free_list_frees held hs fs i :
  ht_inv h held hs fs -> (i < Z.to_nat (tbl_size h))%nat -> NoDup (list_owns hs fs i) -> 0 ∉ list_owns hs fs i ->
  frees (list_owns hs fs i) (free_list tb h i) tt.
Proof.
  intros Hi Hlt Hd Hz. pose proof (hi_len _ _ _ _ Hi). destruct (lookup_lt_is_Some_2 (tbl h) i ltac:(lia)) as [l Hl].
  unfold free_list, free_chain, list_owns in *. rewrite Hl, fmap_app in *. pose proof Hd as (Hd1 & _ & Hd2)%NoDup_app.
  pose proof (hi_nodup _ _ _ _ Hi i) as (Hn1 & _ & Hn2)%NoDup_app.
  pose proof (hi_head _ _ _ _ Hi i l Hl) as Hc1. pose proof (hi_free _ _ _ _ Hi i l Hl) as Hc2.
  pose proof (chain_fuel _ _ _ Hc1 Hn1). pose proof (chain_fuel _ _ _ Hc2 Hn2).
  apply (frees_bind _ _ _ _ tt); [eapply free_chain_frees|eapply free_chain_frees|done]; try done; try set_solver; lia.
Qed.

Lemma free_lists_frees held hs fs l :
  ht_inv h held hs fs -> Forall (fun i => (i < Z.to_nat (tbl_size h))%nat) l -> NoDup (lists_own hs fs l) -> 0 ∉ lists_own hs fs l ->
  frees (lists_own hs fs l) (m_iter (free_list tb h) l) tt.
Proof.
  intros Hi Hl. unfold lists_own. induction Hl as [|i l Hlt Hl IH]; intros Hd Hz; simpl; [apply frees_ret|]. rewrite bind_cons in *.
  pose proof Hd as (Hd1 & _ & Hd2)%NoDup_app.
  apply (frees_bind _ _ _ _ tt); [eapply free_list_frees; [done..|set_solver]|apply IH; [done|set_solver]|done].
Qed.
End table.

(** [txc_hash_table_destroy] frees the table, its array and every bucket of its chains, in
    use or free, once each, and nothing else: it reads a bucket's successor before it frees
    the bucket. *)
Theorem hash_table_destroyed tb h held hs fs live :
  ht_inv h held hs fs ->
  (forall i j x y, x ∈ hs i ++ fs i -> y ∈ hs j ++ fs j -> tb_bucket tb x = tb_bucket tb y -> x = y) ->
  (forall i x, x ∈ hs i ++ fs i -> tb_bucket tb x ∉ [0; tb_tbl tb; tb_table tb]) ->
  NoDup [0; tb_tbl tb; tb_table tb] -> list_to_set (table_owns tb h hs fs) ⊆ live ->
  txc_hash_table_destroy tb (Some h) live = Ret TXC_R_SUCCESS (live ∖ list_to_set (table_owns tb h hs fs)).
Proof.
  intros Hi Hinj Hne Hd Hl. set (l := lists_own tb hs fs (seq 0 (Z.to_nat (tbl_size h)))).
  assert (forall y, y ∈ l -> exists i x, x ∈ hs i ++ fs i /\ y = tb_bucket tb x) as Hmem.
  { intros y (i & (x & -> & Hx)%list_elem_of_fmap & _)%list_elem_of_bind. by exists i, x. }
  assert (0 ∉ l) as Hz by (intros (i & x & Hx & E)%Hmem; apply (Hne i x Hx); rewrite <- E; set_solver).
  assert (NoDup l) as Hnd.
  { apply NoDup_bind.
    - intros i j y _ _ (x & -> & Hx)%list_elem_of_fmap (x' & E & Hx')%list_elem_of_fmap.
      apply (Hinj i j x x' Hx Hx') in E as <-. by apply (hi_disj _ _ _ _ Hi i j x).
    - intros i _. apply NoDup_fmap_2_strong; [|apply (hi_nodup _ _ _ _ Hi)]. intros x y Hx Hy. by apply (Hinj i i).
    - apply NoDup_seq. }
  rewrite !NoDup_cons in Hd. destruct Hd as (H1 & H2 & H3 & H4).
  apply (frees_bind l [tb_tbl tb; tb_table tb] _ _ tt); [|apply frees_then; [set_solver|set_solver|by rewrite NoDup_cons|apply frees_then; [set_solver|set_solver|done|apply frees_ret]]| |done].
  - eapply free_lists_frees; try done. apply Forall_forall. intros i Hin%elem_of_seq. lia.
  - apply NoDup_app. split_and!; [done| |by rewrite !NoDup_cons]. intros y (i & x & Hx & ->)%Hmem Hy. apply (Hne i x Hx). set_solver.
Qed.

(** ** The transaction manager *)

Section txmgr_destroyed.
Context {PF : Platform}.
Variable blocks : Z -> txd_blocks.

(** What is freed of a descriptor; the headers of its two action lists are not. *)
Definition txd_frees (txd : Z) : list Z :=
  let b := blocks txd in
  [lb_entries (tx_commit b); lb_entries (tx_undo b); lb_entries (tx_sentinels b); lb_list (tx_sentinels b);
   lb_entries (tx_preacquire b); lb_list (tx_preacquire b)].

Lemma freeing_run {A} l (m : M heap A) a live w :
  frees l m a -> list_to_set l ⊆ live -> freeing m (Td live w) = Ret a (Td (live ∖ list_to_set l) w).
Proof. intros H Hl. unfold freeing, m_zoom. simpl. by rewrite H. Qed.

Lemma in_world_run {A} (m : M world A) a live w w' : m w = Ret a w' -> in_world m (Td live w) = Ret a (Td live w').
Proof. intros H. unfold in_world, m_zoom. simpl. by rewrite H. Qed.

Lemma entries_frees la : lb_entries la <> 0 -> frees [lb_entries la] (deallocate_action_list_entries la) TXC_R_SUCCESS.
Proof. intros Hz. apply (frees_then _ [] (m_ret _)); [done|set_solver|constructor|apply frees_ret]. Qed.

Lemma sentinel_list_frees sl : lb_entries sl <> 0 -> lb_list sl <> 0 -> lb_entries sl <> lb_list sl ->
  frees [lb_entries sl; lb_list sl] (txc_sentinel_list_destroy sl) TXC_R_SUCCESS.
Proof.
  intros H1 H2 H3. unfold txc_sentinel_list_destroy. apply (frees_bind [_] [_] _ _ TXC_R_SUCCESS).
  - apply (frees_then _ [] (m_ret _)); [done|set_solver|constructor|apply frees_ret].
  - rewrite bool_decide_eq_false_2 by (intros X; by apply X). apply (frees_then _ [] (m_ret _)); [done|set_solver|constructor|apply frees_ret].
  - apply NoDup_cons. split; [set_solver|]. apply NoDup_singleton.
Qed.

(** The linear buffers in use: those of the descriptors not yet visited are among them. *)
Definition buffers_held (w : world) (txds_left : list Z) : Prop :=
  exists fr al (js : list nat), pool_rep (pool_buffer_linear (w_buffermgr w)) fr al /\ NoDup js /\ js ⊆ al /\
    Forall2 (fun txd j => exists t, txds (w_txmgr w) !! txd = Some t /\
      buffer_linear t = obj_addr (pool_buffer_linear (w_buffermgr w)) j) txds_left js.

Lemma freeing_bind {A B} l1 l2 (m : M heap A) (f : A -> M td B) a r live w :
  frees l1 m a -> NoDup (l1 ++ l2) -> list_to_set (l1 ++ l2) ⊆ live ->
  (forall live', live' = live ∖ list_to_set l1 -> list_to_set l2 ⊆ live' -> f a (Td live' w) = r) ->
  m_bind (freeing m) f (Td live w) = r.
Proof.
  intros H (_ & Hd & _)%NoDup_app Hl Hf. rewrite list_to_set_app_L in Hl.
  rewrite (m_bind_run _ _ _ _ _ (freeing_run l1 m a live w H ltac:(set_solver))). apply Hf; [done|set_solver].
Qed.

Lemma Forall2_elem_l {A B} (P : A -> B -> Prop) l k : Forall2 P l k -> Forall2 (fun x y => x ∈ l /\ P x y) l k.
Proof.
  induction 1 as [|x y l k H _ IH]; constructor; [by split; [apply list_elem_of_here|]|].
  eapply Forall2_impl; [exact IH|]. intros a b [Ha Hb]. split; [by apply list_elem_of_further|done].
Qed.

(** The linear buffer goes back to its pool. *)
Lemma release_buffer txd l w :
  buffers_held w (txd :: l) -> NoDup (txd :: l) ->
  exists t w', txds (w_txmgr w) !! txd = Some t /\
    (in_buffermgr (txc_buffer_linear_destroy (buffer_linear t)) ;;; txd_upd txd (tx_set_buffer_linear 0)) w = Ret tt w' /\
    pool_txd (w_txmgr w') = pool_txd (w_txmgr w) /\ buffers_held w' l.
Proof.
  intros (fr & al & js & Hp & Hnd & Hsub & Hf) Hl. apply NoDup_cons in Hl as [Hnl Hl].
  apply Forall2_cons_inv_l in Hf as (j & js' & (t & Ht & Hb) & Hf & ->). apply NoDup_cons in Hnd as [Hj Hnd].
  assert (j ∈ al) as (al1 & al2 & ->)%list_elem_of_split by (apply Hsub; set_solver).
  destruct (txc_pool_object_free_spec _ _ _ _ _ true Hp) as (p' & E & Hp' & Ha). exists t. eexists. split; [done|]. split; [|shelve].
  rewrite Hb. unfold in_buffermgr, txc_buffer_linear_destroy, in_pool_linear, m_zoom, m_bind at 1. rewrite E.
  apply txd_upd_run. exact Ht.
  Unshelve. split; [done|]. exists (j :: fr), (al1 ++ al2), js'. simpl. split_and!; [done|done| |].
  - intros k Hk. assert (k ∈ al1 ++ j :: al2) by (apply Hsub; set_solver). set_unfold. naive_solver.
  - eapply Forall2_impl; [by apply Forall2_elem_l|]. intros u k (Hu & t' & Ht' & Hb'). exists t'. split; [|by rewrite Ha].
    rewrite lookup_insert_ne; [done|]. by intros ->.
Qed.

Lemma destroy_txd_run txd l live w :
  buffers_held w (txd :: l) -> NoDup (txd :: l) -> NoDup (txd_frees txd) -> 0 ∉ txd_frees txd -> list_to_set (txd_frees txd) ⊆ live ->
  exists w', destroy_txd blocks txd (Td live w) = Ret tt (Td (live ∖ list_to_set (txd_frees txd)) w') /\
    pool_txd (w_txmgr w') = pool_txd (w_txmgr w) /\ buffers_held w' l.
Proof.
  intros Hb Hl Hd Hz Hs. destruct (release_buffer txd l w Hb Hl) as (t & w' & Ht & E & Hp & Hb').
  exists w'. split; [|done]. unfold destroy_txd, txd_frees in *. set (b := blocks txd) in *.
  rewrite (m_bind_run _ _ _ _ _ (in_world_run _ t live w w (txd_get_run _ _ _ Ht))).
  pose proof Hd as Hd'. rewrite !NoDup_cons in Hd'. destruct Hd' as (N1 & N2 & N3 & N4 & N5 & N6 & _).
  eapply (freeing_bind [_]); [apply entries_frees; set_solver|exact Hd|exact Hs|]. intros l1 E1 Hs1. apply NoDup_cons in Hd as [_ Hd].
  eapply (freeing_bind [_]); [apply entries_frees; set_solver|exact Hd|exact Hs1|]. intros l2 E2 Hs2. apply NoDup_cons in Hd as [_ Hd].
  eapply (freeing_bind [_; _]); [apply sentinel_list_frees; set_solver|exact Hd|exact Hs2|]. intros l3 E3 Hs3.
  do 2 apply NoDup_cons in Hd as [_ Hd].
  eapply (freeing_bind [_; _] []); [apply sentinel_list_frees; set_solver|exact Hd|exact Hs3|]. intros l4 E4 _.
  rewrite (in_world_run _ tt l4 w w' E). f_equal. f_equal. subst. set_solver.
Qed.

Lemma destroy_txds_run p xs fuel P o live w :
  pool_txd (w_txmgr w) = p -> (forall i o', obj_list p !! i = Some o' -> po_buf o' = obj_addr p i) -> dseg (lk p) P o xs ->
  buffers_held w (obj_addr p <$> xs) -> NoDup (obj_addr p <$> xs) ->
  NoDup ((obj_addr p <$> xs) ≫= txd_frees) -> 0 ∉ (obj_addr p <$> xs) ≫= txd_frees ->
  list_to_set ((obj_addr p <$> xs) ≫= txd_frees) ⊆ live -> (length xs < fuel)%nat ->
  exists w', m_loop fuel (destroy_txds blocks) o (Td live w) =
    Ret tt (Td (live ∖ list_to_set ((obj_addr p <$> xs) ≫= txd_frees)) w') /\ pool_txd (w_txmgr w') = p.
Proof.
  intros Hp Hbuf. revert fuel P o live w Hp. induction xs as [|x xs IH]; intros fuel P o live w Hp Hc Hb Hn Hd Hz Hs Hf;
    destruct fuel as [|fuel]; simpl in Hf; try lia; rewrite m_loop_S.
  - simpl in Hc. subst o. exists w. split; [|done]. simpl. unfold m_bind, m_ret. do 2 f_equal. set_solver.
  - destruct Hc as (-> & n & q & Hx & _ & Hc). unfold lk in Hx. apply fmap_Some in Hx as (ob & Ho & E). injection E as -> ->.
    rewrite fmap_cons, bind_cons in *. rewrite list_to_set_app_L in *. pose proof Hd as (Hd1 & Hd2 & Hd3)%NoDup_app.
    rewrite elem_of_app in Hz. apply Decidable.not_or in Hz as [Hz1 Hz2]. destruct (owned_split _ _ _ Hs Hd2) as [Hs1 Hs2].
    destruct (destroy_txd_run (obj_addr p x) (obj_addr p <$> xs) live w Hb Hn Hd1 Hz1 Hs1) as (w1 & E1 & Hp1 & Hb1).
    assert (forall w2, pool_txd (w_txmgr w2) = p -> in_pool_txd (txc_pool_object_of x) w2 = Ret (obj_addr p x) w2 /\
      in_pool_txd (txc_pool_object_next x) w2 = Ret (po_next ob) w2) as Hrun.
    { intros w2 H2. unfold in_pool_txd, m_zoom, txc_pool_object_of, txc_pool_object_next. rewrite H2.
      rewrite !(m_bind_run _ _ _ _ _ (obj_get_run p x ob Ho)). unfold m_ret. rewrite (Hbuf _ _ Ho).
      assert (set_txmgr (set_pool_txd p (w_txmgr w2)) w2 = w2) as -> by (rewrite <- H2; by destruct w2 as [? ? [] ? ? ? ? ?]). done. }
    unfold destroy_txds at 1. rewrite m_bind_assoc. rewrite (m_bind_run _ _ _ _ _ (in_world_run _ _ live w w (proj1 (Hrun w Hp)))).
    rewrite m_bind_assoc, (m_bind_run _ _ _ _ _ E1). rewrite m_bind_assoc.
    rewrite (m_bind_run _ _ _ _ _ (in_world_run _ _ _ w1 w1 (proj2 (Hrun w1 (eq_trans Hp1 Hp))))). unfold m_bind at 1, m_ret at 1.
    apply NoDup_cons in Hn as [_ Hn].
    destruct (IH fuel _ _ (live ∖ list_to_set (txd_frees (obj_addr p x))) w1 (eq_trans Hp1 Hp) Hc Hb1 Hn Hd3 Hz2 Hs2 ltac:(lia))
      as (w2 & E2 & Hp2).
    exists w2. split; [|done]. by rewrite E2, owned_diff.
Qed.

(** [txc_txmgr_destroy] visits the descriptors behind the first one on its list, frees
    what [txd_frees] names of each, once, then the pool and the manager, and nothing else:
    the headers of the action lists of every descriptor stay allocated, and, since the pool
    is visited from its first object on, everything of the descriptors that come before it
    or are on the other list. *)
Theorem txmgr_destroyed txmgr pb fr al xs fuel live w :
  let p := pool_txd (w_txmgr w) in
  let owned := ((obj_addr p <$> 0%nat :: xs) ≫= txd_frees) ++ pool_owns pb p ++ [txmgr] in
  pool_rep p fr al -> (exists l, fr = l ++ 0%nat :: xs \/ al = l ++ 0%nat :: xs) ->
  buffers_held w (obj_addr p <$> 0%nat :: xs) -> NoDup owned -> 0 ∉ owned -> list_to_set owned ⊆ live ->
  (length (obj_list p) < fuel)%nat ->
  exists w', txc_txmgr_destroy txmgr pb blocks fuel (Td live w) = Ret TXC_R_SUCCESS (Td (live ∖ list_to_set owned) w').
Proof.
  intros p owned Hp Hl Hb Hd Hz Hs Hf. pose proof (rep_nodup _ _ _ Hp) as Hnd. pose proof (rep_length _ _ _ Hp) as Hlen.
  assert (dseg (lk p) (fun _ => True) (Some 0%nat) (0%nat :: xs) /\ 0%nat :: xs ⊆ fr ++ al /\ NoDup (0%nat :: xs) /\
    (length (0%nat :: xs) <= length (obj_list p))%nat) as (Hc & Hsub & Hn & Hle).
  { apply NoDup_app in Hnd as (Hn1 & _ & Hn2). destruct Hl as [l [-> | ->]].
    - split_and!; [eapply dseg_suffix, (rep_free _ _ _ Hp)|set_solver|by apply NoDup_app in Hn1 as (_ & _ & ?)|]. rewrite !length_app in Hlen. lia.
    - split_and!; [eapply dseg_suffix, (rep_alloc _ _ _ Hp)|set_solver|by apply NoDup_app in Hn2 as (_ & _ & ?)|]. rewrite !length_app in Hlen. lia. }
  assert (NoDup (obj_addr p <$> 0%nat :: xs)) as Hna.
  { apply NoDup_fmap_2_strong; [|done]. intros i j Hi Hj. by apply (obj_addr_inj _ _ _ _ _ Hp); apply Hsub. }
  unfold owned in *. rewrite list_to_set_app_L in *. pose proof Hd as (Hd1 & Hd2 & Hd3)%NoDup_app.
  set (l1 := (obj_addr p <$> 0%nat :: xs) ≫= txd_frees) in *. set (l2 := pool_owns pb p ++ [txmgr]) in *.
  rewrite elem_of_app in Hz. apply Decidable.not_or in Hz as [Hz1 Hz2]. destruct (owned_split _ _ _ Hs Hd2) as [Hs1 Hs2].
  destruct (destroy_txds_run p (0%nat :: xs) fuel _ _ live w eq_refl (rep_buf _ _ _ Hp) Hc Hb Hna Hd1 Hz1 Hs1 ltac:(lia))
    as (w1 & E1 & Hp1). exists w1. fold l1 in E1.
  unfold txc_txmgr_destroy. erewrite m_bind_run.
  2: { apply in_world_run. unfold in_pool_txd, m_zoom, txc_pool_object_first, m_bind, m_get. simpl.
       assert (set_txmgr (set_pool_txd (pool_txd (w_txmgr w)) (w_txmgr w)) w = w) as -> by (by destruct w as [? ? [] ? ? ? ? ?]). reflexivity. }
  rewrite (m_bind_run _ _ _ _ _ E1). rewrite (m_bind_run m_get _ _ _ _ eq_refl). simpl td_world. rewrite Hp1. rewrite <- owned_diff.
  generalize dependent (live ∖ list_to_set l1). intros live1 Hs2 _. clear - blocks Hd3 Hz2 Hs2. unfold l2 in *.
  eapply (freeing_bind (pool_owns pb p)); [apply pool_destroy_frees; [by apply NoDup_app in Hd3 as (? & _)|set_solver]|exact Hd3|exact Hs2|].
  intros l3 -> Hs3. eapply (freeing_bind [txmgr] []); [apply frees_FREE; set_solver|apply NoDup_singleton|by rewrite app_nil_r|].
  intros l4 -> _. unfold m_ret. by rewrite list_to_set_app_L, owned_diff.
Qed.
End txmgr_destroyed.
